(** * A shallow embedding of [src/app.js]

    The white-label course platform keeps its whole state in process
    memory ([db] and four index objects) and exposes synchronous
    operations that either return a value or throw [new Error(TAG)].

    The embedding follows the source function by function:
    - JS numbers are IEEE-754 binary64 values ([PrimFloat.float]);
    - JS strings are [string]s, read as byte sequences; [trim] and the
      case mappings act on the ASCII range, bytes above 127 are kept, and
      lengths and the order of [sort] are those of the bytes: on ASCII
      strings ([asciiOnly]) they are the JavaScript methods, and a
      statement that says what the code makes of a string it trims or
      maps to one case is made for ASCII strings;
    - a JS [Map] that the code only reads by key is a [gmap]; [db.domains],
      which the code scans with [Array.from(values()).find], is an
      insertion-ordered association list;
    - [throw] is the [Throw] outcome of a state-and-exception monad: the
      store reached at the point of the throw is kept, as in JS;
    - [crypto.randomBytes], [crypto.createHmac], the clock and the [Date]
      parser are fields of a [Runtime] record, so every operation is a
      function of the runtime and of the store. *)

From Stdlib Require Import Floats ZArith Ascii String List Bool Lia.
From stdpp Require Import base option gmap strings pretty list fin_maps.

Set Warnings "-inexact-float".
Local Open Scope string_scope.

(** ** Strings *)

Module Str.

  (** The characters [String.prototype.trim] strips, within ASCII:
      TAB, LF, VT, FF, CR and SPACE. *)
Definition is_ws (c : ascii) : bool :=
    let n := nat_of_ascii c in
    (Nat.leb 9 n && Nat.leb n 13) || Nat.eqb n 32.

Fixpoint trimStart (s : string) : string :=
    match s with
    | String c r => if is_ws c then trimStart r else s
    | EmptyString => EmptyString
    end.

Fixpoint trimEnd (s : string) : string :=
    match s with
    | String c r =>
        match trimEnd r with
        | EmptyString => if is_ws c then EmptyString else String c EmptyString
        | r' => String c r'
        end
    | EmptyString => EmptyString
    end.

  (** [s.trim()] on the ASCII range: U+00A0, U+FEFF and the other white
      space above 127, which the method strips too, are kept. *)
Definition trim (s : string) : string := trimEnd (trimStart s).

Definition is_upper (c : ascii) : bool :=
    let n := nat_of_ascii c in Nat.leb 65 n && Nat.leb n 90.
Definition is_lower (c : ascii) : bool :=
    let n := nat_of_ascii c in Nat.leb 97 n && Nat.leb n 122.
Definition is_digit (c : ascii) : bool :=
    let n := nat_of_ascii c in Nat.leb 48 n && Nat.leb n 57.

Definition lower_char (c : ascii) : ascii :=
    if is_upper c then ascii_of_nat (nat_of_ascii c + 32) else c.
Definition upper_char (c : ascii) : ascii :=
    if is_lower c then ascii_of_nat (nat_of_ascii c - 32) else c.

Fixpoint map (f : ascii -> ascii) (s : string) : string :=
    match s with
    | String c r => String (f c) (map f r)
    | EmptyString => EmptyString
    end.

  (** [s.toLowerCase()] and [s.toUpperCase()] on the ASCII range: A-Z
      and a-z are mapped, every other byte is kept, where the methods
      also map the letters above 127. *)
Definition toLowerCase : string -> string := map lower_char.
Definition toUpperCase : string -> string := map upper_char.

Fixpoint all (p : ascii -> bool) (s : string) : bool :=
    match s with
    | String c r => p c && all p r
    | EmptyString => true
    end.

Definition eqb (a b : string) : bool := bool_decide (a = b).

  (** [!s] on a JS string. *)
Definition empty (s : string) : bool :=
    match s with EmptyString => true | _ => false end.

Fixpoint startsWith (p s : string) : bool :=
    match p, s with
    | EmptyString, _ => true
    | String a p', String b s' => bool_decide (a = b) && startsWith p' s'
    | String _ _, EmptyString => false
    end.

Fixpoint includes (sub s : string) : bool :=
    startsWith sub s ||
    match s with
    | String _ r => includes sub r
    | EmptyString => false
    end.

Fixpoint drop (n : nat) (s : string) : string :=
    match n, s with
    | S k, String _ r => drop k r
    | _, _ => s
    end.

Definition endsWith (suffix s : string) : bool :=
    Nat.leb (String.length suffix) (String.length s) &&
    eqb (drop (String.length s - String.length suffix) s) suffix.

  (** [s.replace(/\.$/, "")]: one final dot is removed. *)
Fixpoint stripFinalDot (s : string) : string :=
    match s with
    | String c EmptyString => if bool_decide (c = "."%char) then EmptyString else s
    | String c r => String c (stripFinalDot r)
    | EmptyString => EmptyString
    end.

  (** [s.replace(/^https?:\/\//, "")]. *)
Definition stripScheme (s : string) : string :=
    if startsWith "http://" s then drop 7 s
    else if startsWith "https://" s then drop 8 s
    else s.

  (** [s.split(sep)[0]] for a one-character separator. *)
Fixpoint beforeChar (sep : ascii) (s : string) : string :=
    match s with
    | String c r => if bool_decide (c = sep) then EmptyString else String c (beforeChar sep r)
    | EmptyString => EmptyString
    end.

Fixpoint concat (l : list string) : string :=
    match l with
    | nil => EmptyString
    | x :: r => x +:+ concat r
    end.

  (** [l.join(sep)]. *)
Fixpoint join (sep : string) (l : list string) : string :=
    match l with
    | nil => EmptyString
    | x :: nil => x
    | x :: r => x +:+ sep +:+ join sep r
    end.

Definition hexDigit (n : N) : ascii :=
    match n with
    | 0 => "0" | 1 => "1" | 2 => "2" | 3 => "3" | 4 => "4" | 5 => "5"
    | 6 => "6" | 7 => "7" | 8 => "8" | 9 => "9" | 10 => "a" | 11 => "b"
    | 12 => "c" | 13 => "d" | 14 => "e" | _ => "f"
    end%N%char.

  (** [Buffer.prototype.toString("hex")]. *)
Fixpoint hex (bs : list Byte.byte) : string :=
    match bs with
    | nil => EmptyString
    | b :: r =>
        let n := Byte.to_N b in
        String (hexDigit (N.div n 16)) (String (hexDigit (N.modulo n 16)) (hex r))
    end.

  (** Decimal rendering of a natural number, as [String(n)] gives it. *)
Definition ofNat (n : nat) : string := pretty n.

End Str.

(** ** Numbers *)

Module Num.

Definition two52 : float := 4503599627370496%float.

  (** [Math.floor] on binary64.  Below 2^52 in magnitude, adding and then
      subtracting 2^52 rounds to an integer; one comparison repairs the
      direction.  From 2^52 on every finite double is integral. *)
Definition floor (x : float) : float :=
    let a := PrimFloat.abs x in
    if PrimFloat.ltb a two52 then
      let r := ((a + two52) - two52)%float in
      let d := if PrimFloat.ltb a r then (r - 1)%float else r in
      if PrimFloat.ltb x 0%float
      then (if PrimFloat.ltb d a then PrimFloat.opp (d + 1) else PrimFloat.opp d)%float
      else d
    else x.

  (** [Math.round] (ECMA-262 21.3.2.28): non-finite and integral arguments
      are returned, the open interval (0, 0.5) gives +0, [-0.5, 0) gives -0,
      and otherwise the closest integer, ties towards +infinity. *)
Definition round (x : float) : float :=
    if negb (PrimFloat.is_finite x) then x
    else
      let f := floor x in
      if PrimFloat.eqb f x then x
      else if PrimFloat.ltb 0%float x && PrimFloat.ltb x 0.5%float then 0%float
      else if PrimFloat.ltb x 0%float && PrimFloat.leb (-0.5)%float x then PrimFloat.neg_zero
      else if PrimFloat.leb 0.5%float (x - f)%float then (f + 1)%float else f.

  (** [Number.isFinite]. *)
Definition isFinite (x : float) : bool := PrimFloat.is_finite x.

End Num.

(** ** Outcomes of a call: a value or a thrown [Error] with its message *)

Inductive Result (A : Type) : Type :=
| Ok (a : A)
| Throw (message : string).
Arguments Ok {A} a.
Arguments Throw {A} message.

(** ** The host runtime

    What the code takes from Node and from the machine: the bytes of the
    [n]-th call of [crypto.randomBytes], the time value (milliseconds since
    the epoch) of the [n]-th clock reading, [Date.prototype.toISOString],
    the time value [new Date(string)] parses to ([None] is an invalid date)
    and the raw HMAC-SHA256 digest of a message under a key. *)
Record Runtime : Type := {
  entropy : nat -> nat -> Byte.byte;
  clock : nat -> Z;
  toISOString : Z -> string;
  Date_parse : string -> option Z;
  hmac_digest : string -> string -> list Byte.byte
}.

(** ** Pricing *)

Record Promo : Type := {
  promo_type : string;
  promo_value : float;
  promo_untilIso : string
}.

Record Pricing : Type := {
  price : float;
  currency : string;
  promo : option Promo
}.

(** The [promo] argument of [createCourseAI]/[createCourseImport]: [type]
    and [untilIso] as strings (the empty string for a missing property),
    [value] as a number. *)
Record PromoInput : Type := {
  pi_type : string;
  pi_value : float;
  pi_untilIso : string
}.

Definition round2 (n : float) : float :=
  (Num.round (n * 100) / 100)%float.

Definition normalizePromo (p : PromoInput) (basePrice : float) : Result Promo :=
  let type := Str.toUpperCase (Str.trim (pi_type p)) in
  let value := pi_value p in
  let untilIso := Str.trim (pi_untilIso p) in
  if negb (Str.eqb type "PERCENT" || Str.eqb type "FIXED") then Throw "PROMO_TYPE_INVALID"
  else if negb (Num.isFinite value) || PrimFloat.leb value 0%float then Throw "PROMO_VALUE_INVALID"
  else if Str.empty untilIso then Throw "PROMO_UNTIL_REQUIRED"
  else if Str.eqb type "PERCENT" && PrimFloat.leb 100%float value then Throw "PROMO_PERCENT_INVALID"
  else if Str.eqb type "FIXED" && PrimFloat.leb basePrice value then Throw "PROMO_FIXED_INVALID"
  else Ok {| promo_type := type; promo_value := round2 value; promo_untilIso := untilIso |}.

(** [normalizePricing]; [cur.length] is the length in bytes, the
    JavaScript length of an ASCII currency code. *)
Definition normalizePricing (p : float) (cur0 : string) (pr : option PromoInput)
  : Result Pricing :=
  if negb (Num.isFinite p) || PrimFloat.leb p 0%float then Throw "COURSE_PRICE_INVALID"
  else
    let cur := Str.toUpperCase (Str.trim cur0) in
    if Str.empty cur || negb (Nat.eqb (String.length cur) 3) then Throw "COURSE_CURRENCY_INVALID"
    else
      let base := round2 p in
      match pr with
      | None => Ok {| price := base; currency := cur; promo := None |}
      | Some pin =>
          match normalizePromo pin base with
          | Ok q => Ok {| price := base; currency := cur; promo := Some q |}
          | Throw e => Throw e
          end
      end.

(** [getEffectivePrice(pricing, now)]; [now] is the time value of the date
    passed in.  The function reads nothing but its arguments and throws
    nowhere. *)
Definition getEffectivePrice (rt : Runtime) (pricing : Pricing) (now : Z) : float :=
  match promo pricing with
  | None => price pricing
  | Some pr =>
      match Date_parse rt (promo_untilIso pr) with
      | None => price pricing
      | Some until =>
          if Z.ltb until now then price pricing
          else if Str.eqb (promo_type pr) "PERCENT"
          then round2 (price pricing * (1 - promo_value pr / 100))%float
          else if Str.eqb (promo_type pr) "FIXED"
          then round2 (price pricing - promo_value pr)%float
          else price pricing
      end
  end.

(** ** Objects with string-valued properties

    The webhook payload and the audit payloads are flat objects whose
    property values are strings; properties are kept in insertion order
    and property names are distinct. *)

Definition JsObject : Type := list (string * string).

Module Obj.

Fixpoint get (k : string) (o : JsObject) : option string :=
  match o with
  | nil => None
  | (k', v) :: r => if Str.eqb k' k then Some v else get k r
  end.

(** [String(o?.k || "")] for an object that may be [null] or [undefined]. *)
Definition prop (k : string) (o : option JsObject) : string :=
  match o with
  | Some obj => default "" (get k obj)
  | None => ""
  end.

Definition keys (o : JsObject) : list string := List.map fst o.

End Obj.

(** ** JSON text *)

Module JSON.

Definition hex4 (n : N) : string :=
  String "0" (String "0" (String (Str.hexDigit (N.div n 16)) (String (Str.hexDigit (N.modulo n 16)) ""))).

(** The escape of one character inside a JSON string literal. *)
Definition escape (c : ascii) : string :=
  let n := N_of_ascii c in
  if N.eqb n 34 then String "\" (String (ascii_of_nat 34) "")
  else if N.eqb n 92 then "\\"
  else if N.eqb n 8 then "\b"
  else if N.eqb n 9 then "\t"
  else if N.eqb n 10 then "\n"
  else if N.eqb n 12 then "\f"
  else if N.eqb n 13 then "\r"
  else if N.ltb n 32 then "\u" +:+ hex4 n
  else String c "".

Fixpoint escapeAll (s : string) : string :=
  match s with
  | String c r => escape c +:+ escapeAll r
  | EmptyString => EmptyString
  end.

(** [JSON.stringify(s)] for a string [s]. *)
Definition quote (s : string) : string :=
  String (ascii_of_nat 34) (escapeAll s) +:+ String (ascii_of_nat 34) "".

End JSON.

(** [Array.prototype.sort()] on strings: ascending by byte, which is the
    order of the UTF-16 code units for ASCII strings. *)
Fixpoint insertSorted (k : string) (l : list string) : list string :=
  match l with
  | nil => k :: nil
  | x :: r => if String.leb k x then k :: l else x :: insertSorted k r
  end.

Definition sortStrings (l : list string) : list string :=
  fold_right insertSorted nil l.

Definition stableStringifyObject (o : JsObject) : string :=
  "{" +:+
  Str.join ","
    (List.map (fun k => JSON.quote k +:+ ":" +:+ JSON.quote (default "" (Obj.get k o)))
              (sortStrings (Obj.keys o)))
  +:+ "}".

(** [stableStringify(obj)]; [None] is [null]. *)
Definition stableStringify (o : option JsObject) : string :=
  match o with
  | None => "null"
  | Some obj => stableStringifyObject obj
  end.

(** [JSON.parse(stableStringify(obj))]: the same properties, in sorted
    key order. *)
Definition canonicalCopy (o : option JsObject) : option JsObject :=
  match o with
  | None => None
  | Some obj =>
      Some (List.map (fun k => (k, default "" (Obj.get k obj))) (sortStrings (Obj.keys obj)))
  end.

(** [encodeURIComponent]: the unreserved characters stay, every other
    byte becomes a percent escape. *)
Definition uriUnreserved (c : ascii) : bool :=
  Str.is_upper c || Str.is_lower c || Str.is_digit c ||
  Str.includes (String c "") "-_.!~*'()".

Definition upperHexDigit (n : N) : ascii := Str.upper_char (Str.hexDigit n).

Fixpoint encodeURIComponent (s : string) : string :=
  match s with
  | String c r =>
      (if uriUnreserved c then String c ""
       else
         let n := N_of_ascii c in
         String "%" (String (upperHexDigit (N.div n 16)) (String (upperHexDigit (N.modulo n 16)) "")))
      +:+ encodeURIComponent r
  | EmptyString => EmptyString
  end.

(** ** JS [Map] with observable insertion order *)

Module JsMap.

Definition t (V : Type) : Type := list (string * V).

Definition empty {V} : t V := nil.

Fixpoint get {V} (k : string) (m : t V) : option V :=
  match m with
  | nil => None
  | (k', v) :: r => if Str.eqb k' k then Some v else get k r
  end.

(** [m.set(k, v)]: an existing key keeps its position. *)
Fixpoint set {V} (k : string) (v : V) (m : t V) : t V :=
  match m with
  | nil => (k, v) :: nil
  | (k', v') :: r => if Str.eqb k' k then (k', v) :: r else (k', v') :: set k v r
  end.

Definition values {V} (m : t V) : list V := List.map snd m.

Definition keys {V} (m : t V) : list string := List.map fst m.

End JsMap.

(** [s.add(x)] on a JS [Set], kept as the list of its members in
    insertion order. *)
Definition setAdd (x : string) (s : list string) : list string :=
  if bool_decide (x ∈ s) then s else s ++ x :: nil.

(** ** Platform config *)

Definition baseDomain : string := "platform.local".
Definition demoCheckoutBaseUrl : string := "https://checkout.demo.local".

(** ** Data model *)

Inductive SchoolStatus : Type := ACTIVE | SUSPENDED.

Record School : Type := {
  school_id : string;
  school_name : string;
  school_slug : string;
  school_status : SchoolStatus;
  school_createdAt : string;
  school_updatedAt : string
}.

Inductive DomainType : Type := subdomain | custom.

Record DomainConfig : Type := {
  dom_id : string;
  dom_schoolId : string;
  dom_type : DomainType;
  dom_domain : string;
  dom_verified : bool;
  dom_verificationToken : option string;
  dom_createdAt : string;
  dom_verifiedAt : option string
}.

Record Branding : Type := {
  br_schoolId : string;
  br_publicName : string;
  br_primaryColor : string;
  br_secondaryColor : string;
  br_logoUrl : option string;
  br_faviconUrl : option string;
  br_updatedAt : string
}.

Record Localization : Type := {
  loc_schoolId : string;
  loc_defaultLanguage : string;
  loc_defaultCurrency : string;
  loc_timezone : string;
  loc_updatedAt : string
}.

Record GatewayConfig : Type := {
  gw_schoolId : string;
  gw_provider : string;
  gw_mode : string;
  gw_webhookSecret : string;
  gw_updatedAt : string
}.

Inductive CourseType : Type := AI | IMPORT.

Inductive CourseState : Type :=
| DRAFT
| DRAFTING_STRUCTURE
| STRUCTURE_APPROVED
| GENERATING_FULL
| DRAFT_READY
| PUBLISHED.

Record AiInputs : Type := {
  theme : string;
  audience : string;
  level : string;
  hours : float;
  language : string
}.

Record Lesson : Type := {
  lesson_title : string;
  lesson_externalUrl : string
}.

Record CourseModule : Type := {
  module_title : string;
  module_objectives : option (list string);
  module_lessons : list Lesson
}.

Record Structure : Type := { modules : list CourseModule }.

Record FullLesson : Type := {
  fl_title : string;
  fl_body : string;
  fl_videoScript : string;
  fl_slides : list string
}.

Record Question : Type := {
  q_text : string;
  q_options : list string;
  q_answer : string
}.

Record Quiz : Type := {
  quiz_title : string;
  quiz_questions : list Question
}.

Record FullModule : Type := {
  fm_title : string;
  fm_objectives : list string;
  fm_lessons : list FullLesson;
  fm_quiz : Quiz
}.

Record FullContent : Type := {
  fc_generatedAt : string;
  fc_modules : list FullModule;
  fc_ebook_type : string;
  fc_ebook_title : string;
  fc_ebook_chapters : list string;
  fc_materials_type : string;
  fc_materials_items : list string
}.

Record Course : Type := {
  course_id : string;
  course_schoolId : string;
  course_type : CourseType;
  course_title : string;
  course_description : string;
  course_tags : list string;
  course_category : option string;
  course_pricing : Pricing;
  course_aiInputs : option AiInputs;
  course_structure : option Structure;
  course_fullContent : option FullContent;
  course_state : CourseState;
  course_createdAt : string;
  course_updatedAt : string;
  course_publishedAt : option string
}.

Inductive OrderStatus : Type := PENDING | PAID | FAILED | CANCELED.

Record Order : Type := {
  order_id : string;
  order_schoolId : string;
  order_courseId : string;
  order_buyerEmail : string;
  order_amount : float;
  order_currency : string;
  order_status : OrderStatus;
  order_createdAt : string;
  order_updatedAt : string;
  order_paidAt : option string
}.

Inductive PaymentStatus : Type := INITIATED | SUCCEEDED | PAYMENT_FAILED.

Record Payment : Type := {
  pay_id : string;
  pay_schoolId : string;
  pay_orderId : string;
  pay_provider : string;
  pay_status : PaymentStatus;
  pay_createdAt : string;
  pay_updatedAt : string
}.

Record Snapshot : Type := {
  snap_ok : bool;
  snap_provider : string;
  snap_eventId : string;
  snap_schoolId : string;
  snap_orderId : string;
  snap_paymentId : string;
  snap_orderStatus : OrderStatus
}.

Record WebhookEvent : Type := {
  evt_id : string;
  evt_provider : string;
  evt_schoolId : string;
  evt_orderId : string;
  evt_paymentId : string;
  evt_receivedAt : string;
  evt_payload : option JsObject;
  evt_signature : string;
  evt_resultSnapshot : Snapshot
}.

Record Enrollment : Type := {
  enr_id : string;
  enr_schoolId : string;
  enr_buyerEmail : string;
  enr_courseId : string;
  enr_orderId : string;
  enr_createdAt : string
}.

Record AuditEvent : Type := {
  audit_id : string;
  audit_schoolId : option string;
  audit_action : string;
  audit_payload : JsObject;
  audit_createdAt : string
}.

(** ** The store: [db], the four index objects, and the number of random
    draws and clock readings made so far *)

Record World : Type := {
  schools : gmap string School;
  domains : JsMap.t DomainConfig;
  branding : gmap string Branding;
  localization : gmap string Localization;
  gateway : gmap string GatewayConfig;
  courses : gmap string Course;
  orders : gmap string Order;
  payments : gmap string Payment;
  webhookEvents : gmap string WebhookEvent;
  enrollments : gmap string Enrollment;
  audit : gmap string AuditEvent;
  byCustomDomain : gmap string string;
  bySubdomain : gmap string string;
  courseIndex_bySchool : gmap string (list string);
  orderIndex_bySchool : gmap string (list string);
  orderIndex_byBuyer : gmap string (list string);
  orderIndex_byCourse : gmap string (list string);
  bySchoolBuyerCourse : gmap string string;
  draws : nat;
  ticks : nat
}.

Definition upd_schools (f : gmap string School -> gmap string School) (w : World) : World :=
  {| schools := f (schools w);
     domains := domains w;
     branding := branding w;
     localization := localization w;
     gateway := gateway w;
     courses := courses w;
     orders := orders w;
     payments := payments w;
     webhookEvents := webhookEvents w;
     enrollments := enrollments w;
     audit := audit w;
     byCustomDomain := byCustomDomain w;
     bySubdomain := bySubdomain w;
     courseIndex_bySchool := courseIndex_bySchool w;
     orderIndex_bySchool := orderIndex_bySchool w;
     orderIndex_byBuyer := orderIndex_byBuyer w;
     orderIndex_byCourse := orderIndex_byCourse w;
     bySchoolBuyerCourse := bySchoolBuyerCourse w;
     draws := draws w;
     ticks := ticks w |}.

Definition upd_domains (f : JsMap.t DomainConfig -> JsMap.t DomainConfig) (w : World) : World :=
  {| schools := schools w;
     domains := f (domains w);
     branding := branding w;
     localization := localization w;
     gateway := gateway w;
     courses := courses w;
     orders := orders w;
     payments := payments w;
     webhookEvents := webhookEvents w;
     enrollments := enrollments w;
     audit := audit w;
     byCustomDomain := byCustomDomain w;
     bySubdomain := bySubdomain w;
     courseIndex_bySchool := courseIndex_bySchool w;
     orderIndex_bySchool := orderIndex_bySchool w;
     orderIndex_byBuyer := orderIndex_byBuyer w;
     orderIndex_byCourse := orderIndex_byCourse w;
     bySchoolBuyerCourse := bySchoolBuyerCourse w;
     draws := draws w;
     ticks := ticks w |}.

Definition upd_branding (f : gmap string Branding -> gmap string Branding) (w : World) : World :=
  {| schools := schools w;
     domains := domains w;
     branding := f (branding w);
     localization := localization w;
     gateway := gateway w;
     courses := courses w;
     orders := orders w;
     payments := payments w;
     webhookEvents := webhookEvents w;
     enrollments := enrollments w;
     audit := audit w;
     byCustomDomain := byCustomDomain w;
     bySubdomain := bySubdomain w;
     courseIndex_bySchool := courseIndex_bySchool w;
     orderIndex_bySchool := orderIndex_bySchool w;
     orderIndex_byBuyer := orderIndex_byBuyer w;
     orderIndex_byCourse := orderIndex_byCourse w;
     bySchoolBuyerCourse := bySchoolBuyerCourse w;
     draws := draws w;
     ticks := ticks w |}.

Definition upd_localization (f : gmap string Localization -> gmap string Localization) (w : World) : World :=
  {| schools := schools w;
     domains := domains w;
     branding := branding w;
     localization := f (localization w);
     gateway := gateway w;
     courses := courses w;
     orders := orders w;
     payments := payments w;
     webhookEvents := webhookEvents w;
     enrollments := enrollments w;
     audit := audit w;
     byCustomDomain := byCustomDomain w;
     bySubdomain := bySubdomain w;
     courseIndex_bySchool := courseIndex_bySchool w;
     orderIndex_bySchool := orderIndex_bySchool w;
     orderIndex_byBuyer := orderIndex_byBuyer w;
     orderIndex_byCourse := orderIndex_byCourse w;
     bySchoolBuyerCourse := bySchoolBuyerCourse w;
     draws := draws w;
     ticks := ticks w |}.

Definition upd_gateway (f : gmap string GatewayConfig -> gmap string GatewayConfig) (w : World) : World :=
  {| schools := schools w;
     domains := domains w;
     branding := branding w;
     localization := localization w;
     gateway := f (gateway w);
     courses := courses w;
     orders := orders w;
     payments := payments w;
     webhookEvents := webhookEvents w;
     enrollments := enrollments w;
     audit := audit w;
     byCustomDomain := byCustomDomain w;
     bySubdomain := bySubdomain w;
     courseIndex_bySchool := courseIndex_bySchool w;
     orderIndex_bySchool := orderIndex_bySchool w;
     orderIndex_byBuyer := orderIndex_byBuyer w;
     orderIndex_byCourse := orderIndex_byCourse w;
     bySchoolBuyerCourse := bySchoolBuyerCourse w;
     draws := draws w;
     ticks := ticks w |}.

Definition upd_courses (f : gmap string Course -> gmap string Course) (w : World) : World :=
  {| schools := schools w;
     domains := domains w;
     branding := branding w;
     localization := localization w;
     gateway := gateway w;
     courses := f (courses w);
     orders := orders w;
     payments := payments w;
     webhookEvents := webhookEvents w;
     enrollments := enrollments w;
     audit := audit w;
     byCustomDomain := byCustomDomain w;
     bySubdomain := bySubdomain w;
     courseIndex_bySchool := courseIndex_bySchool w;
     orderIndex_bySchool := orderIndex_bySchool w;
     orderIndex_byBuyer := orderIndex_byBuyer w;
     orderIndex_byCourse := orderIndex_byCourse w;
     bySchoolBuyerCourse := bySchoolBuyerCourse w;
     draws := draws w;
     ticks := ticks w |}.

Definition upd_orders (f : gmap string Order -> gmap string Order) (w : World) : World :=
  {| schools := schools w;
     domains := domains w;
     branding := branding w;
     localization := localization w;
     gateway := gateway w;
     courses := courses w;
     orders := f (orders w);
     payments := payments w;
     webhookEvents := webhookEvents w;
     enrollments := enrollments w;
     audit := audit w;
     byCustomDomain := byCustomDomain w;
     bySubdomain := bySubdomain w;
     courseIndex_bySchool := courseIndex_bySchool w;
     orderIndex_bySchool := orderIndex_bySchool w;
     orderIndex_byBuyer := orderIndex_byBuyer w;
     orderIndex_byCourse := orderIndex_byCourse w;
     bySchoolBuyerCourse := bySchoolBuyerCourse w;
     draws := draws w;
     ticks := ticks w |}.

Definition upd_payments (f : gmap string Payment -> gmap string Payment) (w : World) : World :=
  {| schools := schools w;
     domains := domains w;
     branding := branding w;
     localization := localization w;
     gateway := gateway w;
     courses := courses w;
     orders := orders w;
     payments := f (payments w);
     webhookEvents := webhookEvents w;
     enrollments := enrollments w;
     audit := audit w;
     byCustomDomain := byCustomDomain w;
     bySubdomain := bySubdomain w;
     courseIndex_bySchool := courseIndex_bySchool w;
     orderIndex_bySchool := orderIndex_bySchool w;
     orderIndex_byBuyer := orderIndex_byBuyer w;
     orderIndex_byCourse := orderIndex_byCourse w;
     bySchoolBuyerCourse := bySchoolBuyerCourse w;
     draws := draws w;
     ticks := ticks w |}.

Definition upd_webhookEvents (f : gmap string WebhookEvent -> gmap string WebhookEvent) (w : World) : World :=
  {| schools := schools w;
     domains := domains w;
     branding := branding w;
     localization := localization w;
     gateway := gateway w;
     courses := courses w;
     orders := orders w;
     payments := payments w;
     webhookEvents := f (webhookEvents w);
     enrollments := enrollments w;
     audit := audit w;
     byCustomDomain := byCustomDomain w;
     bySubdomain := bySubdomain w;
     courseIndex_bySchool := courseIndex_bySchool w;
     orderIndex_bySchool := orderIndex_bySchool w;
     orderIndex_byBuyer := orderIndex_byBuyer w;
     orderIndex_byCourse := orderIndex_byCourse w;
     bySchoolBuyerCourse := bySchoolBuyerCourse w;
     draws := draws w;
     ticks := ticks w |}.

Definition upd_enrollments (f : gmap string Enrollment -> gmap string Enrollment) (w : World) : World :=
  {| schools := schools w;
     domains := domains w;
     branding := branding w;
     localization := localization w;
     gateway := gateway w;
     courses := courses w;
     orders := orders w;
     payments := payments w;
     webhookEvents := webhookEvents w;
     enrollments := f (enrollments w);
     audit := audit w;
     byCustomDomain := byCustomDomain w;
     bySubdomain := bySubdomain w;
     courseIndex_bySchool := courseIndex_bySchool w;
     orderIndex_bySchool := orderIndex_bySchool w;
     orderIndex_byBuyer := orderIndex_byBuyer w;
     orderIndex_byCourse := orderIndex_byCourse w;
     bySchoolBuyerCourse := bySchoolBuyerCourse w;
     draws := draws w;
     ticks := ticks w |}.

Definition upd_audit (f : gmap string AuditEvent -> gmap string AuditEvent) (w : World) : World :=
  {| schools := schools w;
     domains := domains w;
     branding := branding w;
     localization := localization w;
     gateway := gateway w;
     courses := courses w;
     orders := orders w;
     payments := payments w;
     webhookEvents := webhookEvents w;
     enrollments := enrollments w;
     audit := f (audit w);
     byCustomDomain := byCustomDomain w;
     bySubdomain := bySubdomain w;
     courseIndex_bySchool := courseIndex_bySchool w;
     orderIndex_bySchool := orderIndex_bySchool w;
     orderIndex_byBuyer := orderIndex_byBuyer w;
     orderIndex_byCourse := orderIndex_byCourse w;
     bySchoolBuyerCourse := bySchoolBuyerCourse w;
     draws := draws w;
     ticks := ticks w |}.

Definition upd_byCustomDomain (f : gmap string string -> gmap string string) (w : World) : World :=
  {| schools := schools w;
     domains := domains w;
     branding := branding w;
     localization := localization w;
     gateway := gateway w;
     courses := courses w;
     orders := orders w;
     payments := payments w;
     webhookEvents := webhookEvents w;
     enrollments := enrollments w;
     audit := audit w;
     byCustomDomain := f (byCustomDomain w);
     bySubdomain := bySubdomain w;
     courseIndex_bySchool := courseIndex_bySchool w;
     orderIndex_bySchool := orderIndex_bySchool w;
     orderIndex_byBuyer := orderIndex_byBuyer w;
     orderIndex_byCourse := orderIndex_byCourse w;
     bySchoolBuyerCourse := bySchoolBuyerCourse w;
     draws := draws w;
     ticks := ticks w |}.

Definition upd_bySubdomain (f : gmap string string -> gmap string string) (w : World) : World :=
  {| schools := schools w;
     domains := domains w;
     branding := branding w;
     localization := localization w;
     gateway := gateway w;
     courses := courses w;
     orders := orders w;
     payments := payments w;
     webhookEvents := webhookEvents w;
     enrollments := enrollments w;
     audit := audit w;
     byCustomDomain := byCustomDomain w;
     bySubdomain := f (bySubdomain w);
     courseIndex_bySchool := courseIndex_bySchool w;
     orderIndex_bySchool := orderIndex_bySchool w;
     orderIndex_byBuyer := orderIndex_byBuyer w;
     orderIndex_byCourse := orderIndex_byCourse w;
     bySchoolBuyerCourse := bySchoolBuyerCourse w;
     draws := draws w;
     ticks := ticks w |}.

Definition upd_courseIndex_bySchool (f : gmap string (list string) -> gmap string (list string)) (w : World) : World :=
  {| schools := schools w;
     domains := domains w;
     branding := branding w;
     localization := localization w;
     gateway := gateway w;
     courses := courses w;
     orders := orders w;
     payments := payments w;
     webhookEvents := webhookEvents w;
     enrollments := enrollments w;
     audit := audit w;
     byCustomDomain := byCustomDomain w;
     bySubdomain := bySubdomain w;
     courseIndex_bySchool := f (courseIndex_bySchool w);
     orderIndex_bySchool := orderIndex_bySchool w;
     orderIndex_byBuyer := orderIndex_byBuyer w;
     orderIndex_byCourse := orderIndex_byCourse w;
     bySchoolBuyerCourse := bySchoolBuyerCourse w;
     draws := draws w;
     ticks := ticks w |}.

Definition upd_orderIndex_bySchool (f : gmap string (list string) -> gmap string (list string)) (w : World) : World :=
  {| schools := schools w;
     domains := domains w;
     branding := branding w;
     localization := localization w;
     gateway := gateway w;
     courses := courses w;
     orders := orders w;
     payments := payments w;
     webhookEvents := webhookEvents w;
     enrollments := enrollments w;
     audit := audit w;
     byCustomDomain := byCustomDomain w;
     bySubdomain := bySubdomain w;
     courseIndex_bySchool := courseIndex_bySchool w;
     orderIndex_bySchool := f (orderIndex_bySchool w);
     orderIndex_byBuyer := orderIndex_byBuyer w;
     orderIndex_byCourse := orderIndex_byCourse w;
     bySchoolBuyerCourse := bySchoolBuyerCourse w;
     draws := draws w;
     ticks := ticks w |}.

Definition upd_orderIndex_byBuyer (f : gmap string (list string) -> gmap string (list string)) (w : World) : World :=
  {| schools := schools w;
     domains := domains w;
     branding := branding w;
     localization := localization w;
     gateway := gateway w;
     courses := courses w;
     orders := orders w;
     payments := payments w;
     webhookEvents := webhookEvents w;
     enrollments := enrollments w;
     audit := audit w;
     byCustomDomain := byCustomDomain w;
     bySubdomain := bySubdomain w;
     courseIndex_bySchool := courseIndex_bySchool w;
     orderIndex_bySchool := orderIndex_bySchool w;
     orderIndex_byBuyer := f (orderIndex_byBuyer w);
     orderIndex_byCourse := orderIndex_byCourse w;
     bySchoolBuyerCourse := bySchoolBuyerCourse w;
     draws := draws w;
     ticks := ticks w |}.

Definition upd_orderIndex_byCourse (f : gmap string (list string) -> gmap string (list string)) (w : World) : World :=
  {| schools := schools w;
     domains := domains w;
     branding := branding w;
     localization := localization w;
     gateway := gateway w;
     courses := courses w;
     orders := orders w;
     payments := payments w;
     webhookEvents := webhookEvents w;
     enrollments := enrollments w;
     audit := audit w;
     byCustomDomain := byCustomDomain w;
     bySubdomain := bySubdomain w;
     courseIndex_bySchool := courseIndex_bySchool w;
     orderIndex_bySchool := orderIndex_bySchool w;
     orderIndex_byBuyer := orderIndex_byBuyer w;
     orderIndex_byCourse := f (orderIndex_byCourse w);
     bySchoolBuyerCourse := bySchoolBuyerCourse w;
     draws := draws w;
     ticks := ticks w |}.

Definition upd_bySchoolBuyerCourse (f : gmap string string -> gmap string string) (w : World) : World :=
  {| schools := schools w;
     domains := domains w;
     branding := branding w;
     localization := localization w;
     gateway := gateway w;
     courses := courses w;
     orders := orders w;
     payments := payments w;
     webhookEvents := webhookEvents w;
     enrollments := enrollments w;
     audit := audit w;
     byCustomDomain := byCustomDomain w;
     bySubdomain := bySubdomain w;
     courseIndex_bySchool := courseIndex_bySchool w;
     orderIndex_bySchool := orderIndex_bySchool w;
     orderIndex_byBuyer := orderIndex_byBuyer w;
     orderIndex_byCourse := orderIndex_byCourse w;
     bySchoolBuyerCourse := f (bySchoolBuyerCourse w);
     draws := draws w;
     ticks := ticks w |}.

Definition upd_draws (f : nat -> nat) (w : World) : World :=
  {| schools := schools w;
     domains := domains w;
     branding := branding w;
     localization := localization w;
     gateway := gateway w;
     courses := courses w;
     orders := orders w;
     payments := payments w;
     webhookEvents := webhookEvents w;
     enrollments := enrollments w;
     audit := audit w;
     byCustomDomain := byCustomDomain w;
     bySubdomain := bySubdomain w;
     courseIndex_bySchool := courseIndex_bySchool w;
     orderIndex_bySchool := orderIndex_bySchool w;
     orderIndex_byBuyer := orderIndex_byBuyer w;
     orderIndex_byCourse := orderIndex_byCourse w;
     bySchoolBuyerCourse := bySchoolBuyerCourse w;
     draws := f (draws w);
     ticks := ticks w |}.

Definition upd_ticks (f : nat -> nat) (w : World) : World :=
  {| schools := schools w;
     domains := domains w;
     branding := branding w;
     localization := localization w;
     gateway := gateway w;
     courses := courses w;
     orders := orders w;
     payments := payments w;
     webhookEvents := webhookEvents w;
     enrollments := enrollments w;
     audit := audit w;
     byCustomDomain := byCustomDomain w;
     bySubdomain := bySubdomain w;
     courseIndex_bySchool := courseIndex_bySchool w;
     orderIndex_bySchool := orderIndex_bySchool w;
     orderIndex_byBuyer := orderIndex_byBuyer w;
     orderIndex_byCourse := orderIndex_byCourse w;
     bySchoolBuyerCourse := bySchoolBuyerCourse w;
     draws := draws w;
     ticks := f (ticks w) |}.

Definition emptyWorld : World :=
  {| schools := ∅; domains := JsMap.empty; branding := ∅; localization := ∅;
     gateway := ∅; courses := ∅; orders := ∅; payments := ∅; webhookEvents := ∅;
     enrollments := ∅; audit := ∅; byCustomDomain := ∅; bySubdomain := ∅;
     courseIndex_bySchool := ∅; orderIndex_bySchool := ∅; orderIndex_byBuyer := ∅;
     orderIndex_byCourse := ∅; bySchoolBuyerCourse := ∅; draws := 0; ticks := 0 |}.

(** ** Computations over the store that may throw *)

Definition M (A : Type) : Type := World -> Result A * World.

Definition ret {A} (a : A) : M A := fun w => (Ok a, w).

Definition throw {A} (message : string) : M A := fun w => (Throw message, w).

Definition bind {A B} (m : M A) (k : A -> M B) : M B :=
  fun w =>
    match m w with
    | (Ok a, w') => k a w'
    | (Throw e, w') => (Throw e, w')
    end.

Notation "x <- m ;; k" := (bind m (fun x => k))
  (at level 100, m at next level, right associativity).
Notation "m ;;; k" := (bind m (fun _ => k))
  (at level 100, right associativity).

(** [if (c) throw new Error(message)]. *)
Definition throwIf (c : bool) (message : string) : M unit :=
  if c then throw message else ret tt.

Definition gets {A} (f : World -> A) : M A := fun w => (Ok (f w), w).

Definition modify (f : World -> World) : M unit := fun w => (Ok tt, f w).

Definition liftResult {A} (r : Result A) : M A :=
  match r with
  | Ok a => ret a
  | Throw e => throw e
  end.

(** The state a call leaves behind and the value it returns. *)
Definition exec {A} (m : M A) (w : World) : World := snd (m w).
Definition outcome {A} (m : M A) (w : World) : Result A := fst (m w).

Definition orThrow {A} (o : option A) (message : string) : M A :=
  match o with
  | Some a => ret a
  | None => throw message
  end.

(** Truthiness of an id read from an index: [undefined] and the empty
    string are falsy. *)
Definition truthy (o : option string) : bool :=
  match o with
  | Some s => negb (Str.empty s)
  | None => false
  end.

(** ** Utils *)

Definition readClock (rt : Runtime) : M Z :=
  fun w => (Ok (clock rt (ticks w)), upd_ticks S w).

Definition nowIso (rt : Runtime) : M string :=
  t <- readClock rt;; ret (toISOString rt t).

Definition randomBytes (rt : Runtime) (n : nat) : M (list Byte.byte) :=
  fun w => (Ok (List.map (entropy rt (draws w)) (seq 0 n)), upd_draws S w).

(** [normalizeHost] and [normalizeDomain] trim and lower-case through
    [Str.trim] and [Str.toLowerCase]: they are the functions of the code
    on ASCII arguments. *)
Definition normalizeHost (host : string) : string :=
  if Str.empty host then ""
  else Str.stripFinalDot (Str.toLowerCase (Str.trim host)).

Definition normalizeDomain (domain : string) : string :=
  let d := Str.toLowerCase (Str.trim domain) in
  let d := Str.stripScheme d in
  let d := Str.beforeChar "/" d in
  let d := Str.beforeChar ":" d in
  Str.stripFinalDot d.

(** [v.length] is the length in bytes, the JavaScript length of an ASCII
    string. *)
Definition isValidDomainLike (value : string) : bool :=
  let v := normalizeDomain value in
  if Str.empty v then false
  else if Str.includes " " v then false
  else if negb (Str.includes "." v) then false
  else if Nat.ltb (String.length v) 4 then false
  else true.

Definition generateId (rt : Runtime) (prefix : string) : M string :=
  bs <- randomBytes rt 8;; ret (prefix +:+ "_" +:+ Str.hex bs).

Definition randomToken (rt : Runtime) (bytes : nat) : M string :=
  bs <- randomBytes rt bytes;; ret (Str.hex bs).

Definition hmacSha256 (rt : Runtime) (secret message : string) : string :=
  Str.hex (hmac_digest rt secret message).

(** ** Audit *)

Definition auditLog (rt : Runtime) (schoolId action : string) (payload : JsObject)
  : M AuditEvent :=
  id <- generateId rt "aud";;
  createdAt <- nowIso rt;;
  let evt := {| audit_id := id;
                audit_schoolId := if Str.empty schoolId then None else Some schoolId;
                audit_action := action;
                audit_payload := payload;
                audit_createdAt := createdAt |} in
  modify (upd_audit (insert id evt));;;
  ret evt.

(** ** Schools *)

Definition assertSchoolActive (schoolId : string) : M School :=
  os <- gets (fun w => schools w !! schoolId);;
  school <- orThrow os "SCHOOL_NOT_FOUND";;
  throwIf (match school_status school with ACTIVE => false | _ => true end) "SCHOOL_SUSPENDED";;;
  ret school.

(** ** White-label (domains) *)

Definition isSubdomainOf (schoolId : string) (d : DomainConfig) : bool :=
  match dom_type d with subdomain => Str.eqb (dom_schoolId d) schoolId | custom => false end.

Definition isCustomOf (schoolId domain : string) (x : DomainConfig) : bool :=
  match dom_type x with
  | custom => Str.eqb (dom_schoolId x) schoolId && Str.eqb (dom_domain x) domain
  | subdomain => false
  end.

Definition ensureDefaultSubdomainForSchool (rt : Runtime) (schoolId : string)
  : M DomainConfig :=
  os <- gets (fun w => schools w !! schoolId);;
  school <- orThrow os "SCHOOL_NOT_FOUND";;
  let host := normalizeHost (school_slug school +:+ "." +:+ baseDomain) in
  existing <- gets (fun w => bySubdomain w !! host);;
  throwIf (truthy existing && negb (bool_decide (existing = Some schoolId))) "SUBDOMAIN_COLLISION";;;
  modify (upd_bySubdomain (insert host schoolId));;;
  already <- gets (fun w => List.find (isSubdomainOf schoolId) (JsMap.values (domains w)));;
  match already with
  | Some d => ret d
  | None =>
      id <- generateId rt "dom";;
      createdAt <- nowIso rt;;
      verifiedAt <- nowIso rt;;
      let domainConfig :=
        {| dom_id := id; dom_schoolId := schoolId; dom_type := subdomain;
           dom_domain := host; dom_verified := true; dom_verificationToken := None;
           dom_createdAt := createdAt; dom_verifiedAt := Some verifiedAt |} in
      modify (upd_domains (JsMap.set id domainConfig));;;
      auditLog rt schoolId "DOMAIN_SUBDOMAIN_CREATED" (("domain", host) :: nil);;;
      ret domainConfig
  end.

(** [/^[a-z0-9-]+$/.test(s)]. *)
Definition isSlug (s : string) : bool :=
  negb (Str.empty s) &&
  Str.all (fun c => Str.is_lower c || Str.is_digit c || bool_decide (c = "-"%char)) s.

Definition createSchool (rt : Runtime) (name slug : string) : M School :=
  let n := Str.trim name in
  let s := Str.toLowerCase (Str.trim slug) in
  throwIf (Str.empty n) "SCHOOL_NAME_REQUIRED";;;
  throwIf (Str.empty s) "SCHOOL_SLUG_REQUIRED";;;
  throwIf (negb (isSlug s)) "SCHOOL_SLUG_INVALID";;;
  taken <- gets (fun w => existsb (fun e => Str.eqb (school_slug (snd e)) s)
                            (map_to_list (schools w)));;
  throwIf taken "SCHOOL_SLUG_ALREADY_EXISTS";;;
  id <- generateId rt "sch";;
  createdAt <- nowIso rt;;
  updatedAt <- nowIso rt;;
  let school := {| school_id := id; school_name := n; school_slug := s;
                   school_status := ACTIVE;
                   school_createdAt := createdAt; school_updatedAt := updatedAt |} in
  modify (upd_schools (insert id school));;;
  ensureDefaultSubdomainForSchool rt id;;;
  b <- gets (fun w => branding w !! id);;
  match b with
  | Some _ => ret tt
  | None =>
      t <- nowIso rt;;
      modify (upd_branding (insert id
        {| br_schoolId := id; br_publicName := n; br_primaryColor := "#111111";
           br_secondaryColor := "#ffffff"; br_logoUrl := None; br_faviconUrl := None;
           br_updatedAt := t |}))
  end;;;
  l <- gets (fun w => localization w !! id);;
  match l with
  | Some _ => ret tt
  | None =>
      t <- nowIso rt;;
      modify (upd_localization (insert id
        {| loc_schoolId := id; loc_defaultLanguage := "pt-BR"; loc_defaultCurrency := "BRL";
           loc_timezone := "America/Sao_Paulo"; loc_updatedAt := t |}))
  end;;;
  g <- gets (fun w => gateway w !! id);;
  match g with
  | Some _ => ret tt
  | None =>
      secret <- randomToken rt 16;;
      t <- nowIso rt;;
      modify (upd_gateway (insert id
        {| gw_schoolId := id; gw_provider := "DEMO"; gw_mode := "demo";
           gw_webhookSecret := secret; gw_updatedAt := t |}))
  end;;;
  modify (upd_courseIndex_bySchool (fun m =>
    match m !! id with Some _ => m | None => <[id := nil]> m end));;;
  modify (upd_orderIndex_bySchool (fun m =>
    match m !! id with Some _ => m | None => <[id := nil]> m end));;;
  auditLog rt id "SCHOOL_CREATED" (("name", n) :: ("slug", s) :: nil);;;
  ret school.

Definition setSchoolStatus (rt : Runtime) (schoolId status : string) : M School :=
  os <- gets (fun w => schools w !! schoolId);;
  school <- orThrow os "SCHOOL_NOT_FOUND";;
  st <- (if Str.eqb status "ACTIVE" then ret ACTIVE
         else if Str.eqb status "SUSPENDED" then ret SUSPENDED
         else throw "SCHOOL_STATUS_INVALID");;
  updatedAt <- nowIso rt;;
  let school' := {| school_id := school_id school; school_name := school_name school;
                    school_slug := school_slug school; school_status := st;
                    school_createdAt := school_createdAt school;
                    school_updatedAt := updatedAt |} in
  modify (upd_schools (insert schoolId school'));;;
  auditLog rt schoolId "SCHOOL_STATUS_CHANGED" (("status", status) :: nil);;;
  ret school'.

(** Whether the index entry [takenId] names a record of another school. *)
Definition takenByOther (schoolId : string) (takenId : option string) (w : World) : bool :=
  truthy takenId &&
  match JsMap.get (default "" takenId) (domains w) with
  | Some taken => negb (Str.eqb (dom_schoolId taken) schoolId)
  | None => false
  end.

(** The mutation of the object [find] returned: the first value that
    satisfies [p] is replaced where it stands. *)
Fixpoint alterFirst {V} (p : V -> bool) (f : V -> V) (m : JsMap.t V) : JsMap.t V :=
  match m with
  | nil => nil
  | (k, v) :: r => if p v then (k, f v) :: r else (k, v) :: alterFirst p f r
  end.

Definition reRequested (token : string) (x : DomainConfig) : DomainConfig :=
  {| dom_id := dom_id x; dom_schoolId := dom_schoolId x; dom_type := dom_type x;
     dom_domain := dom_domain x; dom_verified := false;
     dom_verificationToken := Some token;
     dom_createdAt := dom_createdAt x; dom_verifiedAt := None |}.

Definition requestCustomDomain (rt : Runtime) (schoolId domain : string)
  : M DomainConfig :=
  assertSchoolActive schoolId;;;
  let d := normalizeDomain domain in
  throwIf (negb (isValidDomainLike d)) "CUSTOM_DOMAIN_INVALID";;;
  throwIf (Str.endsWith ("." +:+ baseDomain) d) "CUSTOM_DOMAIN_NOT_ALLOWED";;;
  takenId <- gets (fun w => byCustomDomain w !! d);;
  inUse <- gets (takenByOther schoolId takenId);;
  throwIf inUse "CUSTOM_DOMAIN_ALREADY_IN_USE";;;
  existing <- gets (fun w => List.find (isCustomOf schoolId d) (JsMap.values (domains w)));;
  token <- randomToken rt 12;;
  match existing with
  | Some ex =>
      modify (upd_domains (alterFirst (isCustomOf schoolId d) (reRequested token)));;;
      modify (upd_byCustomDomain (insert d (dom_id ex)));;;
      auditLog rt schoolId "DOMAIN_CUSTOM_REREQUESTED" (("domain", d) :: nil);;;
      ret (reRequested token ex)
  | None =>
      id <- generateId rt "dom";;
      createdAt <- nowIso rt;;
      let cfg := {| dom_id := id; dom_schoolId := schoolId; dom_type := custom;
                    dom_domain := d; dom_verified := false;
                    dom_verificationToken := Some token;
                    dom_createdAt := createdAt; dom_verifiedAt := None |} in
      modify (upd_domains (JsMap.set id cfg));;;
      modify (upd_byCustomDomain (insert d id));;;
      auditLog rt schoolId "DOMAIN_CUSTOM_REQUESTED" (("domain", d) :: nil);;;
      ret cfg
  end.

Definition verifyCustomDomain (rt : Runtime) (schoolId domain token : string)
  : M DomainConfig :=
  assertSchoolActive schoolId;;;
  let d := normalizeDomain domain in
  domainId <- gets (fun w => byCustomDomain w !! d);;
  throwIf (negb (truthy domainId)) "CUSTOM_DOMAIN_NOT_REQUESTED";;;
  let domainId := default "" domainId in
  ocfg <- gets (fun w => JsMap.get domainId (domains w));;
  cfg <- orThrow ocfg "CUSTOM_DOMAIN_NOT_REQUESTED";;
  throwIf (match dom_type cfg with custom => false | subdomain => true end)
          "CUSTOM_DOMAIN_INVALID_STATE";;;
  throwIf (negb (Str.eqb (dom_schoolId cfg) schoolId)) "CUSTOM_DOMAIN_OWNERSHIP_MISMATCH";;;
  let provided := Str.trim token in
  throwIf (negb (truthy (dom_verificationToken cfg))) "CUSTOM_DOMAIN_MISSING_TOKEN";;;
  throwIf (negb (bool_decide (Some provided = dom_verificationToken cfg)))
          "CUSTOM_DOMAIN_TOKEN_INVALID";;;
  verifiedAt <- nowIso rt;;
  let cfg' := {| dom_id := dom_id cfg; dom_schoolId := dom_schoolId cfg;
                 dom_type := dom_type cfg; dom_domain := dom_domain cfg;
                 dom_verified := true;
                 dom_verificationToken := dom_verificationToken cfg;
                 dom_createdAt := dom_createdAt cfg;
                 dom_verifiedAt := Some verifiedAt |} in
  modify (upd_domains (JsMap.set domainId cfg'));;;
  auditLog rt schoolId "DOMAIN_CUSTOM_VERIFIED" (("domain", d) :: nil);;;
  ret cfg'.

(** [resolveSchoolByHost(host)]: reads the store, changes nothing and
    throws nowhere; [None] is [null]. *)
Definition resolveSchoolByHost (host : string) (w : World) : option School :=
  let h := normalizeHost host in
  if Str.empty h then None
  else
    let customId := byCustomDomain w !! h in
    let viaCustom :=
      if truthy customId then
        match JsMap.get (default "" customId) (domains w) with
        | Some cfg =>
            match dom_type cfg with
            | custom => if dom_verified cfg then Some (schools w !! dom_schoolId cfg) else None
            | subdomain => None
            end
        | None => None
        end
      else None in
    match viaCustom with
    | Some answer => answer
    | None =>
        let schoolId := bySubdomain w !! h in
        if truthy schoolId then schools w !! default "" schoolId else None
    end.

(** ** Gateway (DEMO) *)

Definition rotateWebhookSecret (rt : Runtime) (schoolId : string) : M GatewayConfig :=
  assertSchoolActive schoolId;;;
  og <- gets (fun w => gateway w !! schoolId);;
  g <- orThrow og "GATEWAY_NOT_CONFIGURED";;
  secret <- randomToken rt 16;;
  updatedAt <- nowIso rt;;
  let g' := {| gw_schoolId := gw_schoolId g; gw_provider := gw_provider g;
               gw_mode := gw_mode g; gw_webhookSecret := secret;
               gw_updatedAt := updatedAt |} in
  modify (upd_gateway (insert schoolId g'));;;
  auditLog rt schoolId "GATEWAY_WEBHOOK_SECRET_ROTATED" nil;;;
  ret g'.

(** ** Courses (mock pipeline and import) *)

Definition addCourseToIndex (course : Course) : M unit :=
  modify (upd_courseIndex_bySchool (fun m =>
    <[course_schoolId course :=
        setAdd (course_id course) (default nil (m !! course_schoolId course))]> m)).

Definition getCourseOrThrow (courseId : string) : M Course :=
  oc <- gets (fun w => courses w !! courseId);;
  orThrow oc "COURSE_NOT_FOUND".

Definition assertCourseSchoolAccess (schoolId : string) (course : Course) : M unit :=
  throwIf (negb (Str.eqb (course_schoolId course) schoolId)) "COURSE_ACCESS_DENIED".

Definition createCourse (type : CourseType) (rt : Runtime)
    (schoolId title description : string) (price0 : float) (currency0 : string)
    (promo0 : option PromoInput) : M Course :=
  assertSchoolActive schoolId;;;
  let t := Str.trim title in
  throwIf (Str.empty t) "COURSE_TITLE_REQUIRED";;;
  loc <- gets (fun w => localization w !! schoolId);;
  let cur := Str.trim (if Str.empty currency0
                       then match loc with Some l => loc_defaultCurrency l | None => "BRL" end
                       else currency0) in
  id <- generateId rt "crs";;
  pricing <- liftResult (normalizePricing price0 cur promo0);;
  createdAt <- nowIso rt;;
  updatedAt <- nowIso rt;;
  let course :=
    {| course_id := id; course_schoolId := schoolId; course_type := type;
       course_title := t; course_description := Str.trim description;
       course_tags := nil; course_category := None; course_pricing := pricing;
       course_aiInputs := None; course_structure := None; course_fullContent := None;
       course_state := DRAFT; course_createdAt := createdAt;
       course_updatedAt := updatedAt; course_publishedAt := None |} in
  modify (upd_courses (insert id course));;;
  addCourseToIndex course;;;
  auditLog rt schoolId "COURSE_CREATED"
    (("courseId", id) :: ("type", match type with AI => "AI" | IMPORT => "IMPORT" end) :: nil);;;
  ret course.

(** [createCourseAI] and [createCourseImport] differ in the [type] they
    store and write to the audit log. *)
Definition createCourseAI : Runtime -> string -> string -> string -> float -> string ->
                            option PromoInput -> M Course := createCourse AI.
Definition createCourseImport : Runtime -> string -> string -> string -> float -> string ->
                                option PromoInput -> M Course := createCourse IMPORT.

(** Assignments to the properties of a course object. *)
Definition withState (s : CourseState) (c : Course) : Course :=
  {| course_id := course_id c; course_schoolId := course_schoolId c;
     course_type := course_type c; course_title := course_title c;
     course_description := course_description c; course_tags := course_tags c;
     course_category := course_category c; course_pricing := course_pricing c;
     course_aiInputs := course_aiInputs c; course_structure := course_structure c;
     course_fullContent := course_fullContent c; course_state := s;
     course_createdAt := course_createdAt c; course_updatedAt := course_updatedAt c;
     course_publishedAt := course_publishedAt c |}.

Definition withUpdatedAt (t : string) (c : Course) : Course :=
  {| course_id := course_id c; course_schoolId := course_schoolId c;
     course_type := course_type c; course_title := course_title c;
     course_description := course_description c; course_tags := course_tags c;
     course_category := course_category c; course_pricing := course_pricing c;
     course_aiInputs := course_aiInputs c; course_structure := course_structure c;
     course_fullContent := course_fullContent c; course_state := course_state c;
     course_createdAt := course_createdAt c; course_updatedAt := t;
     course_publishedAt := course_publishedAt c |}.

Definition withStructure (s : option Structure) (c : Course) : Course :=
  {| course_id := course_id c; course_schoolId := course_schoolId c;
     course_type := course_type c; course_title := course_title c;
     course_description := course_description c; course_tags := course_tags c;
     course_category := course_category c; course_pricing := course_pricing c;
     course_aiInputs := course_aiInputs c; course_structure := s;
     course_fullContent := course_fullContent c; course_state := course_state c;
     course_createdAt := course_createdAt c; course_updatedAt := course_updatedAt c;
     course_publishedAt := course_publishedAt c |}.

Definition withAiInputs (i : option AiInputs) (c : Course) : Course :=
  {| course_id := course_id c; course_schoolId := course_schoolId c;
     course_type := course_type c; course_title := course_title c;
     course_description := course_description c; course_tags := course_tags c;
     course_category := course_category c; course_pricing := course_pricing c;
     course_aiInputs := i; course_structure := course_structure c;
     course_fullContent := course_fullContent c; course_state := course_state c;
     course_createdAt := course_createdAt c; course_updatedAt := course_updatedAt c;
     course_publishedAt := course_publishedAt c |}.

Definition withFullContent (f : option FullContent) (c : Course) : Course :=
  {| course_id := course_id c; course_schoolId := course_schoolId c;
     course_type := course_type c; course_title := course_title c;
     course_description := course_description c; course_tags := course_tags c;
     course_category := course_category c; course_pricing := course_pricing c;
     course_aiInputs := course_aiInputs c; course_structure := course_structure c;
     course_fullContent := f; course_state := course_state c;
     course_createdAt := course_createdAt c; course_updatedAt := course_updatedAt c;
     course_publishedAt := course_publishedAt c |}.

Definition withPublishedAt (p : option string) (c : Course) : Course :=
  {| course_id := course_id c; course_schoolId := course_schoolId c;
     course_type := course_type c; course_title := course_title c;
     course_description := course_description c; course_tags := course_tags c;
     course_category := course_category c; course_pricing := course_pricing c;
     course_aiInputs := course_aiInputs c; course_structure := course_structure c;
     course_fullContent := course_fullContent c; course_state := course_state c;
     course_createdAt := course_createdAt c; course_updatedAt := course_updatedAt c;
     course_publishedAt := p |}.

(** The course object is held by reference in [db.courses]: an
    assignment to one of its properties changes the entry it was read
    from.  [storeCourse] writes the object back after each assignment. *)
Definition storeCourse (courseId : string) (c : Course) : M unit :=
  modify (upd_courses (insert courseId c)).

(** The [inputs] argument may be missing ([None]); [Number(undefined)] is
    NaN. *)
Definition normalizeAiInputs (inputs : option AiInputs) : Result AiInputs :=
  let field (f : AiInputs -> string) :=
    Str.trim (match inputs with Some i => f i | None => "" end) in
  let h := match inputs with Some i => hours i | None => PrimFloat.nan end in
  if Str.empty (field theme) then Throw "AI_INPUT_THEME_REQUIRED"
  else if Str.empty (field audience) then Throw "AI_INPUT_AUDIENCE_REQUIRED"
  else if Str.empty (field level) then Throw "AI_INPUT_LEVEL_REQUIRED"
  else if negb (Num.isFinite h) || PrimFloat.ltb h 8%float || PrimFloat.ltb 40%float h
       then Throw "AI_INPUT_HOURS_INVALID"
  else if Str.empty (field language) then Throw "AI_INPUT_LANGUAGE_REQUIRED"
  else Ok {| theme := field theme; audience := field audience; level := field level;
             hours := h; language := field language |}.

Definition mockStructureFromInputs (inp : AiInputs) : list CourseModule :=
  List.map (fun mTitle =>
    {| module_title := mTitle +:+ " — " +:+ theme inp;
       module_objectives := Some (
         ("Compreender os pontos centrais de " +:+ Str.toLowerCase mTitle +:+ ".") ::
         ("Aplicar " +:+ Str.toLowerCase mTitle +:+ " em cenários típicos.") ::
         "Consolidar com exercício orientado." :: nil);
       module_lessons :=
         List.map (fun t => {| lesson_title := t; lesson_externalUrl := "" |})
           ((mTitle +:+ ": conceitos-chave") ::
            (mTitle +:+ ": prática guiada") ::
            (mTitle +:+ ": exercício e revisão") :: nil) |})
    ("Fundamentos" :: "Aplicação" :: "Projeto" :: nil).

Definition aiGenerateStructure (rt : Runtime) (schoolId courseId : string)
    (inputs : option AiInputs) : M Course :=
  assertSchoolActive schoolId;;;
  course <- getCourseOrThrow courseId;;
  assertCourseSchoolAccess schoolId course;;;
  throwIf (match course_type course with AI => false | IMPORT => true end) "COURSE_NOT_AI";;;
  throwIf (match course_state course with DRAFT => false | _ => true end)
          "COURSE_INVALID_STATE";;;
  normalized <- liftResult (normalizeAiInputs inputs);;
  let course := withState DRAFTING_STRUCTURE (withAiInputs (Some normalized) course) in
  storeCourse courseId course;;;
  t1 <- nowIso rt;;
  let course := withUpdatedAt t1 course in
  storeCourse courseId course;;;
  let mods := mockStructureFromInputs normalized in
  let course := withState DRAFTING_STRUCTURE (withStructure (Some {| modules := mods |}) course) in
  storeCourse courseId course;;;
  t2 <- nowIso rt;;
  let course := withUpdatedAt t2 course in
  storeCourse courseId course;;;
  auditLog rt schoolId "COURSE_STRUCTURE_GENERATED" (("courseId", courseId) :: nil);;;
  ret course.

Fixpoint validateLessons (ls : list Lesson) : option string :=
  match ls with
  | nil => None
  | l :: r =>
      if Str.empty (Str.trim (lesson_title l))
      then Some "COURSE_STRUCTURE_LESSON_TITLE_REQUIRED"
      else validateLessons r
  end.

Fixpoint validateModules (ms : list CourseModule) : option string :=
  match ms with
  | nil => None
  | m :: r =>
      if Str.empty (Str.trim (module_title m))
      then Some "COURSE_STRUCTURE_MODULE_TITLE_REQUIRED"
      else match module_lessons m with
           | nil => Some "COURSE_STRUCTURE_LESSONS_REQUIRED"
           | _ =>
               match validateLessons (module_lessons m) with
               | Some e => Some e
               | None => validateModules r
               end
           end
  end.

Definition hasModules (s : option Structure) : bool :=
  match s with
  | Some {| modules := _ :: _ |} => true
  | _ => false
  end.

Definition throwFirst (e : option string) : M unit :=
  match e with
  | Some message => throw message
  | None => ret tt
  end.

Definition editCourseStructure (rt : Runtime) (schoolId courseId : string)
    (structure : option Structure) : M Course :=
  assertSchoolActive schoolId;;;
  course <- getCourseOrThrow courseId;;
  assertCourseSchoolAccess schoolId course;;;
  throwIf (match course_state course with DRAFTING_STRUCTURE => false | _ => true end)
          "COURSE_STRUCTURE_NOT_EDITABLE";;;
  throwIf (negb (hasModules structure)) "COURSE_STRUCTURE_INVALID";;;
  throwFirst (validateModules (match structure with Some s => modules s | None => nil end));;;
  let course := withStructure structure course in
  storeCourse courseId course;;;
  t <- nowIso rt;;
  let course := withUpdatedAt t course in
  storeCourse courseId course;;;
  auditLog rt schoolId "COURSE_STRUCTURE_EDITED" (("courseId", courseId) :: nil);;;
  ret course.

Definition approveCourseStructure (rt : Runtime) (schoolId courseId : string) : M Course :=
  assertSchoolActive schoolId;;;
  course <- getCourseOrThrow courseId;;
  assertCourseSchoolAccess schoolId course;;;
  throwIf (match course_state course with DRAFTING_STRUCTURE => false | _ => true end)
          "COURSE_INVALID_STATE";;;
  throwIf (negb (hasModules (course_structure course))) "COURSE_STRUCTURE_MISSING";;;
  let course := withState STRUCTURE_APPROVED course in
  storeCourse courseId course;;;
  t <- nowIso rt;;
  let course := withUpdatedAt t course in
  storeCourse courseId course;;;
  auditLog rt schoolId "COURSE_STRUCTURE_APPROVED" (("courseId", courseId) :: nil);;;
  ret course.

(** The double quote, for the template strings that contain one. *)
Definition dq : string := String (ascii_of_nat 34) "".

Definition mockLesson (l : Lesson) : FullLesson :=
  let title := lesson_title l in
  {| fl_title := title;
     fl_body := "Texto (mock) da aula " +:+ dq +:+ title +:+ dq +:+
                ". Conteúdo estruturado para leitura e estudo.";
     fl_videoScript := "Roteiro (mock) para " +:+ dq +:+ title +:+ dq +:+
                       ": abertura, desenvolvimento, exemplo prático e fechamento.";
     fl_slides := ("Slide 1: Introdução a " +:+ dq +:+ title +:+ dq) ::
                  "Slide 2: Conceitos centrais" ::
                  "Slide 3: Exemplo prático" ::
                  "Slide 4: Resumo e próximos passos" :: nil |}.

Definition mockModule (mi : nat) (m : CourseModule) : FullModule :=
  {| fm_title := module_title m;
     fm_objectives := default nil (module_objectives m);
     fm_lessons := List.map mockLesson (module_lessons m);
     fm_quiz :=
       {| quiz_title := "Quiz do módulo " +:+ Str.ofNat (mi + 1);
          quiz_questions :=
            {| q_text := "Pergunta 1 sobre " +:+ module_title m;
               q_options := "A" :: "B" :: "C" :: "D" :: nil; q_answer := "A" |} ::
            {| q_text := "Pergunta 2 sobre " +:+ module_title m;
               q_options := "A" :: "B" :: "C" :: "D" :: nil; q_answer := "B" |} :: nil |} |}.

(** [mockFullContent(course)]; reading [course.structure.modules] of a
    course without structure is a [TypeError]. *)
Definition mockFullContent (rt : Runtime) (course : Course) : M FullContent :=
  match course_structure course with
  | None => throw "TypeError"
  | Some s =>
      let mods := imap mockModule (modules s) in
      generatedAt <- nowIso rt;;
      ret {| fc_generatedAt := generatedAt;
             fc_modules := mods;
             fc_ebook_type := "JSON_PLACEHOLDER";
             fc_ebook_title := "Ebook (mock) — " +:+ course_title course;
             fc_ebook_chapters := List.map fm_title mods;
             fc_materials_type := "JSON_PLACEHOLDER";
             fc_materials_items :=
               "Checklist (mock)" :: "Resumo (mock)" :: "Guia rápido (mock)" :: nil |}
  end.

Definition aiGenerateFullCourse (rt : Runtime) (schoolId courseId : string) : M Course :=
  assertSchoolActive schoolId;;;
  course <- getCourseOrThrow courseId;;
  assertCourseSchoolAccess schoolId course;;;
  throwIf (match course_type course with AI => false | IMPORT => true end) "COURSE_NOT_AI";;;
  throwIf (match course_state course with STRUCTURE_APPROVED => false | _ => true end)
          "COURSE_INVALID_STATE";;;
  let course := withState GENERATING_FULL course in
  storeCourse courseId course;;;
  t1 <- nowIso rt;;
  let course := withUpdatedAt t1 course in
  storeCourse courseId course;;;
  full <- mockFullContent rt course;;
  let course := withState DRAFT_READY (withFullContent (Some full) course) in
  storeCourse courseId course;;;
  t2 <- nowIso rt;;
  let course := withUpdatedAt t2 course in
  storeCourse courseId course;;;
  auditLog rt schoolId "COURSE_FULL_GENERATED" (("courseId", courseId) :: nil);;;
  ret course.

Fixpoint validateImportLessons (ls : list Lesson) : option string :=
  match ls with
  | nil => None
  | l :: r =>
      if Str.empty (Str.trim (lesson_title l))
      then Some "COURSE_STRUCTURE_LESSON_TITLE_REQUIRED"
      else if Str.empty (Str.trim (lesson_externalUrl l))
      then Some "COURSE_IMPORT_URL_REQUIRED"
      else validateImportLessons r
  end.

Fixpoint validateImportModules (ms : list CourseModule) : option string :=
  match ms with
  | nil => None
  | m :: r =>
      if Str.empty (Str.trim (module_title m))
      then Some "COURSE_STRUCTURE_MODULE_TITLE_REQUIRED"
      else match module_lessons m with
           | nil => Some "COURSE_STRUCTURE_LESSONS_REQUIRED"
           | _ =>
               match validateImportLessons (module_lessons m) with
               | Some e => Some e
               | None => validateImportModules r
               end
           end
  end.

Definition validateImportStructure (structure : option Structure) : M unit :=
  throwIf (negb (hasModules structure)) "COURSE_STRUCTURE_INVALID";;;
  throwFirst (validateImportModules
                (match structure with Some s => modules s | None => nil end)).

Definition setImportStructure (rt : Runtime) (schoolId courseId : string)
    (structure : option Structure) : M Course :=
  assertSchoolActive schoolId;;;
  course <- getCourseOrThrow courseId;;
  assertCourseSchoolAccess schoolId course;;;
  throwIf (match course_type course with IMPORT => false | AI => true end)
          "COURSE_NOT_IMPORT";;;
  throwIf (match course_state course with DRAFT => false | _ => true end)
          "COURSE_INVALID_STATE";;;
  validateImportStructure structure;;;
  let course := withState DRAFT_READY (withStructure structure course) in
  storeCourse courseId course;;;
  t <- nowIso rt;;
  let course := withUpdatedAt t course in
  storeCourse courseId course;;;
  auditLog rt schoolId "COURSE_IMPORT_STRUCTURE_SET" (("courseId", courseId) :: nil);;;
  ret course.

Definition publishCourse (rt : Runtime) (schoolId courseId : string) : M Course :=
  assertSchoolActive schoolId;;;
  course <- getCourseOrThrow courseId;;
  assertCourseSchoolAccess schoolId course;;;
  throwIf (match course_state course with DRAFT_READY => false | _ => true end)
          "COURSE_NOT_READY_TO_PUBLISH";;;
  let course := withState PUBLISHED course in
  storeCourse courseId course;;;
  publishedAt <- nowIso rt;;
  let course := withPublishedAt (Some publishedAt) course in
  storeCourse courseId course;;;
  updatedAt <- nowIso rt;;
  let course := withUpdatedAt updatedAt course in
  storeCourse courseId course;;;
  auditLog rt schoolId "COURSE_PUBLISHED" (("courseId", courseId) :: nil);;;
  ret course.

(** ** Orders, payments, webhooks, enrollment *)

(** [if (!index.has(key)) index.set(key, new Set()); index.get(key).add(id)]. *)
Definition indexAdd (key id : string) (m : gmap string (list string))
  : gmap string (list string) :=
  <[key := setAdd id (default nil (m !! key))]> m.

Definition createOrder (rt : Runtime) (schoolId courseId buyerEmail : string) : M Order :=
  assertSchoolActive schoolId;;;
  course <- getCourseOrThrow courseId;;
  assertCourseSchoolAccess schoolId course;;;
  throwIf (match course_state course with PUBLISHED => false | _ => true end)
          "COURSE_NOT_FOR_SALE";;;
  let email := Str.toLowerCase (Str.trim buyerEmail) in
  throwIf (negb (Str.includes "@" email)) "BUYER_EMAIL_INVALID";;;
  now <- readClock rt;;
  let price := getEffectivePrice rt (course_pricing course) now in
  id <- generateId rt "ord";;
  createdAt <- nowIso rt;;
  updatedAt <- nowIso rt;;
  let order := {| order_id := id; order_schoolId := schoolId; order_courseId := courseId;
                  order_buyerEmail := email; order_amount := price;
                  order_currency := currency (course_pricing course);
                  order_status := PENDING; order_createdAt := createdAt;
                  order_updatedAt := updatedAt; order_paidAt := None |} in
  modify (upd_orders (insert id order));;;
  modify (upd_orderIndex_bySchool (indexAdd schoolId id));;;
  modify (upd_orderIndex_byBuyer (indexAdd (schoolId +:+ ":" +:+ email) id));;;
  modify (upd_orderIndex_byCourse (indexAdd (schoolId +:+ ":" +:+ courseId) id));;;
  auditLog rt schoolId "ORDER_CREATED"
    (("orderId", id) :: ("courseId", courseId) :: ("buyerEmail", email) :: nil);;;
  ret order.

Record Checkout : Type := {
  checkoutUrl : string;
  webhook_payload : JsObject;
  webhook_signature : string
}.

Definition isOutcome (s : string) : bool :=
  Str.eqb s "APPROVED" || Str.eqb s "DECLINED".

Definition startDemoCheckout (rt : Runtime) (schoolId orderId outcome0 : string)
  : M Checkout :=
  assertSchoolActive schoolId;;;
  oo <- gets (fun w => orders w !! orderId);;
  order <- orThrow oo "ORDER_NOT_FOUND";;
  throwIf (negb (Str.eqb (order_schoolId order) schoolId)) "ORDER_ACCESS_DENIED";;;
  throwIf (match order_status order with PENDING => false | _ => true end)
          "ORDER_NOT_PENDING";;;
  og <- gets (fun w => gateway w !! schoolId);;
  g <- orThrow og "GATEWAY_NOT_CONFIGURED";;
  throwIf (negb (Str.eqb (gw_provider g) "DEMO")) "GATEWAY_NOT_CONFIGURED";;;
  let oc := Str.toUpperCase (Str.trim outcome0) in
  throwIf (negb (isOutcome oc)) "CHECKOUT_OUTCOME_INVALID";;;
  paymentId <- generateId rt "pay";;
  createdAt <- nowIso rt;;
  updatedAt <- nowIso rt;;
  let payment := {| pay_id := paymentId; pay_schoolId := schoolId; pay_orderId := orderId;
                    pay_provider := "DEMO"; pay_status := INITIATED;
                    pay_createdAt := createdAt; pay_updatedAt := updatedAt |} in
  modify (upd_payments (insert paymentId payment));;;
  eventId <- generateId rt "whk";;
  ts <- nowIso rt;;
  let payload : JsObject :=
    ("provider", "DEMO") :: ("eventId", eventId) :: ("schoolId", schoolId) ::
    ("orderId", orderId) :: ("paymentId", paymentId) :: ("result", oc) ::
    ("ts", ts) :: nil in
  let signature := hmacSha256 rt (gw_webhookSecret g) (stableStringify (Some payload)) in
  let url := demoCheckoutBaseUrl +:+ "/checkout?orderId=" +:+ encodeURIComponent orderId
             +:+ "&result=" +:+ encodeURIComponent oc in
  auditLog rt schoolId "CHECKOUT_STARTED"
    (("orderId", orderId) :: ("outcome", oc) :: ("paymentId", paymentId) ::
     ("eventId", eventId) :: nil);;;
  ret {| checkoutUrl := url; webhook_payload := payload; webhook_signature := signature |}.

Definition enrollmentKey (schoolId buyerEmail courseId : string) : string :=
  schoolId +:+ ":" +:+ buyerEmail +:+ ":" +:+ courseId.

Definition ensureEnrollment (rt : Runtime) (schoolId buyerEmail courseId orderId : string)
  : M (option Enrollment) :=
  let key := enrollmentKey schoolId buyerEmail courseId in
  existingId <- gets (fun w => bySchoolBuyerCourse w !! key);;
  if truthy existingId then
    gets (fun w => enrollments w !! default "" existingId)
  else
    id <- generateId rt "enr";;
    createdAt <- nowIso rt;;
    let enrollment := {| enr_id := id; enr_schoolId := schoolId;
                         enr_buyerEmail := buyerEmail; enr_courseId := courseId;
                         enr_orderId := orderId; enr_createdAt := createdAt |} in
    modify (upd_enrollments (insert id enrollment));;;
    modify (upd_bySchoolBuyerCourse (insert key id));;;
    auditLog rt schoolId "ENROLLMENT_CREATED"
      (("enrollmentId", id) :: ("courseId", courseId) :: ("buyerEmail", buyerEmail) :: nil);;;
    ret (Some enrollment).

Definition canAccessCourse (schoolId buyerEmail courseId : string) (w : World) : bool :=
  bool_decide (is_Some (bySchoolBuyerCourse w !!
    enrollmentKey schoolId (Str.toLowerCase (Str.trim buyerEmail)) courseId)).

(** Assignments to the properties of an order and of a payment. *)
Definition withOrderStatus (s : OrderStatus) (o : Order) : Order :=
  {| order_id := order_id o; order_schoolId := order_schoolId o;
     order_courseId := order_courseId o; order_buyerEmail := order_buyerEmail o;
     order_amount := order_amount o; order_currency := order_currency o;
     order_status := s; order_createdAt := order_createdAt o;
     order_updatedAt := order_updatedAt o; order_paidAt := order_paidAt o |}.

Definition withOrderPaidAt (t : option string) (o : Order) : Order :=
  {| order_id := order_id o; order_schoolId := order_schoolId o;
     order_courseId := order_courseId o; order_buyerEmail := order_buyerEmail o;
     order_amount := order_amount o; order_currency := order_currency o;
     order_status := order_status o; order_createdAt := order_createdAt o;
     order_updatedAt := order_updatedAt o; order_paidAt := t |}.

Definition withOrderUpdatedAt (t : string) (o : Order) : Order :=
  {| order_id := order_id o; order_schoolId := order_schoolId o;
     order_courseId := order_courseId o; order_buyerEmail := order_buyerEmail o;
     order_amount := order_amount o; order_currency := order_currency o;
     order_status := order_status o; order_createdAt := order_createdAt o;
     order_updatedAt := t; order_paidAt := order_paidAt o |}.

Definition withPaymentStatus (s : PaymentStatus) (p : Payment) : Payment :=
  {| pay_id := pay_id p; pay_schoolId := pay_schoolId p; pay_orderId := pay_orderId p;
     pay_provider := pay_provider p; pay_status := s;
     pay_createdAt := pay_createdAt p; pay_updatedAt := pay_updatedAt p |}.

Definition withPaymentUpdatedAt (t : string) (p : Payment) : Payment :=
  {| pay_id := pay_id p; pay_schoolId := pay_schoolId p; pay_orderId := pay_orderId p;
     pay_provider := pay_provider p; pay_status := pay_status p;
     pay_createdAt := pay_createdAt p; pay_updatedAt := t |}.

(** The order and the payment are held by reference in [db.orders] and
    [db.payments]; each assignment is written back under the key the
    object was read from. *)
Definition storeOrder (orderId : string) (o : Order) : M unit :=
  modify (upd_orders (insert orderId o)).

Definition storePayment (paymentId : string) (p : Payment) : M unit :=
  modify (upd_payments (insert paymentId p)).

(** The branch of [receiveWebhook] that applies an APPROVED event. *)
Definition applyApproved (rt : Runtime) (schoolId orderId paymentId eventId : string)
    (order : Order) (payment : Payment) : M Order :=
  let order := withOrderStatus PAID order in
  storeOrder orderId order;;;
  paidAt <- nowIso rt;;
  let order := withOrderPaidAt (Some paidAt) order in
  storeOrder orderId order;;;
  updatedAt <- nowIso rt;;
  let order := withOrderUpdatedAt updatedAt order in
  storeOrder orderId order;;;
  let payment := withPaymentStatus SUCCEEDED payment in
  storePayment paymentId payment;;;
  pUpdatedAt <- nowIso rt;;
  storePayment paymentId (withPaymentUpdatedAt pUpdatedAt payment);;;
  ensureEnrollment rt schoolId (order_buyerEmail order) (order_courseId order)
                   (order_id order);;;
  auditLog rt schoolId "PAYMENT_SUCCEEDED"
    (("orderId", orderId) :: ("paymentId", paymentId) :: ("eventId", eventId) :: nil);;;
  ret order.

(** The branch that applies a DECLINED event. *)
Definition applyDeclined (rt : Runtime) (schoolId orderId paymentId eventId : string)
    (order : Order) (payment : Payment) : M Order :=
  let order := withOrderStatus FAILED order in
  storeOrder orderId order;;;
  updatedAt <- nowIso rt;;
  let order := withOrderUpdatedAt updatedAt order in
  storeOrder orderId order;;;
  let payment := withPaymentStatus PAYMENT_FAILED payment in
  storePayment paymentId payment;;;
  pUpdatedAt <- nowIso rt;;
  storePayment paymentId (withPaymentUpdatedAt pUpdatedAt payment);;;
  auditLog rt schoolId "PAYMENT_FAILED"
    (("orderId", orderId) :: ("paymentId", paymentId) :: ("eventId", eventId) :: nil);;;
  ret order.

Definition receiveWebhook (rt : Runtime) (provider : string) (payload : option JsObject)
    (signature : string) : M Snapshot :=
  let prov := Str.toUpperCase (Str.trim
                (if Str.empty provider then Obj.prop "provider" payload else provider)) in
  throwIf (negb (Str.eqb prov "DEMO")) "WEBHOOK_PROVIDER_UNSUPPORTED";;;
  let eventId := Str.trim (Obj.prop "eventId" payload) in
  throwIf (Str.empty eventId) "WEBHOOK_EVENT_ID_REQUIRED";;;
  recorded <- gets (fun w => webhookEvents w !! eventId);;
  match recorded with
  | Some existing => ret (evt_resultSnapshot existing)
  | None =>
      let schoolId := Str.trim (Obj.prop "schoolId" payload) in
      let orderId := Str.trim (Obj.prop "orderId" payload) in
      let paymentId := Str.trim (Obj.prop "paymentId" payload) in
      let result := Str.toUpperCase (Str.trim (Obj.prop "result" payload)) in
      throwIf (Str.empty schoolId || Str.empty orderId || Str.empty paymentId)
              "WEBHOOK_PAYLOAD_INVALID";;;
      throwIf (negb (isOutcome result)) "WEBHOOK_RESULT_INVALID";;;
      og <- gets (fun w => gateway w !! schoolId);;
      g <- orThrow og "GATEWAY_NOT_CONFIGURED";;
      let expected := hmacSha256 rt (gw_webhookSecret g) (stableStringify payload) in
      throwIf (negb (Str.eqb (Str.trim signature) expected)) "WEBHOOK_SIGNATURE_INVALID";;;
      oo <- gets (fun w => orders w !! orderId);;
      order <- orThrow oo "ORDER_NOT_FOUND";;
      throwIf (negb (Str.eqb (order_schoolId order) schoolId)) "ORDER_ACCESS_DENIED";;;
      op <- gets (fun w => payments w !! paymentId);;
      payment <- orThrow op "PAYMENT_NOT_FOUND";;
      throwIf (negb (Str.eqb (pay_schoolId payment) schoolId)) "PAYMENT_ACCESS_DENIED";;;
      throwIf (negb (Str.eqb (pay_orderId payment) orderId)) "PAYMENT_ORDER_MISMATCH";;;
      order <- (if Str.eqb result "APPROVED"
                then applyApproved rt schoolId orderId paymentId eventId order payment
                else applyDeclined rt schoolId orderId paymentId eventId order payment);;
      let snapshot := {| snap_ok := true; snap_provider := prov; snap_eventId := eventId;
                         snap_schoolId := schoolId; snap_orderId := orderId;
                         snap_paymentId := paymentId;
                         snap_orderStatus := order_status order |} in
      receivedAt <- nowIso rt;;
      let evt := {| evt_id := eventId; evt_provider := prov; evt_schoolId := schoolId;
                    evt_orderId := orderId; evt_paymentId := paymentId;
                    evt_receivedAt := receivedAt;
                    evt_payload := canonicalCopy payload;
                    evt_signature := signature;
                    evt_resultSnapshot := snapshot |} in
      modify (upd_webhookEvents (insert eventId evt));;;
      auditLog rt schoolId "WEBHOOK_RECEIVED"
        (("eventId", eventId) :: ("orderId", orderId) :: ("result", result) :: nil);;;
      ret snapshot
  end.

(** ** A concrete runtime

    The theorems below hold for every runtime.  This one is used to run
    the operations on concrete inputs: the [n]-th random draw repeats the
    byte [n], the clock advances one millisecond per reading, one date
    string is recognised, and the digest is a four-byte rolling sum. *)

Definition demoUntil : string := "2030-01-01T00:00:00.000Z".
Definition demoUntilTime : Z := 1893456000000.

Definition rollingSum (s : string) : N :=
  fold_left (fun h c => N.modulo (h * 31 + N_of_ascii c) 4294967296)
            (list_ascii_of_string s) 7%N.

Definition byteOfN (n : N) : Byte.byte :=
  default Byte.x00 (Byte.of_N (N.modulo n 256)).

Definition demoRuntime : Runtime :=
  {| entropy := fun n _ => byteOfN (N.of_nat n);
     clock := fun n => (1700000000000 + Z.of_nat n)%Z;
     toISOString := fun t => "T" +:+ pretty t;
     Date_parse := fun s => if Str.eqb s demoUntil then Some demoUntilTime else None;
     hmac_digest := fun key message =>
       let h := rollingSum (key +:+ ":" +:+ message) in
       byteOfN (N.div h 16777216) :: byteOfN (N.div h 65536) ::
       byteOfN (N.div h 256) :: byteOfN h :: nil |}.

Definition demoPricing : Pricing :=
  {| price := 199.9%float; currency := "BRL";
     promo := Some {| promo_type := "PERCENT"; promo_value := 20%float;
                      promo_untilIso := demoUntil |} |}.

(** ** Specifications

    [wp m Q w] holds when running [m] from the store [w] ends with an
    outcome and a store that satisfy [Q]. *)
Definition wp {A} (m : M A) (Q : Result A -> World -> Prop) (w : World) : Prop :=
  Q (outcome m w) (exec m w).

(** A string that does not begin with white space. *)
Definition tight (s : string) : Prop :=
  match s with
  | String c _ => Str.is_ws c = false
  | EmptyString => True
  end.

(** [preserves I m]: whatever [m] does, returning or throwing, a store that
    satisfies [I] is left satisfying [I]. *)
Definition preserves {A} (I : World -> Prop) (m : M A) : Prop :=
  forall w, I w -> I (exec m w).

(** ** The course lifecycle as a set of calls *)

Inductive LifecycleOp : Type :=
| GenerateStructure (schoolId courseId : string) (inputs : option AiInputs)
| EditStructure (schoolId courseId : string) (structure : option Structure)
| Approve (schoolId courseId : string)
| GenerateFull (schoolId courseId : string)
| SetImportStructure (schoolId courseId : string) (structure : option Structure)
| Publish (schoolId courseId : string).

Definition lifecycle (rt : Runtime) (op : LifecycleOp) : M Course :=
  match op with
  | GenerateStructure s c i => aiGenerateStructure rt s c i
  | EditStructure s c st => editCourseStructure rt s c st
  | Approve s c => approveCourseStructure rt s c
  | GenerateFull s c => aiGenerateFullCourse rt s c
  | SetImportStructure s c st => setImportStructure rt s c st
  | Publish s c => publishCourse rt s c
  end.

(** The position of a state in the order
    DRAFT < DRAFTING_STRUCTURE < STRUCTURE_APPROVED < GENERATING_FULL
    < DRAFT_READY < PUBLISHED. *)
Definition rank (s : CourseState) : nat :=
  match s with
  | DRAFT => 0
  | DRAFTING_STRUCTURE => 1
  | STRUCTURE_APPROVED => 2
  | GENERATING_FULL => 3
  | DRAFT_READY => 4
  | PUBLISHED => 5
  end.

(** The stores a sequence of lifecycle calls goes through, the first
    included. *)
Fixpoint lifecycleTrace (rt : Runtime) (ops : list LifecycleOp) (w : World) : list World :=
  match ops with
  | nil => w :: nil
  | op :: rest => w :: lifecycleTrace rt rest (exec (lifecycle rt op) w)
  end.

(** How many times the [publishedAt] of a course changes along a list of
    stores. *)
Fixpoint publishedAtChanges (courseId : string) (ws : list World) : nat :=
  match ws with
  | w :: ((w' :: _) as rest) =>
      (if bool_decide (option_map course_publishedAt (courses w !! courseId)
                       = option_map course_publishedAt (courses w' !! courseId))
       then 0 else 1) + publishedAtChanges courseId rest
  | _ => 0
  end.

(** What one lifecycle call may do to the course [c] stored under [cid]:
    it is still stored, its state did not move backward, a PUBLISHED
    course is left as it was, and [publishedAt] changes only when
    [publishCourse] takes the course from DRAFT_READY to PUBLISHED. *)
Definition courseStep (op : LifecycleOp) (cid : string) (c : Course)
    (r : Result Course) (w' : World) : Prop :=
  exists c',
    courses w' !! cid = Some c' /\
    rank (course_state c) <= rank (course_state c') /\
    (course_state c = PUBLISHED -> c' = c) /\
    (course_publishedAt c' <> course_publishedAt c ->
     course_state c = DRAFT_READY /\ course_state c' = PUBLISHED /\
     exists sid, op = Publish sid cid).

(** ** A run with two schools and two custom domains

    Escola Alpha verifies [cursos.alpha.com.br] and requests, without
    verifying it, [loja.alpha.com.br]; Escola Beta has only its default
    subdomain. *)
Definition domainScenario : M (School * School * DomainConfig * DomainConfig) :=
  a <- createSchool demoRuntime "Escola Alpha" "alpha";;
  b <- createSchool demoRuntime "Escola Beta" "beta";;
  r <- requestCustomDomain demoRuntime (school_id a) "cursos.alpha.com.br";;
  v <- verifyCustomDomain demoRuntime (school_id a) "cursos.alpha.com.br"
         (default "" (dom_verificationToken r));;
  p <- requestCustomDomain demoRuntime (school_id a) "https://Loja.Alpha.com.br/path";;
  ret (a, b, v, p).

Definition domainWorld : World := Eval vm_compute in exec domainScenario emptyWorld.

Definition alphaId : string :=
  Eval vm_compute in
    match outcome domainScenario emptyWorld with
    | Ok (a, _, _, _) => school_id a
    | Throw _ => ""
    end.

Definition betaId : string :=
  Eval vm_compute in
    match outcome domainScenario emptyWorld with
    | Ok (_, b, _, _) => school_id b
    | Throw _ => ""
    end.

(** ** The calls that change the store

    The exported operations of the core that write to [db] or to an
    index.  ([updateBranding] and [updateLocalization], which write only
    [db.branding], [db.localization] and the audit log, and the test
    helper [__resetForTests] are left out.) *)
Inductive Call : Type :=
| CreateSchool (name slug : string)
| SetSchoolStatus (schoolId status : string)
| RequestCustomDomain (schoolId domain : string)
| VerifyCustomDomain (schoolId domain token : string)
| RotateWebhookSecret (schoolId : string)
| CreateCourse (type : CourseType) (schoolId title description : string) (price0 : float)
               (currency0 : string) (promo0 : option PromoInput)
| Lifecycle (op : LifecycleOp)
| CreateOrder (schoolId courseId buyerEmail : string)
| StartDemoCheckout (schoolId orderId outcome0 : string)
| ReceiveWebhook (provider : string) (payload : option JsObject) (signature : string).

Definition perform (rt : Runtime) (c : Call) (w : World) : World :=
  match c with
  | CreateSchool n s => exec (createSchool rt n s) w
  | SetSchoolStatus s st => exec (setSchoolStatus rt s st) w
  | RequestCustomDomain s d => exec (requestCustomDomain rt s d) w
  | VerifyCustomDomain s d t => exec (verifyCustomDomain rt s d t) w
  | RotateWebhookSecret s => exec (rotateWebhookSecret rt s) w
  | CreateCourse ty s t d p c pr => exec (createCourse ty rt s t d p c pr) w
  | Lifecycle op => exec (lifecycle rt op) w
  | CreateOrder s c e => exec (createOrder rt s c e) w
  | StartDemoCheckout s o oc => exec (startDemoCheckout rt s o oc) w
  | ReceiveWebhook p pl sg => exec (receiveWebhook rt p pl sg) w
  end.

(** The stores the process can be in: the empty store at start-up, and
    what a call makes of a store it can be in. *)
Inductive reachable (rt : Runtime) : World -> Prop :=
| reachable_empty : reachable rt emptyWorld
| reachable_step (c : Call) (w : World) :
    reachable rt w -> reachable rt (perform rt c w).

(** ** A run through a sale

    One school, one published AI course at 199.90, one order, and two
    checkout sessions started while the order is PENDING: the first
    APPROVED, the second DECLINED. *)
Definition demoInputs : option AiInputs :=
  Some {| theme := "Node.js"; audience := "iniciantes"; level := "basico";
          hours := 10%float; language := "pt-BR" |}.

Definition checkoutScenario : M (School * Course * Order * Checkout * Checkout) :=
  a <- createSchool demoRuntime "Escola Alpha" "alpha";;
  c <- createCourseAI demoRuntime (school_id a) "Node Essencial" "Base" 199.9%float "" None;;
  aiGenerateStructure demoRuntime (school_id a) (course_id c) demoInputs;;;
  approveCourseStructure demoRuntime (school_id a) (course_id c);;;
  aiGenerateFullCourse demoRuntime (school_id a) (course_id c);;;
  c' <- publishCourse demoRuntime (school_id a) (course_id c);;
  o <- createOrder demoRuntime (school_id a) (course_id c) " A@b.com ";;
  k1 <- startDemoCheckout demoRuntime (school_id a) (order_id o) "approved";;
  k2 <- startDemoCheckout demoRuntime (school_id a) (order_id o) "declined";;
  ret (a, c', o, k1, k2).

Definition checkoutWorld : World := Eval vm_compute in exec checkoutScenario emptyWorld.

Definition noCheckout : Checkout :=
  {| checkoutUrl := ""; webhook_payload := nil; webhook_signature := "" |}.

Definition approvedCheckout : Checkout :=
  Eval vm_compute in
    match outcome checkoutScenario emptyWorld with
    | Ok (_, _, _, k1, _) => k1
    | Throw _ => noCheckout
    end.

Definition declinedCheckout : Checkout :=
  Eval vm_compute in
    match outcome checkoutScenario emptyWorld with
    | Ok (_, _, _, _, k2) => k2
    | Throw _ => noCheckout
    end.

Definition scenarioOrderId : string :=
  Eval vm_compute in
    match outcome checkoutScenario emptyWorld with
    | Ok (_, _, o, _, _) => order_id o
    | Throw _ => ""
    end.

Definition scenarioCourseId : string :=
  Eval vm_compute in
    match outcome checkoutScenario emptyWorld with
    | Ok (_, c, _, _, _) => course_id c
    | Throw _ => ""
    end.

(** The webhook of a checkout, delivered as the provider would. *)
Definition deliver (k : Checkout) : M Snapshot :=
  receiveWebhook demoRuntime "DEMO" (Some (webhook_payload k)) (webhook_signature k).

Definition paidWorld : World := Eval vm_compute in exec (deliver approvedCheckout) checkoutWorld.

Definition failedWorld : World := Eval vm_compute in exec (deliver declinedCheckout) paidWorld.

Definition noSnapshot : Snapshot :=
  {| snap_ok := false; snap_provider := ""; snap_eventId := ""; snap_schoolId := "";
     snap_orderId := ""; snap_paymentId := ""; snap_orderStatus := PENDING |}.

(** What the first delivery of the APPROVED webhook returned. *)
Definition paidSnapshot : Snapshot :=
  Eval vm_compute in
    match outcome (deliver approvedCheckout) checkoutWorld with
    | Ok snap => snap
    | Throw _ => noSnapshot
    end.

Definition scenarioSchoolId : string :=
  Eval vm_compute in
    match outcome checkoutScenario emptyWorld with
    | Ok (a, _, _, _, _) => school_id a
    | Throw _ => ""
    end.

(** The provider [receiveWebhook] settles on:
    [String(provider || payload?.provider || "").trim().toUpperCase()]. *)
Definition webhookProvider (provider : string) (payload : option JsObject) : string :=
  Str.toUpperCase (Str.trim
    (if Str.empty provider then Obj.prop "provider" payload else provider)).

(** The idempotency key: [String(payload?.eventId || "").trim()]. *)
Definition webhookEventId (payload : option JsObject) : string :=
  Str.trim (Obj.prop "eventId" payload).

(** Every key of [db.webhookEvents] is a trimmed, non-empty string, and
    it is the id of the event stored under it. *)
Definition eventsKeyed (w : World) : Prop :=
  forall k ev,
    webhookEvents w !! k = Some ev -> Str.trim k = k /\ k <> "" /\ evt_id ev = k.

(** The other fields [receiveWebhook] reads off the payload. *)
Definition webhookSchoolId (payload : option JsObject) : string :=
  Str.trim (Obj.prop "schoolId" payload).
Definition webhookOrderId (payload : option JsObject) : string :=
  Str.trim (Obj.prop "orderId" payload).
Definition webhookPaymentId (payload : option JsObject) : string :=
  Str.trim (Obj.prop "paymentId" payload).
Definition webhookResult (payload : option JsObject) : string :=
  Str.toUpperCase (Str.trim (Obj.prop "result" payload)).

(** A delivery that passes the provider, event id, field and result
    checks. *)
Definition validDelivery (provider : string) (payload : option JsObject) : Prop :=
  webhookProvider provider payload = "DEMO" /\
  webhookEventId payload <> "" /\
  webhookSchoolId payload <> "" /\
  webhookOrderId payload <> "" /\
  webhookPaymentId payload <> "" /\
  isOutcome (webhookResult payload) = true.

(** A delivery whose event id is not on record. *)
Definition firstTime (w : World) (payload : option JsObject) : Prop :=
  webhookEvents w !! webhookEventId payload = None.

(** The signature [receiveWebhook] computes for a payload under a
    gateway's secret. *)
Definition expectedSignature (rt : Runtime) (g : GatewayConfig) (payload : option JsObject)
  : string :=
  hmacSha256 rt (gw_webhookSecret g) (stableStringify payload).

(** [ignoresSchools m]: [m] neither reads nor writes [db.schools]: run
    from a store whose schools were replaced, it returns the same outcome
    and leaves the same store, schools apart. *)
Definition ignoresSchools {A} (m : M A) : Prop :=
  forall (f : gmap string School -> gmap string School) (w : World),
    m (upd_schools f w) = (outcome m w, upd_schools f (exec m w)).

(** Every key of [db.schools] is a trimmed, non-empty string. *)
Definition schoolsKeyed (w : World) : Prop :=
  forall k s, schools w !! k = Some s -> Str.trim k = k /\ k <> "".

(** The status an accepted result gives the order and the payment. *)
Definition orderStatusFor (result : string) : OrderStatus :=
  if Str.eqb result "APPROVED" then PAID else FAILED.
Definition paymentStatusFor (result : string) : PaymentStatus :=
  if Str.eqb result "APPROVED" then SUCCEEDED else PAYMENT_FAILED.

(** The store of [checkoutScenario] after the school was suspended. *)
Definition suspendedWorld : World :=
  Eval vm_compute in
    exec (setSchoolStatus demoRuntime scenarioSchoolId "SUSPENDED") checkoutWorld.

(** The id [createOrder] gives the order it creates from the store [w]. *)
Definition nextOrderId (rt : Runtime) (w : World) : string :=
  "ord" +:+ "_" +:+ Str.hex (List.map (entropy rt (draws w)) (seq 0 8)).


Fixpoint performAll (rt : Runtime) (cs : list Call) (w : World) : World :=
  match cs with
  | nil => w
  | c :: rest => performAll rt rest (perform rt c w)
  end.



(** A string without white space. *)
Definition noWs (s : string) : bool := Str.all (fun c => negb (Str.is_ws c)) s.

(** Every key of [db.orders] is a trimmed, non-empty string. *)
Definition ordersKeyed (w : World) : Prop :=
  forall k o, orders w !! k = Some o -> Str.trim k = k /\ k <> "".

(** The ids [startDemoCheckout] gives the payment and the event it
    creates from the store [w]. *)
Definition nextPaymentId (rt : Runtime) (w : World) : string :=
  "pay" +:+ "_" +:+ Str.hex (List.map (entropy rt (draws w)) (seq 0 8)).
Definition nextEventId (rt : Runtime) (w : World) : string :=
  "whk" +:+ "_" +:+ Str.hex (List.map (entropy rt (S (draws w))) (seq 0 8)).

(** The payload [startDemoCheckout] builds in the store [w]. *)
Definition checkoutPayload (rt : Runtime) (w : World) (schoolId orderId oc : string)
  : JsObject :=
  ("provider", "DEMO") :: ("eventId", nextEventId rt w) :: ("schoolId", schoolId) ::
  ("orderId", orderId) :: ("paymentId", nextPaymentId rt w) :: ("result", oc) ::
  ("ts", toISOString rt (clock rt (S (S (ticks w))))) :: nil.

(** The host suffix of every default subdomain. *)
Definition platformSuffix : string := "." +:+ baseDomain.

(** The tenant directory of a reachable store: custom-domain keys are
    non-empty, lie outside the platform's base domain and map to non-empty
    ids; subdomain keys lie under the base domain and map to non-empty
    school ids; every domain record has a non-empty id. *)
Definition directoryKeyed (w : World) : Prop :=
  (forall h did, byCustomDomain w !! h = Some did ->
     h <> "" /\ did <> "" /\ Str.endsWith platformSuffix h = false) /\
  (forall h sid, bySubdomain w !! h = Some sid ->
     sid <> "" /\ Str.endsWith platformSuffix h = true) /\
  Forall (fun kv => dom_id (snd kv) <> "") (domains w).

(** The calls of [domainScenario]. *)
Definition domainCalls : list Call :=
  CreateSchool "Escola Alpha" "alpha" ::
  CreateSchool "Escola Beta" "beta" ::
  RequestCustomDomain alphaId "cursos.alpha.com.br" ::
  VerifyCustomDomain alphaId "cursos.alpha.com.br" "0a0a0a0a0a0a0a0a0a0a0a0a" ::
  RequestCustomDomain alphaId "https://Loja.Alpha.com.br/path" :: nil.

(** ** A run that stops at a DRAFT course *)
Definition draftScenario : M (School * Course) :=
  a <- createSchool demoRuntime "Escola Alpha" "alpha";;
  c <- createCourseAI demoRuntime (school_id a) "Node Essencial" "Base" 199.9%float "" None;;
  ret (a, c).

Definition draftWorld : World := Eval vm_compute in exec draftScenario emptyWorld.

Definition draftCourseId : string :=
  Eval vm_compute in
    match outcome draftScenario emptyWorld with
    | Ok (_, c) => course_id c
    | Throw _ => ""
    end.

(** ** The ASCII range *)

(** A string of ASCII characters: the range on which [Str.toLowerCase],
    [Str.toUpperCase] and [Str.trim] are the JavaScript methods, and the
    length in bytes is the JavaScript [length]. *)
Definition asciiOnly (s : string) : bool :=
  Str.all (fun c => Nat.ltb (nat_of_ascii c) 128) s.


(** * The rest of the core and the HTML helpers of [src/server.js] *)

From stdpp Require Import sorting.

(** ** HTML helpers *)

Module Html.

(** [s.replaceAll(c, rep)] for a pattern of one character. *)
Fixpoint replaceAll (c : ascii) (rep s : string) : string :=
  match s with
  | String a r => (if bool_decide (a = c) then rep else String a "") +:+ replaceAll c rep r
  | EmptyString => EmptyString
  end.

Definition quot : ascii := ascii_of_nat 34.

(** [esc(s)] for a string, [null] or [undefined] ([None]). *)
Definition esc (s : option string) : string :=
  replaceAll quot "&quot;"
    (replaceAll ">" "&gt;"
       (replaceAll "<" "&lt;"
          (replaceAll "&" "&amp;" (default "" s)))).

(** [link(href, text)]; a missing or empty [text] shows the [href]. *)
Definition link (href text : string) : string :=
  "<a href=" +:+ dq +:+ href +:+ dq +:+ ">" +:+
  esc (Some (if Str.empty text then href else text)) +:+ "</a>".

(** The characters [esc] rewrites, and what one pass over the string
    makes of each character. *)
Definition special (c : ascii) : bool :=
  bool_decide (c = "&"%char) || bool_decide (c = "<"%char) ||
  bool_decide (c = ">"%char) || bool_decide (c = quot).

Definition entity (c : ascii) : string :=
  if bool_decide (c = "&"%char) then "&amp;"
  else if bool_decide (c = "<"%char) then "&lt;"
  else if bool_decide (c = ">"%char) then "&gt;"
  else if bool_decide (c = quot) then "&quot;"
  else String c "".

Fixpoint entities (s : string) : string :=
  match s with
  | String c r => entity c +:+ entities r
  | EmptyString => EmptyString
  end.

End Html.

(** ** Hosts and domains *)

(** A character of a host name: no white space, no [/] and no [:]. *)
Definition hostChar (c : ascii) : bool :=
  negb (Str.is_ws c) && negb (bool_decide (c = "/"%char)) && negb (bool_decide (c = ":"%char)).

(** A host as it is written in a URL: not empty, made of host characters. *)
Definition hostLike (h : string) : bool := negb (Str.empty h) && Str.all hostChar h.

(** A string of white space only. *)
Definition blank (s : string) : bool := Str.all Str.is_ws s.

(** The order [Array.prototype.sort()] puts strings in. *)
Definition lebP (a b : string) : Prop := String.leb a b = true.

(** ** Calls and what they leave of the store *)

(** The message of the error a call ended with, if it threw. *)
Definition failed {A} (r : Result A) : option string :=
  match r with
  | Throw e => Some e
  | Ok _ => None
  end.

(** The message a call throws from the store [w]; [None] when it returns. *)
Definition failure (rt : Runtime) (c : Call) (w : World) : option string :=
  match c with
  | CreateSchool n s => failed (outcome (createSchool rt n s) w)
  | SetSchoolStatus s st => failed (outcome (setSchoolStatus rt s st) w)
  | RequestCustomDomain s d => failed (outcome (requestCustomDomain rt s d) w)
  | VerifyCustomDomain s d t => failed (outcome (verifyCustomDomain rt s d t) w)
  | RotateWebhookSecret s => failed (outcome (rotateWebhookSecret rt s) w)
  | CreateCourse ty s t d p c pr => failed (outcome (createCourse ty rt s t d p c pr) w)
  | Lifecycle op => failed (outcome (lifecycle rt op) w)
  | CreateOrder s c e => failed (outcome (createOrder rt s c e) w)
  | StartDemoCheckout s o oc => failed (outcome (startDemoCheckout rt s o oc) w)
  | ReceiveWebhook p pl sg => failed (outcome (receiveWebhook rt p pl sg) w)
  end.

Definition lifecycleSchool (op : LifecycleOp) : string :=
  match op with
  | GenerateStructure s _ _ | EditStructure s _ _ | Approve s _ | GenerateFull s _
  | SetImportStructure s _ _ | Publish s _ => s
  end.

Definition lifecycleCourse (op : LifecycleOp) : string :=
  match op with
  | GenerateStructure _ c _ | EditStructure _ c _ | Approve _ c | GenerateFull _ c
  | SetImportStructure _ c _ | Publish _ c => c
  end.

(** The school a call is made for, for the calls that begin with
    [assertSchoolActive(schoolId)]. *)
Definition tenant (c : Call) : option string :=
  match c with
  | RequestCustomDomain s _ | VerifyCustomDomain s _ _ | RotateWebhookSecret s
  | CreateCourse _ s _ _ _ _ _ | CreateOrder s _ _ | StartDemoCheckout s _ _ => Some s
  | Lifecycle op => Some (lifecycleSchool op)
  | CreateSchool _ _ | SetSchoolStatus _ _ | ReceiveWebhook _ _ _ => None
  end.

(** Two stores with the same [db] and the same indices; the counts of
    random draws and of clock readings may differ. *)
Definition sameDb (w w' : World) : Prop :=
  schools w' = schools w /\ domains w' = domains w /\ branding w' = branding w /\
  localization w' = localization w /\ gateway w' = gateway w /\
  courses w' = courses w /\ orders w' = orders w /\ payments w' = payments w /\
  webhookEvents w' = webhookEvents w /\ enrollments w' = enrollments w /\
  audit w' = audit w /\ byCustomDomain w' = byCustomDomain w /\
  bySubdomain w' = bySubdomain w /\
  courseIndex_bySchool w' = courseIndex_bySchool w /\
  orderIndex_bySchool w' = orderIndex_bySchool w /\
  orderIndex_byBuyer w' = orderIndex_byBuyer w /\
  orderIndex_byCourse w' = orderIndex_byCourse w /\
  bySchoolBuyerCourse w' = bySchoolBuyerCourse w.

(** [quiet m]: [m] writes nothing to [db] or to an index. *)
Definition quiet {A} (m : M A) : Prop := forall w, sameDb w (exec m w).

(** [sure m]: [m] does not throw. *)
Definition sure {A} (m : M A) : Prop := forall w, exists a, outcome m w = Ok a.

(** [throwsOnly E m]: the messages [m] may throw satisfy [E]. *)
Definition throwsOnly {A} (E : string -> Prop) (m : M A) : Prop :=
  forall w e, outcome m w = Throw e -> E e.

(** No message at all. *)
Definition never (e : string) : Prop := False.

(** [atomicBut E m]: when [m] throws a message outside [E], it has written
    nothing. *)
Definition atomicBut {A} (E : string -> Prop) (m : M A) : Prop :=
  forall w e, outcome m w = Throw e -> E e \/ sameDb w (exec m w).

(** ** Course content *)

(** What [editCourseStructure] requires of a structure, and what
    [validateImportStructure] requires. *)
Definition structureOk (s : option Structure) : bool :=
  hasModules s &&
  match validateModules (match s with Some x => modules x | None => nil end) with
  | None => true
  | Some _ => false
  end.

Definition importOk (s : option Structure) : bool :=
  hasModules s &&
  match validateImportModules (match s with Some x => modules x | None => nil end) with
  | None => true
  | Some _ => false
  end.

(** What [normalizeAiInputs] requires of the inputs it returns. *)
Definition inputsOk (i : AiInputs) : Prop :=
  theme i <> "" /\ audience i <> "" /\ level i <> "" /\ language i <> "" /\
  Num.isFinite (hours i) = true /\
  PrimFloat.ltb (hours i) 8%float = false /\ PrimFloat.ltb 40%float (hours i) = false.

(** The generated content follows the structure: the same modules, in
    the same order, each with the same lessons. *)
Definition mirrors (s : Structure) (f : FullContent) : Prop :=
  List.map fm_title (fc_modules f) = List.map module_title (modules s) /\
  List.map (fun m => List.map fl_title (fm_lessons m)) (fc_modules f)
  = List.map (fun m => List.map lesson_title (module_lessons m)) (modules s) /\
  fc_ebook_chapters f = List.map module_title (modules s).

(** What the state of a course says about its content. *)
Definition courseSound (c : Course) : Prop :=
  match course_state c with
  | DRAFT =>
      course_publishedAt c = None /\ course_aiInputs c = None /\
      course_structure c = None /\ course_fullContent c = None
  | DRAFTING_STRUCTURE | STRUCTURE_APPROVED =>
      course_type c = AI /\ course_publishedAt c = None /\
      structureOk (course_structure c) = true /\
      exists i, course_aiInputs c = Some i /\ inputsOk i
  | GENERATING_FULL => False
  | DRAFT_READY | PUBLISHED =>
      (course_state c = PUBLISHED <-> is_Some (course_publishedAt c)) /\
      match course_type c with
      | AI =>
          structureOk (course_structure c) = true /\
          (exists i, course_aiInputs c = Some i /\ inputsOk i) /\
          exists s f, course_structure c = Some s /\ course_fullContent c = Some f /\
                      mirrors s f
      | IMPORT =>
          importOk (course_structure c) = true /\ course_fullContent c = None /\
          course_aiInputs c = None
      end
  end.

Definition coursesSound (w : World) : Prop :=
  forall k c, courses w !! k = Some c ->
              courseSound c /\ course_id c = k /\ course_tags c = nil /\
              course_category c = None.

(** A title that is not blank. *)
Definition titled (t : string) : Prop := Str.trim t <> "".

(** A structure with at least one module, each module with a title and
    at least one lesson, each lesson with a title and, where
    [requireUrl], with an external URL. *)
Definition wellFormed (requireUrl : bool) (s : option Structure) : Prop :=
  exists ms,
    s = Some {| modules := ms |} /\ ms <> nil /\
    Forall (fun m =>
              titled (module_title m) /\ module_lessons m <> nil /\
              Forall (fun l => titled (lesson_title l) /\
                               (requireUrl = true -> titled (lesson_externalUrl l)))
                     (module_lessons m))
           ms.

(** The calls of [checkoutScenario]. *)
Definition checkoutCalls : list Call :=
  CreateSchool "Escola Alpha" "alpha" ::
  CreateCourse AI scenarioSchoolId "Node Essencial" "Base" 199.9%float "" None ::
  Lifecycle (GenerateStructure scenarioSchoolId scenarioCourseId demoInputs) ::
  Lifecycle (Approve scenarioSchoolId scenarioCourseId) ::
  Lifecycle (GenerateFull scenarioSchoolId scenarioCourseId) ::
  Lifecycle (Publish scenarioSchoolId scenarioCourseId) ::
  CreateOrder scenarioSchoolId scenarioCourseId " A@b.com " ::
  StartDemoCheckout scenarioSchoolId scenarioOrderId "approved" ::
  StartDemoCheckout scenarioSchoolId scenarioOrderId "declined" :: nil.

(** ** Schools and their slugs *)

(** Every school is stored under its own id, its slug is a slug, its
    name is not empty, and no other school has its slug. *)
Definition schoolsDistinct (w : World) : Prop :=
  forall k s,
    schools w !! k = Some s ->
    school_id s = k /\ isSlug (school_slug s) = true /\ school_name s <> "" /\
    forall k' s', schools w !! k' = Some s' -> school_slug s' = school_slug s -> k' = k.

(** ** Listings

    [Array.prototype.sort] with the comparator
    [(a, b) => (a.createdAt < b.createdAt ? -1 : 1)], which never answers
    0: the order of two elements created in the same millisecond is the
    engine's.  The listings take the sort as a parameter; what is proved
    of them holds for every sort that returns a permutation of its
    argument. *)
Section Listings.

Variable sortByCreatedAt : forall A : Type, (A -> string) -> list A -> list A.

(** [listSchools()]. *)
Definition listSchools (w : World) : list School :=
  sortByCreatedAt School school_createdAt (List.map snd (map_to_list (schools w))).

(** [getSchoolBySlug(slug)] of the HTML front-end; [None] is [null]. *)
Definition getSchoolBySlug (slug : string) (w : World) : option School :=
  List.find (fun s => Str.eqb (school_slug s) slug) (listSchools w).

End Listings.

(** A sort that keeps the elements it is given. *)
Definition permutes (sort : forall A : Type, (A -> string) -> list A -> list A) : Prop :=
  forall A key l, sort A key l ≡ₚ l.

(** Insertion sort by [createdAt], an element going after the ones that
    are not later than it. *)
Fixpoint insertByKey {A} (key : A -> string) (x : A) (l : list A) : list A :=
  match l with
  | nil => x :: nil
  | y :: r => if String.ltb (key x) (key y) then x :: l else y :: insertByKey key x r
  end.

Definition insertionSort (A : Type) (key : A -> string) (l : list A) : list A :=
  fold_left (fun acc x => insertByKey key x acc) l nil.

(** ** Domain records *)

(** Every record of [db.domains] is stored under its own id, once. *)
Definition domainsKeyed (w : World) : Prop :=
  Forall (fun kv => dom_id (snd kv) = fst kv) (domains w) /\
  NoDup (JsMap.keys (domains w)).

(** What [verifyCustomDomain] makes of the record it verifies. *)
Definition verifiedAs (verifiedAt : string) (cfg : DomainConfig) : DomainConfig :=
  {| dom_id := dom_id cfg; dom_schoolId := dom_schoolId cfg; dom_type := dom_type cfg;
     dom_domain := dom_domain cfg; dom_verified := true;
     dom_verificationToken := dom_verificationToken cfg;
     dom_createdAt := dom_createdAt cfg; dom_verifiedAt := Some verifiedAt |}.

(** The conditions under which [verifyCustomDomain(schoolId, domain,
    token)] goes through, [cfg] being the record it verifies. *)
Definition verifiable (schoolId domain token : string) (cfg : DomainConfig) (w : World)
  : Prop :=
  (exists s, schools w !! schoolId = Some s /\ school_status s = ACTIVE) /\
  byCustomDomain w !! normalizeDomain domain = Some (dom_id cfg) /\
  dom_id cfg <> "" /\
  JsMap.get (dom_id cfg) (domains w) = Some cfg /\
  dom_type cfg = custom /\ dom_schoolId cfg = schoolId /\
  Str.trim token <> "" /\ dom_verificationToken cfg = Some (Str.trim token).

(** ** Reads of a school's records *)

(** [if (!db.schools.has(schoolId)) throw new Error("SCHOOL_NOT_FOUND")],
    the first line of every read by school id. *)
Definition schoolKnown (schoolId : string) : M unit :=
  os <- gets (fun w => schools w !! schoolId);;
  match os with
  | Some _ => ret tt
  | None => throw "SCHOOL_NOT_FOUND"
  end.

(** [getBranding(schoolId)]; [None] is [null]. *)
Definition getBranding (schoolId : string) : M (option Branding) :=
  schoolKnown schoolId;;;
  gets (fun w => branding w !! schoolId).

(** [getLocalization(schoolId)]. *)
Definition getLocalization (schoolId : string) : M (option Localization) :=
  schoolKnown schoolId;;;
  gets (fun w => localization w !! schoolId).

(** [getGatewayConfig(schoolId)]. *)
Definition getGatewayConfig (schoolId : string) : M (option GatewayConfig) :=
  schoolKnown schoolId;;;
  gets (fun w => gateway w !! schoolId).

Record SchoolStats : Type := {
  stats_schoolId : string;
  coursesCount : nat;
  ordersCount : nat
}.

(** [getSchoolStats(schoolId)]: the sizes of the two index sets. *)
Definition getSchoolStats (schoolId : string) : M SchoolStats :=
  schoolKnown schoolId;;;
  gets (fun w =>
    {| stats_schoolId := schoolId;
       coursesCount := length (default nil (courseIndex_bySchool w !! schoolId));
       ordersCount := length (default nil (orderIndex_bySchool w !! schoolId)) |}).

(** The default host of a school, [`${slug}.${PLATFORM.baseDomain}`]. *)
Definition defaultHost (slug : string) : string := slug +:+ "." +:+ baseDomain.

(** ** The public site of a school *)

Record CoursePublicData : Type := {
  pub_id : string;
  pub_title : string;
  pub_description : string;
  pub_type : CourseType;
  pub_currency : string;
  pub_price : float;
  pub_effectivePrice : float;
  pub_promo : option Promo;
  pub_publishedAt : option string
}.

(** [getCoursePublicData(course)]; the effective price is the one of the
    moment, [getEffectivePrice] reading the clock for its default
    argument. *)
Definition getCoursePublicData (rt : Runtime) (course : Course) : M CoursePublicData :=
  now <- readClock rt;;
  let effective := getEffectivePrice rt (course_pricing course) now in
  ret {| pub_id := course_id course;
         pub_title := course_title course;
         pub_description := course_description course;
         pub_type := course_type course;
         pub_currency := currency (course_pricing course);
         pub_price := price (course_pricing course);
         pub_effectivePrice := effective;
         pub_promo := promo (course_pricing course);
         pub_publishedAt := course_publishedAt course |}.

Record HomeSchool : Type := {
  hs_id : string;
  hs_slug : string;
  hs_name : string;
  hs_status : SchoolStatus
}.

Record Home : Type := {
  home_school : HomeSchool;
  home_branding : option Branding;
  home_localization : option Localization
}.

(** [publicHome({ host })]; [None] is [null]. *)
Definition publicHome (host : string) (w : World) : option Home :=
  match resolveSchoolByHost host w with
  | None => None
  | Some school =>
      Some {| home_school := {| hs_id := school_id school; hs_slug := school_slug school;
                                hs_name := school_name school;
                                hs_status := school_status school |};
              home_branding := branding w !! school_id school;
              home_localization := localization w !! school_id school |}
  end.

Record PreviewLesson : Type := { pl_title : string }.

Record PreviewModule : Type := {
  pm_title : string;
  pm_lessons : list PreviewLesson
}.

Record CoursePage : Type := {
  page_course : CoursePublicData;
  page_preview : list PreviewModule;
  cta_action : string;
  cta_courseId : string
}.

(** [(course.structure?.modules || []).map(...)]: titles only. *)
Definition previewOf (structure : option Structure) : list PreviewModule :=
  List.map (fun m => {| pm_title := module_title m;
                        pm_lessons := List.map (fun l => {| pl_title := lesson_title l |})
                                               (module_lessons m) |})
           (match structure with Some s => modules s | None => nil end).

(** [publicGetCoursePage({ host, courseId })]; [None] is [null]. *)
Definition publicGetCoursePage (rt : Runtime) (host courseId : string)
  : M (option CoursePage) :=
  os <- gets (resolveSchoolByHost host);;
  match os with
  | None => ret None
  | Some school =>
      oc <- gets (fun w => courses w !! courseId);;
      match oc with
      | None => ret None
      | Some course =>
          if negb (Str.eqb (course_schoolId course) (school_id school)) then ret None
          else
            match course_state course with
            | PUBLISHED =>
                data <- getCoursePublicData rt course;;
                ret (Some {| page_course := data;
                             page_preview := previewOf (course_structure course);
                             cta_action := "BUY";
                             cta_courseId := course_id course |})
            | _ => ret None
            end
      end
  end.

(** [xs.map(f)] for an [f] that reads the clock. *)
Fixpoint mapM {A B} (f : A -> M B) (l : list A) : M (list B) :=
  match l with
  | nil => ret nil
  | x :: r => y <- f x;; ys <- mapM f r;; ret (y :: ys)
  end.

Definition isPublished (c : Course) : bool :=
  match course_state c with PUBLISHED => true | _ => false end.

(** The filter of [publicListCourses], [query], [tg] and [cat] being the
    trimmed lower-case arguments; an empty one filters nothing. *)
Definition matchesFilters (query tg cat : string) (c : Course) : bool :=
  (if Str.empty query then true
   else Str.includes query
          (Str.toLowerCase (course_title c +:+ " " +:+ course_description c))) &&
  (if Str.empty tg then true
   else bool_decide (tg ∈ List.map Str.toLowerCase (course_tags c))) &&
  (if Str.empty cat then true
   else match course_category c with
        | Some x => negb (Str.empty x) && Str.eqb (Str.toLowerCase x) cat
        | None => false
        end).

Section PublicListings.

Variable sortByCreatedAt : forall A : Type, (A -> string) -> list A -> list A.

(** [listCoursesBySchool(schoolId)]: the indexed ids that still lead to a
    course, in the order of the sort. *)
Definition listCoursesBySchool (schoolId : string) : M (list Course) :=
  schoolKnown schoolId;;;
  gets (fun w =>
    sortByCreatedAt Course course_createdAt
      (omap (fun id => courses w !! id)
            (default nil (courseIndex_bySchool w !! schoolId)))).

(** [publicListCourses({ host, q, tag, category })]; a missing argument
    is the empty string. *)
Definition publicListCourses (rt : Runtime) (host q tag category : string)
  : M (option (list CoursePublicData)) :=
  os <- gets (resolveSchoolByHost host);;
  match os with
  | None => ret None
  | Some school =>
      listed <- listCoursesBySchool (school_id school);;
      let all := List.filter isPublished listed in
      let query := Str.toLowerCase (Str.trim q) in
      let tg := Str.toLowerCase (Str.trim tag) in
      let cat := Str.toLowerCase (Str.trim category) in
      let filtered := List.filter (matchesFilters query tg cat) all in
      out <- mapM (getCoursePublicData rt) filtered;;
      ret (Some out)
  end.

(** [listOrdersByBuyer({ schoolId, buyerEmail })]. *)
Definition listOrdersByBuyer (schoolId buyerEmail : string) : M (list Order) :=
  schoolKnown schoolId;;;
  let email := Str.toLowerCase (Str.trim buyerEmail) in
  gets (fun w =>
    sortByCreatedAt Order order_createdAt
      (omap (fun id => orders w !! id)
            (default nil (orderIndex_byBuyer w !! (schoolId +:+ ":" +:+ email))))).

End PublicListings.

(** Every course is in the index of its school. *)
Definition coursesIndexed (w : World) : Prop :=
  forall k c, courses w !! k = Some c ->
              k ∈ default nil (courseIndex_bySchool w !! course_schoolId c).

(** What [getCoursePublicData] makes of [course] when the clock is read
    at [now]. *)
Definition publicDataAt (rt : Runtime) (now : Z) (course : Course) : CoursePublicData :=
  {| pub_id := course_id course;
     pub_title := course_title course;
     pub_description := course_description course;
     pub_type := course_type course;
     pub_currency := currency (course_pricing course);
     pub_price := price (course_pricing course);
     pub_effectivePrice := getEffectivePrice rt (course_pricing course) now;
     pub_promo := promo (course_pricing course);
     pub_publishedAt := course_publishedAt course |}.

(** ** A second purchase in [checkoutScenario] *)

Definition noOrder : Order :=
  {| order_id := ""; order_schoolId := ""; order_courseId := ""; order_buyerEmail := "";
     order_amount := 0%float; order_currency := ""; order_status := PENDING;
     order_createdAt := ""; order_updatedAt := ""; order_paidAt := None |}.

(** The order of a second buyer, and the store it leaves. *)
Definition purchaseOrder : Order :=
  Eval vm_compute in
    match outcome (createOrder demoRuntime scenarioSchoolId scenarioCourseId
                               " Ana@Exemplo.com ") checkoutWorld with
    | Ok o => o
    | Throw _ => noOrder
    end.

Definition orderedWorld : World :=
  Eval vm_compute in
    exec (createOrder demoRuntime scenarioSchoolId scenarioCourseId " Ana@Exemplo.com ")
         checkoutWorld.

(** Its checkout, approved, and the store that leaves. *)
Definition purchaseCheckout : Checkout :=
  Eval vm_compute in
    match outcome (startDemoCheckout demoRuntime scenarioSchoolId (order_id purchaseOrder)
                                     "approved") orderedWorld with
    | Ok k => k
    | Throw _ => noCheckout
    end.

Definition checkedOutWorld : World :=
  Eval vm_compute in
    exec (startDemoCheckout demoRuntime scenarioSchoolId (order_id purchaseOrder) "approved")
         orderedWorld.

(** Every id in a course index leads to a course. *)
Definition courseIndexSound (w : World) : Prop :=
  forall sid ids id, courseIndex_bySchool w !! sid = Some ids -> id ∈ ids ->
                     is_Some (courses w !! id).

(** ** The audit trail *)

Section AuditListing.

Variable sortByCreatedAt : forall A : Type, (A -> string) -> list A -> list A.

(** [listAuditBySchool(schoolId)]. *)
Definition listAuditBySchool (schoolId : string) (w : World) : list AuditEvent :=
  sortByCreatedAt AuditEvent audit_createdAt
    (List.filter (fun a => bool_decide (audit_schoolId a = Some schoolId))
                 (List.map snd (map_to_list (audit w)))).

End AuditListing.

(** The id [createSchool] gives the school it creates from the store [w]. *)
Definition nextSchoolId (rt : Runtime) (w : World) : string :=
  "sch" +:+ "_" +:+ Str.hex (List.map (entropy rt (draws w)) (seq 0 8)).

(** The school a call is about. *)
Definition subject (rt : Runtime) (c : Call) (w : World) : string :=
  match c with
  | CreateSchool _ _ => nextSchoolId rt w
  | SetSchoolStatus s _ | RequestCustomDomain s _ | VerifyCustomDomain s _ _
  | RotateWebhookSecret s | CreateCourse _ s _ _ _ _ _ | CreateOrder s _ _
  | StartDemoCheckout s _ _ => s
  | Lifecycle op => lifecycleSchool op
  | ReceiveWebhook _ payload _ => webhookSchoolId payload
  end.

(** The action under which a call is logged when it returns. *)
Definition actionsOf (c : Call) : list string :=
  match c with
  | CreateSchool _ _ => "SCHOOL_CREATED" :: nil
  | SetSchoolStatus _ _ => "SCHOOL_STATUS_CHANGED" :: nil
  | RequestCustomDomain _ _ => "DOMAIN_CUSTOM_REQUESTED" :: "DOMAIN_CUSTOM_REREQUESTED" :: nil
  | VerifyCustomDomain _ _ _ => "DOMAIN_CUSTOM_VERIFIED" :: nil
  | RotateWebhookSecret _ => "GATEWAY_WEBHOOK_SECRET_ROTATED" :: nil
  | CreateCourse _ _ _ _ _ _ _ => "COURSE_CREATED" :: nil
  | Lifecycle (GenerateStructure _ _ _) => "COURSE_STRUCTURE_GENERATED" :: nil
  | Lifecycle (EditStructure _ _ _) => "COURSE_STRUCTURE_EDITED" :: nil
  | Lifecycle (Approve _ _) => "COURSE_STRUCTURE_APPROVED" :: nil
  | Lifecycle (GenerateFull _ _) => "COURSE_FULL_GENERATED" :: nil
  | Lifecycle (SetImportStructure _ _ _) => "COURSE_IMPORT_STRUCTURE_SET" :: nil
  | Lifecycle (Publish _ _) => "COURSE_PUBLISHED" :: nil
  | CreateOrder _ _ _ => "ORDER_CREATED" :: nil
  | StartDemoCheckout _ _ _ => "CHECKOUT_STARTED" :: nil
  | ReceiveWebhook _ _ _ => "WEBHOOK_RECEIVED" :: nil
  end.

(** A call that is not the replay of a recorded webhook event. *)
Definition notReplay (c : Call) (w : World) : Prop :=
  match c with
  | ReceiveWebhook _ payload _ => firstTime w payload
  | _ => True
  end.

(** What a computation that returns has logged: an event of [schoolId]
    with one of the [actions], on record under its own id. *)
Definition logs {A} (schoolId : string) (actions : list string) (m : M A) (w : World) : Prop :=
  wp m (fun r w' =>
          forall a, r = Ok a ->
            exists evt, audit w' !! audit_id evt = Some evt /\
                        audit_schoolId evt = Some schoolId /\
                        audit_action evt ∈ actions) w.

(** ** Enrolments *)

(** Every entry of the enrolment index names an enrolment id. *)
Definition enrolmentsIndexed (w : World) : Prop :=
  forall k v, bySchoolBuyerCourse w !! k = Some v -> v <> "".

(** ** Markup *)

(** How many times [c] occurs in [s]. *)
Fixpoint occurrences (c : ascii) (s : string) : nat :=
  match s with
  | String a r => (if bool_decide (a = c) then 1 else 0) + occurrences c r
  | EmptyString => 0
  end.

(** * Reasoning about calls

    The rules of [wp] follow the shape of a computation; [wp_run] steps
    through one. *)


Lemma wp_ret {A} (a : A) Q w : Q (Ok a) w -> wp (ret a) Q w.
Proof. exact (fun H => H). Qed.

Lemma wp_throw {A} (e : string) (Q : Result A -> World -> Prop) w :
  Q (Throw e) w -> wp (throw e) Q w.
Proof. exact (fun H => H). Qed.

Lemma wp_gets {A} (f : World -> A) Q w : Q (Ok (f w)) w -> wp (gets f) Q w.
Proof. exact (fun H => H). Qed.

Lemma wp_modify (f : World -> World) Q w : Q (Ok tt) (f w) -> wp (modify f) Q w.
Proof. exact (fun H => H). Qed.

Lemma wp_bind {A B} (m : M A) (k : A -> M B) Q w :
  wp m (fun r w' => match r with
                    | Ok a => wp (k a) Q w'
                    | Throw e => Q (Throw e) w'
                    end) w ->
  wp (bind m k) Q w.
Proof.
  unfold wp, outcome, exec, bind. destruct (m w) as [[a|e] w']; simpl; auto.
Qed.

Lemma wp_throwIf (c : bool) (e : string) Q w :
  (c = true -> Q (Throw e) w) -> (c = false -> Q (Ok tt) w) -> wp (throwIf c e) Q w.
Proof. destruct c; unfold wp, outcome, exec; simpl; auto. Qed.

Lemma wp_orThrow {A} (o : option A) (e : string) Q w :
  (o = None -> Q (Throw e) w) -> (forall a, o = Some a -> Q (Ok a) w) ->
  wp (orThrow o e) Q w.
Proof. destruct o; unfold wp, outcome, exec; simpl; auto. Qed.

Lemma wp_liftResult {A} (r : Result A) Q w :
  (forall e, r = Throw e -> Q (Throw e) w) -> (forall a, r = Ok a -> Q (Ok a) w) ->
  wp (liftResult r) Q w.
Proof. destruct r; unfold wp, outcome, exec; simpl; auto. Qed.

Lemma wp_readClock rt Q w :
  Q (Ok (clock rt (ticks w))) (upd_ticks S w) -> wp (readClock rt) Q w.
Proof. exact (fun H => H). Qed.

Lemma wp_randomBytes rt n Q w :
  Q (Ok (List.map (entropy rt (draws w)) (seq 0 n))) (upd_draws S w) ->
  wp (randomBytes rt n) Q w.
Proof. exact (fun H => H). Qed.

Lemma wp_outcome {A} (m : M A) (r : Result A) w :
  wp m (fun r' _ => r' = r) w -> outcome m w = r.
Proof. exact (fun H => H). Qed.

Lemma wp_result {A} (m : M A) (r : Result A) (w w0 : World) :
  wp m (fun r' w' => r' = r /\ w' = w0) w -> m w = (r, w0).
Proof.
  unfold wp, outcome, exec. destruct (m w) as [r' w']. simpl.
  intros [-> ->]. reflexivity.
Qed.

Lemma wp_pair {A} (m : M A) w :
  wp m (fun r w' => m w = (r, w')) w.
Proof. unfold wp, outcome, exec. destruct (m w); reflexivity. Qed.

Lemma wp_eq {A} (m : M A) Q w r w' : m w = (r, w') -> (wp m Q w <-> Q r w').
Proof. unfold wp, outcome, exec. intros ->. reflexivity. Qed.

Lemma wp_mono {A} (m : M A) (Q Q' : Result A -> World -> Prop) w :
  (forall r w', Q r w' -> Q' r w') -> wp m Q w -> wp m Q' w.
Proof. unfold wp. auto. Qed.

Ltac wp_head m :=
  lazymatch m with
  | ?f _ _ _ _ _ _ _ _ => f
  | ?f _ _ _ _ _ _ _ => f
  | ?f _ _ _ _ _ _ => f
  | ?f _ _ _ _ _ => f
  | ?f _ _ _ _ => f
  | ?f _ _ _ => f
  | ?f _ _ => f
  | ?f _ => f
  | ?f => f
  end.

(** Field reads through field updates. *)
Ltac world_simpl :=
  cbn [schools domains branding localization gateway courses orders payments
       webhookEvents enrollments audit byCustomDomain bySubdomain
       courseIndex_bySchool orderIndex_bySchool orderIndex_byBuyer
       orderIndex_byCourse bySchoolBuyerCourse draws ticks
       upd_schools upd_domains upd_branding upd_localization upd_gateway
       upd_courses upd_orders upd_payments upd_webhookEvents upd_enrollments
       upd_audit upd_byCustomDomain upd_bySubdomain upd_courseIndex_bySchool
       upd_orderIndex_bySchool upd_orderIndex_byBuyer upd_orderIndex_byCourse
       upd_bySchoolBuyerCourse upd_draws upd_ticks].

(** One step of a computation.  A guard leaves its condition in the
    context; an option or a boolean that decides the next command is
    split. *)
Ltac wp_step :=
  lazymatch goal with
  | |- wp (bind _ _) _ _ => apply wp_bind
  | |- wp (ret _) _ _ => apply wp_ret
  | |- wp (throw _) _ _ => apply wp_throw
  | |- wp (gets _) _ _ => apply wp_gets
  | |- wp (modify _) _ _ => apply wp_modify
  | |- wp (throwIf _ _) _ _ =>
      apply wp_throwIf; let H := fresh "Hguard" in intros H
  | |- wp (orThrow _ _) _ _ =>
      apply wp_orThrow; [ let H := fresh "Hnone" in intros H
                        | let a := fresh "a" in let H := fresh "Hsome" in intros a H ]
  | |- wp (liftResult _) _ _ =>
      apply wp_liftResult; [ let e := fresh "e" in let H := fresh "Hthrow" in intros e H
                           | let a := fresh "a" in let H := fresh "Hok" in intros a H ]
  | |- wp (readClock _) _ _ => apply wp_readClock
  | |- wp (randomBytes _ _) _ _ => apply wp_randomBytes
  | |- wp (match ?x with _ => _ end) _ _ =>
      let E := fresh "Hcase" in destruct x eqn:E
  | |- wp (let _ := _ in _) _ _ => cbv zeta
  | |- wp ?m _ _ => let f := wp_head m in unfold f
  end; cbv beta iota; world_simpl.

(** Runs a computation to its ends; [tac] is tried after every step, to
    bring in what is known about the store, and branches whose path
    condition is absurd are closed. *)
Ltac wp_run_by tac := repeat (wp_step; try tac; try discriminate).

Ltac wp_run := wp_run_by idtac.

(** ** Preservation *)

Lemma preserves_ret {A} I (a : A) : preserves I (ret a).
Proof. exact (fun _ H => H). Qed.

Lemma preserves_throw {A} I (e : string) : preserves I (@throw A e).
Proof. exact (fun _ H => H). Qed.

Lemma preserves_gets {A} I (f : World -> A) : preserves I (gets f).
Proof. exact (fun _ H => H). Qed.

Lemma preserves_throwIf I (c : bool) (e : string) : preserves I (throwIf c e).
Proof. destruct c; exact (fun _ H => H). Qed.

Lemma preserves_orThrow {A} I (o : option A) (e : string) : preserves I (orThrow o e).
Proof. destruct o; exact (fun _ H => H). Qed.

Lemma preserves_liftResult {A} I (r : Result A) : preserves I (liftResult r).
Proof. destruct r; exact (fun _ H => H). Qed.

Lemma preserves_modify I (f : World -> World) :
  (forall w, I w -> I (f w)) -> preserves I (modify f).
Proof. exact (fun H => H). Qed.

Lemma preserves_readClock I rt :
  (forall w, I w -> I (upd_ticks S w)) -> preserves I (readClock rt).
Proof. exact (fun H => H). Qed.

Lemma preserves_randomBytes I rt n :
  (forall w, I w -> I (upd_draws S w)) -> preserves I (randomBytes rt n).
Proof. exact (fun H => H). Qed.

Lemma preserves_bind {A B} I (m : M A) (k : A -> M B) :
  preserves I m -> (forall a, preserves I (k a)) -> preserves I (bind m k).
Proof.
  intros Hm Hk w Hw. specialize (Hm w Hw). unfold exec, bind in *.
  destruct (m w) as [[a|e] w']; simpl in *; [ apply Hk; exact Hm | exact Hm ].
Qed.

(** One rule per command; a store update leaves the obligation that the
    update keeps [I]. *)
Ltac pres_step :=
  lazymatch goal with
  | |- preserves _ (bind _ _) => apply preserves_bind; [ | intro ]
  | |- preserves _ (ret _) => apply preserves_ret
  | |- preserves _ (throw _) => apply preserves_throw
  | |- preserves _ (gets _) => apply preserves_gets
  | |- preserves _ (throwIf _ _) => apply preserves_throwIf
  | |- preserves _ (orThrow _ _) => apply preserves_orThrow
  | |- preserves _ (liftResult _) => apply preserves_liftResult
  | |- preserves _ (modify _) => apply preserves_modify
  | |- preserves _ (readClock _) => apply preserves_readClock
  | |- preserves _ (randomBytes _ _) => apply preserves_randomBytes
  | |- preserves _ (match ?x with _ => _ end) => destruct x
  | |- preserves _ (let _ := _ in _) => cbv zeta
  | |- preserves _ ?m => let f := wp_head m in unfold f
  end.

Ltac pres_run := repeat pres_step.

(** Closes the obligations of a frame property: the updated field is not
    the one the property reads. *)
Ltac frame_run := pres_run; try (intros ? Hframe; exact Hframe).

(** ** Strings *)

Lemma eqb_true (a b : string) : Str.eqb a b = true <-> a = b.
Proof. unfold Str.eqb. apply bool_decide_eq_true. Qed.

Lemma eqb_false (a b : string) : Str.eqb a b = false <-> a <> b.
Proof. unfold Str.eqb. apply bool_decide_eq_false. Qed.

Lemma eqb_refl (a : string) : Str.eqb a a = true.
Proof. apply eqb_true. reflexivity. Qed.

Lemma empty_true (s : string) : Str.empty s = true <-> s = "".
Proof. destruct s; simpl; split; congruence. Qed.

Lemma empty_false (s : string) : Str.empty s = false <-> s <> "".
Proof. destruct s; simpl; split; congruence. Qed.

Lemma trimStart_tight (s : string) : tight (Str.trimStart s).
Proof.
  induction s as [|c r IH]; simpl; [ exact I | ].
  destruct (Str.is_ws c) eqn:E; [ exact IH | exact E ].
Qed.

Lemma trimStart_of_tight (s : string) : tight s -> Str.trimStart s = s.
Proof. destruct s as [|c r]; simpl; [ reflexivity | intros ->; reflexivity ]. Qed.

Lemma trimEnd_tight (s : string) : tight s -> tight (Str.trimEnd s).
Proof.
  destruct s as [|c r]; simpl; [ exact (fun H => H) | ].
  intros E. destruct (Str.trimEnd r); [ rewrite E | ]; exact E.
Qed.

Lemma trimEnd_idem (s : string) : Str.trimEnd (Str.trimEnd s) = Str.trimEnd s.
Proof.
  induction s as [|c r IH]; simpl; [ reflexivity | ].
  destruct (Str.trimEnd r) as [|c' r'] eqn:E.
  - destruct (Str.is_ws c) eqn:Ec; simpl; [ reflexivity | rewrite Ec; reflexivity ].
  - change (Str.trimEnd (String c (String c' r'))) with
      (match Str.trimEnd (String c' r') with
       | EmptyString => if Str.is_ws c then EmptyString else String c EmptyString
       | r0 => String c r0
       end).
    rewrite IH. reflexivity.
Qed.

(** [trim] is idempotent: an id that was trimmed once is its own trim. *)
Lemma trim_idem (s : string) : Str.trim (Str.trim s) = Str.trim s.
Proof.
  unfold Str.trim.
  rewrite (trimStart_of_tight (Str.trimEnd (Str.trimStart s))).
  - apply trimEnd_idem.
  - apply trimEnd_tight, trimStart_tight.
Qed.

Lemma truthy_Some (s : string) : truthy (Some s) = true <-> s <> "".
Proof. unfold truthy. rewrite negb_true_iff. apply empty_false. Qed.

Lemma truthy_spec (o : option string) :
  truthy o = true <-> exists s, o = Some s /\ s <> "".
Proof.
  destruct o as [s|]; simpl.
  - rewrite negb_true_iff, empty_false. split; [ eauto | intros (? & [= <-] & H); exact H ].
  - split; [ discriminate | intros (? & [=] & _) ].
Qed.

Lemma isOutcome_spec (s : string) :
  isOutcome s = true <-> s = "APPROVED" \/ s = "DECLINED".
Proof. unfold isOutcome. rewrite orb_true_iff, !eqb_true. reflexivity. Qed.

(** ** Path conditions *)

(** Turns the guards a run left in the context into equations. *)
Ltac guards :=
  repeat match goal with
  | H : negb _ = false |- _ => apply negb_false_iff in H
  | H : negb _ = true |- _ => apply negb_true_iff in H
  | H : _ || _ = false |- _ => apply orb_false_iff in H; destruct H
  | H : _ || _ = true |- _ => apply orb_true_iff in H; destruct H
  | H : _ && _ = false |- _ => apply andb_false_iff in H; destruct H
  | H : _ && _ = true |- _ => apply andb_true_iff in H; destruct H
  | H : Str.eqb _ _ = true |- _ => apply eqb_true in H
  | H : Str.eqb _ _ = false |- _ => apply eqb_false in H
  | H : Str.empty _ = true |- _ => apply empty_true in H
  | H : Str.empty _ = false |- _ => apply empty_false in H
  | H : bool_decide _ = true |- _ => apply bool_decide_eq_true in H
  | H : bool_decide _ = false |- _ => apply bool_decide_eq_false in H
  end.

(** Closes a branch whose guards contradict what is known. *)
Ltac absurd_path :=
  exfalso; guards;
  repeat match goal with
  | H : match ?x with _ => _ end = _ |- _ => destruct x eqn:?; try discriminate
  end;
  congruence.

(** * Properties *)

(** ** Pricing *)

Example normalizePricing_demo :
  normalizePricing 199.9%float "brl"
    (Some {| pi_type := "percent"; pi_value := 20%float; pi_untilIso := demoUntil |})
  = Ok demoPricing.
Proof. vm_compute. reflexivity. Qed.

(** C4. [getEffectivePrice] returns the base price when the pricing has no
    promo and when [now] is past the promo's [untilIso]; while the promo
    is running ([now <= untilIso]) a PERCENT promo gives
    [round2(price * (1 - value / 100))] and a FIXED promo gives
    [round2(price - value)].  For 199.90 with 20 percent off until T the
    result is 159.92 before T and 199.90 after T.  The function is a total
    function of its arguments: it reads no store and throws nowhere. *)
Theorem getEffectivePrice_spec (rt : Runtime) (pricing : Pricing) (now : Z) :
  (promo pricing = None -> getEffectivePrice rt pricing now = price pricing) /\
  (forall pr until,
      promo pricing = Some pr -> Date_parse rt (promo_untilIso pr) = Some until ->
      (until < now)%Z ->
      getEffectivePrice rt pricing now = price pricing) /\
  (forall pr until,
      promo pricing = Some pr -> Date_parse rt (promo_untilIso pr) = Some until ->
      (now <= until)%Z ->
      (promo_type pr = "PERCENT" ->
       getEffectivePrice rt pricing now
       = round2 (price pricing * (1 - promo_value pr / 100))%float) /\
      (promo_type pr = "FIXED" ->
       getEffectivePrice rt pricing now
       = round2 (price pricing - promo_value pr)%float)) /\
  (forall untilIso T,
      Date_parse rt untilIso = Some T ->
      let p := {| price := 199.9%float; currency := "BRL";
                  promo := Some {| promo_type := "PERCENT"; promo_value := 20%float;
                                   promo_untilIso := untilIso |} |} in
      ((now < T)%Z -> getEffectivePrice rt p now = 159.92%float) /\
      ((T < now)%Z -> getEffectivePrice rt p now = 199.9%float)).
Proof.
  unfold getEffectivePrice.
  split; [ intros ->; reflexivity | ].
  split.
  { intros pr until -> -> Hlt.
    apply Z.ltb_lt in Hlt. rewrite Hlt. reflexivity. }
  split.
  { intros pr until -> -> Hle.
    assert (Z.ltb until now = false) as -> by (apply Z.ltb_ge; exact Hle).
    split; intros Ht; rewrite Ht; reflexivity. }
  intros untilIso T HT. cbv zeta. cbn [promo promo_untilIso]. rewrite HT.
  split; intros Hcmp.
  - assert (Z.ltb T now = false) as -> by (apply Z.ltb_ge; lia).
    reflexivity.
  - apply Z.ltb_lt in Hcmp. rewrite Hcmp. reflexivity.
Qed.

Lemma getEffectivePrice_demo :
  getEffectivePrice demoRuntime demoPricing (demoUntilTime - 1) = 159.92%float /\
  getEffectivePrice demoRuntime demoPricing (demoUntilTime + 1) = 199.9%float.
Proof.
  destruct (getEffectivePrice_spec demoRuntime demoPricing (demoUntilTime - 1))
    as (_ & _ & _ & Hbefore).
  destruct (getEffectivePrice_spec demoRuntime demoPricing (demoUntilTime + 1))
    as (_ & _ & _ & Hafter).
  split.
  - apply (Hbefore demoUntil demoUntilTime); [ reflexivity | reflexivity ].
  - apply (Hafter demoUntil demoUntilTime); [ reflexivity | reflexivity ].
Defined.

(** C5. The promo checks of [normalizePromo] do not keep the effective
    price above zero: a price of 0.01 with a 60 percent promo is accepted
    (0 < 60 < 100) and the effective price while the promo runs is
    [round2(0.004)], which is 0; a FIXED promo of 9.999 on a price of 10
    is accepted (9.999 < 10), stored as [round2(9.999)], which is 10, and
    the effective price is 0 as well. *)
Theorem promo_can_zero_price :
  (exists p,
     normalizePricing 0.01%float "BRL"
       (Some {| pi_type := "PERCENT"; pi_value := 60%float; pi_untilIso := demoUntil |})
     = Ok p /\
     getEffectivePrice demoRuntime p demoUntilTime = 0%float /\
     PrimFloat.leb (getEffectivePrice demoRuntime p demoUntilTime) 0%float = true) /\
  (exists p,
     normalizePricing 10%float "BRL"
       (Some {| pi_type := "FIXED"; pi_value := 9.999%float; pi_untilIso := demoUntil |})
     = Ok p /\
     getEffectivePrice demoRuntime p demoUntilTime = 0%float).
Proof.
  split.
  - eexists. split; [ vm_compute; reflexivity | ]. split; vm_compute; reflexivity.
  - eexists. split; [ vm_compute; reflexivity | ]. vm_compute; reflexivity.
Qed.

(** ** Course lifecycle *)

Ltac course_leaf :=
  match goal with
  | Hc : courses ?w !! ?cid = Some ?c |- courseStep _ ?cid ?c _ ?w =>
      (* the call threw before it touched the store *)
      exists c; split; [ exact Hc | ];
      split; [ lia | ]; split; [ reflexivity | ]; intros Hne; congruence
  | Hc : courses ?w !! ?cid = Some ?c, Hk : courses ?w !! ?k = Some ?a
    |- courseStep _ ?cid ?c _ _ =>
      destruct (decide (k = cid)) as [Heq|Hne];
      [ subst k; rewrite Hc in Hk; injection Hk as <-;
        eexists; split; [ world_simpl; apply lookup_insert_eq | ];
        cbn;
        destruct (course_state c) eqn:Hstate; try discriminate;
        cbn; repeat split; try lia; try congruence; eauto
      | exists c; split;
        [ world_simpl; rewrite ?lookup_insert_ne by exact Hne; exact Hc | ];
        split; [ lia | ]; split; [ reflexivity | ]; intros Hneq; congruence ]
  end.

Lemma lifecycle_step (rt : Runtime) (op : LifecycleOp) (w : World) (cid : string) (c : Course) :
  courses w !! cid = Some c ->
  wp (lifecycle rt op) (courseStep op cid c) w.
Proof.
  intros Hc. destruct op as [s k i|s k st|s k|s k|s k st|s k]; cbn [lifecycle].
  - wp_run; course_leaf.
  - wp_run; course_leaf.
  - wp_run; course_leaf.
  - wp_run; course_leaf.
  - wp_run; course_leaf.
  - wp_run; course_leaf.
Qed.

Lemma lifecycle_published_fixed (rt : Runtime) (ops : list LifecycleOp) :
  forall w cid c,
    courses w !! cid = Some c -> course_state c = PUBLISHED ->
    (forall w', In w' (lifecycleTrace rt ops w) -> courses w' !! cid = Some c) /\
    publishedAtChanges cid (lifecycleTrace rt ops w) = 0.
Proof.
  induction ops as [|op rest IH]; intros w cid c Hc Hpub.
  - split; [ intros w' [<-|[]]; exact Hc | reflexivity ].
  - destruct (lifecycle_step rt op w cid c Hc) as (c' & Hc' & _ & Hfix & _).
    rewrite (Hfix Hpub) in Hc'.
    destruct (IH _ cid c Hc' Hpub) as [Hall Hzero].
    split.
    + intros w' [<-|Hin]; [ exact Hc | exact (Hall w' Hin) ].
    + cbn [lifecycleTrace publishedAtChanges].
      destruct rest; cbn [lifecycleTrace] in *;
        rewrite Hc, Hc', bool_decide_eq_true_2 by reflexivity; exact Hzero.
Qed.

Lemma lifecycle_trace_monotonic (rt : Runtime) (ops : list LifecycleOp) :
  forall w cid c,
    courses w !! cid = Some c ->
    (forall w', In w' (lifecycleTrace rt ops w) ->
       exists c', courses w' !! cid = Some c' /\
                  rank (course_state c) <= rank (course_state c')) /\
    publishedAtChanges cid (lifecycleTrace rt ops w) <= 1.
Proof.
  induction ops as [|op rest IH]; intros w cid c Hc.
  - split; [ intros w' [<-|[]]; exists c; split; [ exact Hc | lia ] | cbn; lia ].
  - destruct (lifecycle_step rt op w cid c Hc) as (c' & Hc' & Hrank & _ & Hset).
    destruct (IH _ cid c' Hc') as [Hall Hcount].
    split.
    + intros w' [<-|Hin]; [ exists c; split; [ exact Hc | lia ] | ].
      destruct (Hall w' Hin) as (c'' & Hc'' & Hrank').
      exists c''. split; [ exact Hc'' | lia ].
    + destruct (decide (course_publishedAt c' = course_publishedAt c)) as [Heq|Hne].
      * cbn [lifecycleTrace publishedAtChanges].
        destruct rest; cbn [lifecycleTrace] in *;
          rewrite Hc, Hc'; cbn [option_map]; rewrite Heq;
          rewrite bool_decide_eq_true_2 by reflexivity; exact Hcount.
      * destruct (Hset Hne) as (_ & Hpub & _).
        destruct (lifecycle_published_fixed rt rest _ cid c' Hc' Hpub) as [_ Hzero].
        cbn [lifecycleTrace publishedAtChanges].
        destruct rest; cbn [lifecycleTrace] in *;
          rewrite Hc, Hc'; cbn [option_map];
          rewrite bool_decide_eq_false_2 by congruence; rewrite Hzero; lia.
Qed.

Lemma publishCourse_ok (rt : Runtime) (w : World) (sid cid : string) (c' : Course) :
  outcome (publishCourse rt sid cid) w = Ok c' ->
  exists s c,
    schools w !! sid = Some s /\ school_status s = ACTIVE /\
    courses w !! cid = Some c /\ course_schoolId c = sid /\
    course_state c = DRAFT_READY /\
    course_state c' = PUBLISHED /\
    course_publishedAt c' = Some (toISOString rt (clock rt (ticks w))) /\
    courses (exec (publishCourse rt sid cid) w) !! cid = Some c'.
Proof.
  change (wp (publishCourse rt sid cid)
            (fun r w' => r = Ok c' ->
               exists s c,
                 schools w !! sid = Some s /\ school_status s = ACTIVE /\
                 courses w !! cid = Some c /\ course_schoolId c = sid /\
                 course_state c = DRAFT_READY /\
                 course_state c' = PUBLISHED /\
                 course_publishedAt c' = Some (toISOString rt (clock rt (ticks w))) /\
                 courses w' !! cid = Some c') w).
  wp_run; intros Hr; try discriminate.
  injection Hr as <-.
  exists a, a0. rewrite lookup_insert_eq. cbn.
  destruct (school_status a); try discriminate.
  destruct (course_state a0); try discriminate.
  apply negb_false_iff, eqb_true in Hguard0.
  repeat split; auto.
Qed.

Lemma publishCourse_from (rt : Runtime) (w : World) (sid cid : string) (s : School) (c : Course) :
  schools w !! sid = Some s -> school_status s = ACTIVE ->
  courses w !! cid = Some c -> course_schoolId c = sid ->
  (course_state c = DRAFT_READY ->
   exists c', outcome (publishCourse rt sid cid) w = Ok c') /\
  (course_state c <> DRAFT_READY ->
   publishCourse rt sid cid w = (Throw "COURSE_NOT_READY_TO_PUBLISH", w)).
Proof.
  intros Hs Hact Hc Hown. split; intros Hst.
  - change (wp (publishCourse rt sid cid) (fun r _ => exists c', r = Ok c') w).
    wp_run_by ltac:(rewrite ?Hs, ?Hc in *); eauto; absurd_path.
  - apply wp_result.
    wp_run_by ltac:(rewrite ?Hs, ?Hc in *); try (split; reflexivity); absurd_path.
Qed.

(** C8. No lifecycle call ([aiGenerateStructure], [editCourseStructure],
    [approveCourseStructure], [aiGenerateFullCourse], [setImportStructure],
    [publishCourse]) moves the state of a stored course backward in the
    order DRAFT < DRAFTING_STRUCTURE < STRUCTURE_APPROVED < GENERATING_FULL
    < DRAFT_READY < PUBLISHED, whether it returns or throws, and the same
    holds along every sequence of such calls.  A PUBLISHED course is left
    exactly as it is by every such call.  [publishCourse] returns only
    for a course in DRAFT_READY, which it stores as PUBLISHED with
    [publishedAt] set to the time of the call; on a course in any other
    state, DRAFT included, it throws COURSE_NOT_READY_TO_PUBLISH and
    leaves the store as it was.  Along a sequence of lifecycle calls the
    [publishedAt] of a course changes at most once. *)
Theorem course_lifecycle_monotonic (rt : Runtime) :
  (forall op w cid c,
     courses w !! cid = Some c ->
     exists c',
       courses (exec (lifecycle rt op) w) !! cid = Some c' /\
       rank (course_state c) <= rank (course_state c') /\
       (course_state c = PUBLISHED -> c' = c)) /\
  (forall ops w cid c,
     courses w !! cid = Some c ->
     (forall w', In w' (lifecycleTrace rt ops w) ->
        exists c', courses w' !! cid = Some c' /\
                   rank (course_state c) <= rank (course_state c') /\
                   (course_state c = PUBLISHED -> c' = c)) /\
     publishedAtChanges cid (lifecycleTrace rt ops w) <= 1) /\
  (forall w sid cid c',
     outcome (publishCourse rt sid cid) w = Ok c' ->
     exists c,
       courses w !! cid = Some c /\ course_state c = DRAFT_READY /\
       course_state c' = PUBLISHED /\
       course_publishedAt c' = Some (toISOString rt (clock rt (ticks w))) /\
       courses (exec (publishCourse rt sid cid) w) !! cid = Some c') /\
  (forall w sid cid s c,
     schools w !! sid = Some s -> school_status s = ACTIVE ->
     courses w !! cid = Some c -> course_schoolId c = sid ->
     (course_state c = DRAFT_READY ->
      exists c', outcome (publishCourse rt sid cid) w = Ok c') /\
     (course_state c <> DRAFT_READY ->
      publishCourse rt sid cid w = (Throw "COURSE_NOT_READY_TO_PUBLISH", w)) /\
     (course_state c = DRAFT ->
      publishCourse rt sid cid w = (Throw "COURSE_NOT_READY_TO_PUBLISH", w))).
Proof.
  split; [ | split; [ | split ] ].
  - intros op w cid c Hc.
    destruct (lifecycle_step rt op w cid c Hc) as (c' & Hc' & Hrank & Hfix & _).
    exists c'. auto.
  - intros ops w cid c Hc.
    destruct (lifecycle_trace_monotonic rt ops w cid c Hc) as [Hall Hcount].
    split; [ | exact Hcount ].
    intros w' Hin. destruct (Hall w' Hin) as (c' & Hc' & Hrank).
    exists c'. split; [ exact Hc' | ]. split; [ exact Hrank | ].
    intros Hpub.
    destruct (lifecycle_published_fixed rt ops w cid c Hc Hpub) as [Hsame _].
    specialize (Hsame w' Hin). congruence.
  - intros w sid cid c' Hok.
    destruct (publishCourse_ok rt w sid cid c' Hok)
      as (s & c & _ & _ & Hc & _ & Hst & Hst' & Hat & Hstored).
    exists c. auto.
  - intros w sid cid s c Hs Hact Hc Hown.
    destruct (publishCourse_from rt w sid cid s c Hs Hact Hc Hown) as [Hyes Hno].
    split; [ exact Hyes | ]. split; [ exact Hno | ].
    intros Hd. apply Hno. congruence.
Qed.

(** ** Tenant directory *)

(** The cases of [resolveSchoolByHost], in any store. *)
Lemma resolveSchoolByHost_cases (w : World) (host : string) :
  let h := normalizeHost host in
  (forall did cfg,
      h <> "" -> byCustomDomain w !! h = Some did -> did <> "" ->
      JsMap.get did (domains w) = Some cfg ->
      dom_type cfg = custom -> dom_verified cfg = true ->
      resolveSchoolByHost host w = schools w !! dom_schoolId cfg) /\
  (forall did cfg,
      byCustomDomain w !! h = Some did ->
      JsMap.get did (domains w) = Some cfg ->
      dom_verified cfg = false ->
      bySubdomain w !! h = None ->
      resolveSchoolByHost host w = None) /\
  (forall sid,
      h <> "" -> byCustomDomain w !! h = None ->
      bySubdomain w !! h = Some sid -> sid <> "" ->
      resolveSchoolByHost host w = schools w !! sid) /\
  (forall host' did cfg school,
      let h' := normalizeHost host' in
      h <> "" -> byCustomDomain w !! h = Some did -> did <> "" ->
      JsMap.get did (domains w) = Some cfg ->
      dom_type cfg = custom -> dom_verified cfg = true ->
      schools w !! dom_schoolId cfg = Some school ->
      h' <> "" -> byCustomDomain w !! h' = None ->
      bySubdomain w !! h' = Some (dom_schoolId cfg) -> dom_schoolId cfg <> "" ->
      resolveSchoolByHost host w = Some school /\
      resolveSchoolByHost host' w = Some school).
Proof.
  cbv zeta.
  assert (Hcustom : forall host did cfg,
      normalizeHost host <> "" -> byCustomDomain w !! normalizeHost host = Some did ->
      did <> "" -> JsMap.get did (domains w) = Some cfg ->
      dom_type cfg = custom -> dom_verified cfg = true ->
      resolveSchoolByHost host w = schools w !! dom_schoolId cfg).
  { intros host0 did cfg Hh Hidx Hid Hcfg Hty Hver. unfold resolveSchoolByHost.
    apply empty_false in Hh. rewrite Hh, Hidx.
    apply truthy_Some in Hid. rewrite Hid. cbn [default from_option id].
    rewrite Hcfg, Hty, Hver. reflexivity. }
  assert (Hsub : forall host sid,
      normalizeHost host <> "" -> byCustomDomain w !! normalizeHost host = None ->
      bySubdomain w !! normalizeHost host = Some sid -> sid <> "" ->
      resolveSchoolByHost host w = schools w !! sid).
  { intros host0 sid Hh Hidx Hsub Hsid. unfold resolveSchoolByHost.
    apply empty_false in Hh. rewrite Hh, Hidx, Hsub. cbn [truthy default from_option id].
    apply empty_false in Hsid. rewrite Hsid. reflexivity. }
  split; [ exact (Hcustom host) | ].
  split.
  { intros did cfg Hidx Hcfg Hver Hsub0. unfold resolveSchoolByHost.
    destruct (Str.empty (normalizeHost host)); [ reflexivity | ].
    rewrite Hidx, Hsub0. cbn [default from_option id].
    destruct (truthy (Some did)); [ | reflexivity ].
    rewrite Hcfg, Hver. destruct (dom_type cfg); reflexivity. }
  split; [ exact (Hsub host) | ].
  intros host' did cfg school Hh Hidx Hid Hcfg Hty Hver Hschool Hh' Hidx' Hsub' Hsid.
  split.
  - rewrite (Hcustom host did cfg) by assumption. exact Hschool.
  - rewrite (Hsub host' (dom_schoolId cfg)) by assumption. exact Hschool.
Qed.

(** The run of [domainScenario]: both hostnames of Escola Alpha, in any
    letter case and with a final dot, resolve to it, and the requested
    but unverified domain resolves to nothing. *)
Example resolveSchoolByHost_scenario :
  exists alpha,
    schools domainWorld !! alphaId = Some alpha /\
    resolveSchoolByHost "cursos.alpha.com.br" domainWorld = Some alpha /\
    resolveSchoolByHost "Alpha.platform.local." domainWorld = Some alpha /\
    resolveSchoolByHost "loja.alpha.com.br" domainWorld = None.
Proof.
  eexists. split; [ vm_compute; reflexivity | ].
  repeat split; vm_compute; reflexivity.
Qed.


Lemma keys_alterFirst {V} (p : V -> bool) (f : V -> V) (m : JsMap.t V) :
  JsMap.keys (alterFirst p f m) = JsMap.keys m.
Proof.
  induction m as [|[k v] r IH]; [ reflexivity | ].
  cbn [alterFirst]. destruct (p v); cbn; [ reflexivity | ].
  f_equal. exact IH.
Qed.










(** ** Webhook processor *)

(** Only [receiveWebhook] writes to [db.webhookEvents]. *)
Lemma webhookEvents_frame (rt : Runtime) (c : Call) (w : World) :
  (forall p pl sg, c <> ReceiveWebhook p pl sg) ->
  webhookEvents (perform rt c w) = webhookEvents w.
Proof.
  intros Hc.
  assert (Hcut : forall A (m : M A),
             preserves (fun w' => webhookEvents w' = webhookEvents w) m ->
             webhookEvents (exec m w) = webhookEvents w).
  { intros A m Hm. apply Hm. reflexivity. }
  destruct c; cbn [perform]; try (apply Hcut; frame_run; fail).
  exfalso. eapply Hc. reflexivity.
Qed.

(** A delivery whose event id is on record returns the recorded snapshot
    and leaves the store as it is. *)
Lemma receiveWebhook_recorded (rt : Runtime) (w : World) (provider : string)
    (payload : option JsObject) (signature : string) (ev : WebhookEvent) :
  webhookProvider provider payload = "DEMO" ->
  webhookEventId payload <> "" ->
  webhookEvents w !! webhookEventId payload = Some ev ->
  receiveWebhook rt provider payload signature w = (Ok (evt_resultSnapshot ev), w).
Proof.
  unfold webhookProvider, webhookEventId. intros Hprov Hid Hrec.
  apply wp_result.
  wp_run_by ltac:(rewrite ?Hprov, ?Hrec in *); try (split; reflexivity); absurd_path.
Qed.

(** A delivery that returns has its event on record, under the trimmed
    event id, with the snapshot it returned. *)
Lemma receiveWebhook_records (rt : Runtime) (w w1 : World) (provider : string)
    (payload : option JsObject) (signature : string) (snap : Snapshot) :
  receiveWebhook rt provider payload signature w = (Ok snap, w1) ->
  webhookProvider provider payload = "DEMO" /\
  webhookEventId payload <> "" /\
  exists ev, webhookEvents w1 !! webhookEventId payload = Some ev /\
             evt_resultSnapshot ev = snap.
Proof.
  intros Hrun.
  pose proof (wp_pair (receiveWebhook rt provider payload signature) w) as Hwp.
  revert Hwp. rewrite Hrun.
  change (wp (receiveWebhook rt provider payload signature)
            (fun r w' => (Ok snap, w1) = (r, w') ->
               webhookProvider provider payload = "DEMO" /\
               webhookEventId payload <> "" /\
               exists ev, webhookEvents w1 !! webhookEventId payload = Some ev /\
                          evt_resultSnapshot ev = snap) w).
  unfold webhookProvider, webhookEventId.
  wp_run; intros Heq; try discriminate Heq; injection Heq as -> ->; guards;
    (split; [ assumption | ]); (split; [ assumption | ]); world_simpl;
    first [ eexists; split; [ eassumption | reflexivity ]
          | eexists; split; [ apply lookup_insert_eq | reflexivity ] ].
Qed.

(** What [receiveWebhook] adds to [db.webhookEvents] is keyed by a
    trimmed, non-empty id. *)
Lemma receiveWebhook_keys (rt : Runtime) (w : World) (provider : string)
    (payload : option JsObject) (signature : string) :
  eventsKeyed w -> eventsKeyed (exec (receiveWebhook rt provider payload signature) w).
Proof.
  intros Hw.
  change (wp (receiveWebhook rt provider payload signature) (fun _ w' => eventsKeyed w') w).
  wp_run; try exact Hw;
    (intros k ev; world_simpl; rewrite lookup_insert; case_decide as Hk;
     [ intros Hev; subst k; guards;
       split; [ apply trim_idem | split; [ assumption | ] ];
       injection Hev as <-; reflexivity
     | apply Hw ]).
Qed.

Lemma reachable_eventsKeyed (rt : Runtime) (w : World) : reachable rt w -> eventsKeyed w.
Proof.
  induction 1 as [|c w Hw IH].
  - intros k ev Hk. cbn in Hk. rewrite lookup_empty in Hk. discriminate.
  - destruct c;
      try (unfold eventsKeyed; rewrite webhookEvents_frame by (intros; discriminate);
           exact IH).
    apply receiveWebhook_keys. exact IH.
Qed.

(** C1. A delivery to [receiveWebhook] whose [payload.eventId] is the id
    of a recorded event returns the snapshot stored with that event and
    the store is left exactly as it was, whatever the rest of the payload
    and the signature are: nothing is validated again and nothing is
    applied again.  Hence a delivery that returned, delivered again (or
    delivered with another payload and signature under the same event
    id), returns the same snapshot and changes nothing. *)
Theorem receiveWebhook_idempotent (rt : Runtime) :
  (forall w payload signature k ev,
      reachable rt w ->
      webhookEvents w !! k = Some ev ->
      Obj.get "eventId" payload = Some (evt_id ev) ->
      receiveWebhook rt "DEMO" (Some payload) signature w
      = (Ok (evt_resultSnapshot ev), w)) /\
  (forall w provider payload signature ev,
      webhookProvider provider payload = "DEMO" ->
      webhookEventId payload <> "" ->
      webhookEvents w !! webhookEventId payload = Some ev ->
      receiveWebhook rt provider payload signature w
      = (Ok (evt_resultSnapshot ev), w)) /\
  (forall w provider payload signature snap w1,
      receiveWebhook rt provider payload signature w = (Ok snap, w1) ->
      receiveWebhook rt provider payload signature w1 = (Ok snap, w1) /\
      forall payload' signature',
        webhookEventId payload' = webhookEventId payload ->
        receiveWebhook rt "DEMO" payload' signature' w1 = (Ok snap, w1)).
Proof.
  split; [ | split ].
  - intros w payload signature k ev Hreach Hrec Hget.
    destruct (reachable_eventsKeyed rt w Hreach k ev Hrec) as (Htrim & Hne & Hkey).
    rewrite Hkey in Hget.
    assert (Hid : webhookEventId (Some payload) = k).
    { unfold webhookEventId, Obj.prop. rewrite Hget. exact Htrim. }
    apply receiveWebhook_recorded; rewrite ?Hid; auto.
  - intros w provider payload signature ev. apply receiveWebhook_recorded.
  - intros w provider payload signature snap w1 Hrun.
    destruct (receiveWebhook_records rt w w1 provider payload signature snap Hrun)
      as (Hprov & Hid & ev & Hev & Hsnap).
    split.
    + rewrite <- Hsnap. apply receiveWebhook_recorded; assumption.
    + intros payload' signature' Hsame. rewrite <- Hsnap.
      apply receiveWebhook_recorded; rewrite ?Hsame; auto.
Qed.

(** *** [receiveWebhook] does not look at [db.schools] *)

Lemma ignoresSchools_ret {A} (a : A) : ignoresSchools (ret a).
Proof. intros f w. reflexivity. Qed.

Lemma ignoresSchools_throw {A} (e : string) : ignoresSchools (@throw A e).
Proof. intros f w. reflexivity. Qed.

Lemma ignoresSchools_throwIf (c : bool) (e : string) : ignoresSchools (throwIf c e).
Proof. destruct c; intros f w; reflexivity. Qed.

Lemma ignoresSchools_orThrow {A} (o : option A) (e : string) : ignoresSchools (orThrow o e).
Proof. destruct o; intros f w; reflexivity. Qed.

Lemma ignoresSchools_gets {A} (g : World -> A) :
  (forall f w, g (upd_schools f w) = g w) -> ignoresSchools (gets g).
Proof. intros Hg f w. unfold gets, outcome, exec. cbn. rewrite Hg. reflexivity. Qed.

Lemma ignoresSchools_modify (h : World -> World) :
  (forall f w, h (upd_schools f w) = upd_schools f (h w)) -> ignoresSchools (modify h).
Proof. intros Hh f w. unfold modify, outcome, exec. cbn. rewrite Hh. reflexivity. Qed.

Lemma ignoresSchools_readClock rt : ignoresSchools (readClock rt).
Proof. intros f w. reflexivity. Qed.

Lemma ignoresSchools_randomBytes rt n : ignoresSchools (randomBytes rt n).
Proof. intros f w. reflexivity. Qed.

Lemma ignoresSchools_bind {A B} (m : M A) (k : A -> M B) :
  ignoresSchools m -> (forall a, ignoresSchools (k a)) -> ignoresSchools (bind m k).
Proof.
  intros Hm Hk f w. unfold ignoresSchools, bind, outcome, exec in *.
  rewrite (Hm f w). destruct (m w) as [[a|e] w']; cbn [fst snd].
  - rewrite (Hk a f w'). reflexivity.
  - reflexivity.
Qed.

Ltac ignores_step :=
  lazymatch goal with
  | |- ignoresSchools (bind _ _) => apply ignoresSchools_bind; [ | intro ]
  | |- ignoresSchools (ret _) => apply ignoresSchools_ret
  | |- ignoresSchools (throw _) => apply ignoresSchools_throw
  | |- ignoresSchools (throwIf _ _) => apply ignoresSchools_throwIf
  | |- ignoresSchools (orThrow _ _) => apply ignoresSchools_orThrow
  | |- ignoresSchools (gets _) => apply ignoresSchools_gets; reflexivity
  | |- ignoresSchools (modify _) => apply ignoresSchools_modify; reflexivity
  | |- ignoresSchools (readClock _) => apply ignoresSchools_readClock
  | |- ignoresSchools (randomBytes _ _) => apply ignoresSchools_randomBytes
  | |- ignoresSchools (match ?x with _ => _ end) => destruct x
  | |- ignoresSchools (let _ := _ in _) => cbv zeta
  | |- ignoresSchools ?m => let f := wp_head m in unfold f
  end.

Lemma receiveWebhook_ignoresSchools (rt : Runtime) (provider : string)
    (payload : option JsObject) (signature : string) :
  ignoresSchools (receiveWebhook rt provider payload signature).
Proof. repeat ignores_step. Qed.

(** A first-time delivery that passes every check is applied in full. *)
Lemma receiveWebhook_applies (rt : Runtime) (w : World) (provider : string)
    (payload : option JsObject) (signature : string)
    (g : GatewayConfig) (order : Order) (payment : Payment) :
  validDelivery provider payload ->
  firstTime w payload ->
  gateway w !! webhookSchoolId payload = Some g ->
  Str.trim signature = expectedSignature rt g payload ->
  orders w !! webhookOrderId payload = Some order ->
  order_schoolId order = webhookSchoolId payload ->
  payments w !! webhookPaymentId payload = Some payment ->
  pay_schoolId payment = webhookSchoolId payload ->
  pay_orderId payment = webhookOrderId payload ->
  wp (receiveWebhook rt provider payload signature)
     (fun r w' =>
        r = Ok {| snap_ok := true; snap_provider := "DEMO";
                  snap_eventId := webhookEventId payload;
                  snap_schoolId := webhookSchoolId payload;
                  snap_orderId := webhookOrderId payload;
                  snap_paymentId := webhookPaymentId payload;
                  snap_orderStatus := orderStatusFor (webhookResult payload) |} /\
        (exists o', orders w' !! webhookOrderId payload = Some o' /\
                    order_status o' = orderStatusFor (webhookResult payload) /\
                    order_amount o' = order_amount order /\
                    order_currency o' = order_currency order) /\
        (exists p', payments w' !! webhookPaymentId payload = Some p' /\
                    pay_status p' = paymentStatusFor (webhookResult payload)) /\
        (webhookResult payload = "APPROVED" ->
         is_Some (bySchoolBuyerCourse w' !!
                    enrollmentKey (webhookSchoolId payload) (order_buyerEmail order)
                                  (order_courseId order))) /\
        (webhookResult payload = "DECLINED" ->
         bySchoolBuyerCourse w' = bySchoolBuyerCourse w /\ enrollments w' = enrollments w) /\
        is_Some (webhookEvents w' !! webhookEventId payload) /\
        schools w' = schools w) w.
Proof.
  unfold validDelivery, firstTime, expectedSignature, webhookProvider, webhookEventId,
    webhookSchoolId, webhookOrderId, webhookPaymentId, webhookResult, orderStatusFor,
    paymentStatusFor.
  intros (Hprov & Hid & Hsid & Hoid & Hpid & Hres) Hfirst Hg Hsig Ho Hos Hp Hps Hpo.
  wp_run_by ltac:(rewrite ?Hprov, ?Hfirst, ?Hg, ?Ho, ?Hp, ?Hsig, ?Hos, ?Hps, ?Hpo,
                    ?eqb_refl in * );
    try absurd_path.
  all: repeat match goal with H : Some _ = Some _ |- _ => injection H as <- end.
  all: world_simpl; rewrite ?Hcase;
    cbn [order_status withOrderStatus withOrderPaidAt withOrderUpdatedAt
         order_buyerEmail order_courseId] in *.
  all: split; [ reflexivity | ].
  all: split; [ eexists; split; [ apply lookup_insert_eq | cbn; auto ] | ].
  all: split; [ eexists; split; [ apply lookup_insert_eq | cbn; auto ] | ].
  all: split;
    [ intros Hr;
      first [ apply truthy_spec in Hcase0 as (s & -> & _); eauto
            | rewrite lookup_insert_eq; eauto
            | absurd_path ]
    | ].
  all: split;
    [ intros Hr;
      first [ split; reflexivity
            | rewrite Hr in Hcase; vm_compute in Hcase; discriminate Hcase ]
    | ].
  all: split; [ rewrite lookup_insert_eq; eauto | reflexivity ].
Qed.

Lemma suspended_rejected (rt : Runtime) (w : World) (schoolId : string) (s : School) :
  schools w !! schoolId = Some s -> school_status s = SUSPENDED ->
  (forall courseId buyerEmail,
      createOrder rt schoolId courseId buyerEmail w = (Throw "SCHOOL_SUSPENDED", w)) /\
  (forall orderId outcome0,
      startDemoCheckout rt schoolId orderId outcome0 w = (Throw "SCHOOL_SUSPENDED", w)).
Proof.
  intros Hs Hst. split; intros; apply wp_result;
    wp_run_by ltac:(rewrite ?Hs in * ); try (split; reflexivity); absurd_path.
Qed.

(** C10. [receiveWebhook] never looks at the school's status: it neither
    reads nor writes [db.schools], so a first-time delivery that passes
    the provider, payload, signature and ownership checks is applied in
    full (order PAID or FAILED, payment SUCCEEDED or FAILED, an enrollment
    on record after APPROVED) also when the school is SUSPENDED, while
    [createOrder] and [startDemoCheckout] throw SCHOOL_SUSPENDED for that
    school and change nothing. *)
Theorem receiveWebhook_ignores_school_status (rt : Runtime) :
  (forall provider payload signature,
      ignoresSchools (receiveWebhook rt provider payload signature)) /\
  (forall w provider payload signature g order payment school,
      schools w !! webhookSchoolId payload = Some school ->
      school_status school = SUSPENDED ->
      validDelivery provider payload ->
      firstTime w payload ->
      gateway w !! webhookSchoolId payload = Some g ->
      Str.trim signature = expectedSignature rt g payload ->
      orders w !! webhookOrderId payload = Some order ->
      order_schoolId order = webhookSchoolId payload ->
      payments w !! webhookPaymentId payload = Some payment ->
      pay_schoolId payment = webhookSchoolId payload ->
      pay_orderId payment = webhookOrderId payload ->
      exists snap w',
        receiveWebhook rt provider payload signature w = (Ok snap, w') /\
        snap_orderStatus snap = orderStatusFor (webhookResult payload) /\
        (exists o', orders w' !! webhookOrderId payload = Some o' /\
                    order_status o' = orderStatusFor (webhookResult payload)) /\
        (exists p', payments w' !! webhookPaymentId payload = Some p' /\
                    pay_status p' = paymentStatusFor (webhookResult payload)) /\
        (webhookResult payload = "APPROVED" ->
         is_Some (bySchoolBuyerCourse w' !!
                    enrollmentKey (webhookSchoolId payload) (order_buyerEmail order)
                                  (order_courseId order))) /\
        schools w' !! webhookSchoolId payload = Some school) /\
  (forall w schoolId s,
      schools w !! schoolId = Some s -> school_status s = SUSPENDED ->
      (forall courseId buyerEmail,
          createOrder rt schoolId courseId buyerEmail w = (Throw "SCHOOL_SUSPENDED", w)) /\
      (forall orderId outcome0,
          startDemoCheckout rt schoolId orderId outcome0 w
          = (Throw "SCHOOL_SUSPENDED", w))).
Proof.
  split; [ apply receiveWebhook_ignoresSchools | ].
  split; [ | apply suspended_rejected ].
  intros w provider payload signature g order payment school
         Hschool Hsus Hvalid Hfirst Hg Hsig Ho Hos Hp Hps Hpo.
  pose proof (receiveWebhook_applies rt w provider payload signature g order payment
                Hvalid Hfirst Hg Hsig Ho Hos Hp Hps Hpo) as Hwp.
  unfold wp, outcome, exec in Hwp.
  destruct (receiveWebhook rt provider payload signature w) as [r w'].
  cbn [fst snd] in Hwp.
  destruct Hwp as (-> & (o' & Ho' & Hst & _) & Hpay & Henr & _ & _ & Hsch).
  eexists _, w'. split; [ reflexivity | ]. cbn [snap_orderStatus].
  split; [ reflexivity | ]. split; [ eauto | ]. split; [ exact Hpay | ].
  split; [ exact Henr | ]. rewrite Hsch. exact Hschool.
Qed.

(** The sale of [checkoutScenario] with the school suspended before the
    provider calls back: the APPROVED webhook is applied all the same. *)
Example receiveWebhook_suspended_scenario :
  exists school snap o,
    schools suspendedWorld !! scenarioSchoolId = Some school /\
    school_status school = SUSPENDED /\
    outcome (createOrder demoRuntime scenarioSchoolId scenarioCourseId "c@d.com")
            suspendedWorld = Throw "SCHOOL_SUSPENDED" /\
    outcome (deliver approvedCheckout) suspendedWorld = Ok snap /\
    snap_orderStatus snap = PAID /\
    orders (exec (deliver approvedCheckout) suspendedWorld) !! scenarioOrderId = Some o /\
    order_status o = PAID /\
    canAccessCourse scenarioSchoolId "a@b.com" scenarioCourseId
                    (exec (deliver approvedCheckout) suspendedWorld) = true.
Proof.
  do 3 eexists. repeat split; vm_compute; reflexivity.
Qed.

(** ** Orders *)



(** What [createOrder] returns, and when. *)
Lemma createOrder_run (rt : Runtime) (w : World) (schoolId courseId buyerEmail : string) :
  wp (createOrder rt schoolId courseId buyerEmail)
     (fun r w' =>
        let email := Str.toLowerCase (Str.trim buyerEmail) in
        match r with
        | Ok o =>
            exists school course,
              schools w !! schoolId = Some school /\ school_status school = ACTIVE /\
              courses w !! courseId = Some course /\ course_schoolId course = schoolId /\
              course_state course = PUBLISHED /\
              Str.includes "@" email = true /\
              o = {| order_id := nextOrderId rt w; order_schoolId := schoolId;
                     order_courseId := courseId; order_buyerEmail := email;
                     order_amount := getEffectivePrice rt (course_pricing course)
                                                       (clock rt (ticks w));
                     order_currency := currency (course_pricing course);
                     order_status := PENDING;
                     order_createdAt := toISOString rt (clock rt (S (ticks w)));
                     order_updatedAt := toISOString rt (clock rt (S (S (ticks w))));
                     order_paidAt := None |} /\
              orders w' = <[nextOrderId rt w := o]> (orders w)
        | Throw e =>
            w' = w /\
            match schools w !! schoolId with
            | None => e = "SCHOOL_NOT_FOUND"
            | Some school =>
                match school_status school with
                | SUSPENDED => e = "SCHOOL_SUSPENDED"
                | ACTIVE =>
                    match courses w !! courseId with
                    | None => e = "COURSE_NOT_FOUND"
                    | Some course =>
                        if negb (Str.eqb (course_schoolId course) schoolId)
                        then e = "COURSE_ACCESS_DENIED"
                        else match course_state course with
                             | PUBLISHED =>
                                 e = "BUYER_EMAIL_INVALID" /\
                                 Str.includes "@" email = false
                             | _ => e = "COURSE_NOT_FOR_SALE"
                             end
                    end
                end
            end
        end) w.
Proof.
  wp_run; cbv zeta; try (split; [ reflexivity | ]);
    rewrite ?Hnone, ?Hsome, ?Hnone0, ?Hsome0, ?Hguard0;
    repeat match goal with
           | H : match ?x with _ => _ end = _ |- _ => destruct x eqn:?; try discriminate H
           end;
    guards; auto.
  exists a, a0. unfold nextOrderId. auto 10.
Qed.







(** The order of [checkoutScenario]: created for " A@b.com " at 199.90
    BRL, and still at that amount after both webhooks. *)
Example createOrder_scenario :
  exists o o',
    orders checkoutWorld !! scenarioOrderId = Some o /\
    order_status o = PENDING /\ order_buyerEmail o = "a@b.com" /\
    order_amount o = 199.9%float /\ order_currency o = "BRL" /\
    orders failedWorld !! scenarioOrderId = Some o' /\
    order_amount o' = 199.9%float.
Proof. do 2 eexists. repeat split; vm_compute; reflexivity. Qed.

(** C2. The order's status is not protected once it left PENDING.  In the
    run of [checkoutScenario] two checkout sessions are started while the
    order is PENDING.  The webhook of the first (APPROVED) makes the order
    PAID and enrolls the buyer; [startDemoCheckout] now refuses the order
    with ORDER_NOT_PENDING; yet the webhook of the second session
    (DECLINED, with an event id of its own) is accepted and makes the same
    order FAILED, while the enrollment stays. *)
Theorem order_status_moves_twice :
  (exists o, orders checkoutWorld !! scenarioOrderId = Some o /\ order_status o = PENDING) /\
  (exists snap, deliver approvedCheckout checkoutWorld = (Ok snap, paidWorld) /\
                snap_orderStatus snap = PAID) /\
  (exists o, orders paidWorld !! scenarioOrderId = Some o /\ order_status o = PAID) /\
  outcome (startDemoCheckout demoRuntime scenarioSchoolId scenarioOrderId "APPROVED") paidWorld
  = Throw "ORDER_NOT_PENDING" /\
  Obj.get "eventId" (webhook_payload declinedCheckout)
  <> Obj.get "eventId" (webhook_payload approvedCheckout) /\
  (exists snap, deliver declinedCheckout paidWorld = (Ok snap, failedWorld) /\
                snap_orderStatus snap = FAILED) /\
  (exists o, orders failedWorld !! scenarioOrderId = Some o /\ order_status o = FAILED) /\
  canAccessCourse scenarioSchoolId "a@b.com" scenarioCourseId failedWorld = true.
Proof.
  split; [ eexists; split; vm_compute; reflexivity | ].
  split; [ eexists; split; vm_compute; reflexivity | ].
  split; [ eexists; split; vm_compute; reflexivity | ].
  split; [ vm_compute; reflexivity | ].
  split; [ vm_compute; discriminate | ].
  split; [ eexists; split; vm_compute; reflexivity | ].
  split; [ eexists; split; vm_compute; reflexivity | ].
  vm_compute; reflexivity.
Qed.

(** ** Signatures *)

Lemma trimEnd_noWs (s : string) : noWs s = true -> Str.trimEnd s = s.
Proof.
  unfold noWs. induction s as [|c r IH]; [ reflexivity | ].
  cbn [Str.all Str.trimEnd]. intros H. apply andb_true_iff in H as [Hc Hr].
  rewrite (IH Hr). apply negb_true_iff in Hc. rewrite Hc.
  destruct r; reflexivity.
Qed.

(** A string without white space is its own trim. *)
Lemma trim_noWs (s : string) : noWs s = true -> Str.trim s = s.
Proof.
  intros H. unfold Str.trim. rewrite trimStart_of_tight.
  - apply trimEnd_noWs. exact H.
  - destruct s as [|c r]; [ exact I | ].
    unfold noWs in H. cbn [Str.all] in H. apply andb_true_iff in H as [Hc _].
    apply negb_true_iff in Hc. exact Hc.
Qed.

Lemma noWs_app (a b : string) : noWs (a +:+ b) = noWs a && noWs b.
Proof.
  unfold noWs. induction a as [|c r IH]; [ reflexivity | ].
  change (String c r +:+ b) with (String c (r +:+ b)).
  cbn [Str.all]. rewrite IH. apply andb_assoc.
Qed.

Lemma hexDigit_noWs (n : N) : Str.is_ws (Str.hexDigit n) = false.
Proof.
  destruct n as [|p]; [ reflexivity | ].
  do 4 (destruct p as [p|p|]; try reflexivity).
Qed.

Lemma noWs_hex (bs : list Byte.byte) : noWs (Str.hex bs) = true.
Proof.
  unfold noWs. induction bs as [|b r IH]; [ reflexivity | ].
  cbn [Str.hex Str.all]. rewrite !hexDigit_noWs. exact IH.
Qed.

(** A generated id, [prefix_hex], is trimmed and not empty. *)
Lemma generated_id_keyed (prefix : string) (bs : list Byte.byte) :
  noWs prefix = true ->
  Str.trim (prefix +:+ "_" +:+ Str.hex bs) = prefix +:+ "_" +:+ Str.hex bs /\
  prefix +:+ "_" +:+ Str.hex bs <> "".
Proof.
  intros Hp. split.
  - apply trim_noWs. rewrite !noWs_app, Hp, noWs_hex. reflexivity.
  - destruct prefix; discriminate.
Qed.

(** The signature is a hex string: trimming does not change it. *)
Lemma trim_hmacSha256 (rt : Runtime) (secret message : string) :
  Str.trim (hmacSha256 rt secret message) = hmacSha256 rt secret message.
Proof. apply trim_noWs, noWs_hex. Qed.


(** What [startDemoCheckout] returns, and what it leaves behind. *)
Lemma startDemoCheckout_run (rt : Runtime) (w : World) (schoolId orderId outcome0 : string) :
  wp (startDemoCheckout rt schoolId orderId outcome0)
     (fun r w' =>
        match r with
        | Ok co =>
            exists school order g,
              schools w !! schoolId = Some school /\
              orders w !! orderId = Some order /\
              order_schoolId order = schoolId /\ order_status order = PENDING /\
              gateway w !! schoolId = Some g /\
              isOutcome (Str.toUpperCase (Str.trim outcome0)) = true /\
              webhook_payload co
              = checkoutPayload rt w schoolId orderId (Str.toUpperCase (Str.trim outcome0)) /\
              webhook_signature co
              = expectedSignature rt g (Some (webhook_payload co)) /\
              payments w' !! nextPaymentId rt w
              = Some {| pay_id := nextPaymentId rt w; pay_schoolId := schoolId;
                        pay_orderId := orderId; pay_provider := "DEMO";
                        pay_status := INITIATED;
                        pay_createdAt := toISOString rt (clock rt (ticks w));
                        pay_updatedAt := toISOString rt (clock rt (S (ticks w))) |} /\
              orders w' = orders w /\ gateway w' = gateway w /\
              webhookEvents w' = webhookEvents w /\ schools w' = schools w
        | Throw _ => w' = w
        end) w.
Proof.
  wp_run; try reflexivity.
  guards. destruct (order_status a0) eqn:Hst; try discriminate.
  exists a, a0, a1. world_simpl. rewrite lookup_insert_eq.
  unfold checkoutPayload, expectedSignature, nextPaymentId, nextEventId. cbn.
  auto 15.
Qed.

Lemma checkoutPayload_fields (rt : Runtime) (w : World) (schoolId orderId oc : string) :
  let p := Some (checkoutPayload rt w schoolId orderId oc) in
  Obj.prop "provider" p = "DEMO" /\
  Obj.prop "eventId" p = nextEventId rt w /\
  Obj.prop "schoolId" p = schoolId /\
  Obj.prop "orderId" p = orderId /\
  Obj.prop "paymentId" p = nextPaymentId rt w /\
  Obj.prop "result" p = oc.
Proof. repeat split. Qed.

Lemma outcome_fixed (oc : string) :
  isOutcome oc = true -> Str.toUpperCase (Str.trim oc) = oc.
Proof.
  intros H. apply isOutcome_spec in H as [-> | ->]; vm_compute; reflexivity.
Qed.

(** *** Keys of [db.schools] and [db.orders] in a reachable store *)

Lemma preserves_bind_generateId {B} (I : World -> Prop) (rt : Runtime) (prefix : string)
    (k : string -> M B) :
  (forall w, I w -> I (upd_draws S w)) ->
  (forall bs, preserves I (k (prefix +:+ "_" +:+ Str.hex bs))) ->
  preserves I (bind (generateId rt prefix) k).
Proof.
  intros Hd Hk w Hw. unfold exec, bind, generateId, randomBytes, ret. cbn [fst snd].
  apply (Hk _ (upd_draws S w)). apply Hd. exact Hw.
Qed.

Lemma schoolsKeyed_insert_generated (w : World) (bs : list Byte.byte) (s : School) :
  schoolsKeyed w -> schoolsKeyed (upd_schools (insert ("sch" +:+ "_" +:+ Str.hex bs) s) w).
Proof.
  intros Hw k s'. world_simpl. rewrite lookup_insert. case_decide as Hk.
  - intros _. subst k. apply generated_id_keyed. reflexivity.
  - apply Hw.
Qed.

Lemma createSchool_schoolsKeyed (rt : Runtime) (name slug : string) :
  preserves schoolsKeyed (createSchool rt name slug).
Proof.
  unfold createSchool.
  repeat first
    [ apply preserves_bind_generateId; [ intros ? Hk; exact Hk | intro ]
    | pres_step ];
    try (intros ? Hk; exact Hk).
  intros w Hw. apply schoolsKeyed_insert_generated. exact Hw.
Qed.

Lemma setSchoolStatus_schoolsKeyed (rt : Runtime) (schoolId status : string) :
  preserves schoolsKeyed (setSchoolStatus rt schoolId status).
Proof.
  intros w Hw.
  change (wp (setSchoolStatus rt schoolId status) (fun _ w' => schoolsKeyed w') w).
  wp_run; try exact Hw;
    (intros k s; world_simpl; rewrite lookup_insert; case_decide as Hk;
     [ intros _; subst k; eapply Hw; eassumption | apply Hw ]).
Qed.

Lemma reachable_schoolsKeyed (rt : Runtime) (w : World) : reachable rt w -> schoolsKeyed w.
Proof.
  induction 1 as [|c w Hw IH].
  - intros k s Hk. cbn in Hk. rewrite lookup_empty in Hk. discriminate.
  - assert (Hcut : forall A (m : M A),
               preserves (fun w' => schools w' = schools w) m -> schoolsKeyed (exec m w)).
    { intros A m Hm k s. rewrite (Hm w eq_refl). apply IH. }
    destruct c; cbn [perform]; try (apply Hcut; frame_run; fail).
    + apply createSchool_schoolsKeyed. exact IH.
    + apply setSchoolStatus_schoolsKeyed. exact IH.
Qed.

Lemma receiveWebhook_ordersKeyed (rt : Runtime) (provider : string)
    (payload : option JsObject) (signature : string) :
  preserves ordersKeyed (receiveWebhook rt provider payload signature).
Proof.
  intros w Hw.
  change (wp (receiveWebhook rt provider payload signature) (fun _ w' => ordersKeyed w') w).
  wp_run; try exact Hw;
    (intros k o; world_simpl; rewrite !lookup_insert; case_decide as Hk;
     [ intros _; subst k; eapply Hw; eassumption | apply Hw ]).
Qed.

Lemma createOrder_ordersKeyed (rt : Runtime) (schoolId courseId buyerEmail : string) :
  preserves ordersKeyed (createOrder rt schoolId courseId buyerEmail).
Proof.
  unfold createOrder.
  repeat first
    [ apply preserves_bind_generateId; [ intros ? Hk; exact Hk | intro ]
    | pres_step ];
    try (intros ? Hk; exact Hk).
  intros w Hw k o. world_simpl. rewrite lookup_insert. case_decide as Hk.
  - intros _. subst k. apply generated_id_keyed. reflexivity.
  - apply Hw.
Qed.

Lemma reachable_ordersKeyed (rt : Runtime) (w : World) : reachable rt w -> ordersKeyed w.
Proof.
  induction 1 as [|c w Hw IH].
  - intros k s Hk. cbn in Hk. rewrite lookup_empty in Hk. discriminate.
  - assert (Hcut : forall A (m : M A),
               preserves (fun w' => orders w' = orders w) m -> ordersKeyed (exec m w)).
    { intros A m Hm k s. rewrite (Hm w eq_refl). apply IH. }
    destruct c; cbn [perform]; try (apply Hcut; frame_run; fail).
    + apply createOrder_ordersKeyed. exact IH.
    + apply receiveWebhook_ordersKeyed. exact IH.
Qed.


Lemma startDemoCheckout_facts (rt : Runtime) (w w1 : World)
    (schoolId orderId outcome0 : string) (co : Checkout) :
  startDemoCheckout rt schoolId orderId outcome0 w = (Ok co, w1) ->
  exists school order g,
    schools w !! schoolId = Some school /\
    orders w !! orderId = Some order /\
    order_schoolId order = schoolId /\ order_status order = PENDING /\
    gateway w !! schoolId = Some g /\
    isOutcome (Str.toUpperCase (Str.trim outcome0)) = true /\
    webhook_payload co
    = checkoutPayload rt w schoolId orderId (Str.toUpperCase (Str.trim outcome0)) /\
    webhook_signature co = expectedSignature rt g (Some (webhook_payload co)) /\
    payments w1 !! nextPaymentId rt w
    = Some {| pay_id := nextPaymentId rt w; pay_schoolId := schoolId;
              pay_orderId := orderId; pay_provider := "DEMO"; pay_status := INITIATED;
              pay_createdAt := toISOString rt (clock rt (ticks w));
              pay_updatedAt := toISOString rt (clock rt (S (ticks w))) |} /\
    orders w1 = orders w /\ gateway w1 = gateway w /\
    webhookEvents w1 = webhookEvents w /\ schools w1 = schools w.
Proof.
  intros Hrun.
  pose proof (startDemoCheckout_run rt w schoolId orderId outcome0) as Hwp.
  unfold wp, outcome, exec in Hwp. rewrite Hrun in Hwp. exact Hwp.
Qed.

(** The webhook [startDemoCheckout] hands out, delivered to the store it
    left, passes every check of [receiveWebhook]. *)
Lemma checkout_webhook_valid (rt : Runtime) (w : World) (schoolId orderId oc : string) :
  Str.trim schoolId = schoolId -> schoolId <> "" ->
  Str.trim orderId = orderId -> orderId <> "" ->
  isOutcome oc = true ->
  let p := Some (checkoutPayload rt w schoolId orderId oc) in
  validDelivery "DEMO" p /\
  webhookEventId p = nextEventId rt w /\
  webhookSchoolId p = schoolId /\
  webhookOrderId p = orderId /\
  webhookPaymentId p = nextPaymentId rt w /\
  webhookResult p = oc.
Proof.
  intros Hs Hsne Ho Hone Hoc p.
  destruct (checkoutPayload_fields rt w schoolId orderId oc)
    as (Hp1 & Hp2 & Hp3 & Hp4 & Hp5 & Hp6).
  fold p in Hp1, Hp2, Hp3, Hp4, Hp5, Hp6.
  destruct (generated_id_keyed "whk" (List.map (entropy rt (S (draws w))) (seq 0 8)) eq_refl)
    as [Hev Hevne].
  destruct (generated_id_keyed "pay" (List.map (entropy rt (draws w)) (seq 0 8)) eq_refl)
    as [Hpay Hpayne].
  assert (He : webhookEventId p = nextEventId rt w).
  { unfold webhookEventId. rewrite Hp2. exact Hev. }
  assert (Hsid : webhookSchoolId p = schoolId).
  { unfold webhookSchoolId. rewrite Hp3. exact Hs. }
  assert (Hoid : webhookOrderId p = orderId).
  { unfold webhookOrderId. rewrite Hp4. exact Ho. }
  assert (Hpid : webhookPaymentId p = nextPaymentId rt w).
  { unfold webhookPaymentId. rewrite Hp5. exact Hpay. }
  assert (Hres : webhookResult p = oc).
  { unfold webhookResult. rewrite Hp6. apply outcome_fixed. exact Hoc. }
  split; [ | auto 10 ].
  unfold validDelivery. rewrite He, Hsid, Hoid, Hpid, Hres.
  split; [ reflexivity | ]. auto 10.
Qed.



(** In the same run: the pair handed out is accepted, the pair with the
    result field changed to DECLINED is refused at the signature check. *)
Example receiveWebhook_tampered_scenario :
  outcome (deliver approvedCheckout) checkoutWorld
  = Ok {| snap_ok := true; snap_provider := "DEMO";
          snap_eventId := webhookEventId (Some (webhook_payload approvedCheckout));
          snap_schoolId := scenarioSchoolId; snap_orderId := scenarioOrderId;
          snap_paymentId := webhookPaymentId (Some (webhook_payload approvedCheckout));
          snap_orderStatus := PAID |} /\
  outcome (receiveWebhook demoRuntime "DEMO"
             (Some (List.map (fun kv => if Str.eqb (fst kv) "result"
                                        then (fst kv, "DECLINED") else kv)
                             (webhook_payload approvedCheckout)))
             (webhook_signature approvedCheckout))
          checkoutWorld
  = Throw "WEBHOOK_SIGNATURE_INVALID".
Proof. split; vm_compute; reflexivity. Qed.

(** ** The tenant directory of a reachable store *)

Lemma app_cons (c : ascii) (a b : string) : String c a +:+ b = String c (a +:+ b).
Proof. reflexivity. Qed.

Lemma app_suffix_nonempty (a : string) : a +:+ platformSuffix <> "".
Proof. destruct a; discriminate. Qed.

Lemma trimStart_suffix (a : string) :
  exists a', Str.trimStart (a +:+ platformSuffix) = a' +:+ platformSuffix.
Proof.
  induction a as [|c r IH].
  - exists "". reflexivity.
  - rewrite app_cons. cbn [Str.trimStart]. destruct (Str.is_ws c).
    + exact IH.
    + exists (String c r). reflexivity.
Qed.

Lemma trimEnd_suffix (a : string) :
  Str.trimEnd (a +:+ platformSuffix) = a +:+ platformSuffix.
Proof.
  induction a as [|c r IH]; [ reflexivity | ].
  rewrite app_cons. cbn [Str.trimEnd]. rewrite IH.
  destruct (r +:+ platformSuffix) eqn:E; [ | reflexivity ].
  exfalso. exact (app_suffix_nonempty r E).
Qed.

Lemma toLowerCase_suffix (a : string) :
  Str.toLowerCase (a +:+ platformSuffix) = Str.toLowerCase a +:+ platformSuffix.
Proof.
  induction a as [|c r IH]; [ reflexivity | ].
  rewrite app_cons. unfold Str.toLowerCase in *. cbn [Str.map].
  rewrite IH. reflexivity.
Qed.

Lemma stripFinalDot_suffix (a : string) :
  Str.stripFinalDot (a +:+ platformSuffix) = a +:+ platformSuffix.
Proof.
  induction a as [|c r IH]; [ reflexivity | ].
  rewrite app_cons. cbn [Str.stripFinalDot]. rewrite IH.
  destruct (r +:+ platformSuffix) eqn:E; [ | reflexivity ].
  exfalso. exact (app_suffix_nonempty r E).
Qed.

Lemma length_app (a b : string) : String.length (a +:+ b) = String.length a + String.length b.
Proof. induction a as [|c r IH]; [ reflexivity | ]. rewrite app_cons. cbn. rewrite IH. reflexivity. Qed.

Lemma drop_app (a b : string) : Str.drop (String.length a) (a +:+ b) = b.
Proof.
  induction a as [|c r IH]; [ destruct b; reflexivity | ].
  rewrite app_cons. cbn. exact IH.
Qed.

Lemma endsWith_app (a b : string) : Str.endsWith b (a +:+ b) = true.
Proof.
  unfold Str.endsWith. rewrite length_app.
  replace (String.length a + String.length b - String.length b) with (String.length a) by lia.
  rewrite drop_app, eqb_refl, andb_true_r. apply Nat.leb_le. lia.
Qed.

(** The host of a default subdomain lies under the base domain, whatever
    the slug. *)
Lemma subdomain_host_suffix (slug : string) :
  Str.endsWith platformSuffix (normalizeHost (slug +:+ "." +:+ baseDomain)) = true.
Proof.
  change (slug +:+ "." +:+ baseDomain) with (slug +:+ platformSuffix).
  unfold normalizeHost.
  destruct (Str.empty (slug +:+ platformSuffix)) eqn:E.
  { apply empty_true in E. exfalso. exact (app_suffix_nonempty slug E). }
  unfold Str.trim. destruct (trimStart_suffix slug) as [a ->].
  rewrite trimEnd_suffix, toLowerCase_suffix, stripFinalDot_suffix.
  apply endsWith_app.
Qed.

Lemma Forall_set {V} (Q : V -> Prop) (k : string) (v : V) (m : JsMap.t V) :
  Forall (fun kv => Q (snd kv)) m -> Q v ->
  Forall (fun kv => Q (snd kv)) (JsMap.set k v m).
Proof.
  intros Hm Hv. induction m as [|[k' v'] r IH]; cbn [JsMap.set].
  - constructor; [ exact Hv | constructor ].
  - inversion Hm as [|? ? Hhd Htl]; subst.
    destruct (Str.eqb k' k); constructor; auto.
Qed.

Lemma Forall_alterFirst {V} (Q : V -> Prop) (p : V -> bool) (f : V -> V) (m : JsMap.t V) :
  Forall (fun kv => Q (snd kv)) m -> (forall v, Q v -> Q (f v)) ->
  Forall (fun kv => Q (snd kv)) (alterFirst p f m).
Proof.
  intros Hm Hf. induction m as [|[k' v'] r IH]; cbn [alterFirst]; [ constructor | ].
  inversion Hm as [|? ? Hhd Htl]; subst.
  destruct (p v'); constructor; auto. apply Hf. exact Hhd.
Qed.

Lemma Forall_get {V} (Q : V -> Prop) (k : string) (v : V) (m : JsMap.t V) :
  Forall (fun kv => Q (snd kv)) m -> JsMap.get k m = Some v -> Q v.
Proof.
  intros Hm. induction m as [|[k' v'] r IH]; cbn [JsMap.get]; [ discriminate | ].
  inversion Hm as [|? ? Hhd Htl]; subst.
  destruct (Str.eqb k' k); [ intros [= <-]; exact Hhd | auto ].
Qed.

Lemma Forall_find {V} (Q : V -> Prop) (p : V -> bool) (v : V) (m : JsMap.t V) :
  Forall (fun kv => Q (snd kv)) m -> List.find p (JsMap.values m) = Some v -> Q v.
Proof.
  intros Hm. induction m as [|[k' v'] r IH]; cbn; [ discriminate | ].
  inversion Hm as [|? ? Hhd Htl]; subst.
  destruct (p v'); [ intros [= <-]; exact Hhd | auto ].
Qed.

Lemma isValidDomainLike_nonempty (d : string) : isValidDomainLike d = true -> d <> "".
Proof. intros H ->. vm_compute in H. discriminate H. Qed.

Lemma directoryKeyed_subdomain (w : World) (slug : string) (bs : list Byte.byte) :
  directoryKeyed w ->
  directoryKeyed
    (upd_bySubdomain (insert (normalizeHost (slug +:+ "." +:+ baseDomain))
                             ("sch" +:+ "_" +:+ Str.hex bs)) w).
Proof.
  intros (Hc & Hs & Hd). split; [ exact Hc | ]. split; [ | exact Hd ].
  intros h sid. world_simpl. rewrite lookup_insert. case_decide as Hk.
  - intros [= <-]. subst h. split; [ discriminate | apply subdomain_host_suffix ].
  - apply Hs.
Qed.

Lemma directoryKeyed_record (w : World) (k : string) (cfg : DomainConfig) :
  directoryKeyed w -> dom_id cfg <> "" ->
  directoryKeyed (upd_domains (JsMap.set k cfg) w).
Proof.
  intros (Hc & Hs & Hd) Hid. split; [ exact Hc | ]. split; [ exact Hs | ].
  world_simpl. apply (Forall_set (fun d => dom_id d <> "")); assumption.
Qed.

Lemma directoryKeyed_custom (w : World) (d did : string) :
  directoryKeyed w -> d <> "" -> did <> "" -> Str.endsWith platformSuffix d = false ->
  directoryKeyed (upd_byCustomDomain (insert d did) w).
Proof.
  intros (Hc & Hs & Hd) Hne Hid Hsuf. split; [ | split; [ exact Hs | exact Hd ] ].
  intros h did'. world_simpl. rewrite lookup_insert. case_decide as Hk.
  - intros [= <-]. subst h. auto.
  - apply Hc.
Qed.

Lemma createSchool_directoryKeyed (rt : Runtime) (name slug : string) :
  preserves directoryKeyed (createSchool rt name slug).
Proof.
  unfold createSchool.
  repeat first
    [ apply preserves_bind_generateId; [ intros ? Hk; exact Hk | intro ]
    | pres_step ];
    try (intros ? Hk; exact Hk).
  - intros w Hw. apply directoryKeyed_subdomain. exact Hw.
  - intros w Hw. apply directoryKeyed_record; [ exact Hw | ]. cbn. discriminate.
Qed.

Lemma requestCustomDomain_directoryKeyed (rt : Runtime) (schoolId domain : string) :
  preserves directoryKeyed (requestCustomDomain rt schoolId domain).
Proof.
  intros w Hw.
  change (wp (requestCustomDomain rt schoolId domain) (fun _ w' => directoryKeyed w') w).
  pose proof Hw as (Hc & Hs & Hd).
  wp_run; try exact Hw; guards.
  - (* the record of the school is changed where it stands *)
    apply (directoryKeyed_custom
             (upd_domains (alterFirst (isCustomOf schoolId (normalizeDomain domain))
                             (reRequested (Str.hex (List.map (entropy rt (draws w)) (seq 0 12)))))
                          w)).
    + split; [ exact Hc | ]. split; [ exact Hs | ]. world_simpl.
      apply (Forall_alterFirst (fun d => dom_id d <> "")); [ exact Hd | ].
      intros v Hv. exact Hv.
    + apply isValidDomainLike_nonempty. assumption.
    + eapply (Forall_find (fun d => dom_id d <> "")); eassumption.
    + assumption.
  - (* a new record *)
    apply (directoryKeyed_custom
             (upd_domains (JsMap.set _ _) w)).
    + apply directoryKeyed_record; [ exact Hw | ]. cbn. discriminate.
    + apply isValidDomainLike_nonempty. assumption.
    + discriminate.
    + assumption.
Qed.

Lemma verifyCustomDomain_directoryKeyed (rt : Runtime) (schoolId domain token : string) :
  preserves directoryKeyed (verifyCustomDomain rt schoolId domain token).
Proof.
  intros w Hw.
  change (wp (verifyCustomDomain rt schoolId domain token) (fun _ w' => directoryKeyed w') w).
  pose proof Hw as (Hc & Hs & Hd).
  wp_run; try exact Hw.
  apply (directoryKeyed_record w); [ exact Hw | ]. cbn [dom_id].
  eapply (Forall_get (fun d => dom_id d <> "")); eassumption.
Qed.

Lemma reachable_directoryKeyed (rt : Runtime) (w : World) :
  reachable rt w -> directoryKeyed w.
Proof.
  induction 1 as [|c w Hw IH].
  - split; [ | split; [ | constructor ] ]; intros h x Hx; cbn in Hx;
      rewrite lookup_empty in Hx; discriminate.
  - assert (Hcut : forall A (m : M A),
               preserves (fun w' => byCustomDomain w' = byCustomDomain w /\
                                    bySubdomain w' = bySubdomain w /\
                                    domains w' = domains w) m ->
               directoryKeyed (exec m w)).
    { intros A m Hm. destruct (Hm w (conj eq_refl (conj eq_refl eq_refl))) as (H1 & H2 & H3).
      unfold directoryKeyed. rewrite H1, H2, H3. exact IH. }
    destruct c; cbn [perform]; try (apply Hcut; frame_run; fail).
    + apply createSchool_directoryKeyed. exact IH.
    + apply requestCustomDomain_directoryKeyed. exact IH.
    + apply verifyCustomDomain_directoryKeyed. exact IH.
Qed.

Lemma reachable_performAll (rt : Runtime) (cs : list Call) :
  forall w, reachable rt w -> reachable rt (performAll rt cs w).
Proof.
  induction cs as [|c rest IH]; intros w Hw; [ exact Hw | ].
  cbn [performAll]. apply IH. constructor. exact Hw.
Qed.

Lemma domainWorld_reachable : reachable demoRuntime domainWorld.
Proof.
  replace domainWorld with (performAll demoRuntime domainCalls emptyWorld)
    by (vm_compute; reflexivity).
  apply reachable_performAll. constructor.
Qed.

(** C7. In every store the process can reach and for every host: when
    the normalised host is indexed to a verified custom domain,
    [resolveSchoolByHost] answers with the school that owns the domain,
    whatever the subdomain index holds for the host; a host indexed to an
    unverified custom domain resolves to [null]; a host of the
    subdomain index resolves to the school it is bound to; so a school
    with a verified custom domain and its default subdomain is the answer
    for both hostnames. *)
Theorem resolveSchoolByHost_precedence (rt : Runtime) (w : World) (host : string) :
  reachable rt w ->
  (forall did cfg,
      byCustomDomain w !! normalizeHost host = Some did ->
      JsMap.get did (domains w) = Some cfg ->
      dom_type cfg = custom -> dom_verified cfg = true ->
      resolveSchoolByHost host w = schools w !! dom_schoolId cfg) /\
  (forall did cfg,
      byCustomDomain w !! normalizeHost host = Some did ->
      JsMap.get did (domains w) = Some cfg ->
      dom_verified cfg = false ->
      resolveSchoolByHost host w = None) /\
  (forall sid,
      bySubdomain w !! normalizeHost host = Some sid ->
      resolveSchoolByHost host w = schools w !! sid) /\
  (forall host' did cfg school,
      byCustomDomain w !! normalizeHost host = Some did ->
      JsMap.get did (domains w) = Some cfg ->
      dom_type cfg = custom -> dom_verified cfg = true ->
      schools w !! dom_schoolId cfg = Some school ->
      bySubdomain w !! normalizeHost host' = Some (dom_schoolId cfg) ->
      resolveSchoolByHost host w = Some school /\
      resolveSchoolByHost host' w = Some school).
Proof.
  intros Hreach.
  destruct (reachable_directoryKeyed rt w Hreach) as (Hc & Hs & _).
  assert (Hcustom : forall host0 did cfg,
      byCustomDomain w !! normalizeHost host0 = Some did ->
      JsMap.get did (domains w) = Some cfg ->
      dom_type cfg = custom -> dom_verified cfg = true ->
      resolveSchoolByHost host0 w = schools w !! dom_schoolId cfg).
  { intros host0 did cfg Hidx Hcfg Hty Hver.
    destruct (Hc _ _ Hidx) as (Hh & Hdid & _).
    destruct (resolveSchoolByHost_cases w host0) as (Hcase & _).
    apply (Hcase did cfg); assumption. }
  assert (Hsub : forall host0 sid,
      bySubdomain w !! normalizeHost host0 = Some sid ->
      resolveSchoolByHost host0 w = schools w !! sid).
  { intros host0 sid Hidx.
    destruct (Hs _ _ Hidx) as (Hsid & Hsuf).
    assert (Hh : normalizeHost host0 <> "").
    { intros E. rewrite E in Hsuf. vm_compute in Hsuf. discriminate Hsuf. }
    assert (Hnone : byCustomDomain w !! normalizeHost host0 = None).
    { destruct (byCustomDomain w !! normalizeHost host0) as [did|] eqn:E; [ | reflexivity ].
      destruct (Hc _ _ E) as (_ & _ & Hno). congruence. }
    destruct (resolveSchoolByHost_cases w host0) as (_ & _ & Hcase & _).
    apply (Hcase sid); assumption. }
  split; [ exact (Hcustom host) | ].
  split.
  { intros did cfg Hidx Hcfg Hver.
    destruct (Hc _ _ Hidx) as (_ & _ & Hno).
    assert (Hnone : bySubdomain w !! normalizeHost host = None).
    { destruct (bySubdomain w !! normalizeHost host) as [sid|] eqn:E; [ | reflexivity ].
      destruct (Hs _ _ E) as (_ & Hsuf). congruence. }
    destruct (resolveSchoolByHost_cases w host) as (_ & Hcase & _).
    apply (Hcase did cfg); assumption. }
  split; [ exact (Hsub host) | ].
  intros host' did cfg school Hidx Hcfg Hty Hver Hschool Hidx'.
  split.
  - rewrite (Hcustom host did cfg) by assumption. exact Hschool.
  - rewrite (Hsub host' _ Hidx'). exact Hschool.
Qed.

(** The theorem at the run of [domainScenario]: both hostnames of Escola
    Alpha resolve to it. *)
Lemma resolveSchoolByHost_both_hosts :
  exists alpha,
    schools domainWorld !! alphaId = Some alpha /\
    resolveSchoolByHost "cursos.alpha.com.br" domainWorld = Some alpha /\
    resolveSchoolByHost "Alpha.platform.local." domainWorld = Some alpha.
Proof.
  destruct (resolveSchoolByHost_precedence demoRuntime domainWorld "cursos.alpha.com.br"
              domainWorld_reachable) as (_ & _ & _ & Hboth).
  destruct (schools domainWorld !! alphaId) as [alpha|] eqn:Halpha;
    [ | vm_compute in Halpha; discriminate Halpha ].
  destruct (byCustomDomain domainWorld !! normalizeHost "cursos.alpha.com.br")
    as [did|] eqn:Hidx; [ | vm_compute in Hidx; discriminate Hidx ].
  destruct (JsMap.get did (domains domainWorld)) as [cfg|] eqn:Hcfg;
    [ | vm_compute in Hidx; injection Hidx as <-; vm_compute in Hcfg; discriminate Hcfg ].
  assert (Hshape : dom_type cfg = custom /\ dom_verified cfg = true /\
                   dom_schoolId cfg = alphaId).
  { vm_compute in Hidx. injection Hidx as <-. vm_compute in Hcfg. injection Hcfg as <-.
    repeat split. }
  destruct Hshape as (Hty & Hver & Hown).
  exists alpha. split; [ reflexivity | ].
  apply (Hboth "Alpha.platform.local." did cfg alpha); try assumption.
  - reflexivity.
  - rewrite Hown. exact Halpha.
  - rewrite Hown. vm_compute. reflexivity.
Defined.

(** ** The theorems at the runs *)

(** The APPROVED webhook of [checkoutScenario], delivered twice, and then
    once more under the same event id with a forged payload and
    signature: the same snapshot each time, and the store of the first
    delivery. *)
Lemma receiveWebhook_replay_scenario :
  deliver approvedCheckout checkoutWorld = (Ok paidSnapshot, paidWorld) /\
  snap_orderStatus paidSnapshot = PAID /\
  deliver approvedCheckout paidWorld = (Ok paidSnapshot, paidWorld) /\
  receiveWebhook demoRuntime "DEMO"
    (Some (("eventId", "  whk_0e0e0e0e0e0e0e0e ") :: ("result", "DECLINED") :: nil))
    "forged" paidWorld
  = (Ok paidSnapshot, paidWorld).
Proof.
  destruct (receiveWebhook_idempotent demoRuntime) as (_ & _ & Htwice).
  assert (Hrun : receiveWebhook demoRuntime "DEMO"
                   (Some (webhook_payload approvedCheckout))
                   (webhook_signature approvedCheckout) checkoutWorld
                 = (Ok paidSnapshot, paidWorld))
    by (vm_compute; reflexivity).
  destruct (Htwice checkoutWorld "DEMO" (Some (webhook_payload approvedCheckout))
              (webhook_signature approvedCheckout) paidSnapshot paidWorld Hrun)
    as [Hagain Hother].
  unfold deliver.
  split; [ exact Hrun | ]. split; [ reflexivity | ].
  split; [ exact Hagain | ].
  apply Hother. vm_compute. reflexivity.
Defined.

(** A stored value read back by computation. *)
Ltac read_store H := vm_compute in H; first [ discriminate H | injection H as <- ].

(** The PUBLISHED course of [checkoutScenario] is left as it is by one
    more [publishCourse], and the DRAFT course of [draftScenario] cannot be
    published. *)
Lemma course_lifecycle_scenario :
  (exists c,
      courses checkoutWorld !! scenarioCourseId = Some c /\
      course_state c = PUBLISHED /\
      courses (exec (lifecycle demoRuntime (Publish scenarioSchoolId scenarioCourseId))
                    checkoutWorld) !! scenarioCourseId = Some c) /\
  publishCourse demoRuntime scenarioSchoolId draftCourseId draftWorld
  = (Throw "COURSE_NOT_READY_TO_PUBLISH", draftWorld).
Proof.
  destruct (course_lifecycle_monotonic demoRuntime) as (Hstep & _ & _ & Hpublish).
  split.
  - destruct (courses checkoutWorld !! scenarioCourseId) as [c|] eqn:Hc;
      [ | vm_compute in Hc; discriminate Hc ].
    assert (Hpub : course_state c = PUBLISHED) by (read_store Hc; reflexivity).
    destruct (Hstep (Publish scenarioSchoolId scenarioCourseId) checkoutWorld
                    scenarioCourseId c Hc) as (c' & Hc' & _ & Hfix).
    exists c. split; [ reflexivity | ]. split; [ exact Hpub | ].
    rewrite Hc'. f_equal. exact (Hfix Hpub).
  - destruct (schools draftWorld !! scenarioSchoolId) as [s|] eqn:Hs;
      [ | vm_compute in Hs; discriminate Hs ].
    destruct (courses draftWorld !! draftCourseId) as [c|] eqn:Hc;
      [ | vm_compute in Hc; discriminate Hc ].
    assert (Hact : school_status s = ACTIVE) by (read_store Hs; reflexivity).
    assert (Hown : course_schoolId c = scenarioSchoolId /\ course_state c = DRAFT)
      by (read_store Hc; split; reflexivity).
    destruct Hown as [Hown Hdraft].
    destruct (Hpublish draftWorld scenarioSchoolId draftCourseId s c Hs Hact Hc Hown)
      as (_ & _ & Hthrow).
    exact (Hthrow Hdraft).
Defined.


(** The APPROVED webhook of [checkoutScenario], delivered after the school
    was suspended. *)
Lemma receiveWebhook_suspended_applies :
  exists snap w',
    deliver approvedCheckout suspendedWorld = (Ok snap, w') /\
    snap_orderStatus snap = PAID /\
    (exists o, orders w' !! scenarioOrderId = Some o /\ order_status o = PAID) /\
    (exists s, schools w' !! scenarioSchoolId = Some s /\ school_status s = SUSPENDED).
Proof.
  destruct (receiveWebhook_ignores_school_status demoRuntime) as (_ & Happly & _).
  pose (payload := Some (webhook_payload approvedCheckout)).
  destruct (schools suspendedWorld !! webhookSchoolId payload) as [s|] eqn:Hs;
    [ | vm_compute in Hs; discriminate Hs ].
  destruct (gateway suspendedWorld !! webhookSchoolId payload) as [g|] eqn:Hg;
    [ | vm_compute in Hg; discriminate Hg ].
  destruct (orders suspendedWorld !! webhookOrderId payload) as [o|] eqn:Ho;
    [ | vm_compute in Ho; discriminate Ho ].
  destruct (payments suspendedWorld !! webhookPaymentId payload) as [p|] eqn:Hp;
    [ | vm_compute in Hp; discriminate Hp ].
  assert (Hsus : school_status s = SUSPENDED) by (read_store Hs; reflexivity).
  assert (Hsig : Str.trim (webhook_signature approvedCheckout)
                 = expectedSignature demoRuntime g payload)
    by (read_store Hg; vm_compute; reflexivity).
  assert (Hos : order_schoolId o = webhookSchoolId payload)
    by (read_store Ho; vm_compute; reflexivity).
  assert (Hpp : pay_schoolId p = webhookSchoolId payload /\
                pay_orderId p = webhookOrderId payload)
    by (read_store Hp; split; vm_compute; reflexivity).
  destruct Hpp as [Hps Hpo].
  assert (Hvalid : validDelivery "DEMO" payload).
  { repeat split; vm_compute; try reflexivity; discriminate. }
  assert (Hfirst : firstTime suspendedWorld payload) by (vm_compute; reflexivity).
  destruct (Happly suspendedWorld "DEMO" payload (webhook_signature approvedCheckout)
                   g o p s Hs Hsus Hvalid Hfirst Hg Hsig Ho Hos Hp Hps Hpo)
    as (snap & w' & Hrun & Hstatus & Horder & _ & _ & Hschool).
  exists snap, w'. split; [ exact Hrun | ].
  split; [ exact Hstatus | ]. split; [ exact Horder | ].
  exists s. split; [ exact Hschool | exact Hsus ].
Defined.


(** * Beyond the claims

    ** Strings: escaping, hosts and domains *)

Lemma str_app_nil_r (a : string) : a +:+ "" = a.
Proof. induction a as [|c r IH]; [ reflexivity | ]. rewrite app_cons, IH. reflexivity. Qed.

Lemma str_app_assoc (a b c : string) : (a +:+ b) +:+ c = a +:+ (b +:+ c).
Proof. induction a as [|x r IH]; [ reflexivity | ]. rewrite !app_cons, IH. reflexivity. Qed.

Lemma replaceAll_app (c : ascii) (rep a b : string) :
  Html.replaceAll c rep (a +:+ b) = Html.replaceAll c rep a +:+ Html.replaceAll c rep b.
Proof.
  induction a as [|x r IH]; [ reflexivity | ].
  rewrite app_cons. cbn [Html.replaceAll]. rewrite IH, str_app_assoc. reflexivity.
Qed.

Lemma esc_app (a b : string) :
  Html.esc (Some (a +:+ b)) = Html.esc (Some a) +:+ Html.esc (Some b).
Proof. unfold Html.esc. cbn [default from_option id]. rewrite !replaceAll_app. reflexivity. Qed.

Lemma esc_char (c : ascii) : Html.esc (Some (String c "")) = Html.entity c.
Proof.
  unfold Html.esc, Html.entity. cbn [default from_option id Html.replaceAll].
  destruct (bool_decide (c = "&"%char)) eqn:E1; [ vm_compute; reflexivity | ].
  rewrite str_app_nil_r. cbn [Html.replaceAll].
  destruct (bool_decide (c = "<"%char)) eqn:E2; [ vm_compute; reflexivity | ].
  rewrite str_app_nil_r. cbn [Html.replaceAll].
  destruct (bool_decide (c = ">"%char)) eqn:E3; [ vm_compute; reflexivity | ].
  rewrite str_app_nil_r. cbn [Html.replaceAll].
  destruct (bool_decide (c = Html.quot)) eqn:E4; [ vm_compute; reflexivity | ].
  reflexivity.
Qed.

(** The four replacements of [esc], one after the other, amount to one
    pass that rewrites each character on its own. *)
Lemma esc_entities (s : string) : Html.esc (Some s) = Html.entities s.
Proof.
  induction s as [|c r IH]; [ reflexivity | ].
  change (String c r) with (String c "" +:+ r).
  rewrite esc_app, esc_char, IH. reflexivity.
Qed.

Lemma all_app (p : ascii -> bool) (a b : string) :
  Str.all p (a +:+ b) = Str.all p a && Str.all p b.
Proof.
  induction a as [|c r IH]; [ reflexivity | ].
  rewrite app_cons. cbn [Str.all]. rewrite IH, andb_assoc. reflexivity.
Qed.

Ltac entity_cases c :=
  unfold Html.entity;
  destruct (bool_decide (c = "&"%char)) eqn:?;
  [ | destruct (bool_decide (c = "<"%char)) eqn:?;
      [ | destruct (bool_decide (c = ">"%char)) eqn:?;
          [ | destruct (bool_decide (c = Html.quot)) eqn:? ] ] ].

Lemma entity_head (x y : ascii) (a b : string) :
  Html.entity x +:+ a = Html.entity y +:+ b -> x = y /\ a = b.
Proof.
  entity_cases x; entity_cases y; guards; subst;
    intros H; rewrite ?app_cons in H;
    change ("" +:+ a) with a in H; change ("" +:+ b) with b in H;
    try discriminate H;
    try (injection H; intros; subst; first [ congruence | split; reflexivity ]).
Qed.

Lemma entities_inj (a b : string) : Html.entities a = Html.entities b -> a = b.
Proof.
  revert b. induction a as [|x r IH]; intros [|y s]; cbn [Html.entities].
  - reflexivity.
  - intros H. exfalso. revert H. entity_cases y; rewrite ?app_cons; discriminate.
  - intros H. exfalso. revert H. entity_cases x; rewrite ?app_cons; discriminate.
  - intros H. destruct (entity_head _ _ _ _ H) as [-> Hrest].
    rewrite (IH s Hrest). reflexivity.
Qed.

(** X1. What [esc] returns contains no [<], no [>] and no double quote;
    a string without [&], [<], [>] and double quote is returned as it is;
    and two different strings are never escaped to the same text. *)
Theorem esc_escapes :
  (forall s,
      Str.all (fun c => negb (bool_decide (c = "<"%char) || bool_decide (c = ">"%char) ||
                              bool_decide (c = Html.quot))) (Html.esc s) = true) /\
  (forall s,
      Str.all (fun c => negb (Html.special c)) s = true -> Html.esc (Some s) = s) /\
  (forall a b, Html.esc (Some a) = Html.esc (Some b) -> a = b) /\
  Html.esc None = "".
Proof.
  split; [ | split; [ | split ] ].
  - intros [s|]; [ | reflexivity ].
    rewrite esc_entities. induction s as [|c r IH]; [ reflexivity | ].
    cbn [Html.entities]. rewrite all_app, IH, andb_true_r.
    entity_cases c; try (vm_compute; reflexivity).
    cbn [Str.all]. rewrite andb_true_r.
    repeat match goal with H : bool_decide _ = false |- _ => rewrite H end.
    reflexivity.
  - intros s. rewrite esc_entities. induction s as [|c r IH]; [ reflexivity | ].
    cbn [Str.all Html.entities]. intros H. apply andb_true_iff in H as [Hc Hr].
    rewrite (IH Hr). unfold Html.special in Hc. apply negb_true_iff in Hc.
    guards. unfold Html.entity.
    repeat match goal with
           | H : _ <> _ |- _ => rewrite (bool_decide_eq_false_2 _ H); clear H
           end.
    reflexivity.
  - intros a b. rewrite !esc_entities. apply entities_inj.
  - reflexivity.
Qed.

(** *** [normalizeDomain] reads the host out of a URL *)

Lemma toLowerCase_app (a b : string) :
  Str.toLowerCase (a +:+ b) = Str.toLowerCase a +:+ Str.toLowerCase b.
Proof.
  unfold Str.toLowerCase. induction a as [|c r IH]; [ reflexivity | ].
  rewrite app_cons. cbn [Str.map]. rewrite IH. reflexivity.
Qed.

Lemma hostChar_lower (c : ascii) : hostChar (Str.lower_char c) = hostChar c.
Proof. destruct c as [[] [] [] [] [] [] [] []]; vm_compute; reflexivity. Qed.

Lemma is_ws_lower (c : ascii) : Str.is_ws (Str.lower_char c) = Str.is_ws c.
Proof. destruct c as [[] [] [] [] [] [] [] []]; vm_compute; reflexivity. Qed.

Lemma lower_lower (c : ascii) : Str.lower_char (Str.lower_char c) = Str.lower_char c.
Proof. destruct c as [[] [] [] [] [] [] [] []]; vm_compute; reflexivity. Qed.

Lemma lower_upper (c : ascii) : Str.lower_char (Str.upper_char c) = Str.lower_char c.
Proof. destruct c as [[] [] [] [] [] [] [] []]; vm_compute; reflexivity. Qed.

Lemma all_map (p : ascii -> bool) (f : ascii -> ascii) (s : string) :
  (forall c, p (f c) = p c) -> Str.all p (Str.map f s) = Str.all p s.
Proof.
  intros H. induction s as [|c r IH]; [ reflexivity | ].
  cbn [Str.map Str.all]. rewrite H, IH. reflexivity.
Qed.

Lemma hostChar_not_ws (c : ascii) : hostChar c = true -> Str.is_ws c = false.
Proof. unfold hostChar. intros H. guards. assumption. Qed.

Lemma hostLike_noWs (h : string) : Str.all hostChar h = true -> noWs h = true.
Proof.
  unfold noWs. induction h as [|c r IH]; [ reflexivity | ].
  cbn [Str.all]. intros H. apply andb_true_iff in H as [Hc Hr].
  rewrite (hostChar_not_ws c Hc), (IH Hr). reflexivity.
Qed.

Lemma trimEnd_app_cons (a : string) (c : ascii) (b : string) :
  Str.is_ws c = false ->
  Str.trimEnd (a +:+ String c b) = a +:+ String c (Str.trimEnd b).
Proof.
  intros Hc. induction a as [|x r IH].
  - change ("" +:+ String c b) with (String c b).
    change ("" +:+ String c (Str.trimEnd b)) with (String c (Str.trimEnd b)).
    cbn [Str.trimEnd]. rewrite Hc. destruct (Str.trimEnd b); reflexivity.
  - rewrite !app_cons. cbn [Str.trimEnd]. rewrite IH.
    destruct r; reflexivity.
Qed.

Lemma beforeChar_app (sep : ascii) (h x : string) :
  Str.all (fun c => negb (bool_decide (c = sep))) h = true ->
  Str.beforeChar sep (h +:+ x) = h +:+ Str.beforeChar sep x.
Proof.
  induction h as [|c r IH]; [ reflexivity | ].
  cbn [Str.all]. intros H. apply andb_true_iff in H as [Hc Hr].
  rewrite !app_cons. cbn [Str.beforeChar].
  apply negb_true_iff in Hc. rewrite Hc, (IH Hr). reflexivity.
Qed.

Lemma beforeChar_none (sep : ascii) (h : string) :
  Str.all (fun c => negb (bool_decide (c = sep))) h = true -> Str.beforeChar sep h = h.
Proof.
  intros H. rewrite <- (str_app_nil_r h) at 1. rewrite (beforeChar_app sep h "" H).
  apply str_app_nil_r.
Qed.

Lemma beforeChar_hit (sep : ascii) (r : string) : Str.beforeChar sep (String sep r) = "".
Proof. cbn [Str.beforeChar]. rewrite bool_decide_eq_true_2; reflexivity. Qed.

Lemma hostChar_no (sep : ascii) (h : string) :
  hostChar sep = false ->
  Str.all hostChar h = true ->
  Str.all (fun c => negb (bool_decide (c = sep))) h = true.
Proof.
  intros Hsep. induction h as [|c r IH]; [ reflexivity | ].
  cbn [Str.all]. intros H. apply andb_true_iff in H as [Hc Hr].
  rewrite (IH Hr), andb_true_r. apply negb_true_iff, bool_decide_eq_false.
  intros ->. congruence.
Qed.

(** What [normalizeDomain] makes of a lower-cased, trimmed URL: the host
    in front of the first [/] or [:]. *)
Lemma host_of (h tail : string) :
  Str.all hostChar h = true ->
  (tail = "" \/ exists sep rest, tail = String sep rest /\ hostChar sep = false /\
                                 Str.is_ws sep = false) ->
  Str.beforeChar ":" (Str.beforeChar "/" (h +:+ tail)) = h.
Proof.
  intros Hh Htail.
  assert (Hslash := hostChar_no "/" h eq_refl Hh).
  assert (Hcolon := hostChar_no ":" h eq_refl Hh).
  rewrite (beforeChar_app "/" h tail Hslash).
  destruct Htail as [-> | (sep & rest & -> & Hsep & Hws)].
  - cbn [Str.beforeChar]. rewrite str_app_nil_r. apply beforeChar_none, Hcolon.
  - destruct (bool_decide (sep = "/"%char)) eqn:E.
    + apply bool_decide_eq_true in E. subst sep. rewrite beforeChar_hit, str_app_nil_r.
      apply beforeChar_none, Hcolon.
    + assert (sep = ":"%char) as ->.
      { unfold hostChar in Hsep. rewrite Hws, E in Hsep. cbn in Hsep.
        apply negb_false_iff, bool_decide_eq_true in Hsep. exact Hsep. }
      cbn [Str.beforeChar]. rewrite (bool_decide_eq_false_2 (":"%char = "/"%char) ltac:(intro; discriminate)).
      rewrite (beforeChar_app ":" h _ Hcolon), beforeChar_hit, str_app_nil_r.
      reflexivity.
Qed.

Lemma all_lower_host (h : string) :
  Str.all hostChar (Str.toLowerCase h) = Str.all hostChar h.
Proof. apply all_map, hostChar_lower. Qed.

Lemma startsWith_app (p s : string) :
  Str.startsWith p s = true -> exists r, s = p +:+ r.
Proof.
  revert s. induction p as [|a p IH]; intros s; [ exists s; reflexivity | ].
  destruct s as [|b s]; cbn [Str.startsWith]; [ discriminate | ].
  intros H. apply andb_true_iff in H as [Hab Hrest].
  apply bool_decide_eq_true in Hab. subst b.
  destruct (IH s Hrest) as [r ->]. exists r. reflexivity.
Qed.

Lemma stripScheme_host (h : string) :
  Str.all hostChar h = true -> Str.stripScheme h = h.
Proof.
  intros Hh. unfold Str.stripScheme.
  destruct (Str.startsWith "http://" h) eqn:E1.
  { apply startsWith_app in E1 as [r ->]. rewrite all_app in Hh.
    vm_compute in Hh. discriminate Hh. }
  destruct (Str.startsWith "https://" h) eqn:E2.
  { apply startsWith_app in E2 as [r ->]. rewrite all_app in Hh.
    vm_compute in Hh. discriminate Hh. }
  reflexivity.
Qed.

Lemma stripScheme_http (x : string) : Str.stripScheme ("http://" +:+ x) = x.
Proof. reflexivity. Qed.

Lemma stripScheme_https (x : string) : Str.stripScheme ("https://" +:+ x) = x.
Proof. reflexivity. Qed.

Ltac peel E Hh :=
  match type of E with
  | ?h +:+ _ = _ =>
      destruct h; rewrite ?app_cons in E;
      [ discriminate E
      | injection E as -> E; cbn [Str.all] in Hh;
        apply andb_true_iff in Hh as [Hc Hh]; try (vm_compute in Hc; discriminate Hc);
        clear Hc ]
  end.

Lemma stripScheme_host_path (h rest : string) :
  Str.all hostChar h = true ->
  Str.stripScheme (h +:+ String "/" rest) = h +:+ String "/" rest.
Proof.
  intros Hh. unfold Str.stripScheme.
  destruct (Str.startsWith "http://" (h +:+ String "/" rest)) eqn:E1.
  { exfalso. apply startsWith_app in E1 as [r E]. rewrite !app_cons in E.
    change ("" +:+ r) with r in E. do 5 peel E Hh. }
  destruct (Str.startsWith "https://" (h +:+ String "/" rest)) eqn:E2.
  { exfalso. apply startsWith_app in E2 as [r E]. rewrite !app_cons in E.
    change ("" +:+ r) with r in E. do 6 peel E Hh. }
  reflexivity.
Qed.

Lemma hostLike_tight (h x : string) : hostLike h = true -> tight (h +:+ x).
Proof.
  unfold hostLike. intros H. apply andb_true_iff in H as [Hne Hall].
  destruct h as [|c r]; [ discriminate Hne | ].
  rewrite app_cons. cbn [tight]. cbn [Str.all] in Hall.
  apply andb_true_iff in Hall as [Hc _]. exact (hostChar_not_ws c Hc).
Qed.

Lemma lower_sep (sep : ascii) :
  sep = "/"%char \/ sep = ":"%char ->
  Str.lower_char sep = sep /\ hostChar sep = false /\ Str.is_ws sep = false.
Proof. intros [-> | ->]; repeat split. Qed.

(** X2. [normalizeDomain] reads the host out of what it is given: for a
    host written in ASCII, the host written alone, the host followed by
    a path, and an [http://] or [https://] URL with or without a port
    and a path all give the lower-cased host without its final dot. *)
Theorem normalizeDomain_host (h : string) :
  hostLike h = true -> asciiOnly h = true ->
  normalizeDomain h = Str.stripFinalDot (Str.toLowerCase h) /\
  (forall rest,
      normalizeDomain (h +:+ String "/" rest) = Str.stripFinalDot (Str.toLowerCase h)) /\
  (forall scheme,
      scheme = "http://" \/ scheme = "https://" ->
      normalizeDomain (scheme +:+ h) = Str.stripFinalDot (Str.toLowerCase h) /\
      forall sep rest,
        sep = "/"%char \/ sep = ":"%char ->
        normalizeDomain (scheme +:+ h +:+ String sep rest)
        = Str.stripFinalDot (Str.toLowerCase h)).
Proof.
  intros Hhost _.
  assert (Hall : Str.all hostChar h = true).
  { unfold hostLike in Hhost. apply andb_true_iff in Hhost as [_ H]. exact H. }
  assert (Hlow : Str.all hostChar (Str.toLowerCase h) = true)
    by (rewrite all_lower_host; exact Hall).
  assert (Hbare : normalizeDomain h = Str.stripFinalDot (Str.toLowerCase h)).
  { unfold normalizeDomain. rewrite (trim_noWs h (hostLike_noWs h Hall)).
    rewrite (stripScheme_host _ Hlow).
    rewrite <- (str_app_nil_r (Str.toLowerCase h)) at 1.
    rewrite (host_of _ "" Hlow (or_introl eq_refl)). reflexivity. }
  split; [ exact Hbare | ]. split.
  - intros rest. unfold normalizeDomain, Str.trim.
    rewrite (trimStart_of_tight _ (hostLike_tight h _ Hhost)).
    rewrite (trimEnd_app_cons h "/" rest eq_refl).
    rewrite toLowerCase_app.
    change (Str.toLowerCase (String "/" (Str.trimEnd rest)))
      with (String "/" (Str.toLowerCase (Str.trimEnd rest))).
    rewrite (stripScheme_host_path _ _ Hlow).
    rewrite (host_of _ _ Hlow); [ reflexivity | ].
    right. eexists _, _. repeat split.
  - intros scheme Hscheme.
    assert (Hs : Str.toLowerCase scheme = scheme /\ tight scheme /\ noWs scheme = true /\
                 forall x, Str.stripScheme (scheme +:+ x) = x /\ tight (scheme +:+ x)).
    { destruct Hscheme as [-> | ->]; repeat split. }
    destruct Hs as (Hls & Hts & Hns & Hstrip).
    split.
    + unfold normalizeDomain.
      rewrite (trim_noWs (scheme +:+ h)).
      2:{ rewrite noWs_app, Hns, (hostLike_noWs h Hall). reflexivity. }
      rewrite toLowerCase_app, Hls. rewrite (proj1 (Hstrip _)).
      rewrite <- (str_app_nil_r (Str.toLowerCase h)) at 1.
      rewrite (host_of _ "" Hlow (or_introl eq_refl)). reflexivity.
    + intros sep rest Hsep. destruct (lower_sep sep Hsep) as (Hlsep & Hhsep & Hwsep).
      unfold normalizeDomain, Str.trim.
      rewrite (trimStart_of_tight _ (proj2 (Hstrip _))).
      rewrite <- str_app_assoc. rewrite (trimEnd_app_cons _ sep rest Hwsep).
      rewrite str_app_assoc, !toLowerCase_app, Hls.
      change (Str.toLowerCase (String sep (Str.trimEnd rest)))
        with (String (Str.lower_char sep) (Str.toLowerCase (Str.trimEnd rest))).
      rewrite Hlsep, (proj1 (Hstrip _)).
      rewrite (host_of _ _ Hlow); [ reflexivity | ].
      right. eexists _, _. repeat split; assumption.
Qed.

(** [normalizeDomain] at three ways of writing one host. *)
Lemma normalizeDomain_host_demo :
  normalizeDomain "Loja.Alpha.com.br." = "loja.alpha.com.br" /\
  normalizeDomain "Loja.Alpha.com.br./path " = "loja.alpha.com.br" /\
  normalizeDomain "https://Loja.Alpha.com.br.:8443/path?x=1" = "loja.alpha.com.br".
Proof.
  destruct (normalizeDomain_host "Loja.Alpha.com.br." eq_refl eq_refl)
    as (Hbare & Hpath & Hurl).
  split; [ exact Hbare | ]. split; [ exact (Hpath "path ") | ].
  destruct (Hurl "https://" (or_intror eq_refl)) as [_ Hport].
  exact (Hport ":"%char "8443/path?x=1" (or_intror eq_refl)).
Defined.

(** *** The canonical serialisation does not depend on the order of the keys *)

Lemma leb_trans (a b c : string) :
  String.leb a b = true -> String.leb b c = true -> String.leb a c = true.
Proof.
  unfold String.leb. revert b c.
  induction a as [|x a IH]; intros [|y b] [|z c]; cbn; try congruence.
  unfold Ascii.compare.
  destruct (N.compare_spec (N_of_ascii x) (N_of_ascii y));
    destruct (N.compare_spec (N_of_ascii y) (N_of_ascii z));
    destruct (N.compare_spec (N_of_ascii x) (N_of_ascii z));
    try congruence; try lia.
  apply IH.
Qed.

Lemma lebP_antisym : AntiSymm eq lebP.
Proof. intros a b. apply String.leb_antisym. Qed.

Lemma insertSorted_perm (k : string) (l : list string) : insertSorted k l ≡ₚ k :: l.
Proof.
  induction l as [|x r IH]; [ reflexivity | ].
  cbn [insertSorted]. destruct (String.leb k x); [ reflexivity | ].
  rewrite IH. apply perm_swap.
Qed.

Lemma sortStrings_perm (l : list string) : sortStrings l ≡ₚ l.
Proof.
  induction l as [|x r IH]; [ reflexivity | ].
  cbn [sortStrings fold_right]. fold (sortStrings r).
  rewrite insertSorted_perm, IH. reflexivity.
Qed.

Lemma insertSorted_sorted (k : string) (l : list string) :
  StronglySorted lebP l -> StronglySorted lebP (insertSorted k l).
Proof.
  induction 1 as [|x r Hr IH Hx]; cbn [insertSorted].
  - repeat constructor.
  - destruct (String.leb k x) eqn:E.
    + constructor; [ constructor; assumption | ].
      constructor; [ exact E | ].
      eapply Forall_impl; [ exact Hx | ]. intros y Hy. exact (leb_trans k x y E Hy).
    + constructor; [ exact IH | ].
      rewrite (insertSorted_perm k r). constructor; [ | exact Hx ].
      destruct (String.leb_total k x) as [H|H]; [ congruence | exact H ].
Qed.

Lemma sortStrings_sorted (l : list string) : StronglySorted lebP (sortStrings l).
Proof.
  induction l as [|x r IH]; [ constructor | ].
  cbn [sortStrings fold_right]. fold (sortStrings r). apply insertSorted_sorted, IH.
Qed.

Lemma sortStrings_order (l l' : list string) : l ≡ₚ l' -> sortStrings l = sortStrings l'.
Proof.
  intros H. apply (@StronglySorted_unique _ lebP lebP_antisym); try apply sortStrings_sorted.
  rewrite !sortStrings_perm. exact H.
Qed.

Lemma get_elem_of (k v : string) (o : JsObject) :
  NoDup (Obj.keys o) -> (Obj.get k o = Some v <-> (k, v) ∈ o).
Proof.
  induction o as [|[k' v'] r IH]; cbn [Obj.get Obj.keys List.map fst].
  - intros _. split; [ discriminate | intros H; inversion H ].
  - intros Hnd. apply NoDup_cons in Hnd as [Hk' Hr]. fold (Obj.keys r) in *.
    destruct (Str.eqb k' k) eqn:E; guards.
    + subst k'. split.
      * intros [= ->]. left.
      * intros H. apply elem_of_cons in H as [[= ->] | H]; [ reflexivity | ].
        exfalso. apply Hk'. apply list_elem_of_fmap. exists (k, v). split; [ reflexivity | exact H ].
    + rewrite (IH Hr). split.
      * intros H. right. exact H.
      * intros H. apply elem_of_cons in H as [[= -> ->] | H]; [ congruence | exact H ].
Qed.

Lemma get_order (k : string) (o o' : JsObject) :
  NoDup (Obj.keys o) -> o ≡ₚ o' -> Obj.get k o' = Obj.get k o.
Proof.
  intros Hnd Hperm.
  assert (Hnd' : NoDup (Obj.keys o')).
  { unfold Obj.keys in *. change (NoDup (fst <$> o')). rewrite <- Hperm. exact Hnd. }
  destruct (Obj.get k o) as [v|] eqn:E.
  - apply (get_elem_of k v o Hnd) in E. apply (get_elem_of k v o' Hnd').
    rewrite <- Hperm. exact E.
  - destruct (Obj.get k o') as [v|] eqn:E'; [ | reflexivity ].
    apply (get_elem_of k v o' Hnd') in E'. rewrite <- Hperm in E'.
    apply (get_elem_of k v o Hnd) in E'. congruence.
Qed.

Lemma keys_order (o o' : JsObject) : o ≡ₚ o' -> Obj.keys o ≡ₚ Obj.keys o'.
Proof. intros H. unfold Obj.keys. change (fst <$> o ≡ₚ fst <$> o'). rewrite H. reflexivity. Qed.

Lemma stableStringify_order (o o' : JsObject) :
  NoDup (Obj.keys o) -> o ≡ₚ o' ->
  stableStringify (Some o') = stableStringify (Some o) /\
  canonicalCopy (Some o') = canonicalCopy (Some o) /\
  forall k, Obj.prop k (Some o') = Obj.prop k (Some o).
Proof.
  intros Hnd Hperm.
  pose proof (sortStrings_order _ _ (keys_order o o' Hperm)) as Hkeys.
  pose proof (fun k => get_order k o o' Hnd Hperm) as Hget.
  split; [ | split ].
  - cbn [stableStringify]. unfold stableStringifyObject. rewrite <- Hkeys.
    do 3 f_equal. apply List.map_ext. intros k. rewrite Hget. reflexivity.
  - cbn [canonicalCopy]. rewrite <- Hkeys. f_equal.
    apply List.map_ext. intros k. rewrite Hget. reflexivity.
  - intros k. cbn [Obj.prop]. rewrite Hget. reflexivity.
Qed.

(** X3. Two payloads with the same properties, written in different
    orders, have the same canonical serialisation, hence the same expected
    signature, and [receiveWebhook] treats them alike. *)
Theorem stableStringify_key_order (o o' : JsObject) :
  NoDup (Obj.keys o) -> o ≡ₚ o' ->
  stableStringify (Some o') = stableStringify (Some o) /\
  (forall rt secret,
      hmacSha256 rt secret (stableStringify (Some o'))
      = hmacSha256 rt secret (stableStringify (Some o))) /\
  (forall rt provider signature,
      receiveWebhook rt provider (Some o') signature
      = receiveWebhook rt provider (Some o) signature).
Proof.
  intros Hnd Hperm.
  destruct (stableStringify_order o o' Hnd Hperm) as (Hs & Hc & Hp).
  split; [ exact Hs | ]. split; [ intros rt secret; rewrite Hs; reflexivity | ].
  intros rt provider signature. unfold receiveWebhook.
  rewrite Hs, Hc, !Hp. reflexivity.
Qed.

(** The payload of the first checkout of [checkoutScenario], its
    properties reversed, is accepted with the signature of the checkout. *)
Lemma stableStringify_key_order_demo :
  stableStringify (Some (rev (webhook_payload approvedCheckout)))
  = stableStringify (Some (webhook_payload approvedCheckout)) /\
  receiveWebhook demoRuntime "DEMO" (Some (rev (webhook_payload approvedCheckout)))
                 (webhook_signature approvedCheckout) checkoutWorld
  = (Ok paidSnapshot, paidWorld).
Proof.
  assert (Hnd : NoDup (Obj.keys (webhook_payload approvedCheckout))).
  { apply (bool_decide_unpack _). vm_compute. exact I. }
  destruct (stableStringify_key_order (webhook_payload approvedCheckout)
              (rev (webhook_payload approvedCheckout)) Hnd
              (Permutation_rev _))
    as (Hs & _ & Hr).
  split; [ exact Hs | ].
  rewrite Hr. vm_compute. reflexivity.
Defined.

(** *** Host names are matched without regard to case and white space *)

Lemma normalizeHost_eq (x : string) :
  normalizeHost x = Str.stripFinalDot (Str.toLowerCase (Str.trim x)).
Proof. destruct x; reflexivity. Qed.

Lemma trimStart_blank (pre x : string) :
  blank pre = true -> Str.trimStart (pre +:+ x) = Str.trimStart x.
Proof.
  unfold blank. induction pre as [|c r IH]; [ reflexivity | ].
  cbn [Str.all]. intros H. apply andb_true_iff in H as [Hc Hr].
  rewrite app_cons. cbn [Str.trimStart]. rewrite Hc. exact (IH Hr).
Qed.

Lemma trimEnd_blank (post : string) : blank post = true -> Str.trimEnd post = "".
Proof.
  unfold blank. induction post as [|c r IH]; [ reflexivity | ].
  cbn [Str.all Str.trimEnd]. intros H. apply andb_true_iff in H as [Hc Hr].
  rewrite (IH Hr), Hc. reflexivity.
Qed.

Lemma trimEnd_app_blank (x post : string) :
  blank post = true -> Str.trimEnd (x +:+ post) = Str.trimEnd x.
Proof.
  intros Hpost. induction x as [|c r IH].
  - change ("" +:+ post) with post. apply trimEnd_blank, Hpost.
  - rewrite app_cons. cbn [Str.trimEnd]. rewrite IH. reflexivity.
Qed.

Lemma trim_blank (pre x post : string) :
  blank pre = true -> blank post = true ->
  Str.trim (pre +:+ x +:+ post) = Str.trim x.
Proof.
  intros Hpre Hpost. unfold Str.trim. rewrite (trimStart_blank pre _ Hpre).
  induction x as [|c r IH].
  - change ("" +:+ post) with post.
    assert (Str.trimStart post = "") as ->; [ | reflexivity ].
    clear -Hpost. unfold blank in Hpost. induction post as [|c r IH]; [ reflexivity | ].
    cbn [Str.all] in Hpost. apply andb_true_iff in Hpost as [Hc Hr].
    cbn [Str.trimStart]. rewrite Hc. exact (IH Hr).
  - rewrite app_cons. cbn [Str.trimStart]. destruct (Str.is_ws c); [ exact IH | ].
    rewrite <- app_cons. apply trimEnd_app_blank, Hpost.
Qed.

Lemma is_ws_upper (c : ascii) : Str.is_ws (Str.upper_char c) = Str.is_ws c.
Proof. destruct c as [[] [] [] [] [] [] [] []]; vm_compute; reflexivity. Qed.

Lemma trimStart_map (f : ascii -> ascii) (s : string) :
  (forall c, Str.is_ws (f c) = Str.is_ws c) ->
  Str.trimStart (Str.map f s) = Str.map f (Str.trimStart s).
Proof.
  intros Hf. induction s as [|c r IH]; [ reflexivity | ].
  cbn [Str.map Str.trimStart]. rewrite Hf. destruct (Str.is_ws c); [ exact IH | reflexivity ].
Qed.

Lemma trimEnd_map (f : ascii -> ascii) (s : string) :
  (forall c, Str.is_ws (f c) = Str.is_ws c) ->
  Str.trimEnd (Str.map f s) = Str.map f (Str.trimEnd s).
Proof.
  intros Hf. induction s as [|c r IH]; [ reflexivity | ].
  cbn [Str.map Str.trimEnd]. rewrite IH, Hf.
  destruct (Str.trimEnd r); cbn [Str.map]; [ destruct (Str.is_ws c) | ]; reflexivity.
Qed.

Lemma trim_map (f : ascii -> ascii) (s : string) :
  (forall c, Str.is_ws (f c) = Str.is_ws c) ->
  Str.trim (Str.map f s) = Str.map f (Str.trim s).
Proof. intros Hf. unfold Str.trim. rewrite trimStart_map, trimEnd_map; auto. Qed.

Lemma str_map_map (f g : ascii -> ascii) (s : string) :
  Str.map f (Str.map g s) = Str.map (fun c => f (g c)) s.
Proof. induction s as [|c r IH]; [ reflexivity | ]. cbn [Str.map]. rewrite IH. reflexivity. Qed.

Lemma str_map_ext (f g : ascii -> ascii) (s : string) :
  (forall c, f c = g c) -> Str.map f s = Str.map g s.
Proof.
  intros H. induction s as [|c r IH]; [ reflexivity | ]. cbn [Str.map]. rewrite H, IH. reflexivity.
Qed.

Lemma normalizeHost_upper (h : string) :
  normalizeHost (Str.toUpperCase h) = normalizeHost h.
Proof.
  rewrite !normalizeHost_eq. unfold Str.toUpperCase, Str.toLowerCase.
  rewrite (trim_map _ _ is_ws_upper), str_map_map.
  rewrite (str_map_ext _ Str.lower_char _ lower_upper). reflexivity.
Qed.

Lemma stripFinalDot_dot (x : string) : Str.stripFinalDot (x +:+ ".") = x.
Proof.
  induction x as [|c r IH]; [ reflexivity | ].
  rewrite app_cons. cbn [Str.stripFinalDot]. rewrite IH. destruct r; reflexivity.
Qed.

Lemma lower_dot (c : ascii) :
  bool_decide (Str.lower_char c = "."%char) = bool_decide (c = "."%char).
Proof. destruct c as [[] [] [] [] [] [] [] []]; vm_compute; reflexivity. Qed.

Lemma stripFinalDot_lower (s : string) :
  Str.stripFinalDot (Str.toLowerCase s) = Str.toLowerCase (Str.stripFinalDot s).
Proof.
  unfold Str.toLowerCase. induction s as [|c r IH]; [ reflexivity | ].
  destruct r as [|c' r'].
  - cbn [Str.map Str.stripFinalDot]. rewrite lower_dot.
    destruct (bool_decide (c = "."%char)); reflexivity.
  - change (Str.stripFinalDot (Str.map Str.lower_char (String c (String c' r'))))
      with (String (Str.lower_char c)
              (Str.stripFinalDot (Str.map Str.lower_char (String c' r')))).
    rewrite IH. reflexivity.
Qed.

Lemma trim_tight (h : string) : Str.trim h = h -> tight h.
Proof. intros <-. apply trimEnd_tight, trimStart_tight. Qed.

Lemma normalizeHost_dot (h : string) :
  Str.trim h = h -> Str.stripFinalDot h = h ->
  normalizeHost (h +:+ ".") = normalizeHost h.
Proof.
  intros Htrim Hdot. rewrite !normalizeHost_eq, Htrim.
  assert (Ht : tight (h +:+ ".")).
  { pose proof (trim_tight h Htrim) as T. destruct h; [ reflexivity | exact T ]. }
  unfold Str.trim. rewrite (trimStart_of_tight _ Ht).
  rewrite (trimEnd_app_cons h "." "" eq_refl). cbn [Str.trimEnd].
  rewrite toLowerCase_app. change (Str.toLowerCase ".") with ".".
  rewrite stripFinalDot_dot, stripFinalDot_lower, Hdot. reflexivity.
Qed.

Lemma resolveSchoolByHost_normalized (a b : string) (w : World) :
  normalizeHost a = normalizeHost b -> resolveSchoolByHost a w = resolveSchoolByHost b w.
Proof. intros H. unfold resolveSchoolByHost. rewrite H. reflexivity. Qed.

(** X4. [resolveSchoolByHost] does not tell apart two spellings of an
    ASCII host that differ in letter case or in white space around it,
    and a final dot after a trimmed host that has none changes nothing. *)
Theorem resolveSchoolByHost_spelling (w : World) (pre h post : string) :
  asciiOnly h = true -> blank pre = true -> blank post = true ->
  resolveSchoolByHost (pre +:+ Str.toUpperCase h +:+ post) w = resolveSchoolByHost h w /\
  resolveSchoolByHost (pre +:+ h +:+ post) w = resolveSchoolByHost h w /\
  (Str.trim h = h -> Str.stripFinalDot h = h ->
   resolveSchoolByHost (h +:+ ".") w = resolveSchoolByHost h w).
Proof.
  intros _ Hpre Hpost. split; [ | split ].
  - apply resolveSchoolByHost_normalized.
    rewrite (normalizeHost_eq (pre +:+ _)), (trim_blank pre _ post Hpre Hpost).
    rewrite <- normalizeHost_eq. apply normalizeHost_upper.
  - apply resolveSchoolByHost_normalized.
    rewrite (normalizeHost_eq (pre +:+ _)), (trim_blank pre _ post Hpre Hpost).
    rewrite <- normalizeHost_eq. reflexivity.
  - intros Htrim Hdot. apply resolveSchoolByHost_normalized, normalizeHost_dot; assumption.
Qed.

(** Escola Alpha of [domainScenario] under three spellings of its
    custom domain. *)
Lemma resolveSchoolByHost_spelling_demo :
  resolveSchoolByHost "  CURSOS.ALPHA.COM.BR " domainWorld
  = resolveSchoolByHost "cursos.alpha.com.br" domainWorld /\
  resolveSchoolByHost "cursos.alpha.com.br." domainWorld
  = resolveSchoolByHost "cursos.alpha.com.br" domainWorld /\
  exists alpha, resolveSchoolByHost "cursos.alpha.com.br" domainWorld = Some alpha /\
                school_id alpha = alphaId.
Proof.
  destruct (resolveSchoolByHost_spelling domainWorld "  " "cursos.alpha.com.br" " "
              eq_refl eq_refl eq_refl) as (Hupper & _ & Hdot).
  split; [ exact Hupper | ]. split; [ exact (Hdot eq_refl eq_refl) | ].
  eexists. split; vm_compute; reflexivity.
Defined.

(** ** The school gate *)

Lemma assertSchoolActive_missing {A} (schoolId : string) (k : School -> M A) (w : World) :
  schools w !! schoolId = None ->
  bind (assertSchoolActive schoolId) k w = (Throw "SCHOOL_NOT_FOUND", w).
Proof.
  intros H. unfold assertSchoolActive, bind, gets. cbv beta iota. rewrite H. reflexivity.
Qed.

Lemma assertSchoolActive_suspended {A} (schoolId : string) (k : School -> M A) (w : World)
    (s : School) :
  schools w !! schoolId = Some s -> school_status s = SUSPENDED ->
  bind (assertSchoolActive schoolId) k w = (Throw "SCHOOL_SUSPENDED", w).
Proof.
  intros H Hst. unfold assertSchoolActive, bind, gets. cbv beta iota. rewrite H.
  cbn [orThrow ret]. rewrite Hst. reflexivity.
Qed.

Lemma assertSchoolActive_active {A} (schoolId : string) (k : School -> M A) (w : World)
    (s : School) :
  schools w !! schoolId = Some s -> school_status s = ACTIVE ->
  bind (assertSchoolActive schoolId) k w = k s w.
Proof.
  intros H Hst. unfold assertSchoolActive, bind, gets. cbv beta iota. rewrite H.
  cbn [orThrow ret]. rewrite Hst. reflexivity.
Qed.

(** Every call with a tenant begins with the gate. *)
Lemma gated (rt : Runtime) (c : Call) (sid : string) :
  tenant c = Some sid ->
  exists (A : Type) (k : School -> M A),
    (forall w, perform rt c w = exec (bind (assertSchoolActive sid) k) w) /\
    (forall w, failure rt c w = failed (outcome (bind (assertSchoolActive sid) k) w)).
Proof.
  destruct c as [| | | | | | op | | |]; try destruct op; cbn [tenant lifecycleSchool];
    intros [= <-]; eexists _, _; split; intros w; reflexivity.
Qed.

(** X5. Every operation made for a school (custom domains, the webhook
    secret, courses and their lifecycle, orders and checkouts) stops at
    its first statement when the school is unknown or suspended: it throws
    SCHOOL_NOT_FOUND, respectively SCHOOL_SUSPENDED, and the store is
    exactly as before. *)
Theorem school_gate (rt : Runtime) (c : Call) (sid : string) (w : World) :
  tenant c = Some sid ->
  (schools w !! sid = None ->
   failure rt c w = Some "SCHOOL_NOT_FOUND" /\ perform rt c w = w) /\
  (forall s, schools w !! sid = Some s -> school_status s = SUSPENDED ->
             failure rt c w = Some "SCHOOL_SUSPENDED" /\ perform rt c w = w).
Proof.
  intros Ht. destruct (gated rt c sid Ht) as (A & k & Hp & Hf).
  split.
  - intros Hnone. rewrite Hp, Hf. unfold exec, outcome.
    rewrite (assertSchoolActive_missing sid k w Hnone). split; reflexivity.
  - intros s Hs Hst. rewrite Hp, Hf. unfold exec, outcome.
    rewrite (assertSchoolActive_suspended sid k w s Hs Hst). split; reflexivity.
Qed.

(** The gate in the stores of [checkoutScenario]: a suspended school and
    a school that does not exist. *)
Lemma school_gate_demo :
  failure demoRuntime (RotateWebhookSecret scenarioSchoolId) suspendedWorld
  = Some "SCHOOL_SUSPENDED" /\
  perform demoRuntime (RotateWebhookSecret scenarioSchoolId) suspendedWorld = suspendedWorld /\
  failure demoRuntime (Lifecycle (Publish "sch_0" scenarioCourseId)) checkoutWorld
  = Some "SCHOOL_NOT_FOUND".
Proof.
  destruct (school_gate demoRuntime (RotateWebhookSecret scenarioSchoolId) scenarioSchoolId
              suspendedWorld eq_refl) as [_ Hsuspended].
  destruct (school_gate demoRuntime (Lifecycle (Publish "sch_0" scenarioCourseId)) "sch_0"
              checkoutWorld eq_refl) as [Hmissing _].
  destruct (schools suspendedWorld !! scenarioSchoolId) as [s|] eqn:Hs;
    [ | vm_compute in Hs; discriminate Hs ].
  assert (Hst : school_status s = SUSPENDED).
  { vm_compute in Hs. injection Hs as <-. reflexivity. }
  destruct (Hsuspended s eq_refl Hst) as [Hf Hp].
  split; [ exact Hf | ]. split; [ exact Hp | ].
  apply Hmissing. vm_compute. reflexivity.
Defined.

(** ** Course content *)

Lemma normalizeAiInputs_ok (inputs : option AiInputs) (i : AiInputs) :
  normalizeAiInputs inputs = Ok i -> inputsOk i.
Proof.
  unfold normalizeAiInputs.
  repeat match goal with
         | |- (if ?b then _ else _) = _ -> _ => destruct b eqn:?; [ discriminate | ]
         end.
  intros [= <-]. guards. unfold inputsOk. cbn [theme audience level language hours].
  repeat split; assumption.
Qed.

Lemma trim_cons_nonempty (c : ascii) (r : string) :
  Str.is_ws c = false -> Str.empty (Str.trim (String c r)) = false.
Proof.
  intros Hc. unfold Str.trim. cbn [Str.trimStart]. rewrite Hc.
  cbn [Str.trimEnd]. rewrite Hc. destruct (Str.trimEnd r); reflexivity.
Qed.

Lemma mockStructure_ok (i : AiInputs) :
  structureOk (Some {| modules := mockStructureFromInputs i |}) = true.
Proof.
  unfold structureOk, mockStructureFromInputs.
  cbn [hasModules List.map modules validateModules module_title module_lessons
       validateLessons lesson_title andb].
  rewrite !app_cons, !trim_cons_nonempty by reflexivity.
  reflexivity.
Qed.

Lemma map_imap {A B C} (g : B -> C) (h : A -> C) (f : nat -> A -> B) (l : list A) :
  (forall i x, g (f i x) = h x) -> List.map g (imap f l) = List.map h l.
Proof.
  revert f. induction l as [|x r IH]; intros f Hf; [ reflexivity | ].
  cbn [imap List.map]. rewrite Hf, IH; [ reflexivity | ].
  intros i y. apply Hf.
Qed.

Lemma mockModule_lessons (mi : nat) (m : CourseModule) :
  List.map fl_title (fm_lessons (mockModule mi m)) = List.map lesson_title (module_lessons m).
Proof.
  cbn [mockModule fm_lessons]. rewrite List.map_map. reflexivity.
Qed.

Ltac insert_cases k :=
  rewrite ?lookup_insert;
  repeat match goal with
         | |- context [decide (?a = k)] => destruct (decide (a = k)) as [?|?]; [ subst k | ]
         end.

Lemma lifecycle_coursesSound (rt : Runtime) (op : LifecycleOp) :
  preserves coursesSound (lifecycle rt op).
Proof.
  intros w Hw. change (wp (lifecycle rt op) (fun _ w' => coursesSound w') w).
  destruct op; wp_run; try exact Hw.
  all: intros k c; world_simpl; insert_cases k; [ | apply Hw ].
  all: intros [= <-];
    match goal with H : courses _ !! _ = Some ?a |- _ =>
      destruct (Hw _ a H) as (Hs & Hid & Htags & Hcat) end;
    unfold courseSound in *;
    cbn [course_id course_schoolId course_type course_title course_description course_tags
         course_category course_pricing course_aiInputs course_structure course_fullContent
         course_state course_createdAt course_updatedAt course_publishedAt
         withState withUpdatedAt withStructure withAiInputs withFullContent withPublishedAt] in *.
  all: destruct (course_state a0) eqn:Est; try discriminate;
    destruct (course_type a0) eqn:Ety; try discriminate.
  all: repeat match goal with
              | H : _ /\ _ |- _ => destruct H
              | H : exists _, _ |- _ => destruct H
              end.
  all: try discriminate.
  all: repeat match goal with |- _ /\ _ => split end; try assumption; try reflexivity.
  all: try (eexists; split; [ eassumption | assumption ]).
  all: try match goal with
           | |- structureOk (Some {| modules := mockStructureFromInputs _ |}) = true =>
               apply mockStructure_ok
           | |- exists i, Some ?a = Some i /\ _ =>
               exists a; split; [ reflexivity | eapply normalizeAiInputs_ok; eassumption ]
           | H : course_publishedAt ?c = None |- _ <-> is_Some (course_publishedAt ?c) =>
               rewrite H; split; [ discriminate | intros [? [=]] ]
           | |- _ <-> is_Some (Some _) => split; [ eauto | reflexivity ]
           | Hm : negb (hasModules ?s) = false, Hv : validateModules _ = None
             |- structureOk ?s = true =>
               unfold structureOk; apply negb_false_iff in Hm; rewrite Hm, Hv; reflexivity
           | Hm : negb (hasModules ?s) = false, Hv : validateImportModules _ = None
             |- importOk ?s = true =>
               unfold importOk; apply negb_false_iff in Hm; rewrite Hm, Hv; reflexivity
           end.
  - eexists _, _. split; [ exact Hcase | ]. split; [ reflexivity | ].
    unfold mirrors. cbn [fc_modules fc_ebook_chapters].
    split; [ | split ]; apply map_imap; intros; try reflexivity.
    apply mockModule_lessons.
  - rewrite Hcase in H1. discriminate H1.
  - eauto.
Qed.

Lemma validateLessons_spec (url : bool) (ls : list Lesson) :
  (if url then validateImportLessons ls else validateLessons ls) = None <->
  Forall (fun l => titled (lesson_title l) /\ (url = true -> titled (lesson_externalUrl l))) ls.
Proof.
  unfold titled. induction ls as [|l r IH].
  - destruct url; split; auto.
  - rewrite Forall_cons, <- IH. destruct url; cbn [validateImportLessons validateLessons].
    + destruct (Str.empty (Str.trim (lesson_title l))) eqn:E1; guards;
        [ split; [ discriminate | intros [[H _] _]; congruence ] | ].
      destruct (Str.empty (Str.trim (lesson_externalUrl l))) eqn:E2; guards;
        [ split; [ discriminate | intros [[_ H] _]; specialize (H eq_refl); congruence ] | ].
      tauto.
    + destruct (Str.empty (Str.trim (lesson_title l))) eqn:E1; guards;
        [ split; [ discriminate | intros [[H _] _]; congruence ] | ].
      split; [ intros H; repeat split; auto; discriminate | tauto ].
Qed.

Lemma validateModules_spec (url : bool) (ms : list CourseModule) :
  (if url then validateImportModules ms else validateModules ms) = None <->
  Forall (fun m =>
            titled (module_title m) /\ module_lessons m <> nil /\
            Forall (fun l => titled (lesson_title l) /\
                             (url = true -> titled (lesson_externalUrl l)))
                   (module_lessons m)) ms.
Proof.
  induction ms as [|m r IH].
  - destruct url; split; auto.
  - rewrite Forall_cons, <- IH, <- (validateLessons_spec url). unfold titled.
    destruct url; cbn [validateImportModules validateModules];
      (destruct (Str.empty (Str.trim (module_title m))) eqn:E1; guards;
       [ split; [ discriminate | intros [[H _] _]; congruence ] | ];
       destruct (module_lessons m) as [|l ls] eqn:El;
       [ split; [ discriminate | intros [(_ & H & _) _]; congruence ] | ];
       match goal with
       | |- context [match ?v with Some _ => _ | None => _ end] =>
           destruct v eqn:Ev
       end;
       [ split; [ discriminate | intros [(_ & _ & H) _]; discriminate H ]
       | split; [ intros H; repeat split; auto; discriminate | tauto ] ]).
Qed.

Lemma wellFormed_spec (url : bool) (s : option Structure) :
  (if url then importOk s else structureOk s) = true <-> wellFormed url s.
Proof.
  unfold wellFormed.
  assert (H : (if url then importOk s else structureOk s)
              = hasModules s &&
                match (if url then validateImportModules else validateModules)
                        (match s with Some x => modules x | None => nil end) with
                | None => true
                | Some _ => false
                end) by (destruct url; reflexivity).
  rewrite H. clear H. rewrite andb_true_iff.
  destruct s as [[ms]|]; cbn [hasModules modules].
  - pose proof (validateModules_spec url ms) as Hspec.
    destruct ms as [|m r].
    + split; [ intros [[=] _] | intros (ms & [= <-] & Hne & _); congruence ].
    + split.
      * intros [_ Hv]. exists (m :: r). split; [ reflexivity | ]. split; [ discriminate | ].
        apply Hspec. destruct url;
          match type of Hv with
          | match ?v with _ => _ end = true => destruct v; [ discriminate | reflexivity ]
          end.
      * intros (ms & [= <-] & _ & Hall). split; [ reflexivity | ].
        apply Hspec in Hall. destruct url; rewrite Hall; reflexivity.
  - split; [ intros [[=] _] | intros (ms & [=] & _) ].
Qed.

Lemma createCourse_coursesSound (type : CourseType) (rt : Runtime)
    (schoolId title description : string) (price0 : float) (currency0 : string)
    (promo0 : option PromoInput) :
  preserves coursesSound (createCourse type rt schoolId title description price0 currency0 promo0).
Proof.
  unfold createCourse, addCourseToIndex.
  repeat first
    [ apply preserves_bind_generateId; [ intros ? Hk; exact Hk | intro ]
    | pres_step ];
    try (intros ? Hk; exact Hk).
  intros w Hw k c. world_simpl. rewrite lookup_insert. case_decide as Hk.
  - intros [= <-]. subst k. repeat split.
  - apply Hw.
Qed.

(** The content of the courses of a store the process can be in. *)
Lemma reachable_coursesSound (rt : Runtime) (w : World) : reachable rt w -> coursesSound w.
Proof.
  induction 1 as [|c w Hw IH].
  - intros k s Hk. cbn in Hk. rewrite lookup_empty in Hk. discriminate.
  - assert (Hcut : forall A (m : M A),
               preserves (fun w' => courses w' = courses w) m -> coursesSound (exec m w)).
    { intros A m Hm k s. rewrite (Hm w eq_refl). apply IH. }
    destruct c; cbn [perform]; try (apply Hcut; frame_run; fail).
    + apply createCourse_coursesSound. exact IH.
    + apply lifecycle_coursesSound. exact IH.
Qed.

Lemma checkoutWorld_reachable : reachable demoRuntime checkoutWorld.
Proof.
  replace checkoutWorld with (performAll demoRuntime checkoutCalls emptyWorld)
    by (vm_compute; reflexivity).
  apply reachable_performAll. constructor.
Qed.

(** X6. In a store the process can be in, a course that is ready or
    published has content: its structure has at least one module, every
    module a title and at least one lesson, every lesson a title; an AI
    course has its generated content, with the modules and the lessons
    of the structure in the same order; every lesson of an IMPORT
    course has its external URL.  No stored course is in the state
    GENERATING_FULL, and [publishedAt] is set exactly on the PUBLISHED
    courses. *)
Theorem ready_course_content (rt : Runtime) (w : World) (k : string) (c : Course) :
  reachable rt w -> courses w !! k = Some c ->
  course_state c <> GENERATING_FULL /\
  (course_state c = PUBLISHED <-> is_Some (course_publishedAt c)) /\
  (course_state c = DRAFT_READY \/ course_state c = PUBLISHED ->
   match course_type c with
   | AI =>
       wellFormed false (course_structure c) /\
       exists s f, course_structure c = Some s /\ course_fullContent c = Some f /\
                   mirrors s f
   | IMPORT => wellFormed true (course_structure c) /\ course_fullContent c = None
   end).
Proof.
  intros Hreach Hc.
  destruct (reachable_coursesSound rt w Hreach k c Hc) as (Hsound & _).
  unfold courseSound in Hsound.
  destruct (course_state c) eqn:Est; try contradiction.
  - destruct Hsound as (Hp & _). rewrite Hp.
    split; [ discriminate | ]. split; [ split; [ discriminate | intros [? [=]] ] | ].
    intros [H|H]; discriminate H.
  - destruct Hsound as (_ & Hp & _). rewrite Hp.
    split; [ discriminate | ]. split; [ split; [ discriminate | intros [? [=]] ] | ].
    intros [H|H]; discriminate H.
  - destruct Hsound as (_ & Hp & _). rewrite Hp.
    split; [ discriminate | ]. split; [ split; [ discriminate | intros [? [=]] ] | ].
    intros [H|H]; discriminate H.
  - destruct Hsound as (Hp & Hty).
    split; [ discriminate | ]. split; [ exact Hp | ]. intros _.
    destruct (course_type c).
    + destruct Hty as (Hok & _ & Hfull). split; [ | exact Hfull ].
      apply (wellFormed_spec false). exact Hok.
    + destruct Hty as (Hok & Hnone & _). split; [ | exact Hnone ].
      apply (wellFormed_spec true). exact Hok.
  - destruct Hsound as (Hp & Hty).
    split; [ discriminate | ]. split; [ exact Hp | ]. intros _.
    destruct (course_type c).
    + destruct Hty as (Hok & _ & Hfull). split; [ | exact Hfull ].
      apply (wellFormed_spec false). exact Hok.
    + destruct Hty as (Hok & Hnone & _). split; [ | exact Hnone ].
      apply (wellFormed_spec true). exact Hok.
Qed.

(** The published course of [checkoutScenario]. *)
Lemma ready_course_content_demo :
  exists c s f,
    courses checkoutWorld !! scenarioCourseId = Some c /\
    course_state c = PUBLISHED /\ is_Some (course_publishedAt c) /\
    course_structure c = Some s /\ course_fullContent c = Some f /\
    List.map fm_title (fc_modules f) = List.map module_title (modules s) /\
    length (modules s) = 3.
Proof.
  destruct (courses checkoutWorld !! scenarioCourseId) as [c|] eqn:Hc;
    [ | vm_compute in Hc; discriminate Hc ].
  destruct (ready_course_content demoRuntime checkoutWorld scenarioCourseId c
              checkoutWorld_reachable Hc) as (_ & Hpub & Hcontent).
  assert (Hst : course_state c = PUBLISHED /\ course_type c = AI /\
                option_map (fun s => length (modules s)) (course_structure c) = Some 3).
  { vm_compute in Hc. injection Hc as <-. repeat split. }
  destruct Hst as (Hst & Hty & Hlen).
  specialize (Hcontent (or_intror Hst)). rewrite Hty in Hcontent.
  destruct Hcontent as (_ & s & f & Hs & Hf & Hm & _).
  exists c, s, f. split; [ reflexivity | ]. split; [ exact Hst | ].
  split; [ apply Hpub, Hst | ]. split; [ exact Hs | ]. split; [ exact Hf | ].
  split; [ exact Hm | ]. rewrite Hs in Hlen. injection Hlen as Hlen. exact Hlen.
Defined.

(** X7. The inputs on record for an AI course are the ones
    [normalizeAiInputs] let through: theme, audience, level and language
    are not empty, and the hours are a finite number not below 8 and not
    above 40.  A course whose structure was generated has such inputs on
    record, and an IMPORT course has none. *)
Theorem recorded_ai_inputs (rt : Runtime) (w : World) (k : string) (c : Course) :
  reachable rt w -> courses w !! k = Some c ->
  (forall i, course_aiInputs c = Some i -> course_type c = AI /\ inputsOk i) /\
  (course_type c = AI -> course_state c <> DRAFT -> is_Some (course_aiInputs c)).
Proof.
  intros Hreach Hc.
  destruct (reachable_coursesSound rt w Hreach k c Hc) as (Hsound & _).
  unfold courseSound in Hsound.
  destruct (course_state c) eqn:Est; try contradiction.
  - destruct Hsound as (_ & Hi & _). rewrite Hi.
    split; [ intros i [=] | intros _ H; congruence ].
  - destruct Hsound as (Hty & _ & _ & i & Hi & Hok). rewrite Hi.
    split; [ intros ? [= <-]; auto | eauto ].
  - destruct Hsound as (Hty & _ & _ & i & Hi & Hok). rewrite Hi.
    split; [ intros ? [= <-]; auto | eauto ].
  - destruct Hsound as (_ & Hty). destruct (course_type c).
    + destruct Hty as (_ & (i & Hi & Hok) & _). rewrite Hi.
      split; [ intros ? [= <-]; auto | eauto ].
    + destruct Hty as (_ & _ & Hi). rewrite Hi.
      split; [ intros i [=] | intros [=] ].
  - destruct Hsound as (_ & Hty). destruct (course_type c).
    + destruct Hty as (_ & (i & Hi & Hok) & _). rewrite Hi.
      split; [ intros ? [= <-]; auto | eauto ].
    + destruct Hty as (_ & _ & Hi). rewrite Hi.
      split; [ intros i [=] | intros [=] ].
Qed.

(** The inputs on record in [checkoutScenario]. *)
Lemma recorded_ai_inputs_demo :
  exists c i,
    courses checkoutWorld !! scenarioCourseId = Some c /\
    course_aiInputs c = Some i /\ theme i = "Node.js" /\ inputsOk i.
Proof.
  destruct (courses checkoutWorld !! scenarioCourseId) as [c|] eqn:Hc;
    [ | vm_compute in Hc; discriminate Hc ].
  destruct (recorded_ai_inputs demoRuntime checkoutWorld scenarioCourseId c
              checkoutWorld_reachable Hc) as (Hinputs & _).
  destruct (course_aiInputs c) as [i|] eqn:Hi;
    [ | vm_compute in Hc; injection Hc as <-; discriminate Hi ].
  assert (Hth : theme i = "Node.js").
  { vm_compute in Hc. injection Hc as <-. injection Hi as <-. reflexivity. }
  exists c, i. split; [ reflexivity | ]. split; [ exact Hi | ].
  split; [ exact Hth | ]. apply (Hinputs i eq_refl).
Defined.

(** ** A call that fails has written nothing *)

Lemma sameDb_refl (w : World) : sameDb w w.
Proof. repeat split. Qed.

Lemma sameDb_trans (a b c : World) : sameDb a b -> sameDb b c -> sameDb a c.
Proof.
  unfold sameDb. intros H1 H2.
  repeat match goal with H : _ /\ _ |- _ => destruct H end.
  repeat split; congruence.
Qed.

Lemma failed_Some {A} (r : Result A) (e : string) : failed r = Some e -> r = Throw e.
Proof. destruct r; cbn; [ discriminate | intros [= ->]; reflexivity ]. Qed.

(** *** Commands that write nothing *)

Lemma quiet_ret {A} (a : A) : quiet (ret a).
Proof. intros w. apply sameDb_refl. Qed.

Lemma quiet_throw {A} (e : string) : quiet (@throw A e).
Proof. intros w. apply sameDb_refl. Qed.

Lemma quiet_gets {A} (f : World -> A) : quiet (gets f).
Proof. intros w. apply sameDb_refl. Qed.

Lemma quiet_throwIf (c : bool) (e : string) : quiet (throwIf c e).
Proof. intros w. destruct c; apply sameDb_refl. Qed.

Lemma quiet_orThrow {A} (o : option A) (e : string) : quiet (orThrow o e).
Proof. intros w. destruct o; apply sameDb_refl. Qed.

Lemma quiet_liftResult {A} (r : Result A) : quiet (liftResult r).
Proof. intros w. destruct r; apply sameDb_refl. Qed.

Lemma quiet_readClock rt : quiet (readClock rt).
Proof. intros w. repeat split. Qed.

Lemma quiet_randomBytes rt n : quiet (randomBytes rt n).
Proof. intros w. repeat split. Qed.

Lemma quiet_bind {A B} (m : M A) (k : A -> M B) :
  quiet m -> (forall a, quiet (k a)) -> quiet (bind m k).
Proof.
  intros Hm Hk w. specialize (Hm w). unfold exec, bind in *.
  destruct (m w) as [[a|e] w']; cbn [snd] in *; [ | exact Hm ].
  eapply sameDb_trans; [ exact Hm | apply Hk ].
Qed.

Ltac quiet_run :=
  repeat lazymatch goal with
  | |- quiet (bind _ _) => apply quiet_bind; [ | intro ]
  | |- quiet (ret _) => apply quiet_ret
  | |- quiet (throw _) => apply quiet_throw
  | |- quiet (gets _) => apply quiet_gets
  | |- quiet (throwIf _ _) => apply quiet_throwIf
  | |- quiet (orThrow _ _) => apply quiet_orThrow
  | |- quiet (liftResult _) => apply quiet_liftResult
  | |- quiet (readClock _) => apply quiet_readClock
  | |- quiet (randomBytes _ _) => apply quiet_randomBytes
  | |- quiet (match ?x with _ => _ end) => destruct x
  | |- quiet (let _ := _ in _) => cbv zeta
  | |- quiet ?m => let f := wp_head m in unfold f
  end.

(** *** Commands that do not throw *)

Lemma sure_ret {A} (a : A) : sure (ret a).
Proof. intros w. exists a. reflexivity. Qed.

Lemma sure_gets {A} (f : World -> A) : sure (gets f).
Proof. intros w. eexists. reflexivity. Qed.

Lemma sure_modify (f : World -> World) : sure (modify f).
Proof. intros w. exists tt. reflexivity. Qed.

Lemma sure_readClock rt : sure (readClock rt).
Proof. intros w. eexists. reflexivity. Qed.

Lemma sure_randomBytes rt n : sure (randomBytes rt n).
Proof. intros w. eexists. reflexivity. Qed.

Lemma sure_bind {A B} (m : M A) (k : A -> M B) :
  sure m -> (forall a, sure (k a)) -> sure (bind m k).
Proof.
  intros Hm Hk w. destruct (Hm w) as [a Ha]. unfold outcome, bind in *.
  destruct (m w) as [[a'|e] w']; cbn [fst] in *; [ apply Hk | discriminate Ha ].
Qed.

Ltac sure_run :=
  repeat lazymatch goal with
  | |- sure (bind _ _) => apply sure_bind; [ | intro ]
  | |- sure (ret _) => apply sure_ret
  | |- sure (gets _) => apply sure_gets
  | |- sure (modify _) => apply sure_modify
  | |- sure (readClock _) => apply sure_readClock
  | |- sure (randomBytes _ _) => apply sure_randomBytes
  | |- sure (throw _) => fail
  | |- sure (throwIf _ _) => fail
  | |- sure (orThrow _ _) => fail
  | |- sure (liftResult _) => fail
  | |- sure (match ?x with _ => _ end) => destruct x
  | |- sure (let _ := _ in _) => cbv zeta
  | |- sure ?m => let f := wp_head m in unfold f
  end.

(** *** Commands that throw only what [E] allows *)

Lemma throwsOnly_sure {A} E (m : M A) : sure m -> throwsOnly E m.
Proof. intros Hm w e He. destruct (Hm w) as [a Ha]. congruence. Qed.

Lemma throwsOnly_throwIf (E : string -> Prop) (c : bool) (e : string) :
  E e -> throwsOnly E (throwIf c e).
Proof. intros He w e'. destruct c; cbn; [ intros [= <-]; exact He | discriminate ]. Qed.

Lemma throwsOnly_orThrow {A} (E : string -> Prop) (o : option A) (e : string) :
  E e -> throwsOnly E (orThrow o e).
Proof. intros He w e'. destruct o; cbn; [ discriminate | intros [= <-]; exact He ]. Qed.

Lemma throwsOnly_throw {A} (E : string -> Prop) (e : string) : E e -> throwsOnly E (@throw A e).
Proof. intros He w e'. cbn. intros [= <-]. exact He. Qed.

Lemma throwsOnly_bind {A B} E (m : M A) (k : A -> M B) :
  throwsOnly E m -> (forall a, throwsOnly E (k a)) -> throwsOnly E (bind m k).
Proof.
  intros Hm Hk w e. specialize (Hm w). unfold outcome, bind in *.
  destruct (m w) as [[a|e'] w']; cbn [fst] in *; [ apply Hk | ].
  intros [= <-]. apply Hm. reflexivity.
Qed.

Ltac only_side := cbv beta; first [ discriminate | auto ].

Ltac only_run :=
  repeat lazymatch goal with
  | |- throwsOnly _ (bind _ _) => apply throwsOnly_bind; [ | intro ]
  | |- throwsOnly _ (throwIf _ _) => apply throwsOnly_throwIf; only_side
  | |- throwsOnly _ (orThrow _ _) => apply throwsOnly_orThrow; only_side
  | |- throwsOnly _ (throw _) => apply throwsOnly_throw; only_side
  | |- throwsOnly _ (ret _) => apply throwsOnly_sure, sure_ret
  | |- throwsOnly _ (gets _) => apply throwsOnly_sure, sure_gets
  | |- throwsOnly _ (modify _) => apply throwsOnly_sure, sure_modify
  | |- throwsOnly _ (readClock _) => apply throwsOnly_sure, sure_readClock
  | |- throwsOnly _ (randomBytes _ _) => apply throwsOnly_sure, sure_randomBytes
  | |- throwsOnly _ (match ?x with _ => _ end) => destruct x
  | |- throwsOnly _ (let _ := _ in _) => cbv zeta
  | |- throwsOnly _ ?m => let f := wp_head m in unfold f
  end.

(** *** Failing without a trace *)

Lemma atomic_quiet {A} E (m : M A) : quiet m -> atomicBut E m.
Proof. intros Hm w e _. right. apply Hm. Qed.

Lemma atomic_sure {A} E (m : M A) : sure m -> atomicBut E m.
Proof. intros Hm w e He. destruct (Hm w) as [a Ha]. congruence. Qed.

Lemma atomic_throwsOnly {A} E (m : M A) : throwsOnly E m -> atomicBut E m.
Proof. intros Hm w e He. left. exact (Hm w e He). Qed.

Lemma atomic_bind {A B} E (m : M A) (k : A -> M B) :
  quiet m -> (forall a, atomicBut E (k a)) -> atomicBut E (bind m k).
Proof.
  intros Hm Hk w e. specialize (Hm w). unfold outcome, exec, bind in *.
  destruct (m w) as [[a|e'] w']; cbn [fst snd] in *.
  - intros He. destruct (Hk a w' e He) as [H|H]; [ left; exact H | right ].
    eapply sameDb_trans; [ exact Hm | exact H ].
  - intros _. right. exact Hm.
Qed.

Ltac atomic_run :=
  repeat first
    [ apply atomic_sure; solve [ sure_run ]
    | apply atomic_bind; [ solve [ quiet_run ] | intro ]
    | apply atomic_quiet; solve [ quiet_run ]
    | apply atomic_throwsOnly; solve [ only_run ]
    | lazymatch goal with
      | |- atomicBut _ (bind _ _) => fail
      | |- atomicBut _ (match ?x with _ => _ end) => destruct x
      | |- atomicBut _ (let _ := _ in _) => cbv zeta
      | |- atomicBut _ ?m => let f := wp_head m in unfold f
      end ].

Lemma setSchoolStatus_atomic rt s st : atomicBut never (setSchoolStatus rt s st).
Proof. atomic_run. Qed.

Lemma requestCustomDomain_atomic rt s d : atomicBut never (requestCustomDomain rt s d).
Proof. atomic_run. Qed.

Lemma verifyCustomDomain_atomic rt s d t : atomicBut never (verifyCustomDomain rt s d t).
Proof. atomic_run. Qed.

Lemma rotateWebhookSecret_atomic rt s : atomicBut never (rotateWebhookSecret rt s).
Proof. atomic_run. Qed.

Lemma createCourse_atomic ty rt s t d p c pr : atomicBut never (createCourse ty rt s t d p c pr).
Proof. atomic_run. Qed.

Lemma createOrder_atomic rt s c e : atomicBut never (createOrder rt s c e).
Proof. atomic_run. Qed.

Lemma startDemoCheckout_atomic rt s o oc : atomicBut never (startDemoCheckout rt s o oc).
Proof. atomic_run. Qed.

Lemma receiveWebhook_atomic rt p pl sg : atomicBut never (receiveWebhook rt p pl sg).
Proof. atomic_run. Qed.

Lemma lifecycle_atomic rt op : atomicBut (fun e => e = "TypeError") (lifecycle rt op).
Proof. destruct op; atomic_run. Qed.

Lemma createSchool_atomic rt n s :
  atomicBut (fun e => e = "SUBDOMAIN_COLLISION" \/ e = "SCHOOL_NOT_FOUND") (createSchool rt n s).
Proof. atomic_run. Qed.

Lemma aiGenerateFullCourse_no_TypeError (rt : Runtime) (w : World) (s c : string) :
  coursesSound w -> outcome (aiGenerateFullCourse rt s c) w <> Throw "TypeError".
Proof.
  intros Hw.
  change (wp (aiGenerateFullCourse rt s c) (fun r _ => r <> Throw "TypeError") w).
  wp_run; try discriminate.
  match goal with H : courses _ !! _ = Some ?a |- _ =>
    destruct (Hw _ a H) as (Hs & _) end.
  unfold courseSound in Hs.
  destruct (course_state a0) eqn:Est; try discriminate.
  destruct Hs as (_ & _ & Hok & _).
  cbn [course_structure withUpdatedAt withState] in Hcase. rewrite Hcase in Hok.
  discriminate Hok.
Qed.

Lemma ensureDefault_found (rt : Runtime) (w : World) (id : string) (s : School) :
  schools w !! id = Some s ->
  outcome (ensureDefaultSubdomainForSchool rt id) w <> Throw "SCHOOL_NOT_FOUND".
Proof.
  intros Hs.
  change (wp (ensureDefaultSubdomainForSchool rt id)
             (fun r _ => r <> Throw "SCHOOL_NOT_FOUND") w).
  wp_run; try discriminate. congruence.
Qed.

Lemma wp_never_from {A B} (m : M A) (k : A -> M B) (e : string) (w : World) :
  outcome m w <> Throw e -> (forall a, sure (k a)) ->
  wp (bind m k) (fun r _ => r <> Throw e) w.
Proof.
  intros Hm Hk. unfold wp, outcome, bind in *.
  destruct (m w) as [[a|e'] w']; cbn [fst] in *; [ | intros [= ->]; apply Hm; reflexivity ].
  destruct (Hk a w') as [b Hb]. unfold outcome in Hb. rewrite Hb. discriminate.
Qed.

Lemma createSchool_no_SCHOOL_NOT_FOUND (rt : Runtime) (w : World) (n s : string) :
  outcome (createSchool rt n s) w <> Throw "SCHOOL_NOT_FOUND".
Proof.
  change (wp (createSchool rt n s) (fun r _ => r <> Throw "SCHOOL_NOT_FOUND") w).
  wp_run_by ltac:(
    idtac;
    lazymatch goal with
    | |- wp (bind (ensureDefaultSubdomainForSchool _ _) _) _ _ =>
        apply wp_never_from;
        [ eapply ensureDefault_found; world_simpl; apply lookup_insert_eq
        | intro; solve [ sure_run ] ]
    end).
Qed.

(** X8. A call that throws has written nothing: the maps of [db] and
    the indices are what they were before the call, whatever the call and
    its arguments.  The one exception is [createSchool] failing with
    SUBDOMAIN_COLLISION, which has stored the school by then. *)
Theorem failed_call_writes_nothing (rt : Runtime) (c : Call) (w : World) (e : string) :
  reachable rt w ->
  failure rt c w = Some e -> e <> "SUBDOMAIN_COLLISION" ->
  sameDb w (perform rt c w).
Proof.
  intros Hreach Hfail Hne.
  assert (Hcut : forall A (m : M A),
             atomicBut never m -> failed (outcome m w) = Some e -> sameDb w (exec m w)).
  { intros A m Hm He. apply failed_Some in He. destruct (Hm w e He) as [[]|H]. exact H. }
  destruct c; cbn [failure perform] in *.
  - apply failed_Some in Hfail.
    destruct (createSchool_atomic rt name slug w e Hfail) as [[->| ->]|H];
      [ congruence | | exact H ].
    exfalso. exact (createSchool_no_SCHOOL_NOT_FOUND rt w name slug Hfail).
  - apply Hcut; [ apply setSchoolStatus_atomic | exact Hfail ].
  - apply Hcut; [ apply requestCustomDomain_atomic | exact Hfail ].
  - apply Hcut; [ apply verifyCustomDomain_atomic | exact Hfail ].
  - apply Hcut; [ apply rotateWebhookSecret_atomic | exact Hfail ].
  - apply Hcut; [ apply createCourse_atomic | exact Hfail ].
  - destruct op; cbn [lifecycle] in *;
      try (apply Hcut; [ atomic_run | exact Hfail ]; fail).
    apply failed_Some in Hfail.
    destruct (lifecycle_atomic rt (GenerateFull schoolId courseId) w e Hfail) as [->|H];
      [ | exact H ].
    exfalso.
    exact (aiGenerateFullCourse_no_TypeError rt w _ _
             (reachable_coursesSound rt w Hreach) Hfail).
  - apply Hcut; [ apply createOrder_atomic | exact Hfail ].
  - apply Hcut; [ apply startDemoCheckout_atomic | exact Hfail ].
  - apply Hcut; [ apply receiveWebhook_atomic | exact Hfail ].
Qed.

(** Publishing the course of [checkoutScenario] a second time is refused,
    and the store is as before. *)
Lemma failed_call_writes_nothing_demo :
  failure demoRuntime (Lifecycle (Publish scenarioSchoolId scenarioCourseId)) checkoutWorld
  = Some "COURSE_NOT_READY_TO_PUBLISH" /\
  sameDb checkoutWorld
         (perform demoRuntime (Lifecycle (Publish scenarioSchoolId scenarioCourseId))
                  checkoutWorld).
Proof.
  assert (Hfail : failure demoRuntime (Lifecycle (Publish scenarioSchoolId scenarioCourseId))
                          checkoutWorld = Some "COURSE_NOT_READY_TO_PUBLISH")
    by (vm_compute; reflexivity).
  split; [ exact Hfail | ].
  apply (failed_call_writes_nothing demoRuntime _ checkoutWorld "COURSE_NOT_READY_TO_PUBLISH"
           checkoutWorld_reachable Hfail).
  discriminate.
Defined.

(** ** Access to a course *)

Lemma receiveWebhook_access (rt : Runtime) (w : World) (provider : string)
    (payload : option JsObject) (signature : string) :
  wp (receiveWebhook rt provider payload signature)
     (fun r w' =>
        (forall key, is_Some (bySchoolBuyerCourse w !! key) ->
                     is_Some (bySchoolBuyerCourse w' !! key)) /\
        (bySchoolBuyerCourse w' <> bySchoolBuyerCourse w ->
         webhookResult payload = "APPROVED" /\ exists snap, r = Ok snap)) w.
Proof.
  wp_run.
  all: split;
    [ intros key Hkey;
      first [ exact Hkey
            | rewrite lookup_insert; case_decide; [ eexists; reflexivity | exact Hkey ] ]
    | intros Hne;
      first [ exfalso; apply Hne; reflexivity
            | split; [ unfold webhookResult; guards; assumption | eexists; reflexivity ] ] ].
Qed.

Lemma bySchoolBuyerCourse_frame (rt : Runtime) (c : Call) (w : World) :
  (forall provider payload signature, c <> ReceiveWebhook provider payload signature) ->
  bySchoolBuyerCourse (perform rt c w) = bySchoolBuyerCourse w.
Proof.
  intros Hc.
  assert (Hcut : forall A (m : M A),
             preserves (fun w' => bySchoolBuyerCourse w' = bySchoolBuyerCourse w) m ->
             bySchoolBuyerCourse (exec m w) = bySchoolBuyerCourse w).
  { intros A m Hm. exact (Hm w eq_refl). }
  destruct c; cbn [perform]; try (apply Hcut; frame_run; fail).
  exfalso. exact (Hc _ _ _ eq_refl).
Qed.

Lemma access_step (rt : Runtime) (c : Call) (w : World) :
  (forall key, is_Some (bySchoolBuyerCourse w !! key) ->
               is_Some (bySchoolBuyerCourse (perform rt c w) !! key)) /\
  (bySchoolBuyerCourse (perform rt c w) <> bySchoolBuyerCourse w ->
   exists provider payload signature,
     c = ReceiveWebhook provider payload signature /\
     webhookResult payload = "APPROVED" /\ failure rt c w = None).
Proof.
  destruct c;
    try (rewrite bySchoolBuyerCourse_frame by (intros; discriminate);
         split; [ auto | intros H; exfalso; apply H; reflexivity ]).
  cbn [perform failure].
  destruct (receiveWebhook_access rt w provider payload signature) as [Hkeep Hnew].
  split; [ exact Hkeep | ].
  intros Hne. destruct (Hnew Hne) as (Hres & snap & Hsnap).
  exists provider, payload, signature. split; [ reflexivity | ]. split; [ exact Hres | ].
  rewrite Hsnap. reflexivity.
Qed.

(** X9. Access to a course is never taken away, and only an accepted
    APPROVED webhook gives it: whatever call is made, a buyer who could
    access a course still can, also after the school was suspended; and
    when a call turns [canAccessCourse] from false to true, the call is a
    [receiveWebhook] that returned, for a payload whose result is
    APPROVED. *)
Theorem access_is_kept (rt : Runtime) (schoolId buyerEmail courseId : string) :
  (forall c w,
      canAccessCourse schoolId buyerEmail courseId w = true ->
      canAccessCourse schoolId buyerEmail courseId (perform rt c w) = true) /\
  (forall cs w,
      canAccessCourse schoolId buyerEmail courseId w = true ->
      canAccessCourse schoolId buyerEmail courseId (performAll rt cs w) = true) /\
  (forall c w,
      canAccessCourse schoolId buyerEmail courseId w = false ->
      canAccessCourse schoolId buyerEmail courseId (perform rt c w) = true ->
      exists provider payload signature,
        c = ReceiveWebhook provider payload signature /\
        webhookResult payload = "APPROVED" /\ failure rt c w = None).
Proof.
  assert (Hstep : forall c w,
      canAccessCourse schoolId buyerEmail courseId w = true ->
      canAccessCourse schoolId buyerEmail courseId (perform rt c w) = true).
  { intros c w. unfold canAccessCourse. rewrite !bool_decide_eq_true.
    apply (proj1 (access_step rt c w)). }
  split; [ exact Hstep | ]. split.
  - intros cs. induction cs as [|c rest IH]; intros w Hw; [ exact Hw | ].
    cbn [performAll]. apply IH, Hstep, Hw.
  - intros c w Hno Hyes. apply (proj2 (access_step rt c w)).
    intros Heq. unfold canAccessCourse in Hno, Hyes. rewrite Heq in Hyes. congruence.
Qed.

(** The run of [checkoutScenario]: the buyer has
    access after the APPROVED webhook and keeps it when the DECLINED
    webhook of the second checkout arrives and the school is suspended. *)
Lemma access_is_kept_demo :
  canAccessCourse scenarioSchoolId "A@b.com" scenarioCourseId checkoutWorld = false /\
  canAccessCourse scenarioSchoolId "A@b.com" scenarioCourseId paidWorld = true /\
  canAccessCourse scenarioSchoolId "A@b.com" scenarioCourseId
    (performAll demoRuntime
       (ReceiveWebhook "DEMO" (Some (webhook_payload declinedCheckout))
                       (webhook_signature declinedCheckout) ::
        SetSchoolStatus scenarioSchoolId "SUSPENDED" :: nil) paidWorld) = true.
Proof.
  destruct (access_is_kept demoRuntime scenarioSchoolId "A@b.com" scenarioCourseId)
    as (_ & Hall & _).
  split; [ vm_compute; reflexivity | ].
  assert (Hpaid : canAccessCourse scenarioSchoolId "A@b.com" scenarioCourseId paidWorld = true)
    by (vm_compute; reflexivity).
  split; [ exact Hpaid | ]. apply Hall. exact Hpaid.
Defined.

(** ** Schools and their slugs *)

Lemma wp_of_preserves {A} (I : World -> Prop) (m : M A) (Q : Result A -> World -> Prop)
    (w : World) :
  preserves I m -> I w -> (forall r w', I w' -> Q r w') -> wp m Q w.
Proof. intros Hm Hw HQ. apply HQ, Hm, Hw. Qed.

Lemma slug_free (s : string) (m : gmap string School) :
  existsb (fun e => Str.eqb (school_slug (snd e)) s) (map_to_list m) = false ->
  forall k x, m !! k = Some x -> school_slug x <> s.
Proof.
  intros H k x Hk Hs.
  assert (Hex : existsb (fun e => Str.eqb (school_slug (snd e)) s) (map_to_list m) = true).
  { apply existsb_exists. exists (k, x). split.
    - apply list_elem_of_In, elem_of_map_to_list. exact Hk.
    - cbn. apply eqb_true. exact Hs. }
  congruence.
Qed.

Lemma createSchool_schoolsDistinct (rt : Runtime) (name slug : string) :
  preserves schoolsDistinct (createSchool rt name slug).
Proof.
  intros w Hw.
  change (wp (createSchool rt name slug) (fun _ w' => schoolsDistinct w') w).
  wp_run_by ltac:(
    idtac;
    lazymatch goal with
    | |- wp (bind (ensureDefaultSubdomainForSchool _ _) _) _ ?w1 =>
        apply (wp_of_preserves (fun w' => schools w' = schools w1));
        [ frame_run | reflexivity | intros r w' Hw'; unfold schoolsDistinct; rewrite Hw' ]
    end); try exact Hw.
  world_simpl. guards.
  pose proof (slug_free _ _ Hguard2) as Hfree.
  intros k s. rewrite lookup_insert. case_decide as Hk.
  - intros [= <-]. subst k. cbn [school_id school_slug school_name].
    repeat split; try assumption.
    intros k' s'. rewrite lookup_insert. case_decide as Hk'; [ intros; congruence | ].
    intros Hs' Hslug. exfalso. exact (Hfree k' s' Hs' Hslug).
  - intros Hs. destruct (Hw k s Hs) as (Hid & Hslug & Hname & Huniq).
    repeat split; try assumption.
    intros k' s'. rewrite lookup_insert. case_decide as Hk'; [ | apply Huniq ].
    intros [= <-]. cbn [school_slug]. intros Hsame. exfalso.
    exact (Hfree k s Hs (eq_sym Hsame)).
Qed.

Lemma setSchoolStatus_schoolsDistinct (rt : Runtime) (schoolId status : string) :
  preserves schoolsDistinct (setSchoolStatus rt schoolId status).
Proof.
  intros w Hw.
  change (wp (setSchoolStatus rt schoolId status) (fun _ w' => schoolsDistinct w') w).
  wp_run; try exact Hw.
  all: destruct (Hw _ _ Hsome) as (Hid & Hslug & Hname & Huniq);
    intros k s; world_simpl; rewrite lookup_insert; case_decide as Hk;
    [ intros [= <-]; subst k; cbn [school_id school_slug school_name];
      repeat split; try assumption;
      intros k' s'; rewrite lookup_insert; case_decide as Hk'; [ intros; congruence | ];
      apply Huniq
    | intros Hs; destruct (Hw k s Hs) as (Hid' & Hslug' & Hname' & Huniq');
      repeat split; try assumption;
      intros k' s'; rewrite lookup_insert; case_decide as Hk'; [ | apply Huniq' ];
      intros [= <-]; cbn [school_slug]; intros Hsame; subst k';
      symmetry; apply (Huniq k s Hs); congruence ].
Qed.

Lemma reachable_schoolsDistinct (rt : Runtime) (w : World) :
  reachable rt w -> schoolsDistinct w.
Proof.
  induction 1 as [|c w Hw IH].
  - intros k s Hk. cbn in Hk. rewrite lookup_empty in Hk. discriminate.
  - assert (Hcut : forall A (m : M A),
               preserves (fun w' => schools w' = schools w) m -> schoolsDistinct (exec m w)).
    { intros A m Hm. unfold schoolsDistinct. rewrite (Hm w eq_refl). apply IH. }
    destruct c; cbn [perform]; try (apply Hcut; frame_run; fail).
    + apply createSchool_schoolsDistinct. exact IH.
    + apply setSchoolStatus_schoolsDistinct. exact IH.
Qed.

Lemma insertByKey_perm {A} (key : A -> string) (x : A) (l : list A) :
  insertByKey key x l ≡ₚ x :: l.
Proof.
  induction l as [|y r IH]; [ reflexivity | ].
  cbn [insertByKey]. destruct (String.ltb (key x) (key y)); [ reflexivity | ].
  rewrite IH. apply perm_swap.
Qed.

Lemma insertionSort_permutes : permutes insertionSort.
Proof.
  intros A key l. unfold insertionSort.
  assert (H : forall acc, fold_left (fun acc x => insertByKey key x acc) l acc ≡ₚ l ++ acc).
  { induction l as [|x r IH]; intros acc; [ reflexivity | ].
    cbn [fold_left]. rewrite IH, insertByKey_perm.
    cbn. symmetry. apply Permutation_middle. }
  rewrite H, app_nil_r. reflexivity.
Qed.

Lemma listSchools_elem (sort : forall A : Type, (A -> string) -> list A -> list A)
    (w : World) (s : School) :
  permutes sort ->
  (In s (listSchools sort w) <-> exists k, schools w !! k = Some s).
Proof.
  intros Hsort. unfold listSchools. rewrite <- !list_elem_of_In, (Hsort _ _ _).
  rewrite list_elem_of_fmap. split.
  - intros ([k x] & -> & Hkx). exists k. apply elem_of_map_to_list in Hkx. exact Hkx.
  - intros [k Hk]. exists (k, s). split; [ reflexivity | ].
    apply elem_of_map_to_list. exact Hk.
Qed.

(** X10. In a store the process can be in, every school is stored under
    its own id and no two schools have the same slug.  So
    [getSchoolBySlug], which searches [listSchools()], answers with the
    one school that has the slug, or with [null] when there is none,
    whichever way the sort of [listSchools] orders the schools. *)
Theorem schools_have_distinct_slugs (rt : Runtime)
    (sort : forall A : Type, (A -> string) -> list A -> list A) (w : World) :
  reachable rt w -> permutes sort ->
  (forall k s, schools w !! k = Some s -> school_id s = k) /\
  (forall k k' s s',
      schools w !! k = Some s -> schools w !! k' = Some s' ->
      school_slug s = school_slug s' -> k = k' /\ s = s') /\
  (forall slug s,
      getSchoolBySlug sort slug w = Some s <->
      schools w !! school_id s = Some s /\ school_slug s = slug) /\
  (forall slug,
      getSchoolBySlug sort slug w = None <->
      forall k s, schools w !! k = Some s -> school_slug s <> slug).
Proof.
  intros Hreach Hsort. pose proof (reachable_schoolsDistinct rt w Hreach) as Hd.
  assert (Hid : forall k s, schools w !! k = Some s -> school_id s = k).
  { intros k s Hs. exact (proj1 (Hd k s Hs)). }
  assert (Huniq : forall k k' s s',
      schools w !! k = Some s -> schools w !! k' = Some s' ->
      school_slug s = school_slug s' -> k = k' /\ s = s').
  { intros k k' s s' Hs Hs' Hslug.
    destruct (Hd k' s' Hs') as (_ & _ & _ & Hu). pose proof (Hu k s Hs Hslug) as Hk.
    subst k'. split; [ reflexivity | congruence ]. }
  split; [ exact Hid | ]. split; [ exact Huniq | ]. split.
  - intros slug s. unfold getSchoolBySlug. split.
    + intros Hfind. apply find_some in Hfind as [Hin Hslug].
      apply (listSchools_elem sort w s Hsort) in Hin as [k Hk].
      rewrite (Hid k s Hk). split; [ exact Hk | apply eqb_true; exact Hslug ].
    + intros [Hs Hslug].
      destruct (find _ (listSchools sort w)) as [s'|] eqn:Hfind.
      * apply find_some in Hfind as [Hin Hslug'].
        apply (listSchools_elem sort w s' Hsort) in Hin as [k' Hk'].
        apply eqb_true in Hslug'.
        destruct (Huniq _ _ _ _ Hs Hk' (eq_trans Hslug (eq_sym Hslug'))) as [_ ->].
        reflexivity.
      * exfalso. pose proof (find_none _ _ Hfind s) as Hnone.
        cbv beta in Hnone. rewrite (proj2 (eqb_true _ _) Hslug) in Hnone.
        assert (In s (listSchools sort w)) as Hin
          by (apply (listSchools_elem sort w s Hsort); eauto).
        specialize (Hnone Hin). discriminate Hnone.
  - intros slug. unfold getSchoolBySlug. split.
    + intros Hfind k s Hs Hslug. pose proof (find_none _ _ Hfind s) as Hnone.
      cbv beta in Hnone. rewrite (proj2 (eqb_true _ _) Hslug) in Hnone.
      assert (In s (listSchools sort w)) as Hin
        by (apply (listSchools_elem sort w s Hsort); eauto).
      specialize (Hnone Hin). discriminate Hnone.
    + intros Hnone. destruct (find _ (listSchools sort w)) as [s'|] eqn:Hfind;
        [ | reflexivity ].
      apply find_some in Hfind as [Hin Hslug'].
      apply (listSchools_elem sort w s' Hsort) in Hin as [k' Hk'].
      apply eqb_true in Hslug'. exfalso. exact (Hnone k' s' Hk' Hslug').
Qed.

(** The two schools of [domainScenario], looked up by slug. *)
Lemma schools_have_distinct_slugs_demo :
  (exists beta, getSchoolBySlug insertionSort "beta" domainWorld = Some beta /\
                school_id beta = betaId) /\
  getSchoolBySlug insertionSort "gamma" domainWorld = None.
Proof.
  destruct (schools_have_distinct_slugs demoRuntime insertionSort domainWorld
              domainWorld_reachable insertionSort_permutes) as (_ & _ & Hsome & Hnone).
  destruct (schools domainWorld !! betaId) as [beta|] eqn:Hbeta;
    [ | vm_compute in Hbeta; discriminate Hbeta ].
  assert (Hb : school_id beta = betaId /\ school_slug beta = "beta").
  { vm_compute in Hbeta. injection Hbeta as <-. split; reflexivity. }
  destruct Hb as [Hid Hslug]. split.
  - exists beta. split; [ | exact Hid ]. apply Hsome. rewrite Hid.
    split; [ exact Hbeta | exact Hslug ].
  - vm_compute. reflexivity.
Defined.

(** ** Custom domains, from the request to the host *)

Lemma get_set_eq {V} (k : string) (v : V) (m : JsMap.t V) :
  JsMap.get k (JsMap.set k v m) = Some v.
Proof.
  induction m as [|[k' v'] r IH]; cbn [JsMap.set JsMap.get].
  - rewrite eqb_refl. reflexivity.
  - destruct (Str.eqb k' k) eqn:E; cbn [JsMap.get]; rewrite E; [ reflexivity | exact IH ].
Qed.

Lemma get_set_ne {V} (k k0 : string) (v : V) (m : JsMap.t V) :
  k <> k0 -> JsMap.get k0 (JsMap.set k v m) = JsMap.get k0 m.
Proof.
  intros Hne. induction m as [|[k' v'] r IH]; cbn [JsMap.set JsMap.get].
  - rewrite (proj2 (eqb_false k k0) Hne). reflexivity.
  - destruct (Str.eqb k' k) eqn:E; cbn [JsMap.get].
    + apply eqb_true in E. subst k'. rewrite (proj2 (eqb_false k k0) Hne). reflexivity.
    + destruct (Str.eqb k' k0); [ reflexivity | exact IH ].
Qed.

Lemma keys_set {V} (k : string) (v : V) (m : JsMap.t V) :
  JsMap.keys (JsMap.set k v m) = JsMap.keys m \/
  ((k ∉ JsMap.keys m) /\ JsMap.keys (JsMap.set k v m) = (JsMap.keys m ++ [k])%list).
Proof.
  induction m as [|[k' v'] r IH]; cbn [JsMap.set].
  - right. split; [ apply not_elem_of_nil | reflexivity ].
  - destruct (Str.eqb k' k) eqn:E; [ left; reflexivity | ].
    apply eqb_false in E. destruct IH as [IH | [Hnot IH]].
    + left. cbn. f_equal. exact IH.
    + right. split.
      * cbn. rewrite not_elem_of_cons. split; [ congruence | exact Hnot ].
      * cbn. f_equal. exact IH.
Qed.

Lemma domainsKeyed_set (w : World) (k : string) (cfg : DomainConfig) :
  domainsKeyed w -> dom_id cfg = k -> domainsKeyed (upd_domains (JsMap.set k cfg) w).
Proof.
  intros [Hk Hnd] Hid. split; world_simpl.
  - clear Hnd. induction (domains w) as [|[k' v'] r IH]; cbn [JsMap.set].
    + constructor; [ exact Hid | constructor ].
    + apply Forall_cons in Hk as [Hhd Htl]. destruct (Str.eqb k' k) eqn:E.
      * apply eqb_true in E. subst k'. constructor; [ exact Hid | exact Htl ].
      * constructor; [ exact Hhd | exact (IH Htl) ].
  - destruct (keys_set k cfg (domains w)) as [-> | [Hnot ->]]; [ exact Hnd | ].
    apply NoDup_app. split; [ exact Hnd | ]. split.
    + intros x Hx Hx'. apply list_elem_of_singleton in Hx'. subst x. exact (Hnot Hx).
    + apply NoDup_singleton.
Qed.

Lemma domainsKeyed_alterFirst (w : World) (p : DomainConfig -> bool)
    (f : DomainConfig -> DomainConfig) :
  domainsKeyed w -> (forall v, dom_id (f v) = dom_id v) ->
  domainsKeyed (upd_domains (alterFirst p f) w).
Proof.
  intros [Hk Hnd] Hf. split; world_simpl.
  - clear Hnd. induction (domains w) as [|[k' v'] r IH]; [ constructor | ].
    apply Forall_cons in Hk as [Hhd Htl]. cbn [alterFirst]. destruct (p v').
    + constructor; [ cbn in *; rewrite Hf; exact Hhd | exact Htl ].
    + constructor; [ exact Hhd | exact (IH Htl) ].
  - rewrite keys_alterFirst. exact Hnd.
Qed.

Lemma get_keyed (k : string) (cfg : DomainConfig) (m : JsMap.t DomainConfig) :
  Forall (fun kv => dom_id (snd kv) = fst kv) m ->
  JsMap.get k m = Some cfg -> dom_id cfg = k.
Proof.
  induction m as [|[k' v'] r IH]; [ discriminate | ].
  intros Hk. apply Forall_cons in Hk as [Hhd Htl]. cbn [JsMap.get].
  destruct (Str.eqb k' k) eqn:E; [ | exact (IH Htl) ].
  apply eqb_true in E. intros [= <-]. cbn in Hhd. congruence.
Qed.

Lemma find_elem {V} (p : V -> bool) (x : V) (m : JsMap.t V) :
  List.find p (JsMap.values m) = Some x -> exists k, (k, x) ∈ m.
Proof.
  induction m as [|[k v] r IH]; [ discriminate | ].
  cbn. destruct (p v).
  - intros [= <-]. exists k. left.
  - intros H. destruct (IH H) as [k' Hk']. exists k'. right. exact Hk'.
Qed.

Lemma get_alterFirst (p : DomainConfig -> bool) (f : DomainConfig -> DomainConfig)
    (ex : DomainConfig) (m : JsMap.t DomainConfig) :
  Forall (fun kv => dom_id (snd kv) = fst kv) m -> NoDup (JsMap.keys m) ->
  List.find p (JsMap.values m) = Some ex ->
  JsMap.get (dom_id ex) (alterFirst p f m) = Some (f ex).
Proof.
  induction m as [|[k v] r IH]; [ discriminate | ].
  intros Hk Hnd. apply Forall_cons in Hk as [Hhd Htl].
  cbn [JsMap.keys List.map fst] in Hnd. apply NoDup_cons in Hnd as [Hnot Hnd].
  cbn in Hhd. cbn [JsMap.values List.map snd List.find alterFirst].
  destruct (p v) eqn:E.
  - intros [= <-]. cbn [JsMap.get]. rewrite Hhd, eqb_refl. reflexivity.
  - intros Hfind. cbn [JsMap.get].
    destruct (Str.eqb k (dom_id ex)) eqn:Ek; [ | exact (IH Htl Hnd Hfind) ].
    exfalso. apply eqb_true in Ek. apply Hnot.
    destruct (find_elem p ex r Hfind) as [k' Hk'].
    assert (k' = dom_id ex) as ->.
    { rewrite Forall_forall in Htl. symmetry. exact (Htl (k', ex) Hk'). }
    apply list_elem_of_fmap. exists (dom_id ex, ex). split; [ exact Ek | exact Hk' ].
Qed.

Lemma createSchool_domainsKeyed (rt : Runtime) (name slug : string) :
  preserves domainsKeyed (createSchool rt name slug).
Proof.
  unfold createSchool.
  repeat first
    [ apply preserves_bind_generateId; [ intros ? Hk; exact Hk | intro ]
    | pres_step ];
    try (intros ? Hk; exact Hk).
  intros w Hw. apply domainsKeyed_set; [ exact Hw | reflexivity ].
Qed.

Lemma requestCustomDomain_domainsKeyed (rt : Runtime) (schoolId domain : string) :
  preserves domainsKeyed (requestCustomDomain rt schoolId domain).
Proof.
  unfold requestCustomDomain.
  repeat first
    [ apply preserves_bind_generateId; [ intros ? Hk; exact Hk | intro ]
    | pres_step ];
    try (intros ? Hk; exact Hk).
  - intros w Hw. apply domainsKeyed_alterFirst; [ exact Hw | reflexivity ].
  - intros w Hw. apply domainsKeyed_set; [ exact Hw | reflexivity ].
Qed.

Lemma verifyCustomDomain_domainsKeyed (rt : Runtime) (schoolId domain token : string) :
  preserves domainsKeyed (verifyCustomDomain rt schoolId domain token).
Proof.
  intros w Hw.
  change (wp (verifyCustomDomain rt schoolId domain token) (fun _ w' => domainsKeyed w') w).
  wp_run; try exact Hw.
  apply (domainsKeyed_set w); [ exact Hw | ]. cbn [dom_id].
  eapply get_keyed; [ apply Hw | eassumption ].
Qed.

Lemma reachable_domainsKeyed (rt : Runtime) (w : World) : reachable rt w -> domainsKeyed w.
Proof.
  induction 1 as [|c w Hw IH].
  - split; constructor.
  - assert (Hcut : forall A (m : M A),
               preserves (fun w' => domains w' = domains w) m -> domainsKeyed (exec m w)).
    { intros A m Hm. unfold domainsKeyed. rewrite (Hm w eq_refl). exact IH. }
    destruct c; cbn [perform]; try (apply Hcut; frame_run; fail).
    + apply createSchool_domainsKeyed. exact IH.
    + apply requestCustomDomain_domainsKeyed. exact IH.
    + apply verifyCustomDomain_domainsKeyed. exact IH.
Qed.

Lemma wp_run_eq {A} (m : M A) (Q : Result A -> World -> Prop) (w w' : World) (r : Result A) :
  m w = (r, w') -> wp m Q w -> Q r w'.
Proof. intros H. apply (wp_eq m Q w r w' H). Qed.

Lemma verifyCustomDomain_wp (rt : Runtime) (w : World) (schoolId domain token : string) :
  domainsKeyed w ->
  wp (verifyCustomDomain rt schoolId domain token)
     (fun r w' =>
        (forall cfg', r = Ok cfg' ->
           exists cfg, verifiable schoolId domain token cfg w /\
                       cfg' = verifiedAs (toISOString rt (clock rt (ticks w))) cfg /\
                       domains w' = JsMap.set (dom_id cfg) cfg' (domains w) /\
                       schools w' = schools w /\ byCustomDomain w' = byCustomDomain w /\
                       bySubdomain w' = bySubdomain w) /\
        (forall cfg, verifiable schoolId domain token cfg w -> exists cfg', r = Ok cfg') /\
        (forall cfg,
            (exists s, schools w !! schoolId = Some s /\ school_status s = ACTIVE) ->
            byCustomDomain w !! normalizeDomain domain = Some (dom_id cfg) ->
            dom_id cfg <> "" ->
            JsMap.get (dom_id cfg) (domains w) = Some cfg ->
            dom_type cfg = custom -> dom_schoolId cfg = schoolId ->
            is_Some (dom_verificationToken cfg) ->
            dom_verificationToken cfg <> Some "" ->
            dom_verificationToken cfg <> Some (Str.trim token) ->
            r = Throw "CUSTOM_DOMAIN_TOKEN_INVALID" /\ w' = w)) w.
Proof.
  intros [Hkeyed _].
  wp_run.
  all: split;
    [ intros cfg' Hr; try discriminate Hr
    | split;
      [ intros cfg ((s & Hs & Hact) & Hidx & Hid & Hget & Hty & Hown & Htok & Htoken)
      | intros cfg (s & Hs & Hact) Hidx Hid Hget Hty Hown Hsome' Hne Hdiff ] ].
  all: try solve [ split; reflexivity ]; try solve [ eexists; reflexivity ].
  all: try solve [ exfalso; rewrite ?Hs, ?Hidx in *; cbn [default from_option id] in *;
                   rewrite ?Hget in *; simplify_eq; cbn [truthy] in *;
                   repeat match goal with
                          | H : dom_verificationToken _ = Some _ |- _ => rewrite H in *
                          end;
                   cbn [truthy] in *; absurd_path ].
  - exfalso. rewrite Hidx in *. cbn [default from_option id] in *.
    rewrite Hget in Hsome0. injection Hsome0 as <-.
    destruct Hsome' as [t Ht]. rewrite Ht in *. cbn [truthy] in *. guards. congruence.
  - injection Hr as <-. guards.
    apply truthy_spec in Hguard0 as (did & Hidx & Hid).
    rewrite Hidx in *. cbn [default from_option id] in *.
    pose proof (get_keyed did a0 (domains w) Hkeyed Hsome0) as Hkey. subst did.
    apply truthy_spec in Hguard3 as (t & Ht & Hne).
    destruct (school_status a) eqn:Hact; [ | discriminate ].
    destruct (dom_type a0) eqn:Hty; [ discriminate | ].
    exists a0. split; [ | repeat split ].
    unfold verifiable. rewrite Ht in Hguard4. injection Hguard4 as Htok.
    rewrite Ht, Htok. repeat split; eauto; try congruence.
    unfold verifiedAs. rewrite Hty. reflexivity.
Qed.

(** X11. For a domain and a token written in ASCII, [verifyCustomDomain]
    goes through exactly when the school is active, the custom-domain
    index leads from the normalised domain to a record of type custom
    owned by the school, and the trimmed token is the record's
    verification token.  It then marks that record verified, with the
    time of the call, and writes nothing else to the records and the
    indices; a token that differs from the record's is refused with
    CUSTOM_DOMAIN_TOKEN_INVALID and nothing is written. *)
Theorem verifyCustomDomain_spec (rt : Runtime) (w : World) (schoolId domain token : string) :
  domainsKeyed w -> asciiOnly domain = true -> asciiOnly token = true ->
  ((exists cfg', outcome (verifyCustomDomain rt schoolId domain token) w = Ok cfg') <->
   exists cfg, verifiable schoolId domain token cfg w) /\
  (forall cfg' w',
      verifyCustomDomain rt schoolId domain token w = (Ok cfg', w') ->
      exists cfg,
        verifiable schoolId domain token cfg w /\
        cfg' = verifiedAs (toISOString rt (clock rt (ticks w))) cfg /\
        domains w' = JsMap.set (dom_id cfg) cfg' (domains w) /\
        schools w' = schools w /\ byCustomDomain w' = byCustomDomain w /\
        bySubdomain w' = bySubdomain w) /\
  (forall cfg,
      verifiable schoolId domain (default "" (dom_verificationToken cfg)) cfg w ->
      Some (Str.trim token) <> dom_verificationToken cfg ->
      verifyCustomDomain rt schoolId domain token w
      = (Throw "CUSTOM_DOMAIN_TOKEN_INVALID", w)).
Proof.
  intros Hkeyed _ _.
  pose proof (verifyCustomDomain_wp rt w schoolId domain token Hkeyed) as Hwp.
  unfold wp in Hwp. destruct Hwp as (Hok & Hcan & Hbad).
  split; [ split | split ].
  - intros [cfg' Hr]. destruct (Hok cfg' Hr) as (cfg & Hv & _). eauto.
  - intros [cfg Hv]. exact (Hcan cfg Hv).
  - intros cfg' w' Hrun.
    pose proof (f_equal fst Hrun) as Hr. pose proof (f_equal snd Hrun) as Hw'.
    cbn [fst snd] in Hr, Hw'. fold (outcome (verifyCustomDomain rt schoolId domain token) w) in Hr.
    fold (exec (verifyCustomDomain rt schoolId domain token) w) in Hw'.
    rewrite <- Hw'. exact (Hok cfg' Hr).
  - intros cfg (Hs & Hidx & Hid & Hget & Hty & Hown & Htok & Htoken) Hdiff.
    destruct (dom_verificationToken cfg) as [t|] eqn:Ht; [ | discriminate Htoken ].
    cbn [default from_option id] in *. injection Htoken as Htrim.
    destruct (Hbad cfg Hs Hidx Hid Hget Hty Hown) as [Hr Hw'].
    + rewrite Ht. eauto.
    + rewrite Ht. intros [= ->]. apply Htok. reflexivity.
    + rewrite Ht. congruence.
    + unfold outcome in Hr. unfold exec in Hw'.
      destruct (verifyCustomDomain rt schoolId domain token w) as [r w'].
      cbn [fst snd] in *. congruence.
Qed.

Lemma requestCustomDomain_wp (rt : Runtime) (w : World) (schoolId domain : string) :
  domainsKeyed w -> directoryKeyed w ->
  wp (requestCustomDomain rt schoolId domain)
     (fun r w' =>
        forall cfg, r = Ok cfg ->
          (exists s, schools w !! schoolId = Some s /\ school_status s = ACTIVE) /\
          isValidDomainLike (normalizeDomain domain) = true /\
          Str.endsWith platformSuffix (normalizeDomain domain) = false /\
          schools w' = schools w /\ bySubdomain w' = bySubdomain w /\
          byCustomDomain w' = <[normalizeDomain domain := dom_id cfg]> (byCustomDomain w) /\
          JsMap.get (dom_id cfg) (domains w') = Some cfg /\
          dom_id cfg <> "" /\ dom_type cfg = custom /\ dom_schoolId cfg = schoolId /\
          dom_domain cfg = normalizeDomain domain /\ dom_verified cfg = false /\
          dom_verificationToken cfg
          = Some (Str.hex (List.map (entropy rt (draws w)) (seq 0 12)))) w.
Proof.
  intros [Hkeyed Hnd] (_ & _ & Hids).
  wp_run; intros cfg Hr; try discriminate Hr; injection Hr as <-; guards.
  all: destruct (school_status a) eqn:Hact; try discriminate.
  - pose proof (find_some _ _ Hcase) as [_ Hp]. unfold isCustomOf in Hp.
    destruct (dom_type d) eqn:Hty; [ discriminate | ]. guards.
    cbn [dom_id dom_type dom_schoolId dom_domain dom_verified dom_verificationToken
         reRequested].
    repeat split; eauto;
      first [ apply get_alterFirst; assumption
            | eapply (Forall_find (fun d => dom_id d <> "")); eassumption ].
  - cbn [dom_id dom_type dom_schoolId dom_domain dom_verified dom_verificationToken].
    repeat split; eauto; first [ apply get_set_eq | discriminate ].
Qed.

(** X12. A custom domain goes live in two steps, in a store the process
    can be in and for a domain whose normal form is a host as
    [normalizeHost] writes it.  After [requestCustomDomain] returned a
    record, the host of the domain resolves to no school, also when the
    domain was live before this request; [verifyCustomDomain] with the
    token of the record then goes through and marks the record verified,
    and from then on the host resolves to the school the request was
    made for. *)
Theorem custom_domain_goes_live (rt : Runtime) (w w1 : World) (schoolId domain : string)
    (cfg : DomainConfig) :
  reachable rt w ->
  requestCustomDomain rt schoolId domain w = (Ok cfg, w1) ->
  normalizeHost (normalizeDomain domain) = normalizeDomain domain ->
  dom_verified cfg = false /\
  resolveSchoolByHost (normalizeDomain domain) w1 = None /\
  exists token cfg' w2 s,
    dom_verificationToken cfg = Some token /\
    verifyCustomDomain rt schoolId domain token w1 = (Ok cfg', w2) /\
    dom_verified cfg' = true /\ dom_id cfg' = dom_id cfg /\
    resolveSchoolByHost (normalizeDomain domain) w2 = Some s /\
    school_id s = schoolId /\ school_status s = ACTIVE.
Proof.
  intros Hreach Hrun Hhost.
  pose proof (reachable_domainsKeyed rt w Hreach) as Hkeyed.
  pose proof (reachable_directoryKeyed rt w Hreach) as Hdir.
  pose proof (wp_run_eq _ _ _ _ _ Hrun (requestCustomDomain_wp rt w schoolId domain Hkeyed Hdir)
                cfg eq_refl)
    as ((s & Hs & Hact) & Hvalid & Hsuffix & Hschools & Hsub & Hidx & Hget & Hid & Hty &
        Hown & Hdom & Hunv & Htoken).
  assert (Hreach1 : reachable rt w1).
  { replace w1 with (perform rt (RequestCustomDomain schoolId domain) w);
      [ constructor; exact Hreach | cbn [perform]; unfold exec; rewrite Hrun; reflexivity ]. }
  pose proof (reachable_domainsKeyed rt w1 Hreach1) as Hkeyed1.
  pose proof (isValidDomainLike_nonempty _ Hvalid) as Hne.
  assert (Hnosub : forall w', bySubdomain w' = bySubdomain w ->
                              bySubdomain w' !! normalizeDomain domain = None).
  { intros w' ->. destruct (bySubdomain w !! normalizeDomain domain) as [sid|] eqn:E;
      [ | reflexivity ].
    destruct Hdir as (_ & Hsubs & _). destruct (Hsubs _ _ E) as [_ Hsuf]. congruence. }
  assert (Hidx1 : byCustomDomain w1 !! normalizeDomain domain = Some (dom_id cfg)).
  { rewrite Hidx. apply lookup_insert_eq. }
  split; [ exact Hunv | ]. split.
  { destruct (resolveSchoolByHost_cases w1 (normalizeDomain domain)) as (_ & Hcase & _).
    cbv zeta in Hcase. rewrite Hhost in Hcase.
    exact (Hcase _ cfg Hidx1 Hget Hunv (Hnosub w1 Hsub)). }
  set (token := Str.hex (List.map (entropy rt (draws w)) (seq 0 12))) in *.
  assert (Htrim : Str.trim token = token) by (apply trim_noWs, noWs_hex).
  assert (Hv : verifiable schoolId domain token cfg w1).
  { unfold verifiable. rewrite Hschools, Htrim.
    split; [ eauto | ]. repeat split; try assumption. discriminate. }
  destruct (verifyCustomDomain rt schoolId domain token w1) as [r w2] eqn:Hrun2.
  pose proof (wp_run_eq _ _ _ _ _ Hrun2 (verifyCustomDomain_wp rt w1 schoolId domain token Hkeyed1))
    as (Heffect & Hgoes & _).
  destruct (Hgoes cfg Hv) as [cfg' ->].
  destruct (Heffect cfg' eq_refl) as (cfg0 & Hv0 & Hcfg' & Hdoms & Hschools2 & Hidx2 & Hsub2).
  assert (cfg0 = cfg) as ->.
  { destruct Hv0 as (_ & Hi0 & _ & Hg0 & _). rewrite Hidx1 in Hi0. injection Hi0 as Hi0.
    rewrite <- Hi0, Hget in Hg0. congruence. }
  exists token, cfg', w2, s. split; [ exact Htoken | ]. split; [ exact Hrun2 | ].
  split; [ rewrite Hcfg'; reflexivity | ]. split; [ rewrite Hcfg'; reflexivity | ].
  split.
  - destruct (resolveSchoolByHost_cases w2 (normalizeDomain domain)) as (Hcase & _).
    cbv zeta in Hcase. rewrite Hhost in Hcase.
    rewrite (Hcase (dom_id cfg) cfg' Hne).
    + rewrite Hcfg'. cbn [dom_schoolId verifiedAs]. rewrite Hown, Hschools2, Hschools. exact Hs.
    + rewrite Hidx2. exact Hidx1.
    + exact Hid.
    + rewrite Hdoms. apply get_set_eq.
    + rewrite Hcfg'. exact Hty.
    + rewrite Hcfg'. reflexivity.
  - split; [ | exact Hact ].
    exact (proj1 (reachable_schoolsDistinct rt w Hreach schoolId s Hs)).
Qed.

(** The live domain of Escola Alpha in [domainScenario], requested once
    more and verified again. *)
Lemma custom_domain_goes_live_demo :
  (exists alpha, resolveSchoolByHost "cursos.alpha.com.br" domainWorld = Some alpha /\
                 school_id alpha = alphaId) /\
  exists cfg w1 token cfg' w2 s,
    requestCustomDomain demoRuntime alphaId "Cursos.Alpha.com.br" domainWorld = (Ok cfg, w1) /\
    resolveSchoolByHost "cursos.alpha.com.br" w1 = None /\
    verifyCustomDomain demoRuntime alphaId "Cursos.Alpha.com.br" token w1 = (Ok cfg', w2) /\
    resolveSchoolByHost "cursos.alpha.com.br" w2 = Some s /\ school_id s = alphaId.
Proof.
  split; [ eexists; split; vm_compute; reflexivity | ].
  destruct (requestCustomDomain demoRuntime alphaId "Cursos.Alpha.com.br" domainWorld)
    as [[cfg|e] w1] eqn:Hrun; [ | vm_compute in Hrun; discriminate Hrun ].
  destruct (custom_domain_goes_live demoRuntime domainWorld w1 alphaId "Cursos.Alpha.com.br"
              cfg domainWorld_reachable Hrun eq_refl)
    as (_ & Hoff & token & cfg' & w2 & s & _ & Hverify & _ & _ & Hon & Hid & _).
  exists cfg, w1, token, cfg', w2, s. auto.
Defined.

(** A wrong token for the domain Escola Alpha has requested and not yet
    verified in [domainScenario]. *)
Lemma verifyCustomDomain_spec_demo :
  verifyCustomDomain demoRuntime alphaId "loja.alpha.com.br" "0a0a" domainWorld
  = (Throw "CUSTOM_DOMAIN_TOKEN_INVALID", domainWorld).
Proof.
  destruct (verifyCustomDomain_spec demoRuntime domainWorld alphaId "loja.alpha.com.br" "0a0a"
              (reachable_domainsKeyed _ _ domainWorld_reachable) eq_refl eq_refl)
    as (_ & _ & Hbad).
  destruct (byCustomDomain domainWorld !! "loja.alpha.com.br") as [did|] eqn:Hidx;
    [ | vm_compute in Hidx; discriminate Hidx ].
  destruct (JsMap.get did (domains domainWorld)) as [cfg|] eqn:Hget;
    [ | vm_compute in Hidx; injection Hidx as <-; vm_compute in Hget; discriminate Hget ].
  apply (Hbad cfg).
  - vm_compute in Hidx. injection Hidx as <-. vm_compute in Hget. injection Hget as <-.
    unfold verifiable. repeat split; try (vm_compute; congruence).
    eexists. split; vm_compute; reflexivity.
  - vm_compute in Hidx. injection Hidx as <-. vm_compute in Hget. injection Hget as <-.
    vm_compute. congruence.
Defined.

(** ** A school, once created *)

Lemma slugChar_plain (c : ascii) :
  Str.is_lower c || Str.is_digit c || bool_decide (c = "-"%char) = true ->
  Str.is_ws c = false /\ Str.lower_char c = c.
Proof. destruct c as [[] [] [] [] [] [] [] []]; vm_compute; intros H; split; congruence. Qed.

Lemma slug_lower (s : string) :
  Str.all (fun c => Str.is_lower c || Str.is_digit c || bool_decide (c = "-"%char)) s = true ->
  Str.toLowerCase s = s.
Proof.
  unfold Str.toLowerCase. induction s as [|c r IH]; [ reflexivity | ].
  cbn [Str.all Str.map]. intros H. apply andb_true_iff in H as [Hc Hr].
  rewrite (proj2 (slugChar_plain c Hc)), (IH Hr). reflexivity.
Qed.

(** The default host of a slug is written as hosts are kept. *)
Lemma normalizeHost_default (slug : string) :
  isSlug slug = true -> normalizeHost (defaultHost slug) = defaultHost slug.
Proof.
  unfold isSlug, defaultHost. intros H. apply andb_true_iff in H as [Hne Hall].
  change (slug +:+ "." +:+ baseDomain) with (slug +:+ platformSuffix).
  rewrite normalizeHost_eq. unfold Str.trim.
  rewrite trimStart_of_tight.
  - rewrite trimEnd_suffix, toLowerCase_suffix, stripFinalDot_suffix, (slug_lower _ Hall).
    reflexivity.
  - destruct slug as [|c r]; [ discriminate Hne | ].
    rewrite app_cons. cbn [tight]. cbn [Str.all] in Hall.
    apply andb_true_iff in Hall as [Hc _]. exact (proj1 (slugChar_plain c Hc)).
Qed.

Lemma createSchool_wp (rt : Runtime) (w : World) (name slug : string) :
  wp (createSchool rt name slug)
     (fun r w' => forall s, r = Ok s ->
        school_name s = Str.trim name /\ Str.trim name <> "" /\
        school_slug s = Str.toLowerCase (Str.trim slug) /\
        isSlug (school_slug s) = true /\
        school_status s = ACTIVE /\ school_id s <> "" /\
        (forall k e, schools w !! k = Some e -> school_slug e <> school_slug s) /\
        schools w' = <[school_id s := s]> (schools w) /\
        byCustomDomain w' = byCustomDomain w /\
        bySubdomain w'
        = <[normalizeHost (defaultHost (school_slug s)) := school_id s]> (bySubdomain w) /\
        is_Some (branding w' !! school_id s) /\
        is_Some (localization w' !! school_id s) /\
        is_Some (gateway w' !! school_id s)) w.
Proof.
  wp_run.
  all: intros s Hr; try discriminate Hr.
  all: injection Hr as <-; guards.
  all: rewrite lookup_insert_eq in Hsome; injection Hsome as <-.
  all: pose proof (slug_free _ _ Hguard2) as Hfree.
  all: cbn [school_id school_name school_slug school_status] in *.
  all: world_simpl.
  all: repeat match goal with |- _ /\ _ => split end.
  all: try first [ reflexivity | assumption | discriminate ].
  all: try solve [ eexists; first [ eassumption | apply lookup_insert_eq ] ].
Qed.

Lemma schoolKnown_found (schoolId : string) (s : School) (w : World) :
  schools w !! schoolId = Some s -> schoolKnown schoolId w = (Ok tt, w).
Proof. intros H. unfold schoolKnown, bind, gets. rewrite H. reflexivity. Qed.

(** X13. A school that [createSchool] returned, for a name and a slug
    written in ASCII, is provisioned: it is stored as returned, with the
    trimmed name, the trimmed lower-case slug and status ACTIVE; its
    default host, the slug under the platform's base domain, resolves to
    it, so that [publicHome] serves it there; and [getBranding],
    [getLocalization] and [getGatewayConfig] return a record for it, not
    null. *)
Theorem createSchool_provisions (rt : Runtime) (w w' : World) (name slug : string)
    (s : School) :
  reachable rt w ->
  asciiOnly name = true -> asciiOnly slug = true ->
  createSchool rt name slug w = (Ok s, w') ->
  (school_name s = Str.trim name /\ school_slug s = Str.toLowerCase (Str.trim slug) /\
   school_status s = ACTIVE) /\
  schools w' !! school_id s = Some s /\
  resolveSchoolByHost (defaultHost (school_slug s)) w' = Some s /\
  (exists home, publicHome (defaultHost (school_slug s)) w' = Some home /\
                hs_id (home_school home) = school_id s /\
                hs_status (home_school home) = ACTIVE /\
                is_Some (home_branding home) /\ is_Some (home_localization home)) /\
  (exists b, getBranding (school_id s) w' = (Ok (Some b), w')) /\
  (exists l, getLocalization (school_id s) w' = (Ok (Some l), w')) /\
  (exists g, getGatewayConfig (school_id s) w' = (Ok (Some g), w')).
Proof.
  intros Hreach _ _ Hrun.
  pose proof (reachable_directoryKeyed rt w Hreach) as (Hcustom & _ & _).
  pose proof (wp_run_eq _ _ _ _ _ Hrun (createSchool_wp rt w name slug) s eq_refl)
    as (Hname & _ & Hslug & Hok & Hact & Hid & _ & Hschools & Hidx & Hsub & Hb & Hl & Hg).
  assert (Hs : schools w' !! school_id s = Some s)
    by (rewrite Hschools; apply lookup_insert_eq).
  pose proof (normalizeHost_default _ Hok) as Hhost.
  assert (Hres : resolveSchoolByHost (defaultHost (school_slug s)) w' = Some s).
  { destruct (resolveSchoolByHost_cases w' (defaultHost (school_slug s))) as (_ & _ & Hcase & _).
    cbv zeta in Hcase. rewrite Hhost in Hcase. rewrite (Hcase (school_id s)).
    - exact Hs.
    - unfold defaultHost. apply app_suffix_nonempty.
    - rewrite Hidx. destruct (byCustomDomain w !! defaultHost (school_slug s)) as [did|] eqn:E;
        [ | reflexivity ].
      destruct (Hcustom _ _ E) as (_ & _ & Hsuf). unfold defaultHost in Hsuf.
      change (school_slug s +:+ "." +:+ baseDomain)
        with (school_slug s +:+ platformSuffix) in Hsuf.
      rewrite endsWith_app in Hsuf. discriminate Hsuf.
    - rewrite Hsub, Hhost. apply lookup_insert_eq.
    - exact Hid. }
  split; [ auto | ]. split; [ exact Hs | ]. split; [ exact Hres | ].
  split.
  { unfold publicHome. rewrite Hres. eexists. split; [ reflexivity | ].
    cbn [home_school hs_id hs_status home_branding home_localization]. auto. }
  destruct Hb as [b Hb]. destruct Hl as [l Hl]. destruct Hg as [g Hg].
  split; [ exists b | split; [ exists l | exists g ] ].
  all: unfold getBranding, getLocalization, getGatewayConfig, bind, gets.
  all: rewrite (schoolKnown_found _ _ _ Hs).
  - rewrite Hb. reflexivity.
  - rewrite Hl. reflexivity.
  - rewrite Hg. reflexivity.
Qed.

(** A third school, created after the two of [domainScenario]. *)
Lemma createSchool_provisions_demo :
  exists s w',
    createSchool demoRuntime " Escola Gama " " GAMA " domainWorld = (Ok s, w') /\
    school_name s = "Escola Gama" /\ school_slug s = "gama" /\
    resolveSchoolByHost "gama.platform.local" w' = Some s /\
    exists g, getGatewayConfig (school_id s) w' = (Ok (Some g), w').
Proof.
  destruct (createSchool demoRuntime " Escola Gama " " GAMA " domainWorld)
    as [[s|e] w'] eqn:Hrun; [ | vm_compute in Hrun; discriminate Hrun ].
  destruct (createSchool_provisions demoRuntime domainWorld w' " Escola Gama " " GAMA " s
              domainWorld_reachable eq_refl eq_refl Hrun)
    as ((Hname & Hslug & _) & _ & Hres & _ & _ & _ & Hg).
  exists s, w'. split; [ reflexivity | ]. split; [ exact Hname | ].
  split; [ exact Hslug | ]. split; [ | exact Hg ].
  rewrite Hslug in Hres. exact Hres.
Defined.

(** ** The page of a course *)

Lemma sameDb_ticks (w : World) (f : nat -> nat) : sameDb w (upd_ticks f w).
Proof. repeat split. Qed.

Lemma publicGetCoursePage_wp (rt : Runtime) (w : World) (host courseId : string) :
  wp (publicGetCoursePage rt host courseId)
     (fun r w' =>
        sameDb w w' /\ (exists o, r = Ok o) /\
        forall page, r = Ok (Some page) <->
          exists school course,
            resolveSchoolByHost host w = Some school /\
            courses w !! courseId = Some course /\
            course_schoolId course = school_id school /\
            course_state course = PUBLISHED /\
            page = {| page_course :=
                        {| pub_id := course_id course;
                           pub_title := course_title course;
                           pub_description := course_description course;
                           pub_type := course_type course;
                           pub_currency := currency (course_pricing course);
                           pub_price := price (course_pricing course);
                           pub_effectivePrice :=
                             getEffectivePrice rt (course_pricing course)
                                               (clock rt (ticks w));
                           pub_promo := promo (course_pricing course);
                           pub_publishedAt := course_publishedAt course |};
                      page_preview := previewOf (course_structure course);
                      cta_action := "BUY";
                      cta_courseId := course_id course |}) w.
Proof.
  wp_run.
  all: split; [ first [ apply sameDb_refl | apply sameDb_ticks ] | ].
  all: split; [ eexists; reflexivity | ].
  all: intros page; split;
    [ intros Hr
    | intros (school & course & Hres & Hc & Hown & Hpub & ->) ].
  all: try solve [ rewrite ?Hcase, ?Hcase0 in *; simplify_eq;
                   first [ congruence
                         | apply negb_true_iff, eqb_false in Hcase1; congruence ] ].
  apply negb_false_iff, eqb_true in Hcase1. injection Hr as <-.
  exists s, c. repeat split; assumption.
Qed.

Lemma previewOf_titles (s : option Structure) :
  List.map pm_title (previewOf s)
  = List.map module_title (match s with Some x => modules x | None => nil end) /\
  List.map (fun m => List.map pl_title (pm_lessons m)) (previewOf s)
  = List.map (fun m => List.map lesson_title (module_lessons m))
             (match s with Some x => modules x | None => nil end).
Proof.
  unfold previewOf. rewrite !List.map_map. split.
  - reflexivity.
  - apply List.map_ext. intros m. cbn [pm_lessons]. rewrite List.map_map. reflexivity.
Qed.

Lemma previewOf_wellFormed (url : bool) (s : option Structure) :
  wellFormed url s ->
  previewOf s <> nil /\ Forall (fun m => pm_lessons m <> nil) (previewOf s).
Proof.
  intros (ms & -> & Hne & Hall). unfold previewOf. cbn [modules]. split.
  - destruct ms; [ congruence | discriminate ].
  - clear Hne. induction Hall as [|m r (_ & Hl & _) _ IH]; cbn [List.map]; constructor.
    + cbn [pm_lessons]. destruct (module_lessons m); [ congruence | discriminate ].
    + exact IH.
Qed.

(** X14. [publicGetCoursePage] never throws and writes nothing.  It
    returns a page exactly when the host resolves to a school and the
    course exists, belongs to that school and is PUBLISHED: the course of
    one school is not served on the host of another, and the status of
    the school is not looked at.  The page carries the id asked for, the
    effective price at the time of the call, and a preview with the titles
    of the modules and lessons of the structure, at least one module and
    at least one lesson in each. *)
Theorem publicGetCoursePage_spec (rt : Runtime) (w : World) (host courseId : string) :
  reachable rt w ->
  sameDb w (exec (publicGetCoursePage rt host courseId) w) /\
  (exists o, outcome (publicGetCoursePage rt host courseId) w = Ok o) /\
  ((exists page, outcome (publicGetCoursePage rt host courseId) w = Ok (Some page)) <->
   exists school course,
     resolveSchoolByHost host w = Some school /\ courses w !! courseId = Some course /\
     course_schoolId course = school_id school /\ course_state course = PUBLISHED) /\
  forall page,
    outcome (publicGetCoursePage rt host courseId) w = Ok (Some page) ->
    exists course,
      courses w !! courseId = Some course /\
      cta_courseId page = courseId /\ pub_id (page_course page) = courseId /\
      pub_title (page_course page) = course_title course /\
      pub_price (page_course page) = price (course_pricing course) /\
      pub_effectivePrice (page_course page)
      = getEffectivePrice rt (course_pricing course) (clock rt (ticks w)) /\
      is_Some (pub_publishedAt (page_course page)) /\
      List.map pm_title (page_preview page)
      = List.map module_title
                 (match course_structure course with Some x => modules x | None => nil end) /\
      List.map (fun m => List.map pl_title (pm_lessons m)) (page_preview page)
      = List.map (fun m => List.map lesson_title (module_lessons m))
                 (match course_structure course with Some x => modules x | None => nil end) /\
      page_preview page <> nil /\
      Forall (fun m => pm_lessons m <> nil) (page_preview page).
Proof.
  intros Hreach.
  pose proof (publicGetCoursePage_wp rt w host courseId) as (Hsame & Hok & Hpage).
  split; [ exact Hsame | ]. split; [ exact Hok | ]. split.
  - split.
    + intros [page Hp]. apply Hpage in Hp as (school & course & H1 & H2 & H3 & H4 & _).
      eauto 10.
    + intros (school & course & H1 & H2 & H3 & H4). eexists. apply Hpage.
      exists school, course. repeat split; eassumption.
  - intros page Hp. apply Hpage in Hp as (school & course & _ & Hc & _ & Hpub & ->).
    destruct (reachable_coursesSound rt w Hreach courseId course Hc) as (Hsound & Hid & _).
    exists course. cbn [cta_courseId page_course page_preview pub_id pub_title pub_price
                        pub_effectivePrice pub_publishedAt].
    split; [ exact Hc | ]. do 5 (split; [ first [ exact Hid | reflexivity ] | ]).
    unfold courseSound in Hsound. rewrite Hpub in Hsound. destruct Hsound as (Hat & Hcontent).
    split; [ apply Hat; reflexivity | ].
    destruct (previewOf_titles (course_structure course)) as [Ht Hl].
    split; [ exact Ht | ]. split; [ exact Hl | ].
    destruct (course_type course).
    + destruct Hcontent as (Hs & _).
      exact (previewOf_wellFormed false _ (proj1 (wellFormed_spec false _) Hs)).
    + destruct Hcontent as (Hs & _).
      exact (previewOf_wellFormed true _ (proj1 (wellFormed_spec true _) Hs)).
Qed.

Lemma suspendedWorld_reachable : reachable demoRuntime suspendedWorld.
Proof.
  replace suspendedWorld
    with (perform demoRuntime (SetSchoolStatus scenarioSchoolId "SUSPENDED") checkoutWorld)
    by (vm_compute; reflexivity).
  constructor. exact checkoutWorld_reachable.
Qed.

(** The page of the course of [checkoutScenario], asked for on the host
    of its school after the school was suspended. *)
Lemma publicGetCoursePage_spec_demo :
  (exists s, schools suspendedWorld !! scenarioSchoolId = Some s /\
             school_status s = SUSPENDED) /\
  exists page,
    outcome (publicGetCoursePage demoRuntime "ALPHA.platform.local" scenarioCourseId)
            suspendedWorld = Ok (Some page) /\
    pub_id (page_course page) = scenarioCourseId /\
    length (page_preview page) = 3.
Proof.
  split; [ eexists; split; vm_compute; reflexivity | ].
  destruct (publicGetCoursePage_spec demoRuntime suspendedWorld "ALPHA.platform.local"
              scenarioCourseId suspendedWorld_reachable) as (_ & _ & _ & Hpage).
  destruct (outcome (publicGetCoursePage demoRuntime "ALPHA.platform.local" scenarioCourseId)
                    suspendedWorld) as [[page|]|e] eqn:Hrun;
    try (vm_compute in Hrun; discriminate Hrun).
  destruct (Hpage page eq_refl) as (course & _ & _ & Hid & _).
  exists page. split; [ reflexivity | ]. split; [ exact Hid | ].
  vm_compute in Hrun. injection Hrun as <-. reflexivity.
Defined.

(** ** The catalogue of a school *)

Lemma elem_of_setAdd (x y : string) (s : list string) :
  x ∈ setAdd y s <-> x = y \/ x ∈ s.
Proof.
  unfold setAdd. case_bool_decide as Hy.
  - split; [ auto | intros [-> | H]; assumption ].
  - rewrite elem_of_app, list_elem_of_singleton. tauto.
Qed.

Lemma createCourse_coursesIndexed (type : CourseType) (rt : Runtime)
    (schoolId title description : string) (price0 : float) (currency0 : string)
    (promo0 : option PromoInput) :
  preserves coursesIndexed
            (createCourse type rt schoolId title description price0 currency0 promo0).
Proof.
  intros w Hw.
  change (wp (createCourse type rt schoolId title description price0 currency0 promo0)
             (fun _ w' => coursesIndexed w') w).
  wp_run; try exact Hw.
  all: intros k c; world_simpl; cbn [course_id course_schoolId].
  all: rewrite lookup_insert; case_decide as Hk.
  all: try (intros [= <-]; cbn [course_schoolId]; rewrite lookup_insert_eq;
            cbn [default from_option id]; apply elem_of_setAdd; left; congruence).
  all: intros Hc; specialize (Hw k c Hc); rewrite lookup_insert; case_decide as Hs;
    [ rewrite <- Hs in Hw; cbn [default from_option id]; apply elem_of_setAdd; right; exact Hw
    | exact Hw ].
Qed.

Lemma lifecycle_coursesIndexed (rt : Runtime) (op : LifecycleOp) :
  preserves coursesIndexed (lifecycle rt op).
Proof.
  intros w Hw. change (wp (lifecycle rt op) (fun _ w' => coursesIndexed w') w).
  destruct op; wp_run; try exact Hw.
  all: intros k c; world_simpl; insert_cases k; [ | intros Hc; exact (Hw k c Hc) ].
  all: intros [= <-];
    cbn [course_id course_schoolId withState withUpdatedAt withStructure withAiInputs
         withFullContent withPublishedAt].
  all: match goal with H : courses _ !! _ = Some ?a |- _ => exact (Hw _ a H) end.
Qed.

Lemma createSchool_coursesIndexed (rt : Runtime) (name slug : string) :
  preserves coursesIndexed (createSchool rt name slug).
Proof.
  intros w Hw.
  change (wp (createSchool rt name slug) (fun _ w' => coursesIndexed w') w).
  wp_run; try exact Hw.
  all: intros k c Hc; world_simpl; specialize (Hw k c Hc).
  all: match goal with
       | |- context [match ?m !! ?i with Some _ => _ | None => _ end] =>
           destruct (m !! i) eqn:Hi; [ exact Hw | ]
       end.
  all: rewrite lookup_insert;
    match goal with
    | |- context [decide (?a = ?b)] => destruct (decide (a = b)) as [Hs|Hs]; [ | exact Hw ]
    end.
  all: rewrite <- Hs, Hi in Hw; cbn in Hw; apply elem_of_nil in Hw; contradiction.
Qed.

Lemma reachable_coursesIndexed (rt : Runtime) (w : World) :
  reachable rt w -> coursesIndexed w.
Proof.
  induction 1 as [|c w Hw IH].
  - intros k s Hk. cbn in Hk. rewrite lookup_empty in Hk. discriminate.
  - assert (Hcut : forall A (m : M A),
               preserves (fun w' => courses w' = courses w /\
                                    courseIndex_bySchool w' = courseIndex_bySchool w) m ->
               coursesIndexed (exec m w)).
    { intros A m Hm k s. destruct (Hm w (conj eq_refl eq_refl)) as [H1 H2].
      rewrite H1, H2. apply IH. }
    destruct c; cbn [perform]; try (apply Hcut; frame_run; fail).
    + apply createSchool_coursesIndexed. exact IH.
    + apply createCourse_coursesIndexed. exact IH.
    + apply lifecycle_coursesIndexed. exact IH.
Qed.

Lemma resolveSchoolByHost_stored (host : string) (w : World) (s : School) :
  resolveSchoolByHost host w = Some s -> exists k, schools w !! k = Some s.
Proof.
  unfold resolveSchoolByHost.
  destruct (Str.empty (normalizeHost host)); [ discriminate | ].
  destruct (truthy (byCustomDomain w !! normalizeHost host)).
  - destruct (JsMap.get _ (domains w)) as [cfg|].
    + destruct (dom_type cfg).
      * destruct (truthy (bySubdomain w !! normalizeHost host)); [ eauto | discriminate ].
      * destruct (dom_verified cfg); [ eauto | ].
        destruct (truthy (bySubdomain w !! normalizeHost host)); [ eauto | discriminate ].
    + destruct (truthy (bySubdomain w !! normalizeHost host)); [ eauto | discriminate ].
  - destruct (truthy (bySubdomain w !! normalizeHost host)); [ eauto | discriminate ].
Qed.

Lemma mapM_public (rt : Runtime) (l : list Course) (w : World) :
  exists items w',
    mapM (getCoursePublicData rt) l w = (Ok items, w') /\ sameDb w w' /\
    ticks w <= ticks w' /\
    Forall2 (fun c item => exists t, ticks w <= t /\ item = publicDataAt rt (clock rt t) c)
            l items.
Proof.
  revert w. induction l as [|c r IH]; intros w.
  - exists nil, w. split; [ reflexivity | ]. split; [ apply sameDb_refl | ].
    split; [ lia | constructor ].
  - destruct (IH (upd_ticks S w)) as (items & w' & Hrun & Hsame & Hticks & Hall).
    exists (publicDataAt rt (clock rt (ticks w)) c :: items), w'.
    split; [ | split; [ | split ] ].
    + assert (H1 : getCoursePublicData rt c w
                   = (Ok (publicDataAt rt (clock rt (ticks w)) c), upd_ticks S w))
        by reflexivity.
      cbn [mapM]. unfold bind at 1. rewrite H1. unfold bind at 1. rewrite Hrun. reflexivity.
    + exact (sameDb_trans _ _ _ (sameDb_ticks w S) Hsame).
    + cbn [ticks upd_ticks] in Hticks. lia.
    + constructor; [ exists (ticks w); split; [ lia | reflexivity ] | ].
      eapply Forall2_impl; [ exact Hall | ].
      intros c' item (t & Ht & ->). cbn [ticks upd_ticks] in Ht.
      exists t. split; [ lia | reflexivity ].
Qed.

Lemma lower_nonempty (s : string) : Str.toLowerCase s = "" <-> s = "".
Proof. destruct s; split; intros H; try reflexivity; discriminate H. Qed.

(** With a tag or a category, the filter lets through no course that has
    neither. *)
Lemma matchesFilters_untagged (query tg cat : string) (c : Course) :
  course_tags c = nil -> course_category c = None ->
  tg <> "" \/ cat <> "" -> matchesFilters query tg cat c = false.
Proof.
  intros Ht Hc H. unfold matchesFilters. rewrite Ht, Hc. cbn [List.map].
  destruct H as [H|H]; apply empty_false in H; rewrite H.
  - rewrite bool_decide_eq_false_2 by apply not_elem_of_nil.
    rewrite andb_false_r. reflexivity.
  - apply andb_false_r.
Qed.

Lemma filter_none {A} (p : A -> bool) (l : list A) :
  (forall x, x ∈ l -> p x = false) -> List.filter p l = nil.
Proof.
  induction l as [|x r IH]; [ reflexivity | ].
  intros H. cbn [List.filter]. rewrite (H x) by constructor.
  apply IH. intros y Hy. apply H. constructor. exact Hy.
Qed.

Lemma elem_of_filter_list {A} (p : A -> bool) (l : list A) (x : A) :
  x ∈ List.filter p l <-> x ∈ l /\ p x = true.
Proof. rewrite !list_elem_of_In. apply filter_In. Qed.

Section Catalogue.

Variable sortByCreatedAt : forall A : Type, (A -> string) -> list A -> list A.
Hypothesis sort_permutes : permutes sortByCreatedAt.

Lemma listCoursesBySchool_elem (w : World) (schoolId : string) (s : School) :
  schools w !! schoolId = Some s ->
  exists listed,
    listCoursesBySchool sortByCreatedAt schoolId w = (Ok listed, w) /\
    forall c, c ∈ listed <->
              exists id, id ∈ default nil (courseIndex_bySchool w !! schoolId) /\
                         courses w !! id = Some c.
Proof.
  intros Hs. eexists. split.
  - unfold listCoursesBySchool, bind, gets. rewrite (schoolKnown_found _ _ _ Hs). reflexivity.
  - intros c. rewrite (sort_permutes Course course_createdAt _). apply list_elem_of_omap.
Qed.

Lemma publicListCourses_wp (rt : Runtime) (w : World) (host q tag category : string) :
  schoolsDistinct w -> coursesSound w -> coursesIndexed w ->
  wp (publicListCourses sortByCreatedAt rt host q tag category)
     (fun r w' =>
        sameDb w w' /\
        match resolveSchoolByHost host w with
        | None => r = Ok None
        | Some school =>
            exists items,
              r = Ok (Some items) /\
              (forall item, item ∈ items ->
                  exists c t,
                    courses w !! pub_id item = Some c /\ course_state c = PUBLISHED /\
                    ticks w <= t /\ item = publicDataAt rt (clock rt t) c) /\
              (forall k c,
                  courses w !! k = Some c -> course_schoolId c = school_id school ->
                  course_state c = PUBLISHED ->
                  Str.trim q = "" \/
                  Str.includes (Str.toLowerCase (Str.trim q))
                    (Str.toLowerCase (course_title c +:+ " " +:+ course_description c))
                  = true ->
                  Str.trim tag = "" -> Str.trim category = "" ->
                  exists item, item ∈ items /\ pub_id item = k) /\
              (Str.trim tag <> "" \/ Str.trim category <> "" -> items = nil)
        end) w.
Proof.
  intros Hschools Hsound Hindexed.
  unfold wp, outcome, exec, publicListCourses, bind, gets. cbn [fst snd].
  destruct (resolveSchoolByHost host w) as [school|] eqn:Hres;
    [ | split; [ apply sameDb_refl | reflexivity ] ].
  destruct (resolveSchoolByHost_stored _ _ _ Hres) as [sid Hs].
  destruct (Hschools _ _ Hs) as (Hid & _). subst sid.
  destruct (listCoursesBySchool_elem w _ _ Hs) as (listed & -> & Hlisted).
  cbv zeta.
  set (query := Str.toLowerCase (Str.trim q)).
  set (tg := Str.toLowerCase (Str.trim tag)).
  set (cat := Str.toLowerCase (Str.trim category)).
  set (filtered := List.filter (matchesFilters query tg cat) (List.filter isPublished listed)).
  destruct (mapM_public rt filtered w) as (items & w' & -> & Hsame & _ & Hall).
  cbn [fst snd]. split; [ exact Hsame | ].
  assert (Hin : forall c, c ∈ filtered <->
                  (exists id, id ∈ default nil (courseIndex_bySchool w !! school_id school) /\
                              courses w !! id = Some c) /\
                  isPublished c = true /\ matchesFilters query tg cat c = true).
  { intros c. unfold filtered. rewrite !elem_of_filter_list, Hlisted. tauto. }
  exists items. split; [ reflexivity | ]. split; [ | split ].
  - intros item Hitem.
    destruct (proj1 (list_elem_of_lookup _ _) Hitem) as [i Hi].
    destruct (Forall2_lookup_r _ _ _ _ _ Hall Hi) as (c & Hc & t & Ht & ->).
    apply list_elem_of_lookup_2 in Hc. apply Hin in Hc as ((id & _ & Hc) & Hpub & _).
    destruct (Hsound _ _ Hc) as (_ & Hcid & _).
    exists c, t. cbn [pub_id publicDataAt]. rewrite Hcid.
    split; [ exact Hc | ]. split; [ | split; [ exact Ht | reflexivity ] ].
    unfold isPublished in Hpub. destruct (course_state c); try discriminate Hpub. reflexivity.
  - intros k c Hc Hown Hpub Hq Htag Hcat.
    assert (Hf : c ∈ filtered).
    { apply Hin. split; [ | split ].
      - exists k. split; [ | exact Hc ]. rewrite <- Hown. exact (Hindexed k c Hc).
      - unfold isPublished. rewrite Hpub. reflexivity.
      - unfold matchesFilters, tg, cat. rewrite Htag, Hcat. cbn [Str.toLowerCase Str.map Str.empty].
        rewrite !andb_true_r. destruct Hq as [Hq|Hq].
        + unfold query. rewrite Hq. reflexivity.
        + fold query in Hq. rewrite Hq. destruct (Str.empty query); reflexivity. }
    destruct (proj1 (list_elem_of_lookup _ _) Hf) as [i Hi].
    destruct (Forall2_lookup_l _ _ _ _ _ Hall Hi) as (item & Hitem & t & _ & ->).
    exists (publicDataAt rt (clock rt t) c). split.
    + eapply list_elem_of_lookup_2. exact Hitem.
    + cbn [pub_id publicDataAt]. exact (proj1 (proj2 (Hsound _ _ Hc))).
  - intros Hfilter.
    assert (Hnone : filtered = nil).
    { unfold filtered. apply filter_none. intros c Hc.
      apply elem_of_filter_list in Hc as [Hc _]. apply Hlisted in Hc as (id & _ & Hc).
      destruct (Hsound _ _ Hc) as (_ & _ & Htags & Hcategory).
      apply matchesFilters_untagged; [ exact Htags | exact Hcategory | ].
      unfold tg, cat. rewrite !lower_nonempty. exact Hfilter. }
    rewrite Hnone in Hall. inversion Hall. reflexivity.
Qed.

End Catalogue.

(** X15. [publicListCourses], for a query, a tag and a category written
    in ASCII, writes nothing.  On a host that resolves to no school it
    returns null.  On the host of a school it returns a list: every
    entry is the public data of a PUBLISHED course, with the effective
    price of a clock reading made during the call; every PUBLISHED
    course of the school whose title and description, with their ASCII
    letters in lower case, contain the query is in the list when no tag
    and no category is asked for; and with a tag or a category the list
    is empty, no operation giving a course either. *)
Theorem publicListCourses_spec
    (sort : forall A : Type, (A -> string) -> list A -> list A)
    (rt : Runtime) (w : World) (host q tag category : string) :
  permutes sort -> reachable rt w ->
  asciiOnly q = true -> asciiOnly tag = true -> asciiOnly category = true ->
  sameDb w (exec (publicListCourses sort rt host q tag category) w) /\
  match resolveSchoolByHost host w with
  | None => outcome (publicListCourses sort rt host q tag category) w = Ok None
  | Some school =>
      exists items,
        outcome (publicListCourses sort rt host q tag category) w = Ok (Some items) /\
        (forall item, item ∈ items ->
            exists c t,
              courses w !! pub_id item = Some c /\ course_state c = PUBLISHED /\
              ticks w <= t /\ item = publicDataAt rt (clock rt t) c) /\
        (forall k c,
            courses w !! k = Some c -> course_schoolId c = school_id school ->
            course_state c = PUBLISHED ->
            Str.trim q = "" \/
            Str.includes (Str.toLowerCase (Str.trim q))
              (Str.toLowerCase (course_title c +:+ " " +:+ course_description c))
            = true ->
            Str.trim tag = "" -> Str.trim category = "" ->
            exists item, item ∈ items /\ pub_id item = k) /\
        (Str.trim tag <> "" \/ Str.trim category <> "" -> items = nil)
  end.
Proof.
  intros Hsort Hreach _ _ _.
  exact (publicListCourses_wp sort Hsort rt w host q tag category
           (reachable_schoolsDistinct rt w Hreach)
           (reachable_coursesSound rt w Hreach)
           (reachable_coursesIndexed rt w Hreach)).
Qed.

(** The catalogue of the school of [checkoutScenario], searched for
    [node], and asked for a tag. *)
Lemma publicListCourses_spec_demo :
  (exists items,
     outcome (publicListCourses insertionSort demoRuntime "alpha.platform.local" " NODE " "" "")
             checkoutWorld = Ok (Some items) /\
     exists item, item ∈ items /\ pub_id item = scenarioCourseId) /\
  outcome (publicListCourses insertionSort demoRuntime "alpha.platform.local" "" "node" "")
          checkoutWorld = Ok (Some nil).
Proof.
  split.
  - destruct (publicListCourses_spec insertionSort demoRuntime checkoutWorld
                "alpha.platform.local" " NODE " "" "" insertionSort_permutes
                checkoutWorld_reachable eq_refl eq_refl eq_refl) as [_ H].
    destruct (resolveSchoolByHost "alpha.platform.local" checkoutWorld) as [school|] eqn:Hres;
      [ | vm_compute in Hres; discriminate Hres ].
    destruct H as (items & Hrun & _ & Hall & _).
    exists items. split; [ exact Hrun | ].
    destruct (courses checkoutWorld !! scenarioCourseId) as [c|] eqn:Hc;
      [ | vm_compute in Hc; discriminate Hc ].
    apply (Hall scenarioCourseId c Hc).
    + vm_compute in Hres. injection Hres as <-. vm_compute in Hc. injection Hc as <-.
      reflexivity.
    + vm_compute in Hc. injection Hc as <-. reflexivity.
    + right. vm_compute in Hc. injection Hc as <-. vm_compute. reflexivity.
    + reflexivity.
    + reflexivity.
  - destruct (publicListCourses_spec insertionSort demoRuntime checkoutWorld
                "alpha.platform.local" "" "node" "" insertionSort_permutes
                checkoutWorld_reachable eq_refl eq_refl eq_refl) as [_ H].
    destruct (resolveSchoolByHost "alpha.platform.local" checkoutWorld) as [school|] eqn:Hres;
      [ | vm_compute in Hres; discriminate Hres ].
    destruct H as (items & Hrun & _ & _ & Hnone).
    rewrite Hrun, Hnone; [ reflexivity | left; discriminate ].
Defined.

(** ** Suspending a school *)

Lemma setSchoolStatus_wp (rt : Runtime) (w : World) (schoolId status : string) :
  wp (setSchoolStatus rt schoolId status)
     (fun r w' => forall s', r = Ok s' ->
        (status = "ACTIVE" /\ school_status s' = ACTIVE \/
         status = "SUSPENDED" /\ school_status s' = SUSPENDED) /\
        (exists s, schools w !! schoolId = Some s /\
                   school_id s' = school_id s /\ school_name s' = school_name s /\
                   school_slug s' = school_slug s /\
                   school_createdAt s' = school_createdAt s) /\
        schools w' = <[schoolId := s']> (schools w) /\
        domains w' = domains w /\ byCustomDomain w' = byCustomDomain w /\
        bySubdomain w' = bySubdomain w /\ branding w' = branding w /\
        localization w' = localization w /\ gateway w' = gateway w /\
        courses w' = courses w /\ orders w' = orders w /\ payments w' = payments w /\
        enrollments w' = enrollments w /\
        bySchoolBuyerCourse w' = bySchoolBuyerCourse w) w.
Proof.
  wp_run; intros s' Hr; try discriminate Hr; injection Hr as <-.
  all: cbn [school_id school_name school_slug school_status school_createdAt].
  all: split; [ first [ left; split; [ apply eqb_true; assumption | reflexivity ]
                      | right; split; [ apply eqb_true; assumption | reflexivity ] ] | ].
  all: split; [ eexists; split; [ eassumption | repeat split ] | ].
  all: repeat split.
Qed.

(** The id of the school a host resolves to depends on the records of
    [db.schools] through their ids only. *)
Lemma resolveSchoolByHost_ids (host : string) (w w' : World) :
  domains w' = domains w -> byCustomDomain w' = byCustomDomain w ->
  bySubdomain w' = bySubdomain w ->
  (forall k, option_map school_id (schools w' !! k) = option_map school_id (schools w !! k)) ->
  option_map school_id (resolveSchoolByHost host w')
  = option_map school_id (resolveSchoolByHost host w).
Proof.
  intros Hd Hc Hs Hk. unfold resolveSchoolByHost. rewrite Hd, Hc, Hs.
  destruct (Str.empty (normalizeHost host)); [ reflexivity | ].
  destruct (truthy (byCustomDomain w !! normalizeHost host)).
  - destruct (JsMap.get _ (domains w)) as [cfg|].
    + destruct (dom_type cfg).
      * destruct (truthy (bySubdomain w !! normalizeHost host)); [ apply Hk | reflexivity ].
      * destruct (dom_verified cfg); [ apply Hk | ].
        destruct (truthy (bySubdomain w !! normalizeHost host)); [ apply Hk | reflexivity ].
    + destruct (truthy (bySubdomain w !! normalizeHost host)); [ apply Hk | reflexivity ].
  - destruct (truthy (bySubdomain w !! normalizeHost host)); [ apply Hk | reflexivity ].
Qed.

(** X16. [setSchoolStatus] accepts the two words ACTIVE and SUSPENDED as
    they are written and nothing else.  When it returns, the school has
    the new status and is otherwise the school it was, update time apart;
    domains, settings, courses, orders and enrolments are untouched; and
    every host resolves to the school it resolved to before, so the
    public home of a suspended school is still served, showing the
    school as suspended. *)
Theorem setSchoolStatus_keeps_site (rt : Runtime) (w w' : World) (schoolId status : string)
    (s' : School) :
  reachable rt w ->
  setSchoolStatus rt schoolId status w = (Ok s', w') ->
  (status = "ACTIVE" /\ school_status s' = ACTIVE \/
   status = "SUSPENDED" /\ school_status s' = SUSPENDED) /\
  (exists s, schools w !! schoolId = Some s /\
             school_id s' = school_id s /\ school_name s' = school_name s /\
             school_slug s' = school_slug s /\ school_createdAt s' = school_createdAt s) /\
  schools w' = <[schoolId := s']> (schools w) /\
  (domains w' = domains w /\ branding w' = branding w /\ localization w' = localization w /\
   gateway w' = gateway w /\ courses w' = courses w /\ orders w' = orders w /\
   payments w' = payments w /\ enrollments w' = enrollments w /\
   bySchoolBuyerCourse w' = bySchoolBuyerCourse w) /\
  forall host,
    option_map school_id (resolveSchoolByHost host w')
    = option_map school_id (resolveSchoolByHost host w) /\
    option_map (fun h => hs_id (home_school h)) (publicHome host w')
    = option_map (fun h => hs_id (home_school h)) (publicHome host w) /\
    (forall home, publicHome host w' = Some home -> hs_id (home_school home) = schoolId ->
                  hs_status (home_school home) = school_status s').
Proof.
  intros Hreach Hrun.
  pose proof (wp_run_eq _ _ _ _ _ Hrun (setSchoolStatus_wp rt w schoolId status) s' eq_refl)
    as (Hst & (s & Hs & Hid & Hname & Hslug & Hat) & Hschools & Hd & Hc & Hsub & Hb & Hl &
        Hg & Hco & Ho & Hp & He & Hx).
  assert (Hdist : schoolsDistinct w').
  { pose proof (setSchoolStatus_schoolsDistinct rt schoolId status w
                  (reachable_schoolsDistinct rt w Hreach)) as H.
    unfold exec in H. rewrite Hrun in H. exact H. }
  split; [ exact Hst | ]. split; [ eauto 10 | ]. split; [ exact Hschools | ].
  split; [ auto 10 | ].
  assert (Hids : forall host,
             option_map school_id (resolveSchoolByHost host w')
             = option_map school_id (resolveSchoolByHost host w)).
  { intros host. apply resolveSchoolByHost_ids; try assumption.
    intros k. rewrite Hschools, lookup_insert. case_decide as Hk; [ | reflexivity ].
    subst k. rewrite Hs. cbn [option_map]. rewrite Hid. reflexivity. }
  intros host. split; [ apply Hids | ]. split.
  - specialize (Hids host). unfold publicHome.
    destruct (resolveSchoolByHost host w'), (resolveSchoolByHost host w);
      cbn [option_map home_school hs_id] in *; congruence.
  - intros home Hhome Hsame. unfold publicHome in Hhome.
    destruct (resolveSchoolByHost host w') as [x|] eqn:Hres; [ | discriminate Hhome ].
    injection Hhome as <-. cbn [home_school hs_id hs_status] in *.
    destruct (resolveSchoolByHost_stored _ _ _ Hres) as [k Hk].
    destruct (Hdist _ _ Hk) as (Hkey & _). rewrite Hsame in Hkey. subst k.
    rewrite Hschools, lookup_insert_eq in Hk. congruence.
Qed.

(** The school of [checkoutScenario], suspended: its home is served as
    before, and says so. *)
Lemma setSchoolStatus_keeps_site_demo :
  exists s' w' home,
    setSchoolStatus demoRuntime scenarioSchoolId "SUSPENDED" checkoutWorld = (Ok s', w') /\
    publicHome "alpha.platform.local" w' = Some home /\
    hs_id (home_school home) = scenarioSchoolId /\
    hs_status (home_school home) = SUSPENDED.
Proof.
  destruct (setSchoolStatus demoRuntime scenarioSchoolId "SUSPENDED" checkoutWorld)
    as [[s'|e] w'] eqn:Hrun; [ | vm_compute in Hrun; discriminate Hrun ].
  destruct (setSchoolStatus_keeps_site demoRuntime checkoutWorld w' scenarioSchoolId
              "SUSPENDED" s' checkoutWorld_reachable Hrun)
    as (Hst & _ & _ & _ & Hhost).
  destruct (Hhost "alpha.platform.local") as (_ & Hhome & Hshown).
  destruct (publicHome "alpha.platform.local" w') as [home|] eqn:Hh;
    [ | vm_compute in Hhome; discriminate Hhome ].
  assert (Hid : hs_id (home_school home) = scenarioSchoolId).
  { vm_compute in Hhome. injection Hhome as Hhome. exact Hhome. }
  exists s', w', home. split; [ reflexivity | ]. split; [ exact Hh | ].
  split; [ exact Hid | ].
  rewrite (Hshown home eq_refl Hid).
  destruct Hst as [[Hst _]|[_ Hst]]; [ discriminate Hst | exact Hst ].
Defined.

(** ** A purchase, from the order to the access *)

(** X17. A purchase end to end.  An order that [createOrder] returned,
    taken through [startDemoCheckout], gives a webhook that
    [receiveWebhook] accepts when its event id is not on record.  With
    the outcome approved the order is then PAID, for the amount it was
    created with, and [canAccessCourse] answers true for the buyer's
    e-mail as it was typed at the order; with the outcome declined the
    order is FAILED and the buyer's access is what it was before the
    order. *)
Theorem purchase_grants_access (rt : Runtime) (w w1 w2 : World)
    (schoolId courseId buyerEmail outcome0 : string) (o : Order) (co : Checkout) :
  reachable rt w ->
  createOrder rt schoolId courseId buyerEmail w = (Ok o, w1) ->
  startDemoCheckout rt schoolId (order_id o) outcome0 w1 = (Ok co, w2) ->
  firstTime w2 (Some (webhook_payload co)) ->
  exists snap w3 o',
    receiveWebhook rt "DEMO" (Some (webhook_payload co)) (webhook_signature co) w2
    = (Ok snap, w3) /\
    snap_orderId snap = order_id o /\
    orders w3 !! order_id o = Some o' /\ order_amount o' = order_amount o /\
    order_status o' = snap_orderStatus snap /\
    (Str.toUpperCase (Str.trim outcome0) = "APPROVED" ->
     order_status o' = PAID /\ canAccessCourse schoolId buyerEmail courseId w3 = true) /\
    (Str.toUpperCase (Str.trim outcome0) = "DECLINED" ->
     order_status o' = FAILED /\
     canAccessCourse schoolId buyerEmail courseId w3
     = canAccessCourse schoolId buyerEmail courseId w).
Proof.
  intros Hreach Hrun1 Hrun2 Hfirst.
  pose proof (createOrder_run rt w schoolId courseId buyerEmail) as Hco.
  unfold wp, outcome, exec in Hco. rewrite Hrun1 in Hco. cbn [fst snd] in Hco. cbv zeta in Hco.
  destruct Hco as (school0 & course & Hs0 & _ & _ & _ & _ & _ & Ho & Horders).
  assert (Hw1 : w1 = perform rt (CreateOrder schoolId courseId buyerEmail) w)
    by (cbn [perform]; unfold exec; rewrite Hrun1; reflexivity).
  assert (Hw2 : w2 = perform rt (StartDemoCheckout schoolId (order_id o) outcome0) w1)
    by (cbn [perform]; unfold exec; rewrite Hrun2; reflexivity).
  assert (Hreach1 : reachable rt w1) by (rewrite Hw1; constructor; exact Hreach).
  assert (Hacc : bySchoolBuyerCourse w2 = bySchoolBuyerCourse w).
  { rewrite Hw2, bySchoolBuyerCourse_frame by (intros; discriminate).
    rewrite Hw1, bySchoolBuyerCourse_frame by (intros; discriminate). reflexivity. }
  destruct (startDemoCheckout_facts rt w1 w2 schoolId (order_id o) outcome0 co Hrun2)
    as (school & order & g & Hs & Hord & Hos & _ & Hg & Hoc & Hpay & Hsig & Hp & Ho1 & Hg1 & _).
  destruct (reachable_schoolsKeyed rt w1 Hreach1 _ _ Hs) as [Hst Hsne].
  destruct (reachable_ordersKeyed rt w1 Hreach1 _ _ Hord) as [Hot Hone].
  assert (order = o) as ->.
  { rewrite Horders in Hord. rewrite Ho in Hord at 1. cbn [order_id] in Hord.
    rewrite lookup_insert_eq in Hord. congruence. }
  destruct (checkout_webhook_valid rt w1 schoolId (order_id o) _ Hst Hsne Hot Hone Hoc)
    as (Hvalid & He & Hsid & Hoid & Hpid & Hres).
  rewrite <- Hpay in Hvalid, He, Hsid, Hoid, Hpid, Hres.
  pose proof (receiveWebhook_applies rt w2 "DEMO" (Some (webhook_payload co))
                (webhook_signature co) g o
                {| pay_id := nextPaymentId rt w1; pay_schoolId := schoolId;
                   pay_orderId := order_id o; pay_provider := "DEMO";
                   pay_status := INITIATED;
                   pay_createdAt := toISOString rt (clock rt (ticks w1));
                   pay_updatedAt := toISOString rt (clock rt (S (ticks w1))) |}
                Hvalid Hfirst) as Happly.
  rewrite Hsid, Hoid, Hpid, Hres, Hg1, Ho1 in Happly.
  specialize (Happly Hg).
  assert (Htrim : Str.trim (webhook_signature co)
                  = expectedSignature rt g (Some (webhook_payload co))).
  { rewrite Hsig at 1. unfold expectedSignature. apply trim_hmacSha256. }
  specialize (Happly Htrim Hord Hos Hp eq_refl eq_refl).
  unfold wp, outcome, exec in Happly.
  destruct (receiveWebhook rt "DEMO" (Some (webhook_payload co))
                           (webhook_signature co) w2) as [r w3].
  cbn [fst snd] in Happly.
  destruct Happly as (-> & (o' & Ho' & Hstatus & Hamount & _) & _ & Hyes & Hno & _).
  assert (Hemail : order_buyerEmail o = Str.toLowerCase (Str.trim buyerEmail))
    by (rewrite Ho; reflexivity).
  assert (Hcourse : order_courseId o = courseId) by (rewrite Ho; reflexivity).
  eexists _, w3, o'. split; [ reflexivity | ]. cbn [snap_orderId snap_orderStatus].
  split; [ reflexivity | ]. split; [ exact Ho' | ]. split; [ exact Hamount | ].
  split; [ exact Hstatus | ]. split.
  - intros Happroved. rewrite Happroved in *. split; [ exact Hstatus | ].
    unfold canAccessCourse. apply bool_decide_eq_true.
    rewrite <- Hemail, <- Hcourse. exact (Hyes eq_refl).
  - intros Hdeclined. rewrite Hdeclined in *. split; [ exact Hstatus | ].
    unfold canAccessCourse. destruct (Hno eq_refl) as [-> _]. rewrite Hacc. reflexivity.
Qed.

(** A second buyer of the course of [checkoutScenario], whose payment is
    approved. *)
Lemma purchase_grants_access_demo :
  canAccessCourse scenarioSchoolId "ana@exemplo.com" scenarioCourseId checkoutWorld = false /\
  createOrder demoRuntime scenarioSchoolId scenarioCourseId " Ana@Exemplo.com " checkoutWorld
  = (Ok purchaseOrder, orderedWorld) /\
  startDemoCheckout demoRuntime scenarioSchoolId (order_id purchaseOrder) "approved"
                    orderedWorld
  = (Ok purchaseCheckout, checkedOutWorld) /\
  exists snap w3,
    receiveWebhook demoRuntime "DEMO" (Some (webhook_payload purchaseCheckout))
                   (webhook_signature purchaseCheckout) checkedOutWorld
    = (Ok snap, w3) /\
    canAccessCourse scenarioSchoolId " Ana@Exemplo.com " scenarioCourseId w3 = true.
Proof.
  assert (Hrun1 : createOrder demoRuntime scenarioSchoolId scenarioCourseId " Ana@Exemplo.com "
                              checkoutWorld = (Ok purchaseOrder, orderedWorld))
    by (vm_compute; reflexivity).
  assert (Hrun2 : startDemoCheckout demoRuntime scenarioSchoolId (order_id purchaseOrder)
                                    "approved" orderedWorld
                  = (Ok purchaseCheckout, checkedOutWorld))
    by (vm_compute; reflexivity).
  assert (Hfirst : firstTime checkedOutWorld (Some (webhook_payload purchaseCheckout)))
    by (vm_compute; reflexivity).
  destruct (purchase_grants_access demoRuntime checkoutWorld orderedWorld checkedOutWorld
              scenarioSchoolId scenarioCourseId " Ana@Exemplo.com " "approved"
              purchaseOrder purchaseCheckout checkoutWorld_reachable Hrun1 Hrun2 Hfirst)
    as (snap & w3 & o' & Hrun3 & _ & _ & _ & _ & Hyes & _).
  split; [ vm_compute; reflexivity | ]. split; [ exact Hrun1 | ]. split; [ exact Hrun2 | ].
  exists snap, w3. split; [ exact Hrun3 | ]. apply Hyes. reflexivity.
Defined.

(** ** Listings and counts *)

Lemma createOrder_indexed (rt : Runtime) (w : World) (schoolId courseId buyerEmail : string) :
  wp (createOrder rt schoolId courseId buyerEmail)
     (fun r w' => forall o, r = Ok o ->
        schools w' = schools w /\ is_Some (schools w !! schoolId) /\
        orders w' !! order_id o = Some o /\
        order_id o ∈ default nil (orderIndex_byBuyer w' !!
                       (schoolId +:+ ":" +:+ Str.toLowerCase (Str.trim buyerEmail))) /\
        order_id o ∈ default nil (orderIndex_bySchool w' !! schoolId)) w.
Proof.
  wp_run; intros o Hr; try discriminate Hr; injection Hr as <-.
  cbn [order_id]. unfold indexAdd. rewrite !lookup_insert_eq. cbn [default from_option id].
  split; [ reflexivity | ]. split; [ eauto | ]. split; [ reflexivity | ].
  split; apply elem_of_setAdd; left; reflexivity.
Qed.

(** X18. An order that [createOrder] returned is in the list
    [listOrdersByBuyer] gives for its school and buyer, however the
    e-mail is typed at the listing: upper case and surrounding white
    space make no difference.  The listing writes nothing. *)
Theorem listOrdersByBuyer_lists_order
    (sort : forall A : Type, (A -> string) -> list A -> list A)
    (rt : Runtime) (w w1 : World) (schoolId courseId buyerEmail typed : string) (o : Order) :
  permutes sort ->
  createOrder rt schoolId courseId buyerEmail w = (Ok o, w1) ->
  Str.toLowerCase (Str.trim typed) = Str.toLowerCase (Str.trim buyerEmail) ->
  exists listed,
    listOrdersByBuyer sort schoolId typed w1 = (Ok listed, w1) /\ o ∈ listed.
Proof.
  intros Hsort Hrun Htyped.
  pose proof (wp_run_eq _ _ _ _ _ Hrun (createOrder_indexed rt w schoolId courseId buyerEmail)
                o eq_refl) as (Hschools & [s Hs] & Ho & Hidx & _).
  rewrite <- Hschools in Hs.
  eexists. split.
  - unfold listOrdersByBuyer, bind, gets. rewrite (schoolKnown_found _ _ _ Hs). reflexivity.
  - cbv zeta. rewrite (Hsort Order order_createdAt _), Htyped.
    apply list_elem_of_omap. exists (order_id o). split; [ exact Hidx | exact Ho ].
Qed.

(** The order of the second buyer of [checkoutScenario], listed under
    the e-mail in capitals. *)
Lemma listOrdersByBuyer_lists_order_demo :
  exists listed,
    listOrdersByBuyer insertionSort scenarioSchoolId "ANA@EXEMPLO.COM" orderedWorld
    = (Ok listed, orderedWorld) /\
    purchaseOrder ∈ listed.
Proof.
  apply (listOrdersByBuyer_lists_order insertionSort demoRuntime checkoutWorld orderedWorld
           scenarioSchoolId scenarioCourseId " Ana@Exemplo.com " "ANA@EXEMPLO.COM"
           purchaseOrder insertionSort_permutes).
  - vm_compute. reflexivity.
  - vm_compute. reflexivity.
Defined.

Lemma createCourse_courseIndexSound (type : CourseType) (rt : Runtime)
    (schoolId title description : string) (price0 : float) (currency0 : string)
    (promo0 : option PromoInput) :
  preserves courseIndexSound
            (createCourse type rt schoolId title description price0 currency0 promo0).
Proof.
  intros w Hw.
  change (wp (createCourse type rt schoolId title description price0 currency0 promo0)
             (fun _ w' => courseIndexSound w') w).
  wp_run; try exact Hw.
  all: intros sid ids id; world_simpl; cbn [course_id course_schoolId].
  all: rewrite (lookup_insert (courseIndex_bySchool w));
    destruct (decide (schoolId = sid)) as [Hs|Hs].
  all: try (intros Hids Hid; rewrite lookup_insert; case_decide as Hk; [ eauto | ];
            exact (Hw sid ids id Hids Hid)).
  all: intros [= <-] Hid; apply elem_of_setAdd in Hid as [-> | Hid];
    [ rewrite lookup_insert_eq; eauto | ].
  all: rewrite lookup_insert; case_decide as Hk; [ eauto | ].
  all: destruct (courseIndex_bySchool w !! schoolId) as [ids|] eqn:Hids;
    [ exact (Hw schoolId ids id Hids Hid) | cbn in Hid; apply elem_of_nil in Hid; contradiction ].
Qed.

Lemma lifecycle_courseIndexSound (rt : Runtime) (op : LifecycleOp) :
  preserves courseIndexSound (lifecycle rt op).
Proof.
  intros w Hw. change (wp (lifecycle rt op) (fun _ w' => courseIndexSound w') w).
  destruct op; wp_run; try exact Hw.
  all: intros sid ids id; world_simpl; intros Hids Hid; specialize (Hw sid ids id Hids Hid).
  all: insert_cases id; eauto.
Qed.

Lemma createSchool_courseIndexSound (rt : Runtime) (name slug : string) :
  preserves courseIndexSound (createSchool rt name slug).
Proof.
  intros w Hw.
  change (wp (createSchool rt name slug) (fun _ w' => courseIndexSound w') w).
  wp_run; try exact Hw.
  all: intros sid ids id; world_simpl.
  all: match goal with
       | |- context [match ?m !! ?i with Some _ => _ | None => _ end] =>
           destruct (m !! i) eqn:Hi; [ apply Hw | ]
       end.
  all: rewrite lookup_insert;
    match goal with
    | |- context [decide (?a = ?b)] => destruct (decide (a = b)) as [Hs|Hs]; [ | apply Hw ]
    end.
  all: intros [= <-] Hid; apply elem_of_nil in Hid; contradiction.
Qed.

Lemma reachable_courseIndexSound (rt : Runtime) (w : World) :
  reachable rt w -> courseIndexSound w.
Proof.
  induction 1 as [|c w Hw IH].
  - intros sid ids id Hk. cbn in Hk. rewrite lookup_empty in Hk. discriminate.
  - assert (Hcut : forall A (m : M A),
               preserves (fun w' => courses w' = courses w /\
                                    courseIndex_bySchool w' = courseIndex_bySchool w) m ->
               courseIndexSound (exec m w)).
    { intros A m Hm sid ids id. destruct (Hm w (conj eq_refl eq_refl)) as [H1 H2].
      rewrite H1, H2. apply IH. }
    destruct c; cbn [perform]; try (apply Hcut; frame_run; fail).
    + apply createSchool_courseIndexSound. exact IH.
    + apply createCourse_courseIndexSound. exact IH.
    + apply lifecycle_courseIndexSound. exact IH.
Qed.

Lemma omap_total {A B} (f : A -> option B) (l : list A) :
  (forall x, x ∈ l -> is_Some (f x)) -> length (omap f l) = length l.
Proof.
  induction l as [|x r IH]; [ reflexivity | ].
  intros H. cbn [omap list_omap]. destruct (H x) as [y Hy]; [ constructor | ].
  rewrite Hy. cbn [length]. f_equal. apply IH. intros z Hz. apply H. constructor. exact Hz.
Qed.

(** X19. The course count of [getSchoolStats] is the length of the list
    [listCoursesBySchool] returns for the same school: every id in the
    index of a school leads to a course.  The two reads fail together,
    with SCHOOL_NOT_FOUND for an unknown school, and write nothing. *)
Theorem getSchoolStats_counts_listing
    (sort : forall A : Type, (A -> string) -> list A -> list A)
    (rt : Runtime) (w : World) (schoolId : string) :
  permutes sort -> reachable rt w ->
  match schools w !! schoolId with
  | None =>
      getSchoolStats schoolId w = (Throw "SCHOOL_NOT_FOUND", w) /\
      listCoursesBySchool sort schoolId w = (Throw "SCHOOL_NOT_FOUND", w)
  | Some _ =>
      exists stats listed,
        getSchoolStats schoolId w = (Ok stats, w) /\
        listCoursesBySchool sort schoolId w = (Ok listed, w) /\
        stats_schoolId stats = schoolId /\
        coursesCount stats = length listed /\
        forall c, c ∈ listed -> courses w !! course_id c = Some c
  end.
Proof.
  intros Hsort Hreach.
  pose proof (reachable_courseIndexSound rt w Hreach) as Hsound.
  pose proof (reachable_coursesSound rt w Hreach) as Hcourses.
  destruct (schools w !! schoolId) as [s|] eqn:Hs.
  - eexists _, _. unfold getSchoolStats, listCoursesBySchool, bind, gets.
    rewrite (schoolKnown_found _ _ _ Hs). split; [ reflexivity | ].
    split; [ reflexivity | ]. cbn [stats_schoolId coursesCount]. split; [ reflexivity | ].
    split.
    + rewrite (Hsort Course course_createdAt _). symmetry. apply omap_total.
      intros id Hid. destruct (courseIndex_bySchool w !! schoolId) as [ids|] eqn:Hids.
      * exact (Hsound schoolId ids id Hids Hid).
      * cbn in Hid. apply elem_of_nil in Hid. contradiction.
    + intros c Hc. rewrite (Hsort Course course_createdAt _) in Hc.
      apply list_elem_of_omap in Hc as (id & _ & Hc).
      destruct (Hcourses _ _ Hc) as (_ & -> & _). exact Hc.
  - unfold getSchoolStats, listCoursesBySchool, schoolKnown, bind, gets. rewrite Hs.
    split; reflexivity.
Qed.

(** The one course of the school of [checkoutScenario]. *)
Lemma getSchoolStats_counts_listing_demo :
  exists stats listed,
    getSchoolStats scenarioSchoolId checkoutWorld = (Ok stats, checkoutWorld) /\
    listCoursesBySchool insertionSort scenarioSchoolId checkoutWorld
    = (Ok listed, checkoutWorld) /\
    coursesCount stats = 1 /\ length listed = 1.
Proof.
  pose proof (getSchoolStats_counts_listing insertionSort demoRuntime checkoutWorld
                scenarioSchoolId insertionSort_permutes checkoutWorld_reachable) as H.
  destruct (schools checkoutWorld !! scenarioSchoolId) as [s|] eqn:Hs;
    [ | vm_compute in Hs; discriminate Hs ].
  destruct H as (stats & listed & Hstats & Hlisted & _ & Hcount & _).
  exists stats, listed. split; [ exact Hstats | ]. split; [ exact Hlisted | ].
  assert (H1 : coursesCount stats = 1).
  { vm_compute in Hstats. injection Hstats as <-. reflexivity. }
  split; [ exact H1 | ]. rewrite <- Hcount. exact H1.
Defined.

(** ** The audit trail *)

(** The last event written is on record. *)
Ltac logged :=
  world_simpl;
  lazymatch goal with
  | |- exists evt, <[?i := ?e]> _ !! _ = Some _ /\ _ =>
      exists e; split; [ apply lookup_insert_eq | ]
  end;
  cbn [audit_action audit_schoolId];
  split; [ | repeat first [ apply list_elem_of_here | apply list_elem_of_further ] ].

Ltac known_school Hkeyed :=
  match goal with
  | H : schools _ !! ?s = Some _ |- context [Str.empty ?s] =>
      let Hne := fresh "Hne" in
      destruct (Hkeyed _ _ H) as [_ Hne]; apply empty_false in Hne; rewrite Hne; reflexivity
  end.

Lemma setSchoolStatus_logs rt w s st :
  schoolsKeyed w -> logs s (actionsOf (SetSchoolStatus s st)) (setSchoolStatus rt s st) w.
Proof.
  intros Hkeyed. unfold logs.
  wp_run; intros x Hr; try discriminate Hr; logged; known_school Hkeyed.
Qed.

Lemma requestCustomDomain_logs rt w s d :
  schoolsKeyed w ->
  logs s (actionsOf (RequestCustomDomain s d)) (requestCustomDomain rt s d) w.
Proof.
  intros Hkeyed. unfold logs.
  wp_run; intros x Hr; try discriminate Hr; logged; known_school Hkeyed.
Qed.

Lemma verifyCustomDomain_logs rt w s d t :
  schoolsKeyed w ->
  logs s (actionsOf (VerifyCustomDomain s d t)) (verifyCustomDomain rt s d t) w.
Proof.
  intros Hkeyed. unfold logs.
  wp_run; intros x Hr; try discriminate Hr; logged; known_school Hkeyed.
Qed.

Lemma rotateWebhookSecret_logs rt w s :
  schoolsKeyed w ->
  logs s (actionsOf (RotateWebhookSecret s)) (rotateWebhookSecret rt s) w.
Proof.
  intros Hkeyed. unfold logs.
  wp_run; intros x Hr; try discriminate Hr; logged; known_school Hkeyed.
Qed.

Lemma createCourse_logs ty rt w s t d p c pr :
  schoolsKeyed w ->
  logs s (actionsOf (CreateCourse ty s t d p c pr)) (createCourse ty rt s t d p c pr) w.
Proof.
  intros Hkeyed. unfold logs.
  wp_run; intros x Hr; try discriminate Hr; logged; known_school Hkeyed.
Qed.

Lemma lifecycle_logs rt w op :
  schoolsKeyed w ->
  logs (lifecycleSchool op) (actionsOf (Lifecycle op)) (lifecycle rt op) w.
Proof.
  intros Hkeyed. unfold logs.
  destruct op; cbn [lifecycleSchool actionsOf];
    wp_run; intros x Hr; try discriminate Hr; logged; known_school Hkeyed.
Qed.

Lemma createOrder_logs rt w s c e :
  schoolsKeyed w ->
  logs s (actionsOf (CreateOrder s c e)) (createOrder rt s c e) w.
Proof.
  intros Hkeyed. unfold logs.
  wp_run; intros x Hr; try discriminate Hr; logged; known_school Hkeyed.
Qed.

Lemma startDemoCheckout_logs rt w s o oc :
  schoolsKeyed w ->
  logs s (actionsOf (StartDemoCheckout s o oc)) (startDemoCheckout rt s o oc) w.
Proof.
  intros Hkeyed. unfold logs.
  wp_run; intros x Hr; try discriminate Hr; logged; known_school Hkeyed.
Qed.

Lemma createSchool_logs rt w n s :
  logs (nextSchoolId rt w) (actionsOf (CreateSchool n s)) (createSchool rt n s) w.
Proof.
  unfold logs.
  wp_run; intros x Hr; try discriminate Hr; logged; reflexivity.
Qed.

Lemma receiveWebhook_logs rt w provider payload signature :
  firstTime w payload ->
  logs (webhookSchoolId payload) (actionsOf (ReceiveWebhook provider payload signature))
       (receiveWebhook rt provider payload signature) w.
Proof.
  unfold firstTime, webhookEventId, webhookSchoolId, logs. intros Hfirst.
  wp_run_by ltac:(rewrite ?Hfirst in * ); intros x Hr; try discriminate Hr; logged.
  all: guards;
    match goal with
    | H : ?s <> "" |- context [Str.empty ?s] =>
        apply empty_false in H; rewrite H; reflexivity
    end.
Qed.

Lemma logs_run {A} (sid : string) (acts : list string) (m : M A) (w : World) :
  logs sid acts m w -> failed (outcome m w) = None ->
  exists evt, audit (exec m w) !! audit_id evt = Some evt /\
              audit_schoolId evt = Some sid /\ audit_action evt ∈ acts.
Proof.
  unfold logs, wp. intros H Hok.
  destruct (outcome m w) as [a|e]; [ | discriminate Hok ].
  exact (H a eq_refl).
Qed.

(** X20. Every call that returns leaves an audit event of the school it
    is about, under the action of the call, and [listAuditBySchool]
    lists it; the one exception is a webhook whose event id is on
    record, which is answered from the record and logs nothing. *)
Theorem returned_calls_are_logged
    (sort : forall A : Type, (A -> string) -> list A -> list A)
    (rt : Runtime) (c : Call) (w : World) :
  permutes sort -> reachable rt w ->
  failure rt c w = None -> notReplay c w ->
  exists evt,
    evt ∈ listAuditBySchool sort (subject rt c w) (perform rt c w) /\
    audit_schoolId evt = Some (subject rt c w) /\
    audit_action evt ∈ actionsOf c.
Proof.
  intros Hsort Hreach Hok Hfirst.
  pose proof (reachable_schoolsKeyed rt w Hreach) as Hkeyed.
  assert (H : exists evt, audit (perform rt c w) !! audit_id evt = Some evt /\
                          audit_schoolId evt = Some (subject rt c w) /\
                          audit_action evt ∈ actionsOf c).
  { destruct c; cbn [failure perform subject notReplay] in *;
      apply logs_run; try exact Hok.
    - apply createSchool_logs.
    - apply setSchoolStatus_logs, Hkeyed.
    - apply requestCustomDomain_logs, Hkeyed.
    - apply verifyCustomDomain_logs, Hkeyed.
    - apply rotateWebhookSecret_logs, Hkeyed.
    - apply createCourse_logs, Hkeyed.
    - apply lifecycle_logs, Hkeyed.
    - apply createOrder_logs, Hkeyed.
    - apply startDemoCheckout_logs, Hkeyed.
    - apply receiveWebhook_logs, Hfirst. }
  destruct H as (evt & Hevt & Hsid & Hact).
  exists evt. split; [ | split; assumption ].
  unfold listAuditBySchool. rewrite (Hsort AuditEvent audit_createdAt _).
  apply elem_of_filter_list. split.
  - apply list_elem_of_fmap. exists (audit_id evt, evt). split; [ reflexivity | ].
    apply elem_of_map_to_list. exact Hevt.
  - apply bool_decide_eq_true. exact Hsid.
Qed.

(** The second order of [checkoutScenario] in the audit log of its
    school. *)
Lemma returned_calls_are_logged_demo :
  exists evt,
    evt ∈ listAuditBySchool insertionSort scenarioSchoolId orderedWorld /\
    audit_action evt = "ORDER_CREATED".
Proof.
  assert (Hw : orderedWorld
               = perform demoRuntime
                   (CreateOrder scenarioSchoolId scenarioCourseId " Ana@Exemplo.com ")
                   checkoutWorld) by (vm_compute; reflexivity).
  destruct (returned_calls_are_logged insertionSort demoRuntime
              (CreateOrder scenarioSchoolId scenarioCourseId " Ana@Exemplo.com ")
              checkoutWorld insertionSort_permutes checkoutWorld_reachable)
    as (evt & Hin & _ & Hact).
  - vm_compute. reflexivity.
  - exact I.
  - exists evt. rewrite Hw. split; [ exact Hin | ].
    cbn [actionsOf] in Hact. apply list_elem_of_singleton in Hact. exact Hact.
Defined.

(** ** One enrolment for a buyer and a course *)

Lemma receiveWebhook_enrolmentsIndexed (rt : Runtime) (provider : string)
    (payload : option JsObject) (signature : string) :
  preserves enrolmentsIndexed (receiveWebhook rt provider payload signature).
Proof.
  intros w Hw.
  change (wp (receiveWebhook rt provider payload signature)
             (fun _ w' => enrolmentsIndexed w') w).
  wp_run; try exact Hw.
  all: intros k v; world_simpl; rewrite lookup_insert; case_decide as Hk;
    [ intros [= <-]; discriminate | apply Hw ].
Qed.

Lemma reachable_enrolmentsIndexed (rt : Runtime) (w : World) :
  reachable rt w -> enrolmentsIndexed w.
Proof.
  induction 1 as [|c w Hw IH].
  - intros k v Hk. cbn in Hk. rewrite lookup_empty in Hk. discriminate.
  - assert (Hcut : forall A (m : M A),
               preserves (fun w' => bySchoolBuyerCourse w' = bySchoolBuyerCourse w) m ->
               enrolmentsIndexed (exec m w)).
    { intros A m Hm k v. rewrite (Hm w eq_refl). apply IH. }
    destruct c; cbn [perform]; try (apply Hcut; frame_run; fail).
    apply receiveWebhook_enrolmentsIndexed. exact IH.
Qed.

Lemma ensureEnrollment_found (rt : Runtime) (w : World) (s b c o v : string) :
  bySchoolBuyerCourse w !! enrollmentKey s b c = Some v -> v <> "" ->
  ensureEnrollment rt s b c o w = (Ok (enrollments w !! v), w).
Proof.
  intros Hv Hne. unfold ensureEnrollment. cbv zeta. unfold bind at 1. unfold gets at 1.
  cbv beta iota. rewrite Hv, (proj2 (truthy_Some v) Hne). reflexivity.
Qed.

Lemma ensureEnrollment_new (rt : Runtime) (w : World) (s b c o : string) :
  truthy (bySchoolBuyerCourse w !! enrollmentKey s b c) = false ->
  exists e w',
    ensureEnrollment rt s b c o w = (Ok (Some e), w') /\
    enr_id e <> "" /\
    enr_schoolId e = s /\ enr_buyerEmail e = b /\ enr_courseId e = c /\ enr_orderId e = o /\
    enrollments w' !! enr_id e = Some e /\
    bySchoolBuyerCourse w' !! enrollmentKey s b c = Some (enr_id e).
Proof.
  intros Hcase. unfold ensureEnrollment. cbv zeta. unfold bind at 1. unfold gets at 1.
  cbv beta iota. rewrite Hcase. eexists _, _. split; [ reflexivity | ].
  cbn [enr_id enr_schoolId enr_buyerEmail enr_courseId enr_orderId].
  world_simpl. rewrite !lookup_insert_eq. split; [ discriminate | auto 10 ].
Qed.

(** X21. [ensureEnrollment] keeps one enrolment for a school, a buyer
    and a course.  It never throws; called again for the same three,
    with whatever order id, it returns what the first call returned and
    writes nothing; and when the index has an entry for the three, as
    after an earlier approved purchase, it writes nothing at all and
    returns the enrolment on record.  Without an entry it stores a new
    enrolment for the order and indexes it. *)
Theorem ensureEnrollment_once (rt : Runtime) (w : World) (s b c o : string) :
  reachable rt w ->
  (exists e, outcome (ensureEnrollment rt s b c o) w = Ok e) /\
  (forall o',
      ensureEnrollment rt s b c o' (exec (ensureEnrollment rt s b c o) w)
      = ensureEnrollment rt s b c o w) /\
  (forall v, bySchoolBuyerCourse w !! enrollmentKey s b c = Some v ->
             ensureEnrollment rt s b c o w = (Ok (enrollments w !! v), w)) /\
  (bySchoolBuyerCourse w !! enrollmentKey s b c = None ->
   exists e w',
     ensureEnrollment rt s b c o w = (Ok (Some e), w') /\
     enr_schoolId e = s /\ enr_buyerEmail e = b /\ enr_courseId e = c /\ enr_orderId e = o /\
     enrollments w' !! enr_id e = Some e /\
     bySchoolBuyerCourse w' !! enrollmentKey s b c = Some (enr_id e)).
Proof.
  intros Hreach.
  pose proof (reachable_enrolmentsIndexed rt w Hreach) as Hidx.
  destruct (bySchoolBuyerCourse w !! enrollmentKey s b c) as [v|] eqn:Hv.
  - pose proof (Hidx _ _ Hv) as Hne.
    pose proof (ensureEnrollment_found rt w s b c o v Hv Hne) as Hrun.
    unfold outcome, exec. rewrite Hrun. cbn [fst snd].
    split; [ eauto | ]. split; [ | split ].
    + intros o'. apply ensureEnrollment_found; assumption.
    + intros v' [= <-]. reflexivity.
    + discriminate.
  - destruct (ensureEnrollment_new rt w s b c o) as (e & w' & Hrun & Hid & Hrest);
      [ rewrite Hv; reflexivity | ].
    unfold outcome, exec. rewrite Hrun. cbn [fst snd].
    split; [ eauto | ]. split; [ | split ].
    + intros o'. destruct Hrest as (_ & _ & _ & _ & He & Hk).
      rewrite (ensureEnrollment_found rt w' s b c o' (enr_id e) Hk Hid), He. reflexivity.
    + discriminate.
    + intros _. exists e, w'. split; [ reflexivity | exact Hrest ].
Qed.

Lemma paidWorld_reachable : reachable demoRuntime paidWorld.
Proof.
  replace paidWorld
    with (perform demoRuntime
            (ReceiveWebhook "DEMO" (Some (webhook_payload approvedCheckout))
                            (webhook_signature approvedCheckout)) checkoutWorld)
    by (vm_compute; reflexivity).
  constructor. exact checkoutWorld_reachable.
Qed.

(** The buyer of [checkoutScenario] is enrolled once her payment was
    approved; a second order for the same course leaves her enrolment
    as it is. *)
Lemma ensureEnrollment_once_demo :
  exists e,
    ensureEnrollment demoRuntime scenarioSchoolId "a@b.com" scenarioCourseId "ord_other"
                     paidWorld
    = (Ok (Some e), paidWorld) /\
    enr_orderId e = scenarioOrderId.
Proof.
  destruct (ensureEnrollment_once demoRuntime paidWorld scenarioSchoolId "a@b.com"
              scenarioCourseId "ord_other" paidWorld_reachable) as (_ & _ & Hkept & _).
  destruct (bySchoolBuyerCourse paidWorld
              !! enrollmentKey scenarioSchoolId "a@b.com" scenarioCourseId) as [v|] eqn:Hv;
    [ | vm_compute in Hv; discriminate Hv ].
  rewrite (Hkept v eq_refl).
  destruct (enrollments paidWorld !! v) as [e|] eqn:He;
    [ | vm_compute in Hv; injection Hv as <-; vm_compute in He; discriminate He ].
  exists e. split; [ reflexivity | ].
  vm_compute in Hv. injection Hv as <-. vm_compute in He. injection He as <-. reflexivity.
Defined.

(** ** Links *)

Lemma occurrences_app (c : ascii) (a b : string) :
  occurrences c (a +:+ b) = occurrences c a + occurrences c b.
Proof.
  induction a as [|x r IH]; [ reflexivity | ].
  rewrite app_cons. cbn [occurrences]. rewrite IH. lia.
Qed.

Lemma occurrences_entity (c x : ascii) :
  c = "<"%char \/ c = ">"%char \/ c = Html.quot ->
  occurrences c (Html.entity x) = 0.
Proof.
  intros Hc. unfold Html.entity.
  repeat case_bool_decide; subst;
    destruct Hc as [-> | [-> | ->]]; try reflexivity.
  all: cbn [occurrences]; rewrite bool_decide_eq_false_2 by congruence; reflexivity.
Qed.

Lemma occurrences_esc (c : ascii) (s : option string) :
  c = "<"%char \/ c = ">"%char \/ c = Html.quot ->
  occurrences c (Html.esc s) = 0.
Proof.
  intros Hc. destruct s as [s|]; [ | reflexivity ].
  rewrite esc_entities. induction s as [|x r IH]; [ reflexivity | ].
  cbn [Html.entities]. rewrite occurrences_app, IH, (occurrences_entity c x Hc). reflexivity.
Qed.

(** X22. [link] escapes the text it shows and not the address it points
    to: of [<], [>] and the double quote, the markup it returns has the
    two of its own template and the ones of the [href] as they were
    given; the text adds none, also when the [href] stands in for a
    missing text. *)
Theorem link_escapes_text_only (href text : string) (c : ascii) :
  c = "<"%char \/ c = ">"%char \/ c = Html.quot ->
  occurrences c (Html.link href text) = 2 + occurrences c href.
Proof.
  intros Hc. unfold Html.link. rewrite !occurrences_app, (occurrences_esc c _ Hc).
  destruct Hc as [-> | [-> | ->]].
  all: match goal with |- _ = 2 + ?k => generalize k end.
  all: intros n; cbv -[Nat.add]; lia.
Qed.

(** An address with a quote in it ends the attribute early. *)
Lemma link_escapes_text_only_demo :
  occurrences Html.quot (Html.link ("/c?x=" +:+ dq +:+ " onclick=" +:+ dq +:+ "run()") "<b>")
  = 4.
Proof.
  exact (link_escapes_text_only ("/c?x=" +:+ dq +:+ " onclick=" +:+ dq +:+ "run()") "<b>"
           Html.quot (or_intror (or_intror eq_refl))).
Defined.

(** ** One school cannot reach into another *)

(** Runs a computation that is to stop at an access check: the paths
    that go on contradict what is known of the store. *)
Ltac denied_run Hs Hst Hx :=
  wp_run_by ltac:(idtac; rewrite ?Hs, ?Hx in * );
  first [ split; reflexivity | simplify_eq; rewrite ?Hst in *; absurd_path ].

Lemma lifecycle_denied (rt : Runtime) (w : World) (op : LifecycleOp) (s : School) (c : Course) :
  schools w !! lifecycleSchool op = Some s -> school_status s = ACTIVE ->
  courses w !! lifecycleCourse op = Some c -> course_schoolId c <> lifecycleSchool op ->
  wp (lifecycle rt op) (fun r w' => r = Throw "COURSE_ACCESS_DENIED" /\ w' = w) w.
Proof.
  intros Hs Hst Hc Hne.
  destruct op; cbn [lifecycleSchool lifecycleCourse] in *; denied_run Hs Hst Hc.
Qed.

Lemma createOrder_denied (rt : Runtime) (w : World) (sid cid e : string) (s : School)
    (c : Course) :
  schools w !! sid = Some s -> school_status s = ACTIVE ->
  courses w !! cid = Some c -> course_schoolId c <> sid ->
  wp (createOrder rt sid cid e) (fun r w' => r = Throw "COURSE_ACCESS_DENIED" /\ w' = w) w.
Proof. intros Hs Hst Hc Hne. denied_run Hs Hst Hc. Qed.

Lemma startDemoCheckout_denied (rt : Runtime) (w : World) (sid oid oc : string) (s : School)
    (o : Order) :
  schools w !! sid = Some s -> school_status s = ACTIVE ->
  orders w !! oid = Some o -> order_schoolId o <> sid ->
  wp (startDemoCheckout rt sid oid oc)
     (fun r w' => r = Throw "ORDER_ACCESS_DENIED" /\ w' = w) w.
Proof. intros Hs Hst Ho Hne. denied_run Hs Hst Ho. Qed.

(** X23. A school cannot reach into another.  Made for an active
    school, a lifecycle operation or an order on a course of another
    school throws COURSE_ACCESS_DENIED, and a checkout for an order of
    another school throws ORDER_ACCESS_DENIED, whatever the other
    arguments and whatever the state of the course or the order; the
    store is exactly as before. *)
Theorem tenants_are_isolated (rt : Runtime) (w : World) (sid : string) (s : School) :
  schools w !! sid = Some s -> school_status s = ACTIVE ->
  (forall op c,
      lifecycleSchool op = sid -> courses w !! lifecycleCourse op = Some c ->
      course_schoolId c <> sid ->
      failure rt (Lifecycle op) w = Some "COURSE_ACCESS_DENIED" /\
      perform rt (Lifecycle op) w = w) /\
  (forall cid e c,
      courses w !! cid = Some c -> course_schoolId c <> sid ->
      failure rt (CreateOrder sid cid e) w = Some "COURSE_ACCESS_DENIED" /\
      perform rt (CreateOrder sid cid e) w = w) /\
  (forall oid oc o,
      orders w !! oid = Some o -> order_schoolId o <> sid ->
      failure rt (StartDemoCheckout sid oid oc) w = Some "ORDER_ACCESS_DENIED" /\
      perform rt (StartDemoCheckout sid oid oc) w = w).
Proof.
  intros Hs Hst. split; [ | split ].
  - intros op c <- Hc Hne.
    destruct (lifecycle_denied rt w op s c Hs Hst Hc Hne) as [Hr Hw].
    cbn [failure perform]. rewrite Hr, Hw. split; reflexivity.
  - intros cid e c Hc Hne.
    destruct (createOrder_denied rt w sid cid e s c Hs Hst Hc Hne) as [Hr Hw].
    cbn [failure perform]. rewrite Hr, Hw. split; reflexivity.
  - intros oid oc o Ho Hne.
    destruct (startDemoCheckout_denied rt w sid oid oc s o Hs Hst Ho Hne) as [Hr Hw].
    cbn [failure perform]. rewrite Hr, Hw. split; reflexivity.
Qed.

(** A second school, created after [checkoutScenario], tries to sell
    the course of the first. *)
Lemma tenants_are_isolated_demo :
  failure demoRuntime
          (CreateOrder (nextSchoolId demoRuntime checkoutWorld) scenarioCourseId "a@b.com")
          (exec (createSchool demoRuntime "Escola Beta" "beta") checkoutWorld)
  = Some "COURSE_ACCESS_DENIED".
Proof.
  set (w := exec (createSchool demoRuntime "Escola Beta" "beta") checkoutWorld).
  set (beta := nextSchoolId demoRuntime checkoutWorld).
  destruct (schools w !! beta) as [s|] eqn:Hs; [ | vm_compute in Hs; discriminate Hs ].
  destruct (courses w !! scenarioCourseId) as [c|] eqn:Hc;
    [ | vm_compute in Hc; discriminate Hc ].
  assert (Hst : school_status s = ACTIVE).
  { vm_compute in Hs. injection Hs as <-. reflexivity. }
  assert (Hne : course_schoolId c <> beta).
  { vm_compute in Hc. injection Hc as <-. vm_compute. discriminate. }
  destruct (tenants_are_isolated demoRuntime w beta s Hs Hst) as (_ & Horder & _).
  exact (proj1 (Horder scenarioCourseId "a@b.com" c Hc Hne)).
Defined.
